(* ===== verification/_CoqProject ===== *)
-Q . S2P
Prelude.v
PageStructures.v
PageHeap.v
RemotePageTable.v
PageIter.v
PageCopy.v
PageDrop.v
Bytes.v
Descriptors.v
ParentWire.v
ChildWire.v
Future.v
Rdma.v
Task.v
RefTask.v
Machine.v
ShadowProcess.v
ShadowSpec.v
RefPages.v
ShadowCopy.v
ShadowCow.v
RemoteFork.v
Datagram.v
ShadowService.v
Rpc.v
RpcSpec.v
RpcCall.v
RemotePaging.v
RpcHandlers.v
CallerPool.v
RcPool.v
AddressSpace.v
PageFault.v
PageCache.v
SysCalls.v
Resume.v
Startup.v
StartupSpec.v
StartInstance.v
KernelModule.v
Prepares.v
Locks.v
Worker.v
EagerFetch.v
Prefetch.v
PrefetchInv.v
PrefetchRead.v
FlatTable.v
LocalDevice.v
FlatDump.v
Areas.v
Client.v
LeanContainer.v
ContainerOs.v
LeanFork.v
LeanCgroup.v
StartContainer.v
Bench.v
