(* ===== verification/Prelude.v ===== *)
(** * MITOSIS: a verification of the remote fork kernel module

    MITOSIS forks a process onto other machines.  A parent is _prepared_: the
    kernel module records its registers, its VMAs and the physical addresses of
    its pages in a descriptor, and publishes the descriptor's bytes under a key.
    A child on another machine _resumes_: it asks the parent's machine by RPC
    where the bytes are, reads them with one-sided RDMA, drops its own address
    space, maps the parent's areas over the module's file, and from then on
    fetches pages by RDMA as it faults on them.  The sources are two Rust crates,
    [src/mitosis/src] (called M below) and [src/os-network/src] (N), C helpers in
    [src/mitosis/src/native], and the user libraries in [src/mitosis-user-libs]
    (U): clients of the module, and a library of lean containers, which starts
    children in their own namespaces and control groups.

    ** How the code is modelled

    Rust functions are Rocq functions of the same name, prefixed by their type
    where the name alone is not unique.  A function that can fail returns an
    [outcome]: a value, a panic, undefined behaviour, or fuel that ran out.
    Code that acts on the machine is [io W A], a function from a machine state [W]
    to an outcome of a result and a new state; [W] is abstract.  What the module
    calls and does not define is a type class over [W], and what it relies on a
    second class of laws: the clock ([KTimerApi], [KTimerOk]), the RDMA library
    KRdmaKit ([KRdmaKit], [NicOk], [RecvOk], [UdCm], [PortApi], [DcTargets],
    [RcKit], [SetupKit], [SetupOk], [SetupLaws]), the
    kernel's pages ([Kernel], [KernelOk], [PagesApi], [PagesOk], [FaultApi]) and
    tasks ([TaskApi], [TaskOk], [UserApi], [UserMemory]), its threads ([KThread],
    [KThreadOk], [BenchThread]), its mutex ([KMutex], [KMutexOk]) and character
    devices ([ChrDev], [ChrDevOk]), the x86_64 crate ([X86Crate]), the order in which a hash map
    iterates ([HashIter]), the kernel's vmalloc allocator ([Vmalloc]), the
    compiler's choice of struct layouts ([Pod], [DescriptorLayout], [RpcLayout],
    [ReplyLayout]) and the build's features ([Features], [StartFeatures]).  [ref_machine] in Machine.v is one concrete
    machine on which all the laws hold; the examples after the theorems run on it.
    What only some theorems ask of the card is a hypothesis of these: that it
    answers within a number of polls ([LiveCard]), what it has been given to send
    ([SentLog]), that messages or completions have come ([mail],
    [completion_arrived]), and that a datagram arrives unchanged ([delivered]).
    Memory shared through raw pointers is explicit: page tables live in a heap of
    512-entry blocks (PageHeap.v), buffers in a byte memory [mem] (Bytes.v).
    The container library is written against system calls and forks: its functions
    are interaction trees over these calls (LeanContainer.v), and ContainerOs.v
    runs the trees of all processes under any schedule, every call being free to
    fail.

    ** Files and theorems

    - Prelude.v: outcomes, machine code, machine integers, tactics, lists.
    - PageStructures.v, PageHeap.v, RemotePageTable.v, PageIter.v, PageCopy.v,
      PageDrop.v (M/remote_mapping): addresses with flag bits, and the four-level
      table.  A table behaves as a finite map under any sequence of operations;
      the iterator visits every page once in order; copies are independent; the
      drop frees exactly what the table owns.
    - Bytes.v (N/bytes.rs, serialize.rs), Descriptors.v, ParentWire.v, ChildWire.v
      (M/descriptors): serialization.  Descriptors survive the way through bytes;
      the child's table holds exactly the pages the parent recorded; short buffers
      are refused.
    - FlatTable.v (M/descriptors/page_table.rs, pair.rs), FlatDump.v, Areas.v
      (M/kern_wrappers/vma_iters.rs, task.rs, mm.rs, vma.rs): the flat page table,
      its wire format for every iteration order, and the dump of an address space,
      which holds exactly the mapped pages; areas by index.
    - LocalDevice.v (N/remote_memory/local.rs): the device over local memory.
    - Future.v (N/future.rs, timeout.rs): futures and timeouts; a timed wait ends.
    - Rdma.v, Datagram.v (N/rdma, remote_memory, datagram): connections, devices and
      datagrams, and the laws of the card: requests of a queue pair complete in
      order, polling retires up to the first signaled one.
    - Task.v, RefTask.v, AddressSpace.v (M/kern_wrappers, descriptors/child.rs):
      the current task; [apply_to] rebuilds the parent's address space and never
      reads a freed [vm_area_struct].
    - Machine.v, RefPages.v: the reference machine.
    - ShadowProcess.v, ShadowSpec.v, ShadowCopy.v, ShadowCow.v, RemoteFork.v
      (M/shadow_process, native/kernel_helper.c): snapshots by copying and by
      copy-on-write, their effect on pages, references and page-table entries, and
      that a child that reads the descriptor finds the parent's pages if no VMA is
      larger than 4 GiB; pages further into a VMA are lost.
    - ShadowService.v (M/shadow_process_service.rs, mem_pools.rs, dc_pool.rs): the
      registry of prepared processes; what is published stays published, in
      histories in which the buffer pool does not have to be refilled.
    - Rpc.v, RpcSpec.v, RpcCall.v (N/rpc): headers, callbacks, caller and hook; a
      remote call posts one datagram each way, runs the registered callback on the
      argument and returns its answer; callers and hooks never wait for completions
      that are not due.
    - RpcHandlers.v, CallerPool.v (M/rpc_handlers.rs, rpc_service.rs,
      rpc_caller_pool.rs, startup.rs): the query that locates a descriptor, session
      numbers and the handshake that opens sessions.
    - RemotePaging.v, PageFault.v, PageCache.v (M/remote_paging.rs,
      core_syscall_handler.rs, kern_wrappers/page.rs, remote_pt_cache.rs): reading a
      remote page under a timeout, serving faults, and the cache of page tables.
      The guarantees are for idle connections: a read that timed out leaves its
      request behind, and the next one on the connection is shown to succeed too
      early.
    - SysCalls.v, Resume.v (M/core_syscall_handler.rs): the system calls.  Every
      registered process has exactly one owner; a failed resume changes nothing; a
      successful one leaves the child with the parent's areas, registers and pages.
    - RcPool.v (M/rc_conn_pool.rs, and feature use_rc of remote_paging.rs,
      rpc_handlers.rs and core_syscall_handler.rs; N/rdma/rc.rs): the transport over
      reliable connections, and reads through the connections it sets up.
    - Startup.v, StartupSpec.v, StartInstance.v (M/startup.rs, rdma_context.rs,
      lib.rs, dc_pool.rs, rpc_service.rs, rpc_caller_pool.rs; the macro
      [declare_global]): the global variables, the configuration, and bringing the
      module up and down.  A started module satisfies the invariants the other
      files start from, in whatever order its threads come up; a thread's set-up is
      one step.
    - KernelModule.v (src/mitosis-kms/fork, M/syscalls.rs): loading and unloading
      the module; what a failed load leaves behind.
    - Prepares.v (M/shadow_process_service.rs): prepares that overlap, cut at their
      accesses to the global variables.  Under different keys they do not disturb
      each other; under one key both may succeed.
    - Locks.v (M/lock_bundler.rs, dc_pool.rs): the lock that bundles a value with
      the kernel's mutex.  Calls are atomic and end, for threads that interleave
      access by access, and a connection of the shared pool is with one process
      at a time.
    - Worker.v (M/rpc_service.rs): the loop of an RPC thread, which ends when the
      thread is to stop, and loses a buffer to every bad message until none is left.
    - Client.v (U/mitosis-c-client, mitosis-rust-client, mitosis-protocol;
      M/syscalls.rs): from the calls of a client to the handler's operations.
    - LeanContainer.v, ContainerOs.v, LeanFork.v, LeanCgroup.v
      (U/mitosis-lean-container/lib/core): the container library.  A step-indexed
      protocol logic over the processes' trees (ContainerOs.v) shows that a
      launched container is in all its control groups under every schedule and
      every failure, and that the launcher hangs when the container cannot be
      entered in one of them, and a total logic for a single process that templates
      are added and removed exactly.  Names are at most 200 characters long.
    - StartContainer.v (U/mitosis-lean-container/lib/cli/start_lean_container.c): the
      command-line tool; the command only runs in a process of the container, and
      a start that fails early signals every process.
    - Bench.v (src/mitosis-util/src): the worker threads of benchmarks, what the
      reports of their counters add up to, and the text of numbers.
    - EagerFetch.v (M/descriptors/child.rs, feature eager-resume), Prefetch.v,
      PrefetchInv.v, PrefetchRead.v (M/prefetcher): batched and asynchronous reads
      of pages, with the ownership of pages that are in flight; waiting for a
      prefetch and draining the prefetcher end on a card that answers.

    ** Bounds and fuel

    Integers keep their width: 64-bit arithmetic is checked, as the crates are
    built with [overflow-checks = true], and casts wrap.  Loops that are not
    structural take fuel: the polls of [block_on], the areas of a task, the
    levels of a page table.  The theorems say how much is enough (more polls than
    the ticks of the timeout, more than the areas of the task, and so on) and give
    a returned value, so running out is excluded.

    The step index of the container logic bounds the length of a run, and its
    theorems hold for runs of every length; the rounds of an RPC thread's loop are
    bounded by how often the kernel tells it to go on.

    ** Not modelled

    The refill of an empty buffer pool in histories of prepares ([MemPool_pop_one]
    has it); the walk of the address space that [open] makes and throws away;
    KRdmaKit, the kernel and the C library themselves, which the classes above
    stand for; [Display] and [Debug] code and logging; [RawGID] and the payload
    setters, which store a field; data races inside one access to a global
    variable that the code does not lock: system calls and faults run to their end
    one after another, prepares (Prepares.v) and closures under a lock (Locks.v)
    interleave at their accesses; [Service::new] and [pmem_get_pte] with
    [find_pte], which nothing calls, and code that is [unimplemented!()] or
    commented out of the build (M/syscalls/basic.rs); the parsing of macro
    arguments; the loops of the container library's benchmarks, and experiments,
    scripts and tests around the libraries, which only call what is modelled. *)

From Stdlib Require Export ZArith Lia.
From stdpp Require Export prelude gmap.
#[export] Set Warnings "-clear-no-such-hyp".

(** ** Outcomes of Rust code

    [Ret a] is a normal return, [Panic] a Rust panic (failed [assert!],
    [unwrap] of [None], out-of-bounds index, arithmetic overflow: the crates are
    built with [overflow-checks = true]) and [UB] an access the language leaves
    undefined (a dangling raw pointer, a read or write outside an allocation).
    [NoFuel] is the result of a loop of the model whose step bound ran out; it
    is no behaviour of the code, and a theorem that gives [Ret] excludes it. *)
Inductive outcome (A : Type) : Type :=
| Ret (a : A)
| Panic
| UB
| NoFuel.
Arguments Ret {A} a.
Arguments Panic {A}.
Arguments UB {A}.
Arguments NoFuel {A}.

#[export] Instance outcome_ret : MRet outcome := λ A a, Ret a.
#[export] Instance outcome_bind : MBind outcome := λ A B f m,
  match m with
  | Ret a => f a
  | Panic => Panic
  | UB => UB
  | NoFuel => NoFuel
  end.
#[export] Instance outcome_fmap : FMap outcome := λ A B f m,
  match m with
  | Ret a => Ret (f a)
  | Panic => Panic
  | UB => UB
  | NoFuel => NoFuel
  end.
#[export] Instance outcome_eq_dec {A} `{EqDecision A} : EqDecision (outcome A).
Proof. solve_decision. Defined.

(** Rust's [?] on an [Option] inside a function that returns an [Option]. *)
Declare Scope rust_scope.
Delimit Scope rust_scope with rust.
Notation "x ←? y ; z" :=
  (match y with Some x => z | None => Ret None end)
  (at level 20, y at level 100, z at level 200, only parsing) : rust_scope.
Open Scope rust_scope.

(** [Option::unwrap] and [Option::expect]. *)
Definition unwrap {A} (o : option A) : outcome A :=
  match o with Some a => Ret a | None => Panic end.

(** [assert!] *)
Definition rust_assert (b : bool) : outcome () := if b then Ret () else Panic.

(** [Result] *)
Inductive Result (T E : Type) : Type :=
| Ok (v : T)
| Err (e : E).
Arguments Ok {T E} v.
Arguments Err {T E} e.

#[export] Instance Result_eq_dec {T E} `{EqDecision T, EqDecision E} : EqDecision (Result T E).
Proof. solve_decision. Defined.

(** ** Code that acts on the machine

    [io W A] is code that runs in a state [W] of the machine around it: the
    clock, the network card, the memory it shares. *)
Definition io (W A : Type) : Type := W → outcome (A * W).

#[export] Instance io_ret {W} : MRet (io W) := λ A a w, Ret (a, w).
#[export] Instance io_bind {W} : MBind (io W) := λ A B f m w,
  match m w with
  | Ret (a, w') => f a w'
  | Panic => Panic
  | UB => UB
  | NoFuel => NoFuel
  end.

(** Code that does not touch the machine. *)
Definition lift {W A} (m : outcome A) : io W A := λ w,
  match m with
  | Ret a => Ret (a, w)
  | Panic => Panic
  | UB => UB
  | NoFuel => NoFuel
  end.
Definition panic {W A} : io W A := λ _, Panic.

(** Rust's [?] on a [Result]. *)
Definition try_bind {W A B E} (m : io W (Result A E)) (f : A → io W (Result B E)) : io W (Result B E) :=
  r ← m; match r with Ok a => f a | Err e => mret (Err e) end.

(** ** Machine integers *)
Definition u8_bound : Z := 2 ^ 8.
Definition u16_bound : Z := 2 ^ 16.
Definition u32_bound : Z := 2 ^ 32.
Definition u64_bound : Z := 2 ^ 64.

Definition is_u8 (z : Z) : Prop := (0 ≤ z < 2 ^ 8)%Z.
Definition is_u16 (z : Z) : Prop := (0 ≤ z < 2 ^ 16)%Z.
Definition is_u32 (z : Z) : Prop := (0 ≤ z < 2 ^ 32)%Z.
Definition is_u64 (z : Z) : Prop := (0 ≤ z < 2 ^ 64)%Z.

(** Overflow-checked 64-bit arithmetic: out of range panics. *)
Definition u64_checked (z : Z) : outcome Z :=
  if decide (0 ≤ z < 2 ^ 64)%Z then Ret z else Panic.
Definition u64_add (a b : Z) : outcome Z := u64_checked (a + b).
Definition u64_sub (a b : Z) : outcome Z := u64_checked (a - b).
Definition u64_mul (a b : Z) : outcome Z := u64_checked (a * b).

(** [as u32], [as u64] and [!x] on [u64]. *)
Definition as_u32 (z : Z) : Z := (z mod 2 ^ 32)%Z.
Definition as_u64 (z : Z) : Z := (z mod 2 ^ 64)%Z.
Definition u64_not (z : Z) : Z := Z.lxor z (Z.ones 64).

(** ** Automation *)
Create HintDb mitosis.

(** Invert [m ≫= f = Ret b], repeatedly, in the hypothesis [H]. *)
Lemma bind_Ret {A B} (m : outcome A) (f : A → outcome B) (b : B) :
  m ≫= f = Ret b ↔ ∃ a, m = Ret a ∧ f a = Ret b.
Proof.
  destruct m as [a| | |]; cbn; split; try done.
  - by eauto.
  - by intros (? & [= <-] & ?).
  - by intros (? & ? & ?).
  - by intros (? & ? & ?).
  - by intros (? & ? & ?).
Qed.

Lemma ret_bind {A B} (a : A) (f : A → outcome B) : (Ret a ≫= f) = f a.
Proof. done. Qed.

Lemma io_bind_Ret {W A B} (m : io W A) (f : A → io W B) w b w2 :
  (m ≫= f) w = Ret (b, w2) ↔ ∃ a w1, m w = Ret (a, w1) ∧ f a w1 = Ret (b, w2).
Proof.
  unfold mbind, io_bind. destruct (m w) as [[a w1]| | |]; split; try done; try (by intros (? & ? & ? & ?)).
  - by eauto.
  - by intros (? & ? & [= <- <-] & ?).
Qed.

Lemma io_bind_run {W A B} (m : io W A) (f : A → io W B) w a w1 :
  m w = Ret (a, w1) → (m ≫= f) w = f a w1.
Proof. intros E. unfold mbind, io_bind. by rewrite E. Qed.

Lemma io_lift_run {W A B} (m : outcome A) (f : A → io W B) w a :
  m = Ret a → (lift m ≫= f) w = f a w.
Proof. by intros ->. Qed.

Lemma unwrap_Ret {A} (o : option A) (a : A) : unwrap o = Ret a ↔ o = Some a.
Proof. destruct o; naive_solver. Qed.

Lemma u64_checked_Ret (z : Z) : is_u64 z → u64_checked z = Ret z.
Proof. unfold u64_checked, is_u64. intros. by rewrite decide_True. Qed.

Lemma u64_add_Ret (a b : Z) : is_u64 (a + b) → u64_add a b = Ret (a + b)%Z.
Proof. apply u64_checked_Ret. Qed.

Lemma u64_sub_Ret (a b : Z) : is_u64 (a - b) → u64_sub a b = Ret (a - b)%Z.
Proof. apply u64_checked_Ret. Qed.

Lemma as_u32_small (z : Z) : is_u32 z → as_u32 z = z.
Proof. apply Z.mod_small. Qed.

Lemma as_u64_small (z : Z) : is_u64 z → as_u64 z = z.
Proof. apply Z.mod_small. Qed.

Lemma as_u32_range (z : Z) : is_u32 (as_u32 z).
Proof. unfold is_u32, as_u32. apply Z.mod_pos_bound. lia. Qed.

#[export] Hint Resolve u64_checked_Ret u64_add_Ret u64_sub_Ret as_u32_range : mitosis.

(** [simpl_bind] computes binds whose first computation is known. *)
Ltac simpl_bind :=
  repeat match goal with
  | |- context [Ret ?a ≫= ?f] => change (Ret a ≫= f) with (f a); cbv beta iota
  | H : ?m = Ret _ |- context [?m ≫= _] => rewrite H
  | H : ?m = Ret _ |- context [match ?m with Ret _ => _ | Panic => _ | UB => _ | NoFuel => _ end] => rewrite H
  end.

(** [inv_bind H] opens every bind of [H : ... = Ret _]. *)
Ltac inv_bind H :=
  repeat match type of H with
  | _ ≫= _ = Ret _ =>
      let a := fresh "a" in let E := fresh "E" in
      apply bind_Ret in H as (a & E & H); cbv beta iota in H
  end.

(** [inv_io H] opens every bind of [H : (m ≫= f) w = Ret _]. *)
Ltac inv_io H :=
  repeat match type of H with
  | (_ ≫= _) _ = Ret _ =>
      let a := fresh "a" in let w := fresh "w" in let E := fresh "E" in
      apply io_bind_Ret in H as (a & w & E & H); cbv beta iota in H
  end.

(** [step E] runs the first action of a bind with [E : m w = Ret (a, w')];
    [pure E] runs a lifted outcome with [E : m = Ret a]. *)
Ltac step E := rewrite (io_bind_run _ _ _ _ _ E); cbv beta iota.
Ltac pure E := rewrite (io_lift_run _ _ _ _ E); cbv beta iota.

(** ** Bits *)

(** [bits_ext] turns an equation between integers into one between their
    [i]-th bits, for [0 ≤ i]. *)
Ltac bits_ext i Hi :=
  apply Z.bits_inj'; intros i Hi.

Lemma u64_testbit_high (z i : Z) : is_u64 z → (64 ≤ i)%Z → Z.testbit z i = false.
Proof.
  unfold is_u64. intros [Hz0 Hz] Hi.
  destruct (decide (z = 0%Z)) as [->|Hnz]; [apply Z.bits_0|].
  apply Z.bits_above_log2; [done|].
  apply Z.log2_lt_pow2; [lia|]. apply (Z.lt_le_trans _ (2 ^ 64)); [done|].
  apply Z.pow_le_mono_r; lia.
Qed.

Lemma u64_of_bits (z : Z) :
  (0 ≤ z)%Z → (∀ i, (64 ≤ i)%Z → Z.testbit z i = false) → is_u64 z.
Proof.
  intros H0 H. split; [done|].
  destruct (decide (z < 2 ^ 64)%Z) as [|Hge]; [done|exfalso].
  assert (64 ≤ Z.log2 z)%Z by (apply Z.log2_le_pow2; lia).
  specialize (H (Z.log2 z) ltac:(done)). rewrite Z.bit_log2 in H by lia. done.
Qed.

Lemma u64_not_testbit (z i : Z) :
  (0 ≤ i)%Z → Z.testbit (u64_not z) i = xorb (Z.testbit z i) (i <? 64)%Z.
Proof.
  intros Hi. unfold u64_not. rewrite Z.lxor_spec. f_equal.
  destruct (Z.ltb_spec i 64).
  - by rewrite Z.ones_spec_low by lia.
  - by rewrite Z.ones_spec_high by lia.
Qed.

(** ** Lists *)

Lemma lookup_replicate_Some {A} (n : nat) (x y : A) (i : nat) :
  replicate n x !! i = Some y → y = x.
Proof. intros H. by apply lookup_replicate in H as [-> _]. Qed.

(** Distinct elements of a finite set: a duplicate-free list inside [X] is no
    longer than [X]. *)
Lemma NoDup_length_size `{Countable A} (l : list A) (X : gset A) :
  NoDup l → (∀ x, x ∈ l → x ∈ X) → length l ≤ size X.
Proof.
  intros Hnd Hin. rewrite <- (size_list_to_set (C := gset A) l) by done.
  apply subseteq_size. intros x Hx. apply Hin. by apply elem_of_list_to_set in Hx.
Qed.

(** Pigeonhole: a duplicate-free list longer than [X] has an element outside. *)
Lemma pigeonhole_fresh `{Countable A} (l : list A) (X : gset A) :
  NoDup l → size X < length l → ∃ x, x ∈ l ∧ x ∉ X.
Proof.
  intros Hnd Hlt.
  destruct (decide (Forall (λ x, x ∈ X) l)) as [Hall|Hnot].
  - rewrite Forall_forall in Hall.
    pose proof (NoDup_length_size l X Hnd Hall). lia.
  - apply not_Forall_Exists in Hnot; [|apply _].
    apply Exists_exists in Hnot as (x & Hx & Hn). by exists x.
Qed.

(** A finite map whose keys lie in [0, n) has at most [n] bindings. *)
Lemma map_size_bound {A} (n : nat) (m : gmap Z A) :
  (∀ k, is_Some (m !! k) → (0 ≤ k < Z.of_nat n)%Z) → size m ≤ n.
Proof.
  revert m. induction n as [|n IH]; intros m Hm.
  - assert (m = ∅) as ->; [|by rewrite map_size_empty].
    apply map_eq. intros k. rewrite lookup_empty. apply eq_None_not_Some.
    intros Hk. apply Hm in Hk. lia.
  - assert (Hd : size (delete (Z.of_nat n) m) ≤ n).
    { apply IH. intros k Hk. destruct (decide (k = Z.of_nat n)) as [->|Hne].
      - by rewrite lookup_delete_eq in Hk; destruct Hk.
      - rewrite lookup_delete_ne in Hk by done. apply Hm in Hk. lia. }
    rewrite map_size_delete in Hd. destruct (m !! Z.of_nat n); cbn in Hd; lia.
Qed.

(** A filtered list has no duplicates when the kept elements have one index. *)
Lemma NoDup_filter_lookup {A} (P : A → Prop) `{∀ x, Decision (P x)} (l : list A) :
  (∀ i j x, l !! i = Some x → l !! j = Some x → P x → i = j) → NoDup (filter P l).
Proof.
  induction l as [|x l IH]; intros Hinj; [constructor|]. rewrite filter_cons.
  assert (Hrest : NoDup (filter P l)).
  { apply IH. intros i j y Hi Hj HP. specialize (Hinj (S i) (S j) y Hi Hj HP). lia. }
  destruct (decide (P x)) as [HP|]; [|done]. constructor; [|done].
  intros [_ Hx]%list_elem_of_filter. apply list_elem_of_lookup in Hx as [i Hi].
  by specialize (Hinj 0 (S i) x eq_refl Hi HP).
Qed.

(** The elements of a list that satisfy [P], with their indices. *)
Definition indexed {A} (P : A → Prop) `{∀ x, Decision (P x)} (l : list A) : list (nat * A) :=
  filter (λ ix, P ix.2) (imap pair l).

Lemma indexed_elem {A} (P : A → Prop) `{∀ x, Decision (P x)} (l : list A) i x :
  (i, x) ∈ indexed P l ↔ l !! i = Some x ∧ P x.
Proof.
  unfold indexed. rewrite list_elem_of_filter, elem_of_lookup_imap. cbn. split.
  - by intros [HP (i' & y & [= <- <-] & Hi)].
  - intros [Hi HP]. eauto 10.
Qed.

Lemma indexed_NoDup {A} (P : A → Prop) `{∀ x, Decision (P x)} (l : list A) :
  NoDup (indexed P l).
Proof.
  apply NoDup_filter. apply NoDup_alt. intros i j [k x] Hi Hj.
  apply list_lookup_imap_Some in Hi as (? & _ & [= -> _]), Hj as (? & _ & [= -> _]). done.
Qed.

Lemma filter_imap_snd {A} (P : A → Prop) `{∀ x, Decision (P x)} (f : nat → nat) (l : list A) :
  (filter (λ ix, P ix.2) (imap (λ i x, (f i, x)) l)).*2 = filter P l.
Proof.
  revert f. induction l as [|x l IH]; intros f; [done|]. cbn [imap].
  rewrite !filter_cons. cbn. pose proof (IH (f ∘ S)) as E. unfold compose in *. cbn in E.
  destruct (decide (P x)); cbn; by rewrite E.
Qed.

Lemma indexed_snd {A} (P : A → Prop) `{∀ x, Decision (P x)} (l : list A) :
  (indexed P l).*2 = filter P l.
Proof. apply (filter_imap_snd P id). Qed.

(** *** Filters *)
Section Filter.
Context {A : Type} (P Q : A → Prop) `{∀ x, Decision (P x), ∀ x, Decision (Q x)}.
Implicit Types l : list A.

Lemma list_filter_elem_iff l : (∀ x, x ∈ l → P x ↔ Q x) → filter P l = filter Q l.
Proof.
  induction l as [|x l IH]; intros Hl; [done|]. rewrite !filter_cons. rewrite IH by (intros y Hy; apply Hl; by right).
  pose proof (Hl x ltac:(left)). destruct (decide (P x)), (decide (Q x)); tauto || done.
Qed.

Lemma list_filter_all l : (∀ x, x ∈ l → P x) → filter P l = l.
Proof.
  induction l as [|x l IH]; intros Hl; [done|]. rewrite filter_cons_True by (apply Hl; left).
  f_equal. apply IH. intros y Hy. apply Hl. by right.
Qed.

Lemma list_filter_none l : (∀ x, x ∈ l → ¬ P x) → filter P l = [].
Proof.
  induction l as [|x l IH]; intros Hl; [done|]. rewrite filter_cons_False by (apply Hl; left).
  apply IH. intros y Hy. apply Hl. by right.
Qed.

Lemma Forall_list_filter l : Forall Q l → Forall Q (filter P l).
Proof. rewrite !Forall_forall. intros Hl x [_ Hx]%list_elem_of_filter. by apply Hl. Qed.
End Filter.
