(* ===== verification/PageStructures.v ===== *)
(** * Paging data types ([mitosis/src/remote_mapping/page_structures.rs])

    [PhysAddr] and its flag encoding, [PageTableIndex], [PageOffset] and
    [PageTableLevel].  The [x86_64] crate the file re-exports is the class
    [X86Crate]; what the code relies on is [X86CrateOk], and
    [x86_reference] is a concrete implementation. *)

From S2P Require Import Prelude.

(** ** The [x86_64] crate

    [virt_new] is [VirtAddr::new]; [pN_index v] is
    [usize::from(Page::<Size4KiB>::containing_address(v).pN_index())]. *)
Class X86Crate := {
  virt_new : Z → outcome Z;
  p4_index : Z → nat;
  p3_index : Z → nat;
  p2_index : Z → nat;
  p1_index : Z → nat;
  align_up_u64 : Z → Z → Z;
  align_down_u64 : Z → Z → Z;
}.

(** Documented behaviour: the four indices are the 9-bit groups of the address
    above the 12-bit page offset, [VirtAddr::new] is the identity on the lower
    canonical half, [align_down] gives the greatest multiple of the (power of
    two) alignment that is not above its argument. *)
Class X86CrateOk `{X86Crate} : Prop := {
  p1_index_spec v : is_u64 v → p1_index v = Z.to_nat (v / 2 ^ 12 mod 512);
  p2_index_spec v : is_u64 v → p2_index v = Z.to_nat (v / 2 ^ 21 mod 512);
  p3_index_spec v : is_u64 v → p3_index v = Z.to_nat (v / 2 ^ 30 mod 512);
  p4_index_spec v : is_u64 v → p4_index v = Z.to_nat (v / 2 ^ 39 mod 512);
  virt_new_low v : (0 ≤ v < 2 ^ 47)%Z → virt_new v = Ret v;
  align_down_spec v k : is_u64 v → (0 ≤ k < 64)%Z →
    let r := align_down_u64 v (2 ^ k) in
    (r ≤ v < r + 2 ^ k)%Z ∧ (2 ^ k | r)%Z;
}.

(** A concrete implementation, used to instantiate the class. *)
Definition x86_virt_new (v : Z) : outcome Z :=
  let top := (v / 2 ^ 47)%Z in
  if decide (top = 0 ∨ top = 131071)%Z then Ret v
  else if decide (top = 1)%Z then Ret (v + (2 ^ 64 - 2 ^ 48))%Z
  else Panic.

Definition x86_reference : X86Crate := {|
  virt_new := x86_virt_new;
  p4_index v := Z.to_nat (v / 2 ^ 39 mod 512);
  p3_index v := Z.to_nat (v / 2 ^ 30 mod 512);
  p2_index v := Z.to_nat (v / 2 ^ 21 mod 512);
  p1_index v := Z.to_nat (v / 2 ^ 12 mod 512);
  align_up_u64 v a := ((v + a - 1) / a * a)%Z;
  align_down_u64 v a := (v / a * a)%Z;
|}.

#[export] Instance x86_reference_ok : X86CrateOk (H := x86_reference).
Proof.
  split; try done.
  - intros v Hv. cbn. unfold x86_virt_new. rewrite Z.div_small by lia.
    by rewrite decide_True by lia.
  - intros v k Hv Hk. cbn.
    assert (0 < 2 ^ k)%Z by (apply Z.pow_pos_nonneg; lia). split.
    + pose proof (Z.div_mod v (2 ^ k)). pose proof (Z.mod_pos_bound v (2 ^ k)). lia.
    + apply Z.divide_factor_r.
Qed.

(** ** Constants *)
Definition K_MAGIC_IN_PREFETCH : Z := 1.
Definition ENTRY_COUNT : nat := 512.

(** ** [PageTableLevel] *)
Inductive PageTableLevel := One | Two | Three | Four.

#[export] Instance PageTableLevel_eq_dec : EqDecision PageTableLevel.
Proof. solve_decision. Defined.

(** [self as u8] *)
Definition level_as_u8 (l : PageTableLevel) : Z :=
  match l with One => 1 | Two => 2 | Three => 3 | Four => 4 end.

Definition next_lower_level (l : PageTableLevel) : option PageTableLevel :=
  match l with
  | Four => Some Three
  | Three => Some Two
  | Two => Some One
  | One => None
  end.

Definition table_address_space_alignment (l : PageTableLevel) : Z :=
  Z.shiftl 1 (level_as_u8 l * 9 + 12).

Definition entry_address_space_alignment (l : PageTableLevel) : Z :=
  Z.shiftl 1 ((level_as_u8 l - 1) * 9 + 12).

(** ** [PageTableIndex] and [PageOffset] *)
Record PageTableIndex := mkPageTableIndex { pti_0 : Z }.

Definition PageTableIndex_new (index : Z) : outcome PageTableIndex :=
  if (index <? Z.of_nat ENTRY_COUNT)%Z then Ret (mkPageTableIndex index) else Panic.

Definition PageTableIndex_new_truncate (index : Z) : PageTableIndex :=
  mkPageTableIndex (index mod Z.of_nat ENTRY_COUNT).

Record PageOffset := mkPageOffset { po_0 : Z }.

Definition PageOffset_new (offset : Z) : outcome PageOffset :=
  if (offset <? Z.shiftl 1 12)%Z then Ret (mkPageOffset offset) else Panic.

Definition PageOffset_new_truncate (offset : Z) : PageOffset :=
  mkPageOffset (offset mod Z.shiftl 1 12).

(** ** [PhysAddr] *)
Record PhysAddr := mkPhysAddr { pa_0 : Z }.

#[export] Instance PhysAddr_eq_dec : EqDecision PhysAddr.
Proof. solve_decision. Defined.

Inductive PhysAddrBitFlag := FlagEmpty | FlagPrefetch | FlagCache | FlagReadOnly.

(** [flag as u64] *)
Definition flag_as_u64 (f : PhysAddrBitFlag) : Z :=
  match f with
  | FlagEmpty => 0
  | FlagPrefetch => 1
  | FlagCache => 2
  | FlagReadOnly => 4
  end.

Definition PhysAddrBitFlag_mask : Z :=
  Z.lor (Z.lor (flag_as_u64 FlagPrefetch) (flag_as_u64 FlagCache))
        (flag_as_u64 FlagReadOnly).

Definition PhysAddr_new (addr : Z) : PhysAddr := mkPhysAddr addr.

Definition PhysAddr_as_u64 (a : PhysAddr) : Z := pa_0 a.

Definition PhysAddr_is_null (a : PhysAddr) : bool := (pa_0 a =? 0)%Z.

Definition PhysAddr_decode (addr : Z) : Z := Z.land addr (u64_not PhysAddrBitFlag_mask).

Definition PhysAddr_encode (page_addr flag : Z) : Z :=
  Z.lor page_addr (Z.land flag PhysAddrBitFlag_mask).

Definition PhysAddr_is_prefetch (a : PhysAddr) : bool :=
  (Z.land (pa_0 a) (flag_as_u64 FlagPrefetch) =? flag_as_u64 FlagPrefetch)%Z.

Definition PhysAddr_is_cache (a : PhysAddr) : bool :=
  (Z.land (pa_0 a) (flag_as_u64 FlagCache) =? flag_as_u64 FlagCache)%Z.

Definition PhysAddr_is_ro (a : PhysAddr) : bool :=
  (Z.land (pa_0 a) (flag_as_u64 FlagReadOnly) =? flag_as_u64 FlagReadOnly)%Z.

Definition PhysAddr_bottom_bit (a : PhysAddr) : bool := PhysAddr_is_prefetch a.

(** [PhysAddr_set_bottom_bit_as_one]: the updated address and the returned value. *)
Definition PhysAddr_set_bottom_bit_as_one (a : PhysAddr) : PhysAddr * Z :=
  (mkPhysAddr (Z.lor (pa_0 a) 1), Z.lor (pa_0 a) 1).

(** [PhysAddr_try_new] never fails: the upper-bits check of the original crate is gone. *)
Definition PhysAddr_try_new (addr : Z) : PhysAddr + () := inl (mkPhysAddr addr).

Definition PhysAddr_real_addr (a : PhysAddr) : Z := PhysAddr_decode (pa_0 a).

Definition PhysAddr_convert_to_page (a : PhysAddr) : Z := PhysAddr_real_addr a.

Section aligned.
Context {x86 : X86Crate}.

Definition PhysAddr_align_up (a : PhysAddr) (align : Z) : PhysAddr :=
  mkPhysAddr (align_up_u64 (pa_0 a) align).

Definition PhysAddr_align_down (a : PhysAddr) (align : Z) : PhysAddr :=
  mkPhysAddr (align_down_u64 (pa_0 a) align).

Definition PhysAddr_is_aligned (a : PhysAddr) (align : Z) : bool :=
  bool_decide (PhysAddr_align_down a align = a).
End aligned.

(** ** Lemmas: indices, offsets and levels *)

Lemma level_as_u8_lower l l' :
  next_lower_level l = Some l' → level_as_u8 l = (level_as_u8 l' + 1)%Z.
Proof. by destruct l; intros [= <-]. Qed.

(** ** Lemmas: the flag bits of a [PhysAddr] *)
Module PhysAddrFacts.

Lemma mask_value : PhysAddrBitFlag_mask = 7%Z.
Proof. done. Qed.

Lemma testbit_7 (i : Z) : (0 ≤ i)%Z → Z.testbit 7 i = (i <? 3)%Z.
Proof.
  intros Hi. change 7%Z with (Z.ones 3). destruct (Z.ltb_spec i 3).
  - by rewrite Z.ones_spec_low by lia.
  - by rewrite Z.ones_spec_high by lia.
Qed.

Lemma decode_testbit (x i : Z) :
  is_u64 x → (0 ≤ i)%Z → Z.testbit (PhysAddr_decode x) i = Z.testbit x i && negb (i <? 3)%Z.
Proof.
  intros Hx Hi. unfold PhysAddr_decode.
  rewrite Z.land_spec, u64_not_testbit, mask_value, testbit_7 by done.
  destruct (Z.ltb_spec i 64).
  - by destruct (i <? 3)%Z, (Z.testbit x i).
  - by rewrite (u64_testbit_high x) by done.
Qed.

Lemma encode_testbit (p f i : Z) :
  (0 ≤ i)%Z → Z.testbit (PhysAddr_encode p f) i = Z.testbit p i || (Z.testbit f i && (i <? 3)%Z).
Proof.
  intros Hi. unfold PhysAddr_encode. by rewrite Z.lor_spec, Z.land_spec, mask_value, testbit_7.
Qed.

Lemma flag_test (x k : Z) :
  (0 ≤ k)%Z → (Z.land x (2 ^ k) =? 2 ^ k)%Z = Z.testbit x k.
Proof.
  intros Hk. destruct (Z.testbit x k) eqn:E.
  - apply Z.eqb_eq. bits_ext i Hi. rewrite Z.land_spec, Z.pow2_bits_eqb by done.
    destruct (Z.eqb_spec k i) as [->|]; [by rewrite E|apply andb_false_r].
  - apply Z.eqb_neq. intros Heq. apply (f_equal (λ z, Z.testbit z k)) in Heq.
    rewrite Z.land_spec, Z.pow2_bits_true, E in Heq by done. done.
Qed.

Lemma is_prefetch_testbit (x : Z) : PhysAddr_is_prefetch (PhysAddr_new x) = Z.testbit x 0.
Proof. apply (flag_test x 0). lia. Qed.

Lemma is_cache_testbit (x : Z) : PhysAddr_is_cache (PhysAddr_new x) = Z.testbit x 1.
Proof. apply (flag_test x 1). lia. Qed.

Lemma is_ro_testbit (x : Z) : PhysAddr_is_ro (PhysAddr_new x) = Z.testbit x 2.
Proof. apply (flag_test x 2). lia. Qed.

Lemma decode_u64 (x : Z) : is_u64 x → is_u64 (PhysAddr_decode x).
Proof.
  intros Hx. apply u64_of_bits.
  - unfold PhysAddr_decode. apply Z.land_nonneg. left. apply Hx.
  - intros i Hi. by rewrite decode_testbit, (u64_testbit_high x) by (done || lia).
Qed.

Lemma encode_u64 (p f : Z) : is_u64 p → is_u64 f → is_u64 (PhysAddr_encode p f).
Proof.
  intros Hp Hf. apply u64_of_bits.
  - unfold PhysAddr_encode. apply Z.lor_nonneg. split; [apply Hp|].
    apply Z.land_nonneg. left. apply Hf.
  - intros i Hi. rewrite encode_testbit, !u64_testbit_high by (done || lia). done.
Qed.

(** An address is a multiple of 8 iff its three flag bits are clear. *)
Lemma aligned8_testbit (p : Z) :
  (8 | p)%Z → ∀ i, (0 ≤ i < 3)%Z → Z.testbit p i = false.
Proof.
  intros [q ->] i Hi. change 8%Z with (2 ^ 3)%Z.
  by rewrite Z.mul_pow2_bits_low by lia.
Qed.

Lemma decode_encode (p f : Z) :
  is_u64 p → is_u64 f → (8 | p)%Z → PhysAddr_decode (PhysAddr_encode p f) = p.
Proof.
  intros Hp Hf Hal. bits_ext i Hi.
  rewrite decode_testbit, encode_testbit by (try apply encode_u64; done).
  destruct (Z.ltb_spec i 3).
  - by rewrite (aligned8_testbit p), andb_false_r by (done || lia).
  - by rewrite andb_false_r, orb_false_r, andb_true_r.
Qed.

Lemma decode_aligned (p : Z) : is_u64 p → (8 | p)%Z → PhysAddr_decode p = p.
Proof.
  intros Hp Hal. bits_ext i Hi. rewrite decode_testbit by done.
  destruct (Z.ltb_spec i 3).
  - by rewrite (aligned8_testbit p), andb_false_l by (done || lia).
  - by rewrite andb_true_r.
Qed.

Lemma encode_flag_testbit (p : Z) (f : PhysAddrBitFlag) (k : Z) :
  (8 | p)%Z → (0 ≤ k < 3)%Z →
  Z.testbit (PhysAddr_encode p (flag_as_u64 f)) k = Z.testbit (flag_as_u64 f) k.
Proof.
  intros Hal Hk. rewrite encode_testbit by lia.
  rewrite (aligned8_testbit p) by done. rewrite orb_false_l.
  by destruct (Z.ltb_spec k 3); [apply andb_true_r|lia].
Qed.

Lemma encode_pos (p f : Z) : (0 < p)%Z → is_u64 f → (0 < PhysAddr_encode p f)%Z.
Proof.
  intros Hp Hf. assert (0 ≤ PhysAddr_encode p f)%Z.
  { unfold PhysAddr_encode. apply Z.lor_nonneg. split; [lia|]. apply Z.land_nonneg. left. apply Hf. }
  destruct (decide (PhysAddr_encode p f = 0%Z)) as [E|]; [|lia].
  apply Z.lor_eq_0_iff in E as [-> _]. lia.
Qed.

End PhysAddrFacts.

(** ** Properties *)
#[export] Instance PhysAddrBitFlag_eq_dec : EqDecision PhysAddrBitFlag.
Proof. solve_decision. Defined.

Section PageStructureProperties.
Import PhysAddrFacts.

(** A page address whose low three bits are free survives the flag encoding:
    [PhysAddr_decode] gives it back, each flag test sees exactly the encoded flag, and
    the encoded value stays a 64-bit word. *)
Theorem PhysAddr_flag_roundtrip (p : Z) (f : PhysAddrBitFlag) :
  is_u64 p → (8 | p)%Z →
  let e := PhysAddr_encode p (flag_as_u64 f) in
  is_u64 e ∧ PhysAddr_decode e = p ∧ PhysAddr_real_addr (PhysAddr_new e) = p ∧
  PhysAddr_is_prefetch (PhysAddr_new e) = bool_decide (f = FlagPrefetch) ∧
  PhysAddr_is_cache (PhysAddr_new e) = bool_decide (f = FlagCache) ∧
  PhysAddr_is_ro (PhysAddr_new e) = bool_decide (f = FlagReadOnly).
Proof.
  intros Hp Hal. cbv zeta.
  assert (Hf : is_u64 (flag_as_u64 f)) by (unfold is_u64; destruct f; cbn; lia).
  repeat split.
  - by apply encode_u64.
  - by apply encode_u64.
  - by apply decode_encode.
  - by apply decode_encode.
  - rewrite is_prefetch_testbit, encode_flag_testbit by (done || lia). by destruct f.
  - rewrite is_cache_testbit, encode_flag_testbit by (done || lia). by destruct f.
  - rewrite is_ro_testbit, encode_flag_testbit by (done || lia). by destruct f.
Qed.

Lemma PhysAddr_flag_roundtrip_witness :
  PhysAddr_decode (PhysAddr_encode 4096 (flag_as_u64 FlagCache)) = 4096%Z ∧
  PhysAddr_is_cache (PhysAddr_new (PhysAddr_encode 4096 (flag_as_u64 FlagCache))) = true.
Proof.
  destruct (PhysAddr_flag_roundtrip 4096 FlagCache) as (_ & H1 & _ & _ & H2 & _).
  - unfold is_u64. lia.
  - by exists 512%Z.
  - by split.
Defined.

(** Each level's tables cover [ENTRY_COUNT] entries, and an entry covers what a
    table of the next lower level covers; at level one an entry is a 4 KiB page. *)
Theorem level_alignments (l : PageTableLevel) :
  table_address_space_alignment l =
    (Z.of_nat ENTRY_COUNT * entry_address_space_alignment l)%Z ∧
  is_u64 (table_address_space_alignment l) ∧
  match next_lower_level l with
  | Some l' => entry_address_space_alignment l = table_address_space_alignment l'
  | None => entry_address_space_alignment l = 4096%Z
  end.
Proof. unfold is_u64. by destruct l. Qed.

(** The checked constructors accept exactly the values in range, the truncating
    ones always land in range and agree with the checked ones there. *)
Theorem index_constructors (i : Z) :
  is_u16 i →
  PageTableIndex_new i =
    (if decide (i < 512)%Z then Ret (PageTableIndex_new_truncate i) else Panic) ∧
  (0 ≤ pti_0 (PageTableIndex_new_truncate i) < 512)%Z ∧
  PageOffset_new i =
    (if decide (i < 4096)%Z then Ret (PageOffset_new_truncate i) else Panic) ∧
  (0 ≤ po_0 (PageOffset_new_truncate i) < 4096)%Z.
Proof.
  unfold is_u16, PageTableIndex_new, PageOffset_new, PageTableIndex_new_truncate,
    PageOffset_new_truncate, pti_0, po_0.
  change (Z.of_nat ENTRY_COUNT) with 512%Z. change (Z.shiftl 1 12) with 4096%Z.
  intros Hi. repeat split; try (apply Z.mod_pos_bound; lia).
  - destruct (Z.ltb_spec i 512); [rewrite decide_True by done|by rewrite decide_False by lia].
    by rewrite Z.mod_small by lia.
  - destruct (Z.ltb_spec i 4096); [rewrite decide_True by done|by rewrite decide_False by lia].
    by rewrite Z.mod_small by lia.
Qed.

(** [PhysAddr_is_aligned] decides divisibility by a power of two. *)
Theorem is_aligned_divide `{X86CrateOk} (a k : Z) :
  is_u64 a → (0 ≤ k < 64)%Z →
  PhysAddr_is_aligned (PhysAddr_new a) (2 ^ k) = true ↔ (2 ^ k | a)%Z.
Proof.
  intros Ha Hk. unfold PhysAddr_is_aligned, PhysAddr_align_down, PhysAddr_new. cbn.
  destruct (align_down_spec a k Ha Hk) as [Hr Hd]. cbn in Hr, Hd.
  rewrite bool_decide_eq_true. split.
  - intros [= E]. by rewrite <- E.
  - intros Hdiv. f_equal.
    assert (Hd' : (2 ^ k | a - align_down_u64 a (2 ^ k))%Z) by by apply Z.divide_sub_r.
    destruct Hd' as [q Hq]. assert (0 < 2 ^ k)%Z by (apply Z.pow_pos_nonneg; lia).
    assert (q = 0)%Z by nia. subst. lia.
Qed.
End PageStructureProperties.
