(* ===== verification/PageHeap.v ===== *)
(** * The page-table heap ([remote_mapping/page_structures.rs], [PageTable])

    A [PageTable] is a vmalloc'ed block that holds 512 entries, its level and a
    link to the table above it.  Tables refer to each other by raw pointers, so
    the model is a heap of tables indexed by address.  [walk] follows entries
    from a table, [heap_wf] is the structural invariant of the heap and the
    lemmas relate [walk] before and after the two heap updates the code makes:
    linking a fresh table under an entry and storing into a level-one entry. *)

From S2P Require Import Prelude PageStructures.

#[global] Arguments ENTRY_COUNT : simpl never.

(** ** [VmallocAllocator]

    [vmalloc live] is the address of a new block when the blocks of [live] are
    in use, [None] when the allocation fails. *)
Class Vmalloc := {
  vmalloc : gset Z → option Z;
  vm_capacity : nat;
}.

(** Documented behaviour: a block is fresh, not null, page aligned and
    addressable, and below the capacity of the vmalloc area an allocation
    succeeds. *)
Class VmallocOk `{Vmalloc} : Prop := {
  vmalloc_fresh X p : vmalloc X = Some p → p ∉ X;
  vmalloc_addr X p : vmalloc X = Some p → (0 < p < 2 ^ 64)%Z ∧ (4096 | p)%Z;
  vmalloc_success X : size X < vm_capacity → is_Some (vmalloc X);
}.

(** A concrete allocator: the first free slot of an area of [n] blocks. *)
Definition slot_addr (i : nat) : Z := (Z.of_nat (S i) * 4096)%Z.

Definition slot_vmalloc (n : nat) (X : gset Z) : option Z :=
  snd <$> list_find (λ p, p ∉ X) (slot_addr <$> seq 0 n).

Definition slot_Vmalloc (n : nat) : Vmalloc :=
  {| vmalloc := slot_vmalloc n; vm_capacity := n |}.

Lemma slot_addr_inj : Inj (=) (=) slot_addr.
Proof. intros i j. unfold slot_addr. lia. Qed.

Lemma slot_Vmalloc_ok (n : nat) :
  (Z.of_nat n < 2 ^ 50)%Z → VmallocOk (H := slot_Vmalloc n).
Proof.
  intros Hn. split; cbn; unfold slot_vmalloc.
  - intros X p. rewrite fmap_Some. intros ([i q] & Hf & ->).
    by apply list_find_Some in Hf as (_ & Hnot & _).
  - intros X p. rewrite fmap_Some. intros ([i q] & Hf & ->).
    apply list_find_Some in Hf as (Hl & _ & _). cbn.
    rewrite list_lookup_fmap, fmap_Some in Hl. destruct Hl as (j & Hj & ->).
    apply lookup_seq in Hj as [-> Hlt]. unfold slot_addr. split; [lia|].
    apply Z.divide_factor_r.
  - intros X HX.
    destruct (pigeonhole_fresh (slot_addr <$> seq 0 n) X) as (x & Hx & Hfresh).
    + apply NoDup_fmap_2; [apply slot_addr_inj|apply NoDup_seq].
    + by rewrite length_fmap, length_seq.
    + destruct (list_find_elem_of (λ p, p ∉ X) _ x Hx Hfresh) as [ip ->]. by eexists.
Qed.

(** ** [PageTable] *)
Record PageTable := mkPageTable {
  entries : list Z;
  level : PageTableLevel;
  upper_level : Z;
  upper_level_index : nat;
}.

#[export] Instance PageTable_eq_dec : EqDecision PageTable.
Proof. solve_decision. Defined.

Abbreviation heap := (gmap Z PageTable).

(** The dereference of a raw pointer *)
Definition deref (h : heap) (p : Z) : outcome PageTable :=
  match h !! p with Some t => Ret t | None => UB end.

Definition PageTable_new (l : PageTableLevel) (upper : Z) (idx : nat) : PageTable :=
  mkPageTable (replicate ENTRY_COUNT 0%Z) l upper idx.

Definition PageTable_default : PageTable := PageTable_new Four 0 0.

(** [Index::index] and [IndexMut::index_mut] *)
Definition PageTable_index (t : PageTable) (i : nat) : outcome Z :=
  match entries t !! i with Some e => Ret e | None => Panic end.

Definition set_entries (t : PageTable) (es : list Z) : PageTable :=
  mkPageTable es (level t) (upper_level t) (upper_level_index t).

Definition PageTable_index_mut (t : PageTable) (i : nat) (v : Z) : outcome PageTable :=
  if decide (i < length (entries t)) then Ret (set_entries t (<[i := v]> (entries t)))
  else Panic.

(** A store to the [i]-th entry of the table behind the raw pointer [p] *)
Definition store_entry (h : heap) (p : Z) (i : nat) (v : Z) : outcome heap :=
  t ← deref h p;
  t' ← PageTable_index_mut t i v;
  Ret (<[p := t']> h).

Definition get_level (t : PageTable) : PageTableLevel := level t.
Definition get_upper_level_page (t : PageTable) : Z := upper_level t.
Definition get_upper_level_page_index (t : PageTable) : nat := upper_level_index t.

(** The [for i in start_idx..ENTRY_COUNT] loop, over the remaining indices. *)
Fixpoint find_valid_loop (t : PageTable) (idxs : list nat) : outcome (option nat) :=
  match idxs with
  | [] => Ret None
  | i :: idxs' =>
      e ← PageTable_index t i;
      if bool_decide (e ≠ 0%Z) then Ret (Some i) else find_valid_loop t idxs'
  end.

Definition find_valid_entry (t : PageTable) (start_idx : nat) : outcome (option nat) :=
  find_valid_loop t (seq start_idx (ENTRY_COUNT - start_idx)).

Section Alloc.
Context {vm : Vmalloc}.

(** [Box::into_raw(Box::new_in(t, VmallocAllocator))] *)
Definition box_new (h : heap) (t : PageTable) : outcome (Z * heap) :=
  p ← unwrap (vmalloc (dom h));
  Ret (p, <[p := t]> h).

Definition new_from_upper (h : heap) (src : Z) (idx : nat) : outcome (Z * heap) :=
  pt ← deref h src;
  l ← unwrap (next_lower_level (get_level pt));
  box_new h (PageTable_new l src idx).
End Alloc.

(** ** Walks and the heap invariant *)

(** The non-null entry [i] of the table at [p]. *)
Definition child (h : heap) (p : Z) (i : nat) : option Z :=
  t ← h !! p; e ← entries t !! i; if decide (e = 0%Z) then None else Some e.

(** Follow the entries [path] from the table at [p]. *)
Fixpoint walk (h : heap) (p : Z) (path : list nat) : option Z :=
  match path with
  | [] => Some p
  | i :: path' => child h p i ≫= λ e, walk h e path'
  end.

(** Number of entries on the way from a table of this level to a page. *)
Definition depth (l : PageTableLevel) : nat :=
  match l with One => 1 | Two => 2 | Three => 3 | Four => 4 end.

(** What [heap_wf] asks of one table. *)
Record table_wf (h : heap) (p : Z) (t : PageTable) : Prop := {
  tw_addr : (0 < p)%Z;
  tw_length : length (entries t) = ENTRY_COUNT;
  tw_down l i e :
    next_lower_level (level t) = Some l → entries t !! i = Some e → e ≠ 0%Z →
    ∃ t', h !! e = Some t' ∧ level t' = l ∧ upper_level t' = p ∧ upper_level_index t' = i;
  tw_up : level t ≠ Four →
    ∃ u, h !! upper_level t = Some u ∧ next_lower_level (level u) = Some (level t) ∧
         entries u !! upper_level_index t = Some p;
  tw_root : level t = Four → upper_level t = 0%Z;
}.

(** Every table is well formed: the entries of an upper table are null or lead
    to a table of the next lower level that links back, and every table below
    level four is reachable from the table its link names. *)
Definition heap_wf (h : heap) : Prop := ∀ p t, h !! p = Some t → table_wf h p t.

(** Level-two and level-three tables map something. *)
Definition inner_nonempty (h : heap) : Prop :=
  ∀ p t, h !! p = Some t → level t = Two ∨ level t = Three → ∃ i, is_Some (child h p i).

Definition is_root (h : heap) (p : Z) : Prop :=
  ∃ t, h !! p = Some t ∧ level t = Four.

Lemma heap_wf_empty : heap_wf ∅.
Proof. intros p t. by rewrite lookup_empty. Qed.

Lemma child_Some h p i e :
  child h p i = Some e ↔ ∃ t, h !! p = Some t ∧ entries t !! i = Some e ∧ e ≠ 0%Z.
Proof.
  unfold child. split.
  - intros (t & Ht & (e' & He & Hd)%bind_Some)%bind_Some.
    destruct (decide (e' = 0%Z)); simplify_eq. eauto.
  - intros (t & -> & Ht & Hne). cbn. rewrite Ht. cbn. by rewrite decide_False.
Qed.

Lemma child_nonzero h p i e : child h p i = Some e → e ≠ 0%Z.
Proof. intros (? & _ & _ & ?)%child_Some. done. Qed.

Lemma child_wf h p i e t :
  heap_wf h → h !! p = Some t → child h p i = Some e → level t ≠ One →
  ∃ t', h !! e = Some t' ∧ next_lower_level (level t) = Some (level t') ∧
        upper_level t' = p ∧ upper_level_index t' = i.
Proof.
  intros Hwf Ht Hc Hl. apply child_Some in Hc as (t0 & Ht0 & He & Hne).
  rewrite Ht in Ht0. injection Ht0 as <-.
  destruct (next_lower_level (level t)) as [l|] eqn:El.
  - destruct (tw_down _ _ _ (Hwf p t Ht) l i e El He Hne) as (t' & ? & ? & ? & ?).
    exists t'. naive_solver.
  - by destruct (level t).
Qed.

Lemma depth_lower l l' : next_lower_level l = Some l' → depth l = S (depth l').
Proof. by destruct l; intros [= <-]. Qed.

Lemma walk_app h p path1 path2 :
  walk h p (path1 ++ path2) = walk h p path1 ≫= λ e, walk h e path2.
Proof.
  revert p. induction path1 as [|i path1 IH]; intros p; cbn; [done|].
  destruct (child h p i) as [e|]; cbn; [apply IH|done].
Qed.

Lemma walk_snoc h p path i :
  walk h p (path ++ [i]) = walk h p path ≫= λ e, child h e i.
Proof.
  rewrite walk_app. destruct (walk h p path) as [e|]; cbn; [|done].
  by destruct (child h e i).
Qed.

(** A walk shorter than the depth of its start ends in a table of the heap, one
    level down per step. *)
Lemma walk_table h p path t e :
  heap_wf h → h !! p = Some t → length path < depth (level t) →
  walk h p path = Some e →
  ∃ t', h !! e = Some t' ∧ depth (level t) = length path + depth (level t').
Proof.
  intros Hwf. revert p t. induction path as [|i path IH]; intros p t Ht Hlen Hw.
  - cbn in Hw. injection Hw as <-. by exists t.
  - cbn in Hw, Hlen. apply bind_Some in Hw as (c & Hc & Hw).
    destruct (child_wf h p i c t Hwf Ht Hc) as (tc & Htc & Hlow & _ & _).
    { intros E. rewrite E in Hlen. cbn in Hlen. lia. }
    pose proof (depth_lower _ _ Hlow) as Hd.
    destruct (IH c tc Htc ltac:(lia) Hw) as (t' & Ht' & Hd'). exists t'. cbn. split; [done|lia].
Qed.

(** The upper links make the path to a table unique, also between different
    tables of one level. *)
Lemma walk_inj_level h r1 r2 t1 t2 path1 path2 e :
  heap_wf h → h !! r1 = Some t1 → h !! r2 = Some t2 → level t1 = level t2 →
  length path1 = length path2 → length path1 < depth (level t1) →
  walk h r1 path1 = Some e → walk h r2 path2 = Some e → r1 = r2 ∧ path1 = path2.
Proof.
  intros Hwf Hr1 Hr2 Hl. revert path2 e.
  induction path1 as [|i path1 IH] using rev_ind; intros path2 e Hlen Hlt Hw1 Hw2.
  - destruct path2; [|done]. cbn in *. by simplify_eq.
  - destruct path2 as [|j path2 _] using rev_ind.
    { rewrite length_app in Hlen. cbn in Hlen. lia. }
    rewrite !length_app in *. cbn in *. rewrite walk_snoc in Hw1, Hw2.
    apply bind_Some in Hw1 as (e1 & Hw1 & Hc1), Hw2 as (e2 & Hw2 & Hc2).
    destruct (walk_table h r1 path1 t1 e1) as (u1 & Hu1 & Hd1); [done|done|lia|done|].
    destruct (walk_table h r2 path2 t2 e2) as (u2 & Hu2 & Hd2); [done|done|rewrite <- Hl; lia|done|].
    destruct (child_wf h e1 i e u1) as (c1 & Hc1' & _ & Hup1 & Hi1); [done|done|done| |].
    { intros E. rewrite E in Hd1. cbn in Hd1. lia. }
    destruct (child_wf h e2 j e u2) as (c2 & Hc2' & _ & Hup2 & Hi2); [done|done|done| |].
    { intros E. rewrite E, <- Hl in Hd2. cbn in Hd2. lia. }
    assert (c1 = c2) as -> by congruence. subst e1 e2 i j.
    destruct (IH path2 (upper_level c2)) as [-> ->]; [lia|lia|done|done|done].
Qed.

Lemma walk_inj h r1 r2 path1 path2 e :
  heap_wf h → is_root h r1 → is_root h r2 →
  length path1 = length path2 → length path1 < 4 →
  walk h r1 path1 = Some e → walk h r2 path2 = Some e → r1 = r2 ∧ path1 = path2.
Proof.
  intros Hwf (t1 & Hr1 & L1) (t2 & Hr2 & L2) Hlen Hlt. apply (walk_inj_level h r1 r2 t1 t2); try done.
  - congruence.
  - by rewrite L1.
Qed.

(** ** Frame lemmas *)

Lemma child_insert_ne h p q t i : p ≠ q → child (<[p := t]> h) q i = child h q i.
Proof. intros Hne. unfold child. by rewrite lookup_insert_ne. Qed.

Lemma child_insert h p t i :
  child (<[p := t]> h) p i = (e ← entries t !! i; if decide (e = 0%Z) then None else Some e).
Proof. unfold child. by rewrite lookup_insert_eq. Qed.

Lemma child_entry h p t i e :
  h !! p = Some t → entries t !! i = Some e →
  child h p i = if decide (e = 0%Z) then None else Some e.
Proof. intros Ht He. unfold child. rewrite Ht. cbn. by rewrite He. Qed.

Lemma child_new_None h p l u idx i : child (<[p := PageTable_new l u idx]> h) p i = None.
Proof.
  rewrite child_insert. cbn. destruct (replicate ENTRY_COUNT 0%Z !! i) as [e|] eqn:E; [|done].
  apply lookup_replicate_Some in E as ->. done.
Qed.

Lemma child_same_entries h h' p t t' i :
  h !! p = Some t → h' !! p = Some t' → entries t = entries t' → child h p i = child h' p i.
Proof. intros Ht Ht' He. unfold child. rewrite Ht, Ht'. cbn. by rewrite He. Qed.

(** [h'] keeps every table of [h] except for its entries. *)
Definition same_shape (h h' : heap) : Prop :=
  ∀ p t, h !! p = Some t → ∃ t', h' !! p = Some t' ∧ level t' = level t ∧
    upper_level t' = upper_level t ∧ upper_level_index t' = upper_level_index t.

Lemma same_shape_refl h : same_shape h h.
Proof. intros p t Ht. eauto. Qed.

Lemma same_shape_trans h1 h2 h3 : same_shape h1 h2 → same_shape h2 h3 → same_shape h1 h3.
Proof.
  intros H12 H23 p t Ht. destruct (H12 p t Ht) as (t2 & Ht2 & E1 & E2 & E3).
  destruct (H23 p t2 Ht2) as (t3 & Ht3 & F1 & F2 & F3). exists t3. by rewrite F1, F2, F3.
Qed.

Lemma same_shape_root h h' r : same_shape h h' → is_root h r → is_root h' r.
Proof.
  intros Hs (t & Ht & Hl). destruct (Hs r t Ht) as (t' & Ht' & Hl' & _).
  exists t'. by rewrite Hl'.
Qed.

Lemma same_shape_set_entries h p t es :
  h !! p = Some t → same_shape h (<[p := set_entries t es]> h).
Proof.
  intros Ht q tq Hq. destruct (decide (p = q)) as [<-|Hne].
  - rewrite lookup_insert_eq. rewrite Ht in Hq. injection Hq as <-. eauto 10.
  - rewrite lookup_insert_ne by done. eauto 10.
Qed.

Lemma same_shape_insert_fresh h p t : h !! p = None → same_shape h (<[p := t]> h).
Proof.
  intros Hp q tq Hq. rewrite lookup_insert_ne by congruence. eauto 10.
Qed.

#[export] Hint Resolve same_shape_refl same_shape_set_entries same_shape_insert_fresh : mitosis.

(** A well-formed table stays so when the tables around it keep their shape and
    their links to it. *)
Lemma table_wf_shape h h' p t :
  table_wf h p t → same_shape h h' →
  (level t ≠ Four → ∃ u', h' !! upper_level t = Some u' ∧
     entries u' !! upper_level_index t = Some p) →
  table_wf h' p t.
Proof.
  intros [Ha Hl Hd Hu Hr] Hs Hup. split; [done|done| | |done].
  - intros l i e Hlow He Hne. destruct (Hd l i e Hlow He Hne) as (t' & Ht' & <- & <- & <-).
    destruct (Hs e t' Ht') as (t'' & ? & ? & ? & ?). eauto 10.
  - intros H4. destruct (Hu H4) as (u & Hu' & Hlow & He).
    destruct (Hup H4) as (u' & Hu'' & He'). exists u'.
    destruct (Hs _ _ Hu') as (u2 & ? & Hl2 & _). simplify_eq. by rewrite Hl2.
Qed.

(** *** Storing into a level-one table *)
Section StoreL1.
Context (h : heap) (p : Z) (t : PageTable) (i : nat) (v : Z).
Context (Hwf : heap_wf h) (Ht : h !! p = Some t) (H1 : level t = One).

Definition stored : heap := <[p := set_entries t (<[i := v]> (entries t))]> h.

Lemma stored_wf : heap_wf stored.
Proof.
  intros q tq Hq. unfold stored in Hq.
  assert (Hs : same_shape h stored) by (by apply same_shape_set_entries).
  assert (Hup : ∀ q tq, h !! q = Some tq → level tq ≠ Four →
    ∃ u', stored !! upper_level tq = Some u' ∧ entries u' !! upper_level_index tq = Some q).
  { intros q' tq' Hq' H4. destruct (tw_up _ _ _ (Hwf q' tq' Hq') H4) as (u & Hu & Hlow & He).
    exists u. unfold stored. rewrite lookup_insert_ne; [done|].
    intros Heq. rewrite <- Heq, Ht in Hu. injection Hu as <-. by rewrite H1 in Hlow. }
  destruct (decide (p = q)) as [<-|Hne].
  - rewrite lookup_insert_eq in Hq. injection Hq as <-.
    destruct (table_wf_shape h stored p t (Hwf p t Ht) Hs (Hup p t Ht)) as [? ? _ ? ?].
    split; cbn; [done|by rewrite length_insert| |done|done].
    intros l j e Hlow. by rewrite H1 in Hlow.
  - rewrite lookup_insert_ne in Hq by done.
    apply (table_wf_shape h); [by apply Hwf|done|by apply Hup].
Qed.

Lemma stored_inner : inner_nonempty h → inner_nonempty stored.
Proof.
  intros Hin q tq Hq Hl. unfold stored in *. destruct (decide (p = q)) as [<-|Hne].
  - rewrite lookup_insert_eq in Hq. injection Hq as <-. cbn in Hl. by destruct Hl; congruence.
  - rewrite lookup_insert_ne in Hq by done. destruct (Hin q tq Hq Hl) as [j Hj].
    exists j. by rewrite child_insert_ne.
Qed.

Lemma stored_child_ne q j : p ≠ q → child stored q j = child h q j.
Proof. apply child_insert_ne. Qed.

(** Walks that end above the pages are unchanged. *)
Lemma stored_walk_tables q tq path :
  h !! q = Some tq → length path < depth (level tq) → walk stored q path = walk h q path.
Proof.
  revert q tq. induction path as [|j path IH]; intros q tq Hq Hlen; [done|]. cbn in *.
  assert (Hne : level tq ≠ One) by (intros E; rewrite E in Hlen; cbn in Hlen; lia).
  assert (p ≠ q) by (intros <-; congruence).
  rewrite stored_child_ne by done.
  destruct (child h q j) as [c|] eqn:Hc; cbn; [|done].
  destruct (child_wf h q j c tq Hwf Hq Hc Hne) as (tc & Htc & Hlow & _).
  apply (IH c tc Htc). apply depth_lower in Hlow. lia.
Qed.

Lemma stored_child j :
  child stored p j =
    if decide (j = i ∧ j < length (entries t)) then if decide (v = 0%Z) then None else Some v
    else child h p j.
Proof.
  unfold stored. rewrite child_insert. cbn. unfold child. rewrite Ht. cbn.
  destruct (decide (j = i ∧ j < length (entries t))) as [[-> Hlt]|Hn].
  - by rewrite list_lookup_insert_eq by done.
  - destruct (decide (j = i)) as [->|Hji]; [|by rewrite list_lookup_insert_ne].
    by rewrite list_insert_ge by lia.
Qed.
End StoreL1.

(** *** Linking a fresh table under a null entry *)
Section LinkFresh.
Context (h : heap) (src : Z) (t : PageTable) (idx : nat) (l : PageTableLevel) (p : Z).
Context (Hwf : heap_wf h) (Ht : h !! src = Some t).
Context (Hlow : next_lower_level (level t) = Some l) (He : entries t !! idx = Some 0%Z).
Context (Hp : h !! p = None) (Hpos : (0 < p)%Z).

Definition linked : heap :=
  <[src := set_entries t (<[idx := p]> (entries t))]> (<[p := PageTable_new l src idx]> h).

Lemma src_ne_p : src ≠ p.
Proof. congruence. Qed.

Lemma linked_shape : same_shape h linked.
Proof.
  eapply same_shape_trans; [by apply (same_shape_insert_fresh h p)|].
  apply same_shape_set_entries. rewrite lookup_insert_ne; [done|congruence].
Qed.

Lemma linked_src : linked !! src = Some (set_entries t (<[idx := p]> (entries t))).
Proof. apply lookup_insert_eq. Qed.

Lemma linked_p : linked !! p = Some (PageTable_new l src idx).
Proof. unfold linked. rewrite lookup_insert_ne by apply src_ne_p. apply lookup_insert_eq. Qed.

Lemma linked_other q : q ≠ src → q ≠ p → linked !! q = h !! q.
Proof. intros. unfold linked. by rewrite !lookup_insert_ne. Qed.

Lemma linked_up q tq :
  h !! q = Some tq → level tq ≠ Four →
  ∃ u', linked !! upper_level tq = Some u' ∧ entries u' !! upper_level_index tq = Some q.
Proof.
  intros Hq H4. destruct (tw_up _ _ _ (Hwf q tq Hq) H4) as (u & Hu & _ & Heu).
  destruct (decide (upper_level tq = src)) as [E|Hne].
  - rewrite E in *. rewrite linked_src. eexists. split; [done|]. cbn.
    assert (u = t) as -> by congruence.
    rewrite list_lookup_insert_ne; [done|]. intros Ei. rewrite <- Ei, He in Heu.
    pose proof (tw_addr _ _ _ (Hwf q tq Hq)). naive_solver lia.
  - rewrite linked_other; [by eauto|done|congruence].
Qed.

Lemma linked_wf : heap_wf linked.
Proof.
  intros q tq Hq. destruct (decide (q = p)) as [->|Hqp]; [|destruct (decide (q = src)) as [->|Hqs]].
  - rewrite linked_p in Hq. injection Hq as <-. split; cbn; [done|apply length_replicate| | |].
    + intros ? ? e _ Hl Hne. apply lookup_replicate_Some in Hl. done.
    + intros _. rewrite linked_src. eexists. split; [done|]. cbn. split; [done|].
      apply list_lookup_insert_eq. by eapply lookup_lt_Some.
    + by destruct (level t); destruct l.
  - rewrite linked_src in Hq. injection Hq as <-.
    destruct (table_wf_shape h linked src t (Hwf src t Ht) linked_shape (linked_up src t Ht))
      as [Ha Hl Hd Hu Hr].
    split; cbn; [done|by rewrite length_insert| |done|done].
    intros l' i e Hl' Hi Hne. apply list_lookup_insert_Some in Hi as [(-> & <- & _)|(Hni & Hi)].
    + rewrite linked_p. eexists. split; [done|]. cbn. naive_solver.
    + by apply (Hd l').
  - rewrite linked_other in Hq by done.
    apply (table_wf_shape h); [by apply Hwf|apply linked_shape|by apply linked_up].
Qed.

Lemma linked_child_src : child linked src idx = Some p.
Proof.
  apply child_Some. eexists. split; [apply linked_src|]. cbn. split; [|lia].
  apply list_lookup_insert_eq. by eapply lookup_lt_Some.
Qed.

Lemma linked_child_p i : child linked p i = None.
Proof. unfold linked. rewrite child_insert_ne by apply src_ne_p. apply child_new_None. Qed.

Lemma linked_child q i :
  q ≠ p → ¬ (q = src ∧ i = idx) → child linked q i = child h q i.
Proof.
  intros Hqp Hn. destruct (decide (q = src)) as [->|Hne].
  - unfold child. rewrite linked_src, Ht. cbn. rewrite list_lookup_insert_ne; [done|naive_solver].
  - unfold child. by rewrite linked_other.
Qed.

Lemma linked_walk q tq path :
  h !! q = Some tq → length path = depth (level tq) → walk linked q path = walk h q path.
Proof.
  revert q tq. induction path as [|i path IH]; intros q tq Hq Hlen; [done|].
  cbn in *. assert (Hqp : q ≠ p) by congruence.
  destruct (decide (q = src ∧ i = idx)) as [[-> ->]|Hn].
  - rewrite linked_child_src. cbn. assert (tq = t) as -> by congruence.
    rewrite (child_entry h src t idx 0%Z Ht He), decide_True by done. cbn.
    apply depth_lower in Hlow. destruct path as [|j path]; cbn in *.
    + by destruct l; cbn in *; lia.
    + by rewrite linked_child_p.
  - rewrite linked_child by done. destruct (child h q i) as [c|] eqn:Hc; cbn; [|done].
    destruct (decide (level tq = One)) as [E|Hne].
    + rewrite E in Hlen. cbn in Hlen. by destruct path; cbn in *; [|lia].
    + destruct (child_wf h q i c tq Hwf Hq Hc Hne) as (tc & Htc & Hlow' & _).
      apply (IH c tc Htc). apply depth_lower in Hlow'. lia.
Qed.

(** Existing non-null entries stay. *)
Lemma linked_child_mono q i e : child h q i = Some e → child linked q i = Some e.
Proof.
  intros Hc. rewrite linked_child; [done| |].
  - apply child_Some in Hc as (tq & Hq & _). congruence.
  - intros [-> ->]. rewrite (child_entry h src t idx 0%Z Ht He), decide_True in Hc by done. done.
Qed.
End LinkFresh.
