(* ===== verification/RemotePageTable.v ===== *)
(** * [RemotePageTable] ([remote_mapping/page_table.rs])

    The four-level table of a forked address space: creation, lookup and
    insertion.  The abstract specification is a finite map from page numbers to
    page entries; [Rep] relates it to a table in the heap and every operation
    refines the corresponding operation on the map. *)

From S2P Require Import Prelude PageStructures PageHeap.

Record RemotePageTable := mkRemotePageTable {
  l4_page_table : Z;
  cnt : Z;
}.

#[export] Instance RemotePageTable_eq_dec : EqDecision RemotePageTable.
Proof. solve_decision. Defined.

(** ** Operations *)
Section Operations.
Context {vm : Vmalloc} {x86 : X86Crate}.

Definition create_table (h : heap) (index : nat) (src : Z) : outcome (Z * heap) :=
  pt ← deref h src;
  next_level ← PageTable_index pt index;
  if decide (next_level = 0%Z) then
    '(next_level, h1) ← new_from_upper h src index;
    h2 ← store_entry h1 src index next_level;
    Ret (next_level, h2)
  else Ret (next_level, h).

Definition lookup_table (h : heap) (index : nat) (src : Z) : outcome (option Z) :=
  pt ← deref h src;
  res ← PageTable_index pt index;
  if decide (res = 0%Z) then Ret None else Ret (Some res).

Definition RemotePageTable_new (h : heap) : outcome (RemotePageTable * heap) :=
  '(p, h1) ← box_new h PageTable_default;
  Ret (mkRemotePageTable p 0, h1).

Definition RemotePageTable_len (self : RemotePageTable) : Z := cnt self.

(** [for entry in self.l4_page_table.iter()] with its early return *)
Fixpoint all_zero (es : list Z) : bool :=
  match es with
  | [] => true
  | entry :: es' => if bool_decide (entry ≠ 0%Z) then false else all_zero es'
  end.

Definition RemotePageTable_is_empty (h : heap) (self : RemotePageTable) : outcome bool :=
  t ← deref h (l4_page_table self);
  Ret (all_zero (entries t)).

Definition find_l1_page_idx (h : heap) (self : RemotePageTable) (addr : Z)
    : outcome (option (Z * nat)) :=
  r3 ← lookup_table h (p4_index addr) (l4_page_table self);
  l3_pt ←? r3;
  r2 ← lookup_table h (p3_index addr) l3_pt;
  l2_pt ←? r2;
  r1 ← lookup_table h (p2_index addr) l2_pt;
  l1_pt ←? r1;
  Ret (Some (l1_pt, p1_index addr)).

Definition RemotePageTable_translate (h : heap) (self : RemotePageTable) (addr : Z)
    : outcome (option PhysAddr) :=
  r ← find_l1_page_idx h self addr;
  pi ←? r;
  let '(p, index) := pi in
  pt ← deref h p;
  e ← PageTable_index pt index;
  if bool_decide (e ≠ 0%Z) then Ret (Some (PhysAddr_new e)) else Ret None.

Definition map_to_the_l1 (h : heap) (self : RemotePageTable) (addr : Z)
    : outcome (Z * heap) :=
  '(l3_pt, h) ← create_table h (p4_index addr) (l4_page_table self);
  '(l2_pt, h) ← create_table h (p3_index addr) l3_pt;
  create_table h (p2_index addr) l2_pt.

Definition RemotePageTable_map (h : heap) (self : RemotePageTable) (addr : Z) (phy : PhysAddr)
    : outcome (option PhysAddr * RemotePageTable * heap) :=
  '(l1_pt, h) ← map_to_the_l1 h self addr;
  t ← deref h l1_pt;
  res ← PageTable_index t (p1_index addr);
  if decide (res = 0%Z) then
    h ← store_entry h l1_pt (p1_index addr) (PhysAddr_as_u64 phy);
    c ← u64_add (cnt self) 1;
    Ret (None, mkRemotePageTable (l4_page_table self) c, h)
  else Ret (Some (PhysAddr_new res), self, h).

Definition RemotePageTable_force_map (h : heap) (self : RemotePageTable) (addr : Z) (phy : PhysAddr)
    : outcome (RemotePageTable * heap) :=
  '(l1_pt, h) ← map_to_the_l1 h self addr;
  t ← deref h l1_pt;
  res ← PageTable_index t (p1_index addr);
  h ← store_entry h l1_pt (p1_index addr) (PhysAddr_as_u64 phy);
  if decide (res = 0%Z) then
    c ← u64_add (cnt self) 1;
    Ret (mkRemotePageTable (l4_page_table self) c, h)
  else Ret (self, h).
End Operations.

(** ** The abstract map *)

(** The page number of an address: the 36 bits above the page offset. *)
Definition vpn (v : Z) : Z := (v / 2 ^ 12 mod 2 ^ 36)%Z.

Definition vpn_path (n : Z) : list nat :=
  [Z.to_nat (n / 2 ^ 27 mod 512); Z.to_nat (n / 2 ^ 18 mod 512);
   Z.to_nat (n / 2 ^ 9 mod 512); Z.to_nat (n mod 512)].

Definition is_vpn (n : Z) : Prop := (0 ≤ n < 2 ^ 36)%Z.

(** [m] holds the page entries of the table rooted at [r]. *)
Record Rep (h : heap) (r : Z) (m : gmap Z Z) : Prop := {
  rep_root : is_root h r;
  rep_lookup n : is_vpn n → m !! n = walk h r (vpn_path n);
  rep_domain n : is_Some (m !! n) → is_vpn n;
}.

(** The heap invariant the operations keep. *)
Record pt_inv (h : heap) : Prop := {
  inv_wf : heap_wf h;
  inv_inner : inner_nonempty h;
}.

Lemma vpn_range v : is_vpn (vpn v).
Proof. apply Z.mod_pos_bound. lia. Qed.

Lemma vpn_digit v k :
  (0 ≤ k ≤ 27)%Z → (v / 2 ^ (12 + k) mod 512 = vpn v / 2 ^ k mod 512)%Z.
Proof.
  intros Hk. change 512%Z with (2 ^ 9)%Z. unfold vpn. bits_ext i Hi.
  destruct (decide (i < 9)%Z) as [Hlt|Hge].
  - rewrite !Z.mod_pow2_bits_low by lia. rewrite !Z.div_pow2_bits by lia.
    rewrite Z.mod_pow2_bits_low by lia. rewrite Z.div_pow2_bits by lia. f_equal. lia.
  - by rewrite !Z.mod_pow2_bits_high by lia.
Qed.

Lemma path_vpn `{X86CrateOk} v :
  is_u64 v → [p4_index v; p3_index v; p2_index v; p1_index v] = vpn_path (vpn v).
Proof.
  intros Hv. rewrite p4_index_spec, p3_index_spec, p2_index_spec, p1_index_spec by done.
  pose proof (vpn_digit v 0 ltac:(lia)) as E0. rewrite Z.div_1_r in E0.
  pose proof (vpn_digit v 9 ltac:(lia)). pose proof (vpn_digit v 18 ltac:(lia)).
  pose proof (vpn_digit v 27 ltac:(lia)).
  change (12 + 0)%Z with 12%Z in *. change (12 + 9)%Z with 21%Z in *.
  change (12 + 18)%Z with 30%Z in *. change (12 + 27)%Z with 39%Z in *.
  unfold vpn_path. by repeat (f_equal; [by f_equal|]); do 2 f_equal.
Qed.

Lemma vpn_path_inj n1 n2 : is_vpn n1 → is_vpn n2 → vpn_path n1 = vpn_path n2 → n1 = n2.
Proof.
  unfold is_vpn, vpn_path. intros H1 H2 [= E1 E2 E3 E4].
  apply Z2Nat.inj in E1, E2, E3, E4; try (apply Z.mod_pos_bound; lia).
  Z.to_euclidean_division_equations; lia.
Qed.

(** ** Lookup *)

Lemma deref_Some h p t : h !! p = Some t → deref h p = Ret t.
Proof. intros E. unfold deref. by rewrite E. Qed.

Lemma PageTable_index_Some t i e : entries t !! i = Some e → PageTable_index t i = Ret e.
Proof. intros E. unfold PageTable_index. by rewrite E. Qed.

Lemma table_entry h p t i :
  heap_wf h → h !! p = Some t → i < ENTRY_COUNT → ∃ e, entries t !! i = Some e.
Proof.
  intros Hwf Ht Hi. apply lookup_lt_is_Some. by rewrite (tw_length _ _ _ (Hwf p t Ht)).
Qed.

Lemma lookup_table_child h index src t :
  heap_wf h → h !! src = Some t → index < ENTRY_COUNT →
  lookup_table h index src = Ret (child h src index).
Proof.
  intros Hwf Ht Hi. destruct (table_entry h src t index Hwf Ht Hi) as [e He].
  unfold lookup_table. rewrite (deref_Some _ _ _ Ht). cbn.
  rewrite (PageTable_index_Some _ _ _ He). cbn.
  rewrite (child_entry h src t index e Ht He). by destruct (decide (e = 0%Z)).
Qed.

Definition path_ok (path : list nat) : Prop := Forall (λ i, i < ENTRY_COUNT) path.

Lemma vpn_path_ok n : path_ok (vpn_path n).
Proof.
  assert (Hd : ∀ x, Z.to_nat (x mod 512) < ENTRY_COUNT).
  { intros x. unfold ENTRY_COUNT. pose proof (Z.mod_pos_bound x 512). lia. }
  unfold path_ok, vpn_path. repeat (apply Forall_cons_2; [apply Hd|]). apply Forall_nil_2.
Qed.

Lemma addr_path_ok `{X86CrateOk} v :
  is_u64 v → path_ok [p4_index v; p3_index v; p2_index v; p1_index v].
Proof. intros Hv. rewrite path_vpn by done. apply vpn_path_ok. Qed.

(** The tables below a root on a path of at most three entries. *)
Lemma root_walk_table h r path e :
  heap_wf h → is_root h r → length path < 4 → walk h r path = Some e →
  ∃ t, h !! e = Some t ∧ 4 = length path + depth (level t).
Proof.
  intros Hwf (t & Ht & Hl) Hlen Hw.
  destruct (walk_table h r path t e) as (t' & Ht' & Hd); [done|done|by rewrite Hl|done|].
  rewrite Hl in Hd. eauto.
Qed.

Lemma find_l1_page_idx_walk `{X86CrateOk} h self addr :
  heap_wf h → is_root h (l4_page_table self) → is_u64 addr →
  find_l1_page_idx h self addr =
    Ret ((λ p, (p, p1_index addr)) <$>
      walk h (l4_page_table self) [p4_index addr; p3_index addr; p2_index addr]).
Proof.
  intros Hwf Hroot Hv. set (r := l4_page_table self).
  pose proof (addr_path_ok addr Hv) as Hp. unfold path_ok in Hp.
  apply Forall_cons in Hp as [H4 Hp]. apply Forall_cons in Hp as [H3 Hp].
  apply Forall_cons in Hp as [H2 _].
  assert (Hstep : ∀ path e i, length path < 4 → walk h r path = Some e → i < ENTRY_COUNT →
    lookup_table h i e = Ret (child h e i)).
  { intros path e i Hlen Hw Hi. destruct (root_walk_table h r path e) as (t & Ht & _); try done.
    by apply (lookup_table_child h i e t). }
  unfold find_l1_page_idx. fold r. cbn [walk].
  rewrite (Hstep [] r) by (done || (cbn; lia)). cbn.
  destruct (child h r (p4_index addr)) as [e3|] eqn:E3; cbn; [|done].
  rewrite (Hstep [p4_index addr] e3) by (done || (cbn; rewrite ?E3; cbn; done || lia)). cbn.
  destruct (child h e3 (p3_index addr)) as [e2|] eqn:E2; cbn; [|done].
  rewrite (Hstep [p4_index addr; p3_index addr] e2)
    by (done || (cbn; rewrite ?E3; cbn; rewrite ?E2; cbn; done || lia)). cbn.
  by destruct (child h e2 (p2_index addr)) as [e1|].
Qed.

Lemma translate_walk `{X86CrateOk} h self addr :
  heap_wf h → is_root h (l4_page_table self) → is_u64 addr →
  RemotePageTable_translate h self addr =
    Ret (PhysAddr_new <$> walk h (l4_page_table self) (vpn_path (vpn addr))).
Proof.
  intros Hwf Hroot Hv. unfold RemotePageTable_translate. rewrite find_l1_page_idx_walk by done. cbn [mbind outcome_bind].
  pose proof (addr_path_ok addr Hv) as Hp. rewrite <- path_vpn by done.
  change [p4_index addr; p3_index addr; p2_index addr; p1_index addr] with
    ([p4_index addr; p3_index addr; p2_index addr] ++ [p1_index addr]) in *.
  rewrite walk_snoc.
  destruct (walk h _ [p4_index addr; p3_index addr; p2_index addr]) as [e1|] eqn:E1; [|done].
  apply Forall_app in Hp as [_ Hi]. rewrite Forall_singleton in Hi.
  destruct (root_walk_table h _ [_; _; _] e1 Hwf Hroot ltac:(cbn; lia) E1) as (t1 & Ht1 & _).
  destruct (table_entry h e1 t1 _ Hwf Ht1 Hi) as [e He].
  cbn. rewrite (deref_Some _ _ _ Ht1). cbn. rewrite (PageTable_index_Some _ _ _ He). cbn.
  rewrite (child_entry h e1 t1 _ e Ht1 He).
  by destruct (decide (e = 0%Z)); [rewrite bool_decide_false by naive_solver|rewrite bool_decide_true].
Qed.

(** ** Insertion *)

(** [h'] has grown from [h] by linking empty tables: same tables, same pages. *)
Record grows (h h' : heap) : Prop := {
  gr_shape : same_shape h h';
  gr_walk q tq path :
    h !! q = Some tq → length path = depth (level tq) → walk h' q path = walk h q path;
  gr_child q i e : child h q i = Some e → child h' q i = Some e;
}.

#[export] Instance grows_reflexive : Reflexive grows.
Proof. intros h. split; eauto with mitosis. Qed.

#[export] Instance grows_transitive : Transitive grows.
Proof.
  intros h1 h2 h3 [S12 W12 C12] [S23 W23 C23]. split.
  - by eapply same_shape_trans.
  - intros q tq path Hq Hlen. destruct (S12 q tq Hq) as (t2 & Ht2 & Hl2 & _).
    rewrite (W23 q t2 path) by (done || by rewrite Hl2). by apply (W12 q tq).
  - eauto.
Qed.

(** A fresh table that no entry leads to changes nothing. *)
Lemma insert_fresh_grows h p t : heap_wf h → h !! p = None → grows h (<[p := t]> h).
Proof.
  intros Hwf Hp.
  assert (Hch : ∀ q i tq, h !! q = Some tq → child (<[p := t]> h) q i = child h q i)
    by (intros; apply child_insert_ne; congruence).
  split; [by apply same_shape_insert_fresh| |].
  - intros q tq path. revert q tq.
    induction path as [|i path IH]; intros q tq Hq Hlen; [done|]. cbn in *.
    rewrite (Hch _ _ _ Hq). destruct (child h q i) as [e|] eqn:Ec; cbn; [|done].
    destruct (decide (level tq = One)) as [E|Hne].
    + rewrite E in Hlen. cbn in Hlen. by destruct path; cbn in *; [|lia].
    + destruct (child_wf h q i e tq Hwf Hq Ec Hne) as (te & Hte & Hlow & _).
      apply (IH e te Hte). apply depth_lower in Hlow. lia.
  - intros q i e Hc. pose proof Hc as (tq & Hq & _)%child_Some. by rewrite (Hch _ _ _ Hq).
Qed.

Section Insertion.
Context {vm : Vmalloc} {vm_ok : VmallocOk} {x86 : X86Crate} {x86_ok : X86CrateOk}.

Lemma box_new_ok h t :
  size h < vm_capacity →
  ∃ p, box_new h t = Ret (p, <[p := t]> h) ∧ h !! p = None ∧ (0 < p < 2 ^ 64)%Z.
Proof.
  intros Hs. destruct (vmalloc_success (dom h)) as [p Hp]; [by rewrite size_dom|].
  exists p. unfold box_new. rewrite Hp. cbn. split_and!; [done| |by eapply vmalloc_addr..].
  apply not_elem_of_dom. by apply vmalloc_fresh.
Qed.

(** [create_table] returns the table under the entry, linking a fresh one when
    the entry is null. *)
Lemma create_table_ok h index src t l :
  heap_wf h → h !! src = Some t → next_lower_level (level t) = Some l →
  index < ENTRY_COUNT → size h < vm_capacity →
  ∃ p h', create_table h index src = Ret (p, h') ∧ heap_wf h' ∧ grows h h' ∧
    child h' src index = Some p ∧ (∃ tp, h' !! p = Some tp ∧ level tp = l) ∧
    size h' ≤ S (size h) ∧ (∀ q, is_Some (h' !! q) → is_Some (h !! q) ∨ q = p).
Proof.
  intros Hwf Ht Hlow Hi Hs. destruct (table_entry h src t index Hwf Ht Hi) as [e He].
  unfold create_table. rewrite (deref_Some _ _ _ Ht). cbn.
  rewrite (PageTable_index_Some _ _ _ He). cbn. pose proof (child_entry _ _ _ _ _ Ht He) as Hc.
  destruct (decide (e = 0%Z)) as [->|Hne].
  - destruct (box_new_ok h (PageTable_new l src index) Hs) as (p & Hb & Hp & Hpos).
    exists p, (linked h src t index l p).
    unfold new_from_upper, get_level. rewrite (deref_Some _ _ _ Ht). cbn. rewrite Hlow. cbn.
    rewrite Hb. cbn. unfold store_entry, deref. rewrite lookup_insert_ne by congruence.
    rewrite Ht. cbn. unfold PageTable_index_mut.
    rewrite decide_True by (by eapply lookup_lt_Some). cbn.
    split_and!.
    + done.
    + apply linked_wf; [done..|lia].
    + split; [by apply linked_shape|intros; eapply linked_walk; eauto; lia|by apply linked_child_mono].
    + apply linked_child_src; [done|lia].
    + eexists. split; [by apply linked_p|done].
    + unfold linked. rewrite map_size_insert_Some; [|rewrite lookup_insert_ne; [by eauto|congruence]].
      by rewrite map_size_insert_None.
    + intros q Hq. destruct (decide (q = p)) as [->|]; [by right|]. left.
      destruct (decide (q = src)) as [->|]; [by eauto|]. by rewrite linked_other in Hq.
  - exists e, h. destruct (tw_down _ _ _ (Hwf _ _ Ht) l index e) as (te & Hte & Hl & _); [done..|].
    split_and!; [done|done|reflexivity|done|by eauto|lia|by auto].
Qed.

Lemma map_to_the_l1_ok h self addr :
  pt_inv h → is_root h (l4_page_table self) → is_u64 addr → size h + 3 ≤ vm_capacity →
  ∃ l1 t1 h', map_to_the_l1 h self addr = Ret (l1, h') ∧ pt_inv h' ∧ grows h h' ∧
    walk h' (l4_page_table self) [p4_index addr; p3_index addr; p2_index addr] = Some l1 ∧
    h' !! l1 = Some t1 ∧ level t1 = One ∧ size h' ≤ 3 + size h.
Proof.
  intros [Hwf Hin] (t4 & Ht4 & Hl4) Hv Hs.
  pose proof (addr_path_ok addr Hv) as Hp. unfold path_ok in Hp.
  apply Forall_cons in Hp as [H4 Hp]. apply Forall_cons in Hp as [H3 Hp].
  apply Forall_cons in Hp as [H2 _]. unfold map_to_the_l1.
  destruct (create_table_ok h (p4_index addr) (l4_page_table self) t4 Three)
    as (l3 & h3 & -> & Hwf3 & G3 & C3 & (t3 & Ht3 & Hl3) & S3 & D3);
    [done|done|by rewrite Hl4|done|lia|]. cbn.
  destruct (create_table_ok h3 (p3_index addr) l3 t3 Two)
    as (l2 & h2 & -> & Hwf2 & G2 & C2 & (t2 & Ht2 & Hl2) & S2 & D2);
    [done|done|by rewrite Hl3|done|lia|]. cbn.
  destruct (create_table_ok h2 (p2_index addr) l2 t2 One)
    as (l1 & h1 & -> & Hwf1 & G1 & C1 & (t1 & Ht1 & Hl1) & S1 & D1);
    [done|done|by rewrite Hl2|done|lia|].
  assert (G : grows h h1) by (by etrans; [|etrans]).
  exists l1, t1, h1. split_and!; [done| |done| |done|done|lia].
  - split; [done|]. intros q tq Hq Hl.
    destruct (D1 q) as [Hq2| ->]; [by eauto| |by destruct Hl; congruence].
    destruct (D2 q Hq2) as [Hq3| ->]; [|by eauto].
    destruct (D3 q Hq3) as [[t0 Hq0]| ->]; [|by eauto using gr_child].
    destruct (gr_shape _ _ G q t0 Hq0) as (t' & Ht' & Hlev & _).
    destruct (Hin q t0 Hq0) as [i [e He]]; [by replace (level t0) with (level tq) by congruence|].
    exists i. by erewrite gr_child.
  - cbn. rewrite (gr_child _ _ G1 _ _ _ (gr_child _ _ G2 _ _ _ C3)). cbn.
    rewrite (gr_child _ _ G1 _ _ _ C2). cbn. by rewrite C1.
Qed.

End Insertion.

(** A store of [v] at page [n] seen on the abstract map: zero unmaps. *)
Definition store_page (n v : Z) (m : gmap Z Z) : gmap Z Z :=
  if decide (v = 0%Z) then delete n m else <[n := v]> m.

Lemma grows_Rep h h' r m : grows h h' → Rep h r m → Rep h' r m.
Proof.
  intros G [Hr Hl Hd]. split; [by eapply same_shape_root; [apply gr_shape|]| |done].
  intros n Hn. rewrite Hl by done. destruct Hr as (t & Ht & Hlev).
  symmetry. apply (gr_walk _ _ G r t); [done|by rewrite Hlev].
Qed.

(** After a store into a level-one table, exactly one page of one root has
    changed. *)
Lemma stored_walk_pages h r r' pre pre' l1 t1 i j v :
  heap_wf h → is_root h r → is_root h r' → h !! l1 = Some t1 → level t1 = One →
  walk h r pre = Some l1 → length pre = 3 → length pre' = 3 → i < ENTRY_COUNT →
  walk (stored h l1 t1 i v) r' (pre' ++ [j]) =
    if decide (r' = r ∧ pre' = pre ∧ j = i) then (if decide (v = 0%Z) then None else Some v)
    else walk h r' (pre' ++ [j]).
Proof.
  intros Hwf Hr Hr' Ht1 Hl1 Hw Hlen Hlen' Hi. rewrite !walk_snoc.
  pose proof Hr' as (t' & Ht' & Hlev').
  rewrite (stored_walk_tables h l1 t1 i v) with (tq := t') by (done || rewrite Hlev'; cbn; lia).
  destruct (walk h r' pre') as [e|] eqn:He; cbn.
  - destruct (decide (l1 = e)) as [<-|Hne].
    + destruct (walk_inj h r' r pre' pre l1) as [-> ->]; [done..|lia|lia|done|done|].
      rewrite stored_child by done. rewrite (tw_length _ _ _ (Hwf l1 t1 Ht1)).
      destruct (decide (j = i)) as [->|Hji].
      * rewrite decide_True by done. by rewrite (decide_True (P := _ ∧ _)) by done.
      * rewrite decide_False by tauto. by rewrite (decide_False (P := _ ∧ _)) by tauto.
    + rewrite stored_child_ne by done. rewrite decide_False; [done|].
      intros (-> & -> & ->). congruence.
  - rewrite decide_False; [done|]. intros (-> & -> & ->). congruence.
Qed.

Lemma vpn_path_app n : ∃ pre i, vpn_path n = pre ++ [i] ∧ length pre = 3.
Proof. by exists (take 3 (vpn_path n)), (Z.to_nat (n mod 512)). Qed.

(** The same on the abstract maps. *)
Lemma stored_Rep h r r' n pre i l1 t1 v m :
  heap_wf h → is_root h r → is_vpn n → vpn_path n = pre ++ [i] →
  walk h r pre = Some l1 → h !! l1 = Some t1 → level t1 = One → Rep h r' m →
  Rep (stored h l1 t1 i v) r' (if decide (r' = r) then store_page n v m else m).
Proof.
  intros Hwf Hr Hn Hpath Hw Ht1 Hl1 [Hr' Hlk Hdom].
  assert (Hlen : length pre = 3) by (apply (f_equal length) in Hpath; rewrite length_app in Hpath; cbn in Hpath; lia).
  assert (Hi : i < ENTRY_COUNT).
  { pose proof (vpn_path_ok n) as Hok. rewrite Hpath in Hok. apply Forall_app in Hok as [_ Hok].
    by rewrite Forall_singleton in Hok. }
  split.
  - by eapply same_shape_root; [apply same_shape_set_entries|].
  - intros n' Hn'. destruct (vpn_path_app n') as (pre' & j & Hp' & Hlen').
    rewrite Hp'. rewrite (stored_walk_pages h r r' pre pre') by done. rewrite <- Hp', <- Hlk by done.
    assert (Heq : n' = n ↔ pre' = pre ∧ j = i).
    { split; [intros ->; rewrite Hp' in Hpath; by apply app_inj_tail in Hpath|].
      intros [-> ->]. apply vpn_path_inj; congruence. }
    unfold store_page. destruct (decide (r' = r)) as [->|]; [|by rewrite decide_False by tauto].
    destruct (decide (n' = n)) as [->|Hne].
    + rewrite (decide_True (P := _ ∧ _)) by (by destruct (proj1 Heq eq_refl)).
      destruct (decide (v = 0%Z)); [apply lookup_delete_eq|apply lookup_insert_eq].
    + rewrite (decide_False (P := _ ∧ _)) by tauto.
      destruct (decide (v = 0%Z)); [by apply lookup_delete_ne|by apply lookup_insert_ne].
  - intros n' Hn'. destruct (decide (n' = n)) as [->|Hne]; [done|]. apply Hdom.
    unfold store_page in Hn'. repeat case_decide; [rewrite lookup_delete_ne in Hn'|rewrite lookup_insert_ne in Hn'|]; done.
Qed.

(** ** Refinement of the abstract map *)

(** [self] represents [m]: its pages are those of [m] and it counts them. *)
Record rpt_ok (h : heap) (self : RemotePageTable) (m : gmap Z Z) : Prop := {
  ok_rep : Rep h (l4_page_table self) m;
  ok_cnt : cnt self = Z.of_nat (size m);
}.

Lemma Rep_size h r m : Rep h r m → (Z.of_nat (size m) ≤ 2 ^ 36)%Z.
Proof.
  intros HR. assert (size m ≤ Z.to_nat (2 ^ 36)); [|lia].
  apply map_size_bound. intros k Hk. rewrite Z2Nat.id by lia. by eapply rep_domain.
Qed.

Section Refinement.
Context {vm : Vmalloc} {vm_ok : VmallocOk} {x86 : X86Crate} {x86_ok : X86CrateOk}.

(** Where an insertion at [addr] ends up: a grown heap that holds the level-one
    table of [addr], whose entry is the abstract binding (zero for none). *)
Lemma insertion_point h self m addr :
  pt_inv h → Rep h (l4_page_table self) m → is_u64 addr → size h + 3 ≤ vm_capacity →
  ∃ l1 t1 h1 e, map_to_the_l1 h self addr = Ret (l1, h1) ∧ pt_inv h1 ∧ grows h h1 ∧
    h1 !! l1 = Some t1 ∧ level t1 = One ∧ size h1 ≤ 3 + size h ∧
    entries t1 !! p1_index addr = Some e ∧
    m !! vpn addr = (if decide (e = 0%Z) then None else Some e) ∧
    ∀ v, store_entry h1 l1 (p1_index addr) v = Ret (stored h1 l1 t1 (p1_index addr) v) ∧
      pt_inv (stored h1 l1 t1 (p1_index addr) v) ∧
      ∀ r' m', Rep h r' m' → Rep (stored h1 l1 t1 (p1_index addr) v) r'
        (if decide (r' = l4_page_table self) then store_page (vpn addr) v m' else m').
Proof.
  intros Hinv HR Hv Hs.
  destruct (map_to_the_l1_ok h self addr Hinv (rep_root _ _ _ HR) Hv Hs)
    as (l1 & t1 & h1 & Hm & Hinv1 & G & Hw & Ht1 & Hl1 & Hsz).
  pose proof (addr_path_ok addr Hv) as Hp. pose proof (path_vpn addr Hv) as Hpath.
  change [p4_index addr; p3_index addr; p2_index addr; p1_index addr] with
    ([p4_index addr; p3_index addr; p2_index addr] ++ [p1_index addr]) in Hp, Hpath.
  apply Forall_app in Hp as [_ Hi]. rewrite Forall_singleton in Hi.
  destruct (table_entry h1 l1 t1 _ (inv_wf _ Hinv1) Ht1 Hi) as [e He].
  exists l1, t1, h1, e. split_and!; try done.
  - rewrite (rep_lookup _ _ _ (grows_Rep _ _ _ _ G HR)) by apply vpn_range.
    rewrite <- Hpath, walk_snoc, Hw. cbn. by apply (child_entry h1 l1 t1).
  - intros v. split_and!.
    + unfold store_entry. rewrite (deref_Some _ _ _ Ht1). cbn. unfold PageTable_index_mut.
      by rewrite decide_True by (by eapply lookup_lt_Some).
    + destruct Hinv1. split; [by apply stored_wf|by apply stored_inner].
    + intros r' m' HR'. eapply stored_Rep; try done.
      * apply Hinv1.
      * by eapply same_shape_root; [apply gr_shape|apply HR].
      * apply vpn_range.
      * by eapply grows_Rep.
Qed.

(** The other tables of the heap keep their pages. *)
Definition others_kept (h h' : heap) (r : Z) : Prop :=
  ∀ r' m', r' ≠ r → Rep h r' m' → Rep h' r' m'.

(** [map] is insert-if-absent: it returns the page already mapped at the address
    and leaves the map alone, or returns [None] and adds the binding.  It
    allocates at most three tables, keeps the heap invariant and counts the
    new page. *)
Lemma RemotePageTable_map_ok h self m addr phy :
  pt_inv h → rpt_ok h self m → is_u64 addr → pa_0 phy ≠ 0%Z → size h + 3 ≤ vm_capacity →
  ∃ self' h',
    RemotePageTable_map h self addr phy = Ret (PhysAddr_new <$> m !! vpn addr, self', h') ∧
    pt_inv h' ∧ l4_page_table self' = l4_page_table self ∧
    rpt_ok h' self'
      (match m !! vpn addr with Some _ => m | None => <[vpn addr := pa_0 phy]> m end) ∧
    size h' ≤ 3 + size h ∧ others_kept h h' (l4_page_table self).
Proof.
  intros Hinv [HR Hcnt] Hv Hphy Hs.
  destruct (insertion_point h self m addr Hinv HR Hv Hs)
    as (l1 & t1 & h1 & e & Hm & Hinv1 & G & Ht1 & Hl1 & Hsz & He & Hlk & Hst).
  unfold RemotePageTable_map. rewrite Hm. cbn. rewrite (deref_Some _ _ _ Ht1). cbn.
  rewrite (PageTable_index_Some _ _ _ He). cbn.
  destruct (decide (e = 0%Z)) as [->|Hne]; rewrite Hlk.
  - destruct (Hst (PhysAddr_as_u64 phy)) as (-> & Hinv2 & HRs). cbn.
    pose proof (Rep_size _ _ _ HR). rewrite u64_add_Ret by (unfold is_u64; lia). cbn.
    eexists _, _. split_and!; [done|done|done| | |].
    + specialize (HRs _ _ HR). rewrite decide_True in HRs by done.
      unfold store_page in HRs. rewrite decide_False in HRs by done. split; [done|].
      cbn. rewrite map_size_insert_None by done. lia.
    + unfold stored. by rewrite map_size_insert_Some by eauto.
    + intros r' m' Hne HR'. specialize (HRs r' m' HR'). by rewrite decide_False in HRs.
  - cbn. eexists _, _. split_and!; [done|done|done| |done|].
    + split; [by eapply grows_Rep|done].
    + intros r' m' _. by apply grows_Rep.
Qed.

(** [force_map] is insert: the new page replaces whatever was mapped, and the
    count only grows when nothing was. *)
Lemma RemotePageTable_force_map_ok h self m addr phy :
  pt_inv h → rpt_ok h self m → is_u64 addr → pa_0 phy ≠ 0%Z → size h + 3 ≤ vm_capacity →
  ∃ self' h',
    RemotePageTable_force_map h self addr phy = Ret (self', h') ∧
    pt_inv h' ∧ l4_page_table self' = l4_page_table self ∧
    rpt_ok h' self' (<[vpn addr := pa_0 phy]> m) ∧
    size h' ≤ 3 + size h ∧ others_kept h h' (l4_page_table self).
Proof.
  intros Hinv [HR Hcnt] Hv Hphy Hs.
  destruct (insertion_point h self m addr Hinv HR Hv Hs)
    as (l1 & t1 & h1 & e & Hm & Hinv1 & G & Ht1 & Hl1 & Hsz & He & Hlk & Hst).
  unfold RemotePageTable_force_map. rewrite Hm. cbn. rewrite (deref_Some _ _ _ Ht1). cbn.
  rewrite (PageTable_index_Some _ _ _ He). cbn.
  destruct (Hst (PhysAddr_as_u64 phy)) as (-> & Hinv2 & HRs). cbn.
  assert (Hsz' : size (stored h1 l1 t1 (p1_index addr) (pa_0 phy)) ≤ 3 + size h)
    by (unfold stored; by rewrite map_size_insert_Some by eauto).
  assert (Hoth : others_kept h (stored h1 l1 t1 (p1_index addr) (pa_0 phy)) (l4_page_table self)).
  { intros r' m' Hne HR'. specialize (HRs r' m' HR'). by rewrite decide_False in HRs. }
  specialize (HRs _ _ HR). rewrite decide_True in HRs by done.
  unfold store_page in HRs. rewrite decide_False in HRs by done.
  destruct (decide (e = 0%Z)) as [->|Hne].
  - pose proof (Rep_size _ _ _ HR). rewrite u64_add_Ret by (unfold is_u64; lia). cbn.
    eexists _, _. split_and!; [done|done|done| |done|done]. split; [done|].
    cbn. rewrite map_size_insert_None by done. lia.
  - eexists _, _. split_and!; [done|done|done| |done|done]. split; [done|].
    rewrite map_size_insert_Some by eauto. lia.
Qed.

(** [new] makes an empty table beside the existing ones. *)
Lemma RemotePageTable_new_ok h :
  pt_inv h → size h < vm_capacity →
  ∃ self h', RemotePageTable_new h = Ret (self, h') ∧ pt_inv h' ∧ rpt_ok h' self ∅ ∧
    size h' = S (size h) ∧ h !! l4_page_table self = None ∧
    others_kept h h' (l4_page_table self).
Proof.
  intros [Hwf Hin] Hs. destruct (box_new_ok h PageTable_default Hs) as (p & Hb & Hp & Hpos).
  assert (Hch : ∀ q i, q ≠ p → child (<[p := PageTable_default]> h) q i = child h q i)
    by (intros; by apply child_insert_ne).
  assert (Hsh : same_shape h (<[p := PageTable_default]> h)) by (by apply same_shape_insert_fresh).
  unfold RemotePageTable_new. rewrite Hb. cbn. eexists _, _. split_and!; [done| | | |done|].
  - split; intros q tq Hq; (destruct (decide (q = p)) as [->|Hne];
      [rewrite lookup_insert_eq in Hq; injection Hq as <-|rewrite lookup_insert_ne in Hq by done]).
    + split; cbn; [lia|apply length_replicate|intros ? ? ? _ Hl|done|done].
      by apply lookup_replicate_Some in Hl.
    + eapply table_wf_shape; [by apply Hwf|done|]. intros H4.
      destruct (tw_up _ _ _ (Hwf q tq Hq) H4) as (u & Hu & _ & He).
      exists u. rewrite lookup_insert_ne; [done|congruence].
    + by intros [?|?].
    + intros Hl. destruct (Hin q tq Hq Hl) as [i Hi]. exists i. by rewrite Hch.
  - split; [|done]. cbn. split.
    + exists PageTable_default. by rewrite lookup_insert_eq.
    + intros n _. rewrite lookup_empty. cbn [vpn_path walk]. unfold PageTable_default. by rewrite child_new_None.
    + intros n. rewrite lookup_empty. by intros [].
  - by rewrite map_size_insert_None.
  - intros r m _. apply grows_Rep. by apply insert_fresh_grows.
Qed.
End Refinement.

Section LookupRefinement.
Context {x86 : X86Crate} {x86_ok : X86CrateOk}.

(** [translate] is lookup in the abstract map; it neither panics nor follows a
    dangling pointer. *)
Lemma RemotePageTable_translate_ok h self m addr :
  pt_inv h → Rep h (l4_page_table self) m → is_u64 addr →
  RemotePageTable_translate h self addr = Ret (PhysAddr_new <$> m !! vpn addr).
Proof.
  intros Hinv HR Hv. rewrite translate_walk by (done || apply Hinv || apply HR).
  by rewrite (rep_lookup _ _ _ HR) by apply vpn_range.
Qed.
End LookupRefinement.

Lemma all_zero_true es : all_zero es = true ↔ ∀ i e, es !! i = Some e → e = 0%Z.
Proof.
  induction es as [|e es IH]; cbn; [by split|].
  case_bool_decide as He; split.
  - done.
  - intros Hall. by destruct He, (Hall 0 e).
  - intros Hz [|i] e' Hi; cbn in Hi; [|by eapply (proj1 IH)].
    injection Hi as <-. by destruct (decide (e = 0%Z)).
  - intros Hall. apply IH. intros i. apply (Hall (S i)).
Qed.

(** [is_empty] tells whether no table hangs off the level-four table, and then
    nothing is mapped. *)
Theorem is_empty_sound h self m :
  pt_inv h → Rep h (l4_page_table self) m →
  ∃ b, RemotePageTable_is_empty h self = Ret b ∧
    (b = true ↔ ∀ i, child h (l4_page_table self) i = None) ∧ (b = true → m = ∅).
Proof.
  intros Hinv HR. destruct (rep_root _ _ _ HR) as (t & Ht & Hl).
  unfold RemotePageTable_is_empty. rewrite (deref_Some _ _ _ Ht). cbn. eexists. split; [done|].
  assert (Hiff : all_zero (entries t) = true ↔ ∀ i, child h (l4_page_table self) i = None).
  { rewrite all_zero_true. split.
    - intros Hz i. apply eq_None_ne_Some_2. intros e (t' & ? & He & Hne)%child_Some.
      simplify_eq. by apply Hz in He.
    - intros Hn i e He. destruct (decide (e = 0%Z)) as [|Hne]; [done|].
      specialize (Hn i). by rewrite (child_entry h _ t i e Ht He), decide_False in Hn. }
  split; [done|]. rewrite Hiff. intros Hn. apply map_eq. intros n. rewrite lookup_empty.
  apply eq_None_not_Some. intros Hs. pose proof (rep_domain _ _ _ HR n Hs) as Hvpn.
  rewrite (rep_lookup _ _ _ HR n Hvpn) in Hs. cbn in Hs. rewrite Hn in Hs. by destruct Hs.
Qed.

(** ** Sequences of operations *)

Inductive pt_op :=
| OpMap (addr phy : Z)
| OpForceMap (addr phy : Z)
| OpTranslate (addr : Z)
| OpLen.

Inductive pt_out :=
| OutPage (o : option PhysAddr)
| OutUnit
| OutLen (n : Z).

Definition op_valid (o : pt_op) : Prop :=
  match o with
  | OpMap addr phy | OpForceMap addr phy => is_u64 addr ∧ phy ≠ 0%Z
  | OpTranslate addr => is_u64 addr
  | OpLen => True
  end.

(** One operation on the abstract map. *)
Definition abs_op (m : gmap Z Z) (o : pt_op) : pt_out * gmap Z Z :=
  match o with
  | OpMap addr phy =>
      (OutPage (PhysAddr_new <$> m !! vpn addr),
       match m !! vpn addr with Some _ => m | None => <[vpn addr := phy]> m end)
  | OpForceMap addr phy => (OutUnit, <[vpn addr := phy]> m)
  | OpTranslate addr => (OutPage (PhysAddr_new <$> m !! vpn addr), m)
  | OpLen => (OutLen (Z.of_nat (size m)), m)
  end.

Fixpoint abs_run (m : gmap Z Z) (ops : list pt_op) : list pt_out * gmap Z Z :=
  match ops with
  | [] => ([], m)
  | o :: ops' =>
      let '(out, m1) := abs_op m o in
      let '(outs, m2) := abs_run m1 ops' in (out :: outs, m2)
  end.

Section Sequences.
Context {vm : Vmalloc} {x86 : X86Crate}.

Definition conc_op (h : heap) (self : RemotePageTable) (o : pt_op)
    : outcome (pt_out * RemotePageTable * heap) :=
  match o with
  | OpMap addr phy =>
      '(r, self, h) ← RemotePageTable_map h self addr (PhysAddr_new phy);
      Ret (OutPage r, self, h)
  | OpForceMap addr phy =>
      '(self, h) ← RemotePageTable_force_map h self addr (PhysAddr_new phy);
      Ret (OutUnit, self, h)
  | OpTranslate addr =>
      r ← RemotePageTable_translate h self addr;
      Ret (OutPage r, self, h)
  | OpLen => Ret (OutLen (RemotePageTable_len self), self, h)
  end.

Fixpoint conc_run (h : heap) (self : RemotePageTable) (ops : list pt_op)
    : outcome (list pt_out * RemotePageTable * heap) :=
  match ops with
  | [] => Ret ([], self, h)
  | o :: ops' =>
      '(out, self, h) ← conc_op h self o;
      '(outs, self, h) ← conc_run h self ops';
      Ret (out :: outs, self, h)
  end.

Context {vm_ok : VmallocOk} {x86_ok : X86CrateOk}.

Lemma conc_op_ok h self m o :
  pt_inv h → rpt_ok h self m → op_valid o → size h + 3 ≤ vm_capacity →
  ∃ self' h', conc_op h self o = Ret ((abs_op m o).1, self', h') ∧
    pt_inv h' ∧ rpt_ok h' self' (abs_op m o).2 ∧ l4_page_table self' = l4_page_table self ∧
    size h' ≤ 3 + size h ∧ others_kept h h' (l4_page_table self).
Proof.
  intros Hinv Hok Hv Hs. destruct o as [addr phy|addr phy|addr|]; cbn in Hv |- *.
  - destruct Hv as [Hv Hphy].
    destruct (RemotePageTable_map_ok h self m addr (PhysAddr_new phy)) as (self' & h' & E & Hr); [done..|].
    rewrite E. cbn. exists self', h'. naive_solver.
  - destruct Hv as [Hv Hphy].
    destruct (RemotePageTable_force_map_ok h self m addr (PhysAddr_new phy)) as (self' & h' & E & Hr); [done..|].
    rewrite E. cbn. exists self', h'. naive_solver.
  - rewrite (RemotePageTable_translate_ok h self m) by (done || apply Hok). cbn.
    exists self, h. split_and!; [done..|lia|]. by intros r' m' _.
  - exists self, h. split_and!; [|done..|lia|by intros r' m' _].
    unfold RemotePageTable_len. by rewrite (ok_cnt _ _ _ Hok).
Qed.

(** C2: Any sequence of insertions, lookups and length queries on one table returns
    what the same sequence returns on the abstract map, and ends in a table
    that represents the final map; no step panics or leaves the heap, and every
    other table keeps its pages. *)
Theorem page_table_refines_map ops h self m :
  pt_inv h → rpt_ok h self m → Forall op_valid ops →
  size h + 3 * length ops ≤ vm_capacity →
  ∃ self' h', conc_run h self ops = Ret ((abs_run m ops).1, self', h') ∧
    pt_inv h' ∧ rpt_ok h' self' (abs_run m ops).2 ∧
    l4_page_table self' = l4_page_table self ∧ others_kept h h' (l4_page_table self).
Proof.
  revert h self m. induction ops as [|o ops IH]; intros h self m Hinv Hok Hv Hs.
  - exists self, h. split_and!; try done. by intros r' m' _.
  - apply Forall_cons in Hv as [Ho Hv]. cbn in Hs |- *.
    destruct (conc_op_ok h self m o) as (s1 & h1 & E & Hinv1 & Hok1 & Hr1 & Hs1 & Hk1);
      [done..|lia|].
    rewrite E. destruct (abs_op m o) as [out m1]. cbn in *.
    destruct (IH h1 s1 m1) as (s2 & h2 & E2 & Hinv2 & Hok2 & Hr2 & Hk2); [done..|lia|].
    rewrite E2. destruct (abs_run m1 ops) as [outs m2]. cbn in *.
    exists s2, h2. split_and!; [done..|congruence|].
    intros r' m' Hne HR. apply Hk2; [congruence|]. by apply Hk1.
Qed.
End Sequences.

(** ** Instances *)

(** A heap with one empty table, in a vmalloc area of 32 blocks. *)
Definition area32 : Vmalloc := slot_Vmalloc 32.

Lemma area32_ok : VmallocOk (H := area32).
Proof. by apply slot_Vmalloc_ok. Qed.

Definition one_root : heap := <[4096%Z := PageTable_default]> ∅.
Definition root_rpt : RemotePageTable := mkRemotePageTable 4096 0.

Lemma pt_inv_empty : pt_inv ∅.
Proof. split; [apply heap_wf_empty|]. intros p t. by rewrite lookup_empty. Qed.

Lemma one_root_ok : pt_inv one_root ∧ rpt_ok one_root root_rpt ∅.
Proof.
  pose proof area32_ok as Hok.
  destruct (RemotePageTable_new_ok (vm := area32) ∅ pt_inv_empty) as (self & h & E & Hinv & Hr & _).
  { rewrite map_size_empty. cbn. lia. }
  assert (E' : RemotePageTable_new (vm := area32) ∅ = Ret (root_rpt, one_root)) by reflexivity.
  rewrite E' in E. injection E as <- <-. done.
Qed.

Lemma page_table_refines_map_witness :
  ∃ h', conc_run (vm := area32) (x86 := x86_reference) one_root root_rpt
      [OpMap 4096 40960; OpTranslate 4100; OpMap 4097 8192; OpForceMap 8192 4; OpLen]
    = Ret ([OutPage None; OutPage (Some (PhysAddr_new 40960)); OutPage (Some (PhysAddr_new 40960));
            OutUnit; OutLen 2], mkRemotePageTable 4096 2, h') ∧ pt_inv h'.
Proof.
  destruct one_root_ok as [Hinv Hok].
  destruct (page_table_refines_map (vm := area32) (vm_ok := area32_ok) (x86 := x86_reference)
    [OpMap 4096 40960; OpTranslate 4100; OpMap 4097 8192; OpForceMap 8192 4; OpLen]
    one_root root_rpt ∅ Hinv Hok) as (self' & h' & E & Hinv' & Hok' & Hr & _).
  - repeat constructor; (unfold is_u64; lia) || done.
  - vm_compute. lia.
  - exists h'. split; [|done]. rewrite E. repeat f_equal; [|vm_compute; reflexivity..].
    destruct Hok' as [_ Hc]. destruct self' as [r c]. cbn in Hr, Hc. by subst.
Defined.

Lemma is_empty_sound_witness :
  ∃ b, RemotePageTable_is_empty one_root root_rpt = Ret b ∧ b = true.
Proof.
  destruct one_root_ok as [Hinv Hok].
  destruct (is_empty_sound one_root root_rpt ∅ Hinv (ok_rep _ _ _ Hok)) as (b & E & Hiff & _).
  exists b. split; [done|]. apply Hiff. intros i. apply child_new_None.
Defined.

(** A table with two pages under different level-three tables. *)
Definition run_op (hs : heap * RemotePageTable) (o : pt_op) : heap * RemotePageTable :=
  match conc_op (vm := area32) (x86 := x86_reference) hs.1 hs.2 o with
  | Ret (_, self, h) => (h, self)
  | _ => hs
  end.

Definition two_pages : heap * RemotePageTable :=
  run_op (run_op (one_root, root_rpt) (OpMap 4096 40960)) (OpMap (2 ^ 40) 8192).

Lemma run_op_ok hs m o :
  pt_inv hs.1 → rpt_ok hs.1 hs.2 m → op_valid o → size hs.1 + 3 ≤ 32 →
  pt_inv (run_op hs o).1 ∧ rpt_ok (run_op hs o).1 (run_op hs o).2 (abs_op m o).2 ∧
  size (run_op hs o).1 ≤ 3 + size hs.1.
Proof.
  intros Hinv Hok Hv Hs.
  destruct (conc_op_ok (vm := area32) (vm_ok := area32_ok) (x86 := x86_reference) hs.1 hs.2 m o)
    as (self & h & E & ? & ? & _ & ? & _); [done..|].
  unfold run_op. rewrite E. done.
Qed.

Lemma two_pages_ok :
  pt_inv two_pages.1 ∧
  rpt_ok two_pages.1 two_pages.2 (<[(2 ^ 28)%Z := 8192%Z]> (<[1%Z := 40960%Z]> ∅)).
Proof.
  destruct one_root_ok as [Hinv Hok].
  assert (Hv : ∀ v, (0 ≤ v < 2 ^ 64)%Z → is_u64 v) by done.
  assert (size one_root = 1) as Hsz by reflexivity.
  destruct (run_op_ok (one_root, root_rpt) ∅ (OpMap 4096 40960)) as (Hinv1 & Hok1 & Hs1); cbn [fst snd].
  - done.
  - done.
  - split; [by apply Hv|done].
  - lia.
  - destruct (run_op_ok (run_op (one_root, root_rpt) (OpMap 4096 40960)) (<[1%Z := 40960%Z]> ∅)
      (OpMap (2 ^ 40) 8192)) as (Hinv2 & Hok2 & _); [done..| | |done].
    + split; [by apply Hv|done].
    + cbn [fst] in Hs1. lia.
Qed.
