(* ===== verification/PageIter.v ===== *)
(** * [RemotePageTableIter] ([remote_mapping/page_table.rs])

    The iterator over the mapped pages of a table.  It walks the level-one
    tables from left to right through the upper links.  The main results: [next]
    returns the first mapped page after the current position, and draining an
    iterator lists the mapped pages once each, in increasing order. *)

From Stdlib Require Import Sorted.
From S2P Require Import Prelude PageStructures PageHeap RemotePageTable.

Record PageEntry := mkPageEntry {
  page : Z;
  index : nat;
  addr : PhysAddr;
}.

#[export] Instance PageEntry_eq_dec : EqDecision PageEntry.
Proof. solve_decision. Defined.

Definition PageEntry_default : PageEntry := mkPageEntry 0 0 (PhysAddr_new 0).

(** [NeedPrefetch for PageEntry] *)
Definition PageEntry_need_prefetch (e : PageEntry) : bool :=
  negb (PhysAddr_bottom_bit (addr e)).

Record RemotePageTableIter := mkIter {
  cur_page : Z;
  cur_idx : Z;
}.

(** ** Operations *)

(** The [while] loop of [find_the_first_level_one_page]. *)
Fixpoint first_level_one_loop (fuel : nat) (h : heap) (cur : Z) : outcome (option Z) :=
  match fuel with
  | 0 => NoFuel
  | S fuel =>
      t ← deref h cur;
      if decide (get_level t = One) then Ret (Some cur)
      else
        r ← find_valid_entry t 0;
        idx ←? r;
        e ← PageTable_index t idx;
        first_level_one_loop fuel h e
  end.

(** Four levels, so at most four tests of the loop condition. *)
Definition find_the_first_level_one_page (h : heap) (src : Z) : outcome (option Z) :=
  first_level_one_loop 4 h src.

Fixpoint next_neighbour_rec (fuel : nat) (h : heap) (src : Z) : outcome (option Z) :=
  match fuel with
  | 0 => NoFuel
  | S fuel =>
      t ← deref h src;
      if decide (get_upper_level_page t = 0%Z) then Ret None
      else
        upper ← deref h (get_upper_level_page t);
        r ← find_valid_entry upper (get_upper_level_page_index t + 1);
        match r with
        | Some idx => e ← PageTable_index upper idx; Ret (Some e)
        | None =>
            r' ← next_neighbour_rec fuel h (get_upper_level_page t);
            u ←? r';
            upper' ← deref h u;
            r'' ← find_valid_entry upper' 0;
            idx ←? r'';
            e ← PageTable_index upper' idx;
            Ret (Some e)
        end
  end.

(** The recursion climbs one level per call and stops at the level-four table. *)
Definition find_the_next_neighbour (h : heap) (src : Z) : outcome (option Z) :=
  next_neighbour_rec 4 h src.

(** The [loop] of [Iterator::next]; one round per level-one table. *)
Fixpoint next_loop (fuel : nat) (h : heap) (it : RemotePageTableIter)
    : outcome (option PageEntry * RemotePageTableIter) :=
  match fuel with
  | 0 => NoFuel
  | S fuel =>
      t ← deref h (cur_page it);
      let idx1 := (cur_idx it + 1)%Z in
      found ← (if (Z.of_nat ENTRY_COUNT <=? idx1)%Z then Ret None
               else find_valid_entry t (Z.to_nat idx1));
      match found with
      | Some idx =>
          e ← PageTable_index t idx;
          Ret (Some (mkPageEntry (cur_page it) idx (PhysAddr_new e)),
               mkIter (cur_page it) (Z.of_nat idx))
      | None =>
          r ← find_the_next_neighbour h (cur_page it);
          match r with
          | None => Ret (None, mkIter (cur_page it) (-1))
          | Some next_page => next_loop fuel h (mkIter next_page (-1))
          end
      end
  end.

Definition Iter_next (h : heap) (it : RemotePageTableIter)
    : outcome (option PageEntry * RemotePageTableIter) :=
  next_loop (S (size h)) h it.

Definition Iter_new (h : heap) (pt : RemotePageTable) : outcome (option RemotePageTableIter) :=
  r ← find_the_first_level_one_page h (l4_page_table pt);
  p ←? r;
  Ret (Some (mkIter p (-1))).

Definition Iter_clone (it : RemotePageTableIter) : RemotePageTableIter :=
  mkIter (cur_page it) (cur_idx it).

Definition Iter_new_from_l1 (l4_page : Z) (idx : nat) : RemotePageTableIter :=
  mkIter l4_page (Z.of_nat idx).

(** A [for] loop over the iterator, collecting what it yields. *)
Fixpoint Iter_drain (fuel : nat) (h : heap) (it : RemotePageTableIter)
    : outcome (list PageEntry) :=
  match fuel with
  | 0 => NoFuel
  | S fuel =>
      '(r, it) ← Iter_next h it;
      match r with
      | None => Ret []
      | Some e => es ← Iter_drain fuel h it; Ret (e :: es)
      end
  end.

(** ** [find_valid_entry] finds the first non-null entry *)

Lemma find_valid_loop_ok t n start :
  start + n = length (entries t) →
  ∃ r, find_valid_loop t (seq start n) = Ret r ∧
  match r with
  | Some i => ∃ e, start ≤ i ∧ entries t !! i = Some e ∧ e ≠ 0%Z ∧
      ∀ j, start ≤ j < i → entries t !! j = Some 0%Z
  | None => ∀ j e, start ≤ j → entries t !! j = Some e → e = 0%Z
  end.
Proof.
  revert start. induction n as [|n IH]; intros start Hlen; cbn.
  - eexists. split; [done|]. cbn. intros j e Hj He%lookup_lt_Some. lia.
  - destruct (lookup_lt_is_Some_2 (entries t) start) as [e0 He0]; [lia|].
    rewrite (PageTable_index_Some _ _ _ He0). cbn. case_bool_decide as Hz.
    + eexists. split; [done|]. exists e0. split_and!; [done..|]. intros j. lia.
    + assert (e0 = 0%Z) as -> by (by destruct (decide (e0 = 0%Z))).
      destruct (IH (S start)) as (r & -> & Hr); [lia|]. exists r. split; [done|].
      destruct r as [i|].
      * destruct Hr as (e & Hi & He & Hne & Hj). exists e. split_and!; [lia|done..|].
        intros j ?. destruct (decide (j = start)) as [->|]; [done|]. apply Hj. lia.
      * intros j e Hj He. destruct (decide (j = start)) as [->|]; [congruence|].
        apply (Hr j); [lia|done].
Qed.

(** The result of a search from [start], in terms of [child]. *)
Definition first_child (h : heap) (p : Z) (start : nat) (r : option nat) : Prop :=
  match r with
  | Some i => ∃ e, start ≤ i < ENTRY_COUNT ∧ child h p i = Some e ∧
      ∀ j, start ≤ j < i → child h p j = None
  | None => ∀ j, start ≤ j → child h p j = None
  end.

Lemma find_valid_entry_ok h p t start :
  heap_wf h → h !! p = Some t →
  ∃ r, find_valid_entry t start = Ret r ∧ first_child h p start r.
Proof.
  intros Hwf Ht. pose proof (tw_length _ _ _ (Hwf p t Ht)) as Hlen. unfold find_valid_entry.
  destruct (decide (start ≤ ENTRY_COUNT)) as [Hle|Hgt].
  - destruct (find_valid_loop_ok t (ENTRY_COUNT - start) start) as (r & -> & Hr); [lia|].
    exists r. split; [done|]. destruct r as [i|]; cbn.
    + destruct Hr as (e & Hi & He & Hne & Hj). exists e. split_and!; [done| | |].
      * apply lookup_lt_Some in He. lia.
      * rewrite (child_entry h p t i e Ht He). by rewrite decide_False.
      * intros j ?. by rewrite (child_entry h p t j 0%Z Ht) by auto.
    + intros j Hj. apply eq_None_ne_Some_2. intros e (t' & ? & He & Hne)%child_Some.
      simplify_eq. by apply (Hr j e) in Hj.
  - replace (ENTRY_COUNT - start) with 0 by lia. exists None. split; [done|].
    intros j Hj. apply eq_None_ne_Some_2. intros e (t' & ? & He%lookup_lt_Some & _)%child_Some.
    simplify_eq. lia.
Qed.

Lemma child_index h p t i e :
  h !! p = Some t → child h p i = Some e → PageTable_index t i = Ret e.
Proof.
  intros Ht (t' & Ht' & He & _)%child_Some. simplify_eq. by apply PageTable_index_Some.
Qed.

(** ** Tables by number

    The tables [k] levels below a root are numbered from left to right:
    [tab h r k n] is the one number [n], [0 ≤ n < 512 ^ k]. *)
Fixpoint path_of (k : nat) (n : Z) : list nat :=
  match k with
  | 0 => []
  | S k => path_of k (n / 512) ++ [Z.to_nat (n mod 512)]
  end.

Definition tab (h : heap) (r : Z) (k : nat) (n : Z) : option Z := walk h r (path_of k n).

Definition tab_bound (k : nat) : Z := (512 ^ Z.of_nat k)%Z.
#[global] Arguments tab_bound : simpl never.

Lemma path_of_length k n : length (path_of k n) = k.
Proof. revert n. induction k as [|k IH]; intros n; cbn; [done|]. rewrite length_app, IH. cbn. lia. Qed.

Lemma tab_S h r k n :
  tab h r (S k) n = tab h r k (n / 512) ≫= λ e, child h e (Z.to_nat (n mod 512)).
Proof. unfold tab. cbn [path_of]. apply walk_snoc. Qed.

Lemma tab_S_digit h r k n (i : nat) :
  i < ENTRY_COUNT → tab h r (S k) (n * 512 + Z.of_nat i) = tab h r k n ≫= λ e, child h e i.
Proof.
  intros Hi. unfold ENTRY_COUNT in Hi. rewrite tab_S.
  rewrite Z.div_add_l by lia. rewrite Z.div_small, Z.add_0_r by lia.
  rewrite Z.add_comm, Z.mod_add by lia. rewrite Z.mod_small by lia. by rewrite Nat2Z.id.
Qed.

Lemma tab_bound_S k : tab_bound (S k) = (tab_bound k * 512)%Z.
Proof. unfold tab_bound. rewrite Nat2Z.inj_succ, Z.pow_succ_r by lia. lia. Qed.

Lemma vpn_path_of n : is_vpn n → vpn_path n = path_of 4 n.
Proof.
  intros Hn. unfold is_vpn in Hn. cbn. unfold vpn_path. rewrite !Z.div_div by lia.
  change (512 * 512)%Z with (2 ^ 18)%Z. change (512 * 2 ^ 18)%Z with (2 ^ 27)%Z.
  change (2 ^ 18 * 512)%Z with (2 ^ 27)%Z. done.
Qed.

Section Neighbours.
Context (h : heap) (Hinv : pt_inv h) (r : Z) (Hr : is_root h r).

Abbreviation tab := (tab h r).

Lemma tab_table k n x :
  k < 4 → tab k n = Some x → ∃ t, h !! x = Some t ∧ 4 = k + depth (level t).
Proof.
  intros Hk Hx. destruct (root_walk_table h r (path_of k n) x) as (t & Ht & Hd).
  - apply Hinv.
  - done.
  - by rewrite path_of_length.
  - done.
  - rewrite path_of_length in Hd. eauto.
Qed.

Lemma tab_digit k n i x :
  i < ENTRY_COUNT → tab k n = Some x → tab (S k) (n * 512 + Z.of_nat i) = child h x i.
Proof. intros Hi Hx. rewrite tab_S_digit by done. by rewrite Hx. Qed.

Lemma div_digit n :
  (0 ≤ n)%Z → ∃ i, i < ENTRY_COUNT ∧ n = (n / 512 * 512 + Z.of_nat i)%Z ∧ (0 ≤ n / 512)%Z.
Proof.
  intros Hn. pose proof (Z.mod_pos_bound n 512). pose proof (Z.div_mod n 512).
  exists (Z.to_nat (n mod 512)). unfold ENTRY_COUNT.
  pose proof (Z.div_pos n 512). split_and!; lia.
Qed.

(** The children of the table number [q] from [start] on. *)
Lemma first_child_before k q x start res n :
  tab k q = Some x → first_child h x start res →
  (q * 512 + Z.of_nat start ≤ n < (q + 1) * 512)%Z →
  (∀ i, res = Some i → (n < q * 512 + Z.of_nat i)%Z) → tab (S k) n = None.
Proof.
  intros Hx Hf Hn Hlt. assert (n = q * 512 + Z.of_nat (Z.to_nat (n - q * 512)))%Z as -> by lia.
  rewrite (tab_digit k q _ x) by (done || unfold ENTRY_COUNT; lia).
  destruct res as [i|]; cbn in Hf.
  - destruct Hf as (e & ? & _ & Hj). apply Hj. specialize (Hlt i eq_refl). lia.
  - apply Hf. lia.
Qed.

Lemma tab_None_below k n : tab k (n / 512) = None → tab (S k) n = None.
Proof. intros Hn. rewrite tab_S. by rewrite Hn. Qed.

(** No table strictly between two numbers. *)
Definition gap (k : nat) (a b : Z) : Prop := ∀ n, (a < n < b)%Z → tab k n = None.

Lemma gap_app k a b c : gap k a b → gap k (b - 1) c → gap k a c.
Proof. intros H1 H2 n Hn. destruct (decide (n < b)%Z); [apply H1|apply H2]; lia. Qed.

Lemma gap_children k q u start :
  tab k q = Some u → first_child h u start None →
  gap (S k) (q * 512 + Z.of_nat start - 1) ((q + 1) * 512).
Proof. intros Hu Hf n Hn. eapply (first_child_before k q u start None); [done|done|lia|done]. Qed.

Lemma gap_children_until k q u start j :
  tab k q = Some u → first_child h u start (Some j) →
  gap (S k) (q * 512 + Z.of_nat start - 1) (q * 512 + Z.of_nat j).
Proof.
  intros Hu Hf n Hn. pose proof Hf as (e & [_ Hj] & _). unfold ENTRY_COUNT in Hj.
  eapply (first_child_before k q u start (Some j)); [done|done|lia|]. intros ? [= <-]. lia.
Qed.

Lemma gap_below k a b : (-1 ≤ a)%Z → gap k a b → gap (S k) ((a + 1) * 512 - 1) (b * 512).
Proof.
  intros Ha Hg n Hn. apply tab_None_below, Hg.
  destruct (div_digit n) as (d & Hd & En & _); [lia|]. unfold ENTRY_COUNT in Hd. lia.
Qed.

(** [res] is the first table after number [n] at depth [k]. *)
Definition after (k : nat) (n : Z) (res : option Z) : Prop :=
  match res with
  | Some y => ∃ n', (n < n' < tab_bound k)%Z ∧ tab k n' = Some y ∧ gap k n n'
  | None => gap k n (tab_bound k)
  end.

(** The link of a table names its number's upper part and last digit. *)
Lemma tab_links k q i x :
  S k < 4 → i < ENTRY_COUNT → tab (S k) (q * 512 + Z.of_nat i) = Some x →
  ∃ t u, h !! x = Some t ∧ tab k q = Some u ∧ upper_level t = u ∧
    upper_level_index t = i ∧ (0 < u)%Z ∧ ∃ tu, h !! u = Some tu ∧ 4 = k + depth (level tu).
Proof.
  intros Hk Hi Hx. rewrite tab_S_digit in Hx by done.
  apply bind_Some in Hx as (u & Hu & Hc).
  destruct (tab_table k q u) as (tu & Htu & Hd); [lia|done|].
  destruct (child_wf h u i x tu) as (t & Ht & _ & Hup & Hidx); [apply Hinv|done|done| |].
  { intros E. rewrite E in Hd. cbn in Hd. lia. }
  exists t, u. split_and!; try done; [|by eauto].
  apply (tw_addr _ _ _ (inv_wf _ Hinv u tu Htu)).
Qed.

Lemma inner_first_child x t :
  h !! x = Some t → level t = Two ∨ level t = Three →
  ∃ i e, find_valid_entry t 0 = Ret (Some i) ∧ first_child h x 0 (Some i) ∧
    child h x i = Some e ∧ PageTable_index t i = Ret e.
Proof.
  intros Ht Hl. destruct (find_valid_entry_ok h x t 0 (inv_wf _ Hinv) Ht) as (res & E & Hf).
  destruct res as [i|].
  - pose proof Hf as (e & _ & Hc & _). exists i, e. split_and!; try done. by eapply child_index.
  - destruct (inv_inner _ Hinv x t Ht Hl) as [j [e Hj]]. cbn in Hf. rewrite Hf in Hj by lia. done.
Qed.

Lemma depth_inner k l : 4 = k + depth l → 0 < k < 3 → l = Two ∨ l = Three.
Proof. destruct l; cbn; lia || by auto. Qed.

Lemma tab_root_number n x : tab 0 n = Some x → x = r.
Proof. by intros [= <-]. Qed.

(** Case one of the search: a child of the same table, from [start] on. *)
Lemma after_sibling k q start j u y :
  (0 ≤ q < tab_bound k)%Z → tab k q = Some u → first_child h u start (Some j) →
  child h u j = Some y → after (S k) (q * 512 + Z.of_nat start - 1) (Some y).
Proof.
  intros Hq Hu Hf Hy. pose proof Hf as (e & [Hij Hj] & _ & _).
  exists (q * 512 + Z.of_nat j)%Z. split_and!.
  - lia.
  - rewrite tab_bound_S. unfold ENTRY_COUNT in Hj. lia.
  - by rewrite (tab_digit k q j u).
  - by eapply gap_children_until.
Qed.

(** Case two: the first child of the next table. *)
Lemma after_cousin k a b j u y :
  (-1 ≤ a)%Z → after k a (Some u) → first_child h u 0 (Some j) → child h u j = Some y →
  gap (S k) b ((a + 1) * 512) → (b < (a + 1) * 512)%Z → after (S k) b (Some y).
Proof.
  intros Ha (q & Hq & Hu & Hbetween) Hf Hy Hgap Hb. pose proof Hf as (e & [_ Hj] & _ & _).
  unfold ENTRY_COUNT in *. exists (q * 512 + Z.of_nat j)%Z. split_and!.
  - lia.
  - rewrite tab_bound_S. lia.
  - by rewrite (tab_digit k q j u).
  - eapply gap_app; [exact Hgap|]. eapply gap_app; [by apply gap_below|].
    replace (q * 512 - 1)%Z with (q * 512 + Z.of_nat 0 - 1)%Z by lia. by eapply gap_children_until.
Qed.

(** No next table: nothing to the right at all. *)
Lemma after_none k a b :
  (-1 ≤ a)%Z → after k a None → gap (S k) b ((a + 1) * 512) → after (S k) b None.
Proof.
  intros Ha Hnone Hgap. cbn in *. rewrite tab_bound_S.
  eapply gap_app; [exact Hgap|]. by apply gap_below.
Qed.

Lemma next_neighbour_ok k fuel n x :
  k < fuel → k < 4 → (0 ≤ n < tab_bound k)%Z → tab k n = Some x →
  ∃ res, next_neighbour_rec fuel h x = Ret res ∧ after k n res.
Proof.
  revert fuel n x. induction k as [|k IH]; intros fuel n x Hfuel Hk Hn Hx.
  - destruct fuel as [|fuel]; [lia|]. apply tab_root_number in Hx as ->.
    destruct Hr as (t & Ht & Hl). exists None. cbn. rewrite (deref_Some _ _ _ Ht). cbn.
    rewrite decide_True by (by apply (tw_root _ _ _ (inv_wf _ Hinv r t Ht))). split; [done|].
    intros n'' Hn''. unfold tab_bound in *. cbn in *. lia.
  - destruct fuel as [|fuel]; [lia|]. rewrite tab_bound_S in Hn.
    destruct (div_digit n) as (i & Hi & En & Hq0); [lia|]. set (q := (n / 512)%Z) in *.
    rewrite En in Hx. destruct (tab_links k q i x Hk Hi Hx) as (t & u & Ht & Hu & Eu & Ei & Hpos & tu & Htu & Hd).
    cbn [next_neighbour_rec]. rewrite (deref_Some _ _ _ Ht). cbn [mbind outcome_bind].
    unfold get_upper_level_page, get_upper_level_page_index. rewrite Eu, Ei.
    rewrite decide_False by lia. rewrite (deref_Some _ _ _ Htu). cbn [mbind outcome_bind].
    destruct (find_valid_entry_ok h u tu (i + 1) (inv_wf _ Hinv) Htu) as (res & -> & Hf).
    assert (Hqb : (0 ≤ q < tab_bound k)%Z) by (unfold ENTRY_COUNT in Hi; lia).
    assert (Epos : (q * 512 + Z.of_nat i = q * 512 + Z.of_nat (i + 1) - 1)%Z) by lia.
    cbn [mbind outcome_bind]. rewrite En. destruct res as [j|].
    + pose proof Hf as (e & _ & Hc & _). rewrite (child_index h u tu j e) by done.
      exists (Some e). split; [done|]. rewrite Epos. by eapply after_sibling.
    + destruct (IH fuel q u) as (res & -> & Hafter); [lia|lia|done|done|]. cbn [mbind outcome_bind].
      pose proof (gap_children k q u (i + 1) Hu Hf) as Hgap. rewrite <- Epos in Hgap.
      destruct res as [u'|]; [|exists None; split; [done|apply (after_none k q); [lia|done..]]].
      pose proof Hafter as (q' & Hq' & Hu' & _).
      destruct (tab_table k q' u') as (tu' & Htu' & Hd'); [lia|done|].
      destruct (inner_first_child u' tu' Htu') as (j & e & E1 & Hf' & Hc & E2).
      { apply (depth_inner k); [done|]. destruct k; [|lia].
        unfold tab_bound in *. cbn in *. lia. }
      rewrite (deref_Some _ _ _ Htu'). cbn. rewrite E1. cbn. rewrite E2. cbn.
      exists (Some e). split; [done|]. unfold ENTRY_COUNT in Hi.
      apply (after_cousin k q _ j u'); (done || lia).
Qed.

(** The descent to the first level-one table. *)
Lemma after_root : after 0 (-1) (Some r).
Proof.
  exists 0%Z. split_and!; [by compute..|]. intros n Hn. lia.
Qed.

Lemma first_level_one_ok k fuel cur :
  k ≤ 3 → 3 - k < fuel → after k (-1) (Some cur) →
  ∃ res, first_level_one_loop fuel h cur = Ret res ∧ after 3 (-1) res.
Proof.
  revert k cur. induction fuel as [|fuel IH]; intros k cur Hk Hfuel Hafter; [lia|].
  pose proof Hafter as (q & Hq & Hcur & _).
  destruct (tab_table k q cur) as (t & Ht & Hd); [lia|done|].
  cbn [first_level_one_loop]. rewrite (deref_Some _ _ _ Ht). cbn [mbind outcome_bind]. unfold get_level.
  destruct (decide (level t = One)) as [E|Hne].
  - rewrite E in Hd. cbn in Hd. assert (k = 3) as -> by lia. by exists (Some cur).
  - assert (k < 3) by (destruct (level t); cbn in Hd; naive_solver lia).
    destruct (find_valid_entry_ok h cur t 0 (inv_wf _ Hinv) Ht) as (res & -> & Hf).
    cbn [mbind outcome_bind]. destruct res as [j|].
    + pose proof Hf as (e & _ & Hc & _). rewrite (child_index h cur t j e) by done.
      apply (IH (S k)); [lia|lia|]. apply (after_cousin k (-1) _ j cur); (done || lia || idtac).
      intros n Hn. lia.
    + exists None. split; [done|]. destruct k as [|k].
      * assert (Hroot : after 1 (-1) None).
        { apply tab_root_number in Hcur as ->. intros n Hn. unfold tab_bound in Hn. cbn in Hn.
          eapply (first_child_before 0 0 r 0 None); [done|done|lia|done]. }
        apply (after_none 2 (-1)); [lia|apply (after_none 1 (-1))|]; [lia|done|..]; intros n Hn; lia.
      * destruct (inner_first_child cur t Ht) as (i & e & _ & _ & Hc & _).
        { apply (depth_inner (S k)); [done|lia]. }
        cbn in Hf. rewrite Hf in Hc by lia. done.
Qed.

(** ** [next] *)

(** The position of an iterator as a page number: everything up to it has been
    passed. *)
Definition iter_pos (it : RemotePageTableIter) (pos : Z) : Prop :=
  ∃ q, (0 ≤ q < tab_bound 3)%Z ∧ tab 3 q = Some (cur_page it) ∧
    (-1 ≤ cur_idx it < 512)%Z ∧ pos = (q * 512 + cur_idx it)%Z.

(** What [next] returns at [pos]: the first mapped page after [pos], the table and
    index it is at, and an iterator that stands on it. *)
Definition next_result (pos : Z) (res : option PageEntry * RemotePageTableIter) : Prop :=
  match res with
  | (Some pe, it') => ∃ n, (pos < n < tab_bound 4)%Z ∧ tab 4 n = Some (pa_0 (addr pe)) ∧
      gap 4 pos n ∧ tab 3 (n / 512) = Some (page pe) ∧
      index pe = Z.to_nat (n mod 512) ∧ iter_pos it' n
  | (None, it') => gap 4 pos (tab_bound 4) ∧ cur_idx it' = (-1)%Z
  end.

Lemma next_result_gap pos b res :
  (pos < b)%Z → gap 4 pos b → next_result (b - 1) res → next_result pos res.
Proof.
  intros Hb Hg. destruct res as [[pe|] it']; cbn.
  - intros (n & Hn & Ht & Hg' & Hrest). exists n. split; [lia|]. split; [done|].
    split; [by eapply gap_app|done].
  - intros [Hg' ?]. split; [|done]. by eapply gap_app.
Qed.

Lemma tab_inj k n1 n2 x :
  k < 4 → (0 ≤ n1 < tab_bound k)%Z → (0 ≤ n2 < tab_bound k)%Z →
  tab k n1 = Some x → tab k n2 = Some x → n1 = n2.
Proof.
  intros Hk H1 H2 E1 E2. destruct (walk_inj h r r (path_of k n1) (path_of k n2) x) as [_ E].
  - apply Hinv.
  - done.
  - done.
  - by rewrite !path_of_length.
  - by rewrite path_of_length.
  - done.
  - done.
  - clear E1 E2 Hk. revert n1 n2 H1 H2 E. induction k as [|k IH]; intros n1 n2 H1 H2 E.
    + unfold tab_bound in *. cbn in *. lia.
    + cbn in E. apply app_inj_tail in E as [E Ed]. rewrite tab_bound_S in *.
      pose proof (Z.mod_pos_bound n1 512). pose proof (Z.mod_pos_bound n2 512).
      pose proof (Z.div_mod n1 512). pose proof (Z.div_mod n2 512).
      assert (n1 / 512 = n2 / 512)%Z by (apply IH; [lia|lia|done]). lia.
Qed.

(** One round of the loop: the rest of the current page. *)
Lemma page_search q x t idx :
  (0 ≤ q < tab_bound 3)%Z → tab 3 q = Some x → h !! x = Some t → (-1 ≤ idx < 512)%Z →
  ∃ found, (if (Z.of_nat ENTRY_COUNT <=? idx + 1)%Z then Ret None
            else find_valid_entry t (Z.to_nat (idx + 1))) = Ret found ∧
    first_child h x (Z.to_nat (idx + 1)) found.
Proof.
  intros Hq Hx Ht Hidx. change (Z.of_nat ENTRY_COUNT) with 512%Z.
  destruct (Z.leb_spec 512 (idx + 1)).
  - exists None. split; [done|]. intros j Hj. apply eq_None_ne_Some_2.
    intros e (t' & ? & He%lookup_lt_Some & _)%child_Some. simplify_eq.
    rewrite (tw_length _ _ _ (inv_wf _ Hinv x t Ht)) in He. unfold ENTRY_COUNT in He. lia.
  - apply (find_valid_entry_ok h x t). apply Hinv. done.
Qed.

(** A page found in the table number [q]. *)
Lemma page_found q x idx i e :
  (0 ≤ q < tab_bound 3)%Z → tab 3 q = Some x → (-1 ≤ idx < 512)%Z →
  first_child h x (Z.to_nat (idx + 1)) (Some i) → child h x i = Some e →
  next_result (q * 512 + idx) (Some (mkPageEntry x i (PhysAddr_new e)), mkIter x (Z.of_nat i)).
Proof.
  intros Hq Hx Hidx Hf Hc. pose proof Hf as (e' & [Hi1 Hi2] & _ & _).
  assert (Hdiv : ((q * 512 + Z.of_nat i) / 512 = q)%Z)
    by (unfold ENTRY_COUNT in Hi2; rewrite Z.div_add_l, Z.div_small by lia; lia).
  assert (Hmod : ((q * 512 + Z.of_nat i) mod 512 = Z.of_nat i)%Z)
    by (unfold ENTRY_COUNT in Hi2; rewrite Z.add_comm, Z.mod_add, Z.mod_small by lia; lia).
  pose proof (tab_bound_S 3) as Hb. unfold ENTRY_COUNT in *.
  exists (q * 512 + Z.of_nat i)%Z. cbn [addr page index pa_0 PhysAddr_new].
  rewrite Hdiv, Hmod. split_and!; [lia|lia| | |done|lia|].
  - by rewrite (tab_digit 3 q i x).
  - pose proof (gap_children_until 3 q x _ i Hx Hf) as Hg.
    by replace (q * 512 + Z.of_nat (Z.to_nat (idx + 1)) - 1)%Z with (q * 512 + idx)%Z in Hg by lia.
  - exists q. cbn. split_and!; (done || lia).
Qed.

Lemma next_loop_ok fuel (X : gset Z) q x idx :
  (0 ≤ q < tab_bound 3)%Z → tab 3 q = Some x → (-1 ≤ idx < 512)%Z →
  (∀ y, y ∈ X → ∃ q0, (0 ≤ q0 < q)%Z ∧ tab 3 q0 = Some y) →
  size h < fuel + size X →
  ∃ res, next_loop fuel h (mkIter x idx) = Ret res ∧ next_result (q * 512 + idx) res.
Proof.
  revert X q x idx. induction fuel as [|fuel IH]; intros X q x idx Hq Hx Hidx HX Hfuel.
  - exfalso. assert (size X ≤ size h); [|lia]. rewrite <- (size_dom (D := gset Z)). apply subseteq_size.
    intros y (q0 & _ & Hy)%HX. destruct (tab_table 3 q0 y) as (t & Ht & _); [lia|done|].
    by apply elem_of_dom_2 in Ht.
  - destruct (tab_table 3 q x) as (t & Ht & _); [lia|done|].
    cbn [next_loop cur_page cur_idx]. rewrite (deref_Some _ _ _ Ht). cbn [mbind outcome_bind].
    destruct (page_search q x t idx Hq Hx Ht Hidx) as (found & -> & Hf).
    cbn [mbind outcome_bind]. destruct found as [i|].
    + pose proof Hf as (e & _ & Hc & _). rewrite (child_index h x t i e) by done.
      eexists. split; [done|]. by apply page_found.
    + pose proof (gap_children 3 q x _ Hx Hf) as Hg.
      replace (q * 512 + Z.of_nat (Z.to_nat (idx + 1)) - 1)%Z with (q * 512 + idx)%Z in Hg by lia.
      destruct (next_neighbour_ok 3 4 q x) as (res & E & Hafter); [lia|lia|done|done|].
      unfold find_the_next_neighbour. rewrite E. cbn [mbind outcome_bind]. destruct res as [y|].
      * destruct Hafter as (q' & Hq' & Hy & Hgap).
        destruct (IH ({[x]} ∪ X) q' y (-1)%Z) as (res & E' & Hres); [lia|done|lia| | |].
        { intros z [->%elem_of_singleton|(q0 & ? & ?)%HX]%elem_of_union; [|exists q0; naive_solver lia].
          exists q. split; [lia|done]. }
        { rewrite size_union, size_singleton; [lia|]. apply disjoint_singleton_l.
          intros (q0 & ? & Hq0)%HX. assert (q0 = q) by (eapply (tab_inj 3); (done || lia)). lia. }
        exists res. split; [done|]. apply (next_result_gap _ (q' * 512)); [lia| |].
        { eapply gap_app; [exact Hg|]. apply gap_below; [lia|done]. }
        by replace (q' * 512 - 1)%Z with (q' * 512 + -1)%Z by lia.
      * eexists. split; [done|]. split; [|done].
        eapply gap_app; [exact Hg|]. rewrite tab_bound_S. apply gap_below; [lia|done].
Qed.
End Neighbours.

(** ** Iteration over the abstract map *)

Lemma is_vpn_bound n : is_vpn n ↔ (0 ≤ n < tab_bound 4)%Z.
Proof. done. Qed.

Lemma Rep_tab h r m n : Rep h r m → is_vpn n → m !! n = tab h r 4 n.
Proof. intros HR Hn. rewrite (rep_lookup _ _ _ HR n Hn). unfold tab. by rewrite vpn_path_of. Qed.

Lemma Rep_gap h r m a b n :
  Rep h r m → (-1 ≤ a)%Z → gap h r 4 a b → (a < n)%Z → (n < b ∨ b = tab_bound 4)%Z → m !! n = None.
Proof.
  intros HR Ha Hg Hn Hb. apply eq_None_not_Some. intros Hs.
  pose proof (rep_domain _ _ _ HR n Hs) as Hv. rewrite (Rep_tab h r m n HR Hv), Hg in Hs.
  - by destruct Hs.
  - pose proof (proj1 (is_vpn_bound n) Hv). lia.
Qed.

(** [pe] is the entry of page [n] of the table rooted at [r]. *)
Definition entry_at (h : heap) (r : Z) (m : gmap Z Z) (n : Z) (pe : PageEntry) : Prop :=
  m !! n = Some (pa_0 (addr pe)) ∧ tab h r 3 (n / 512) = Some (page pe) ∧
  index pe = Z.to_nat (n mod 512).

Section Iteration.
Context (h : heap) (Hinv : pt_inv h) (r : Z) (m : gmap Z Z) (HR : Rep h r m).

Lemma iter_pos_range it pos : iter_pos h r it pos → (-1 ≤ pos < tab_bound 4)%Z.
Proof. intros (q & Hq & _ & Hi & ->). rewrite tab_bound_S. lia. Qed.

Lemma Iter_next_ok it pos :
  iter_pos h r it pos →
  ∃ res it', Iter_next h it = Ret (res, it') ∧
  match res with
  | Some pe => ∃ n, (pos < n)%Z ∧ entry_at h r m n pe ∧
      (∀ n', (pos < n' < n)%Z → m !! n' = None) ∧ iter_pos h r it' n
  | None => ∀ n', (pos < n')%Z → m !! n' = None
  end.
Proof.
  intros Hpos. pose proof (iter_pos_range it pos Hpos) as Hrange.
  destruct Hpos as (q & Hq & Hx & Hi & ->). destruct it as [x idx]. cbn in *.
  destruct (next_loop_ok h Hinv r (rep_root _ _ _ HR) (S (size h)) ∅ q x idx) as ([res it'] & E & Hres);
    [done|done|done|set_solver|rewrite size_empty; lia|].
  exists res, it'. split; [done|]. destruct res as [pe|]; cbn in Hres.
  - destruct Hres as (n & Hn & Ht & Hg & Hp & Hidx & Hpos'). exists n.
    assert (Hv : is_vpn n) by (apply (proj2 (is_vpn_bound n)); lia).
    split_and!; [lia| | |done].
    + split_and!; [by rewrite (Rep_tab h r m n HR Hv)|done|done].
    + intros n' Hn'. apply (Rep_gap h r m (q * 512 + idx) n); [done|lia|done|lia|lia].
  - intros n' Hn'. destruct Hres as [Hg _]. apply (Rep_gap h r m (q * 512 + idx) (tab_bound 4)); [done|lia|done|lia|by right].
Qed.

(** The pages after a position. *)
Definition pages_after (pos : Z) : gmap Z Z := filter (λ kv, (pos < kv.1)%Z) m.

Lemma pages_after_lt pos n e :
  (pos < n)%Z → m !! n = Some e → size (pages_after n) < size (pages_after pos).
Proof.
  intros Hlt Hn.
  assert (Hin : pages_after pos !! n = Some e) by (by apply map_lookup_filter_Some).
  assert (Hsub : pages_after n ⊆ delete n (pages_after pos)).
  { apply map_subseteq_spec. intros k v Hk. apply map_lookup_filter_Some in Hk as [Hk Hnk].
    cbn in Hnk. apply lookup_delete_Some. split; [lia|].
    apply map_lookup_filter_Some. split; [done|cbn; lia]. }
  apply map_subseteq_size in Hsub. rewrite map_size_delete_Some in Hsub by eauto.
  assert (size (pages_after pos) ≠ 0); [|lia].
  apply map_size_ne_0_lookup. eauto.
Qed.

Lemma Iter_drain_ok fuel it pos :
  iter_pos h r it pos → size (pages_after pos) < fuel →
  ∃ es ns, Iter_drain fuel h it = Ret es ∧ Forall2 (entry_at h r m) ns es ∧
    StronglySorted Z.lt ns ∧ ∀ n, n ∈ ns ↔ (pos < n)%Z ∧ is_Some (m !! n).
Proof.
  revert it pos. induction fuel as [|fuel IH]; intros it pos Hpos Hfuel; [lia|].
  destruct (Iter_next_ok it pos Hpos) as (res & it' & E & Hres).
  cbn [Iter_drain]. rewrite E. cbn [mbind outcome_bind]. destruct res as [pe|].
  - destruct Hres as (n & Hn & Hat & Hbetween & Hpos').
    pose proof (proj1 Hat) as Hlk. pose proof (pages_after_lt pos n _ Hn Hlk).
    destruct (IH it' n Hpos') as (es & ns & E' & HF & Hs & Hin); [lia|].
    rewrite E'. exists (pe :: es), (n :: ns). split_and!; [done|by constructor| |].
    + constructor; [done|]. apply Forall_forall. intros k Hk%Hin. lia.
    + intros k. rewrite elem_of_cons, Hin. split.
      * intros [->|[Hk ?]]; [by eauto|]. split; [lia|done].
      * intros [Hk Hs']. destruct (decide (k = n)) as [->|]; [by left|]. right.
        split; [|done]. destruct (decide (n < k)%Z); [done|].
        rewrite Hbetween in Hs' by lia. by destruct Hs'.
  - exists [], []. split_and!; [done|constructor|constructor|].
    intros n. rewrite elem_of_nil. split; [done|]. intros [Hn Hs].
    rewrite Hres in Hs by done. by destruct Hs.
Qed.
End Iteration.

Lemma Iter_new_ok h pt m :
  pt_inv h → Rep h (l4_page_table pt) m →
  ∃ o, Iter_new h pt = Ret o ∧
  match o with
  | Some it => ∃ pos, iter_pos h (l4_page_table pt) it pos ∧ ∀ n, (n ≤ pos)%Z → m !! n = None
  | None => m = ∅
  end.
Proof.
  intros Hinv HR. destruct (first_level_one_ok h Hinv (l4_page_table pt) (rep_root _ _ _ HR) 0 4 (l4_page_table pt))
    as (res & E & Hafter); [lia|lia|apply after_root|].
  unfold Iter_new, find_the_first_level_one_page. rewrite E. cbn.
  destruct res as [x|]; eexists; (split; [done|]).
  - destruct Hafter as (q & Hq & Hx & Hg). exists (q * 512 + -1)%Z. split.
    + exists q. cbn. split_and!; (done || lia).
    + intros n Hn. destruct (decide (n < 0)%Z) as [Hneg|].
      * apply eq_None_not_Some. intros Hs%(rep_domain _ _ _ HR). unfold is_vpn in Hs. lia.
      * eapply (Rep_gap h (l4_page_table pt) m (-1) (q * 512)); [done|lia| |lia|lia].
        apply (gap_below _ _ _ (-1)); [lia|done].
  - apply map_eq. intros n. rewrite lookup_empty.
    destruct (decide (n < 0)%Z) as [Hneg|].
    + apply eq_None_not_Some. intros Hs%(rep_domain _ _ _ HR). unfold is_vpn in Hs. lia.
    + eapply (Rep_gap h (l4_page_table pt) m (-1)); [done|lia| |lia|by right].
      rewrite tab_bound_S. apply (gap_below _ _ _ (-1)); [lia|done].
Qed.

(** From any position, [next] returns the first mapped page after it together
    with the level-one table and index that hold its entry, and leaves the
    iterator on that page; it returns [None] exactly when no page is left.  It
    always returns, and reads only live tables. *)
Theorem iter_next_first_page_after h r m it pos :
  pt_inv h → Rep h r m → iter_pos h r it pos →
  ∃ res it', Iter_next h it = Ret (res, it') ∧
  match res with
  | Some pe => ∃ n, (pos < n)%Z ∧ entry_at h r m n pe ∧
      (∀ n', (pos < n' < n)%Z → m !! n' = None) ∧ iter_pos h r it' n
  | None => ∀ n', (pos < n')%Z → m !! n' = None
  end.
Proof. intros Hinv HR. by apply Iter_next_ok. Qed.

(** C22: A loop over a new iterator visits every mapped page exactly once, in
    increasing order, and stops. *)
Theorem iter_visits_all_pages_in_order h pt m :
  pt_inv h → Rep h (l4_page_table pt) m →
  ∃ o, Iter_new h pt = Ret o ∧
  match o with
  | Some it => ∃ es ns, Iter_drain (S (size m)) h it = Ret es ∧
      Forall2 (entry_at h (l4_page_table pt) m) ns es ∧
      StronglySorted Z.lt ns ∧ ∀ n, n ∈ ns ↔ is_Some (m !! n)
  | None => m = ∅
  end.
Proof.
  intros Hinv HR. destruct (Iter_new_ok h pt m Hinv HR) as (o & E & Ho). exists o. split; [done|].
  destruct o as [it|]; [|done]. destruct Ho as (pos & Hpos & Hbefore).
  destruct (Iter_drain_ok h Hinv _ m HR (S (size m)) it pos Hpos) as (es & ns & E' & HF & Hs & Hin).
  { apply Nat.lt_succ_r, map_subseteq_size, map_filter_subseteq. }
  exists es, ns. split_and!; [done..|]. intros n. rewrite Hin. split; [by intros [_ ?]|].
  intros Hn. split; [|done]. destruct (decide (pos < n)%Z); [done|].
  rewrite Hbefore in Hn by lia. by destruct Hn.
Qed.

Lemma iter_next_first_page_after_witness :
  ∃ res it', Iter_next two_pages.1 (mkIter 16384 1) = Ret (res, it') ∧
    (λ pe, pa_0 (addr pe)) <$> res = Some 8192%Z.
Proof.
  destruct two_pages_ok as [Hinv Hok].
  destruct (iter_next_first_page_after two_pages.1 (l4_page_table two_pages.2) _ (mkIter 16384 1) 1%Z
    Hinv (ok_rep _ _ _ Hok)) as (res & it' & E & Hres).
  - exists 0%Z. split; [done|]. split; [by vm_compute|]. done.
  - exists res, it'. split; [done|]. vm_compute in E. injection E as <- <-. done.
Defined.

Lemma iter_visits_all_pages_in_order_witness :
  ∃ it es, Iter_new two_pages.1 two_pages.2 = Ret (Some it) ∧
    Iter_drain 3 two_pages.1 it = Ret es ∧ (λ pe, pa_0 (addr pe)) <$> es = [40960; 8192]%Z.
Proof.
  destruct two_pages_ok as [Hinv Hok].
  destruct (iter_visits_all_pages_in_order two_pages.1 two_pages.2 _ Hinv (ok_rep _ _ _ Hok))
    as (o & E & Ho).
  destruct o as [it|]; [|by vm_compute in E].
  destruct Ho as (es & ns & E' & _). exists it, es. split; [done|]. split; [exact E'|].
  vm_compute in E. injection E as <-. vm_compute in E'. injection E' as <-. done.
Defined.
