(* ===== verification/PageCopy.v ===== *)
(** * Copying and dropping page tables
      ([PageTable::deep_copy], [Drop for PageTable], [RemotePageTable::copy])

    [deep_copy] duplicates a tree of tables into fresh blocks and [drop]
    releases one.  The copy is described as a fragment of the heap that is
    closed under entries and disjoint from everything that existed before. *)

From S2P Require Import Prelude PageStructures PageHeap RemotePageTable PageIter.

(** ** Operations *)

(** [copy_level.upper_level = ..; copy_level.upper_level_index = ..] *)
Definition set_upper (h : heap) (p up : Z) (idx : nat) : outcome heap :=
  t ← deref h p;
  Ret (<[p := mkPageTable (entries t) (level t) up idx]> h).

Section Copy.
Context {vm : Vmalloc}.

(** The [for (idx, value) in self.entries.iter().enumerate()] loop; [rec] is the
    recursive call of [deep_copy]. *)
Fixpoint copy_loop (rec : heap → Z → outcome (Z * heap)) (l : PageTableLevel) (result : Z)
    (h : heap) (idx : nat) (es : list Z) : outcome heap :=
  match es with
  | [] => Ret h
  | value :: es' =>
      h ← match l with
          | One => store_entry h result idx value
          | _ =>
              if decide (value = 0%Z) then store_entry h result idx 0
              else
                '(copy_level, h) ← rec h value;
                h ← set_upper h copy_level result idx;
                store_entry h result idx copy_level
          end;
      copy_loop rec l result h (S idx) es'
  end.

Fixpoint deep_copy (fuel : nat) (h : heap) (self : Z) : outcome (Z * heap) :=
  match fuel with
  | 0 => NoFuel
  | S fuel =>
      t ← deref h self;
      '(result, h) ← box_new h
        (mkPageTable (replicate ENTRY_COUNT 0%Z) (level t) (upper_level t) (upper_level_index t));
      h ← copy_loop (deep_copy fuel) (level t) result h 0 (entries t);
      Ret (result, h)
  end.

(** The recursion goes down one level per call: four levels. *)
Definition RemotePageTable_copy (h : heap) (self : RemotePageTable)
    : outcome (RemotePageTable * heap) :=
  '(p, h) ← deep_copy 4 h (l4_page_table self);
  Ret (mkRemotePageTable p (cnt self), h).
End Copy.

(** ** Fragments *)

(** A part of a heap that is closed under entries, with one table [p] that
    nothing in it leads to. *)
Record frag (c : heap) (p : Z) : Prop := {
  fr_root : is_Some (c !! p);
  fr_addr q t : c !! q = Some t → (0 < q)%Z ∧ length (entries t) = ENTRY_COUNT;
  fr_down q t l i e :
    c !! q = Some t → next_lower_level (level t) = Some l → entries t !! i = Some e → e ≠ 0%Z →
    ∃ t', c !! e = Some t' ∧ level t' = l ∧ upper_level t' = q ∧ upper_level_index t' = i;
  fr_up q t : c !! q = Some t → q ≠ p →
    level t ≠ Four ∧ ∃ u, c !! upper_level t = Some u ∧
      next_lower_level (level u) = Some (level t) ∧ entries u !! upper_level_index t = Some q;
  fr_top q t l i : c !! q = Some t → next_lower_level (level t) = Some l →
    entries t !! i ≠ Some p;
}.

(** Walks inside a fragment see neither the rest of the heap nor its top. *)
Lemma frag_walk c p h q t path :
  frag c p → (∀ q i, is_Some (c !! q) → q ≠ p → child h q i = child c q i) →
  c !! q = Some t → q ≠ p → length path ≤ depth (level t) → walk h q path = walk c q path.
Proof.
  intros Hf Hch. revert q t. induction path as [|i path IH]; intros q t Hq Hqp Hlen; [done|].
  cbn in *. rewrite Hch by eauto. destruct (child c q i) as [e|] eqn:Hc; cbn; [|done].
  pose proof Hc as (t' & Ht' & He & Hne)%child_Some. simplify_eq.
  destruct (next_lower_level (level t)) as [l|] eqn:El.
  - destruct (fr_down c p Hf q t l i e Hq El He Hne) as (te & Hte & Hl & _).
    pose proof (depth_lower _ _ El). apply (IH e te Hte); [|rewrite Hl; lia].
    intros ->. by apply (fr_top c p Hf q t l i).
  - destruct (level t); try done. cbn in Hlen. by destruct path; cbn in *; [|lia].
Qed.

(** The same from the top, when its entry is the same too. *)
Lemma frag_walk_top c p h t i path :
  frag c p → (∀ q i, is_Some (c !! q) → q ≠ p → child h q i = child c q i) →
  c !! p = Some t → child h p i = child c p i → length path < depth (level t) →
  walk h p (i :: path) = walk c p (i :: path).
Proof.
  intros Hf Hch Hp Hi Hlen. cbn. rewrite Hi. destruct (child c p i) as [e|] eqn:Hc; cbn; [|done].
  pose proof Hc as (t' & Ht' & He & Hne)%child_Some. simplify_eq.
  destruct (next_lower_level (level t)) as [l|] eqn:El.
  - destruct (fr_down c p Hf p t l i e Hp El He Hne) as (te & Hte & Hl & _).
    pose proof (depth_lower _ _ El). apply (frag_walk c p h e te); [done|done|done| |rewrite Hl; lia].
    intros ->. by apply (fr_top c p Hf p t l i).
  - destruct (level t); try done. cbn in Hlen. by destruct path; cbn in *; [|lia].
Qed.

(** The tables reached from a fragment are its own. *)
Lemma frag_walk_in c p h q t path q' :
  frag c p → c ##ₘ h → c !! q = Some t → length path < depth (level t) → walk (c ∪ h) q path = Some q' → is_Some (c !! q').
Proof.
  intros Hf Hd. revert q t. induction path as [|i path IH]; intros q t Hq Hlen; cbn.
  - intros [= <-]. by exists t.
  - destruct (child (c ∪ h) q i) as [e|] eqn:Hc; [|done]. cbn.
    apply child_Some in Hc as (t' & Ht' & He & Hne). rewrite (lookup_union_Some_l _ _ _ _ Hq) in Ht'. injection Ht' as <-.
    destruct (next_lower_level (level t)) as [l|] eqn:El; [|destruct (level t); cbn in *; (done || lia)].
    destruct (fr_down c p Hf q t l i e Hq El He Hne) as (te & Hte & Hl & _). pose proof (depth_lower _ _ El).
    apply (IH e te Hte). rewrite Hl. cbn in Hlen. lia.
Qed.

(** Number of tables in the tree below [p]. *)
Fixpoint table_count (fuel : nat) (h : heap) (p : Z) : nat :=
  match fuel with
  | 0 => 0
  | S fuel =>
      match h !! p with
      | None => 0
      | Some t =>
          match level t with
          | One => 1
          | _ => S (sum_list_with (λ e, if decide (e = 0%Z) then 0 else table_count fuel h e)
                      (entries t))
          end
      end
  end.

(** *** Attaching a fragment below an entry of another *)
Section Attach.
Context (k c : heap) (r v : Z) (T V : PageTable) (idx : nat) (l : PageTableLevel).
Context (Hk : frag k r) (Hc : frag c v) (Hdisj : k ##ₘ c).
Context (HT : k !! r = Some T) (HV : c !! v = Some V).
Context (Hlow : next_lower_level (level T) = Some l) (HlV : level V = l).
Context (Hidx : entries T !! idx = Some 0%Z).

Definition attached_root : PageTable := set_entries T (<[idx := v]> (entries T)).
Definition attached_child : PageTable := mkPageTable (entries V) (level V) r idx.
Definition attached : heap := <[v := attached_child]> c ∪ <[r := attached_root]> k.

Lemma not_in_both q t t' : k !! q = Some t → c !! q = Some t' → False.
Proof. intros H1 H2. by eapply map_disjoint_spec. Qed.

Lemma v_ne_r : v ≠ r.
Proof. intros ->. by eapply not_in_both. Qed.

Lemma attached_v : attached !! v = Some attached_child.
Proof. apply lookup_union_Some_l. apply lookup_insert_eq. Qed.

Lemma attached_r : attached !! r = Some attached_root.
Proof.
  unfold attached. rewrite lookup_union_r; [apply lookup_insert_eq|].
  rewrite lookup_insert_ne by apply v_ne_r.
  destruct (c !! r) as [t|] eqn:E; [|done]. exfalso. by eapply not_in_both.
Qed.

Lemma attached_c q t : q ≠ v → c !! q = Some t → attached !! q = Some t.
Proof. intros Hne Hq. apply lookup_union_Some_l. by rewrite lookup_insert_ne. Qed.

Lemma attached_k q t : q ≠ r → k !! q = Some t → attached !! q = Some t.
Proof.
  intros Hne Hq. unfold attached. rewrite lookup_union_r; [by rewrite lookup_insert_ne|].
  destruct (c !! q) as [t'|] eqn:E; [exfalso; by eapply not_in_both|].
  rewrite lookup_insert_ne; [done|]. intros ->. congruence.
Qed.

Lemma attached_inv q t :
  attached !! q = Some t →
  (q = v ∧ t = attached_child) ∨ (q = r ∧ t = attached_root) ∨
  (q ≠ v ∧ c !! q = Some t) ∨ (q ≠ r ∧ k !! q = Some t).
Proof.
  unfold attached. intros [Hq|[_ Hq]]%lookup_union_Some_raw;
    apply lookup_insert_Some in Hq as [[<- <-]|[Hne Hq]]; auto 10.
Qed.

(** The tables of both parts, up to the changed root and child. *)
Lemma attached_in_c q t : c !! q = Some t →
  ∃ t', attached !! q = Some t' ∧ level t' = level t ∧ entries t' = entries t ∧
    (q ≠ v → upper_level t' = upper_level t ∧ upper_level_index t' = upper_level_index t).
Proof.
  intros Hq. destruct (decide (q = v)) as [->|Hne].
  - rewrite attached_v. assert (t = V) as -> by congruence. eexists. split; [done|]. done.
  - rewrite (attached_c q t) by done. eauto 10.
Qed.

Lemma attached_in_k q t : k !! q = Some t →
  ∃ t', attached !! q = Some t' ∧ level t' = level t ∧ upper_level t' = upper_level t ∧
    upper_level_index t' = upper_level_index t ∧
    ∀ i e, e ≠ 0%Z → entries t !! i = Some e → entries t' !! i = Some e.
Proof.
  intros Hq. destruct (decide (q = r)) as [->|Hne].
  - rewrite attached_r. assert (t = T) as -> by congruence.
    eexists. split; [done|]. split_and!; [done..|]. intros i e Hne He. cbn. rewrite list_lookup_insert_ne; [done|]. congruence.
  - rewrite (attached_k q t) by done. eauto 10.
Qed.

Lemma attached_down q t l' i e :
  attached !! q = Some t → next_lower_level (level t) = Some l' → entries t !! i = Some e →
  e ≠ 0%Z →
  ∃ t', attached !! e = Some t' ∧ level t' = l' ∧ upper_level t' = q ∧ upper_level_index t' = i.
Proof.
  intros Hq Hl' He Hne.
  assert (Hinc : ∀ q t, c !! q = Some t → next_lower_level (level t) = Some l' →
    entries t !! i = Some e → ∃ t', attached !! e = Some t' ∧ level t' = l' ∧
      upper_level t' = q ∧ upper_level_index t' = i).
  { intros q0 t0 H0 Hl0 He0. destruct (fr_down c v Hc q0 t0 l' i e) as (t' & Ht' & ? & ? & ?); [done..|].
    rewrite (attached_c e t'); [by eauto| |done]. intros ->.
    by apply (fr_top c v Hc q0 t0 l' i). }
  assert (Hink : ∀ q t, k !! q = Some t → next_lower_level (level t) = Some l' →
    entries t !! i = Some e → ∃ t', attached !! e = Some t' ∧ level t' = l' ∧
      upper_level t' = q ∧ upper_level_index t' = i).
  { intros q0 t0 H0 Hl0 He0. destruct (fr_down k r Hk q0 t0 l' i e) as (t' & Ht' & ? & ? & ?); [done..|].
    destruct (attached_in_k e t' Ht') as (t'' & ? & ? & ? & ? & _).
    exists t''. split_and!; congruence. }
  apply attached_inv in Hq as [[-> ->]|[[-> ->]|[[_ Hq]|[Hqr Hq]]]].
  - by apply (Hinc v V).
  - cbn in Hl', He. apply list_lookup_insert_Some in He as [(-> & <- & _)|(Hni & He)].
    + rewrite attached_v. eexists. split; [done|]. cbn. split_and!; [congruence|done..].
    + by apply (Hink r T).
  - by apply (Hinc q t).
  - by apply (Hink q t).
Qed.

Lemma attached_up q t :
  attached !! q = Some t → q ≠ r →
  level t ≠ Four ∧ ∃ u, attached !! upper_level t = Some u ∧
    next_lower_level (level u) = Some (level t) ∧ entries u !! upper_level_index t = Some q.
Proof.
  intros Hq Hne. apply attached_inv in Hq as [[-> ->]|[[-> ->]|[[Hqv Hq]|[Hqr Hq]]]].
  - cbn. rewrite HlV. split; [intros E; rewrite E in Hlow; by destruct (level T)|].
    rewrite attached_r. eexists. split; [done|]. cbn. split; [congruence|].
    apply list_lookup_insert_eq. by eapply lookup_lt_Some.
  - done.
  - destruct (fr_up c v Hc q t Hq Hqv) as (? & u & Hu & Hlu & Heu). split; [done|].
    destruct (attached_in_c _ u Hu) as (u' & ? & Hl' & He' & _).
    exists u'. by rewrite Hl', He'.
  - destruct (fr_up k r Hk q t Hq Hqr) as (? & u & Hu & Hlu & Heu). split; [done|].
    destruct (attached_in_k _ u Hu) as (u' & ? & Hl' & _ & _ & Hkeep).
    exists u'. rewrite Hl'. split_and!; [done..|]. apply Hkeep; [|done].
    destruct (fr_addr k r Hk q t Hq). lia.
Qed.

Lemma attached_top q t l' i :
  attached !! q = Some t → next_lower_level (level t) = Some l' → entries t !! i ≠ Some r.
Proof.
  assert (Hr0 : r ≠ 0%Z) by (destruct (fr_addr k r Hk r T HT); lia).
  assert (Hinc : ∀ q t, c !! q = Some t → next_lower_level (level t) = Some l' →
    entries t !! i ≠ Some r).
  { intros q0 t0 H0 Hl0 He0. destruct (fr_down c v Hc q0 t0 l' i r) as (t' & Ht' & _); [done..|].
    by eapply not_in_both. }
  intros Hq Hl' He. apply attached_inv in Hq as [[-> ->]|[[-> ->]|[[Hqv Hq]|[Hqr Hq]]]]; cbn in *.
  - by apply (Hinc v V).
  - apply list_lookup_insert_Some in He as [(-> & E & _)|(Hni & He)]; [by apply v_ne_r|].
    by apply (fr_top k r Hk r T l' i).
  - by apply (Hinc q t).
  - by apply (fr_top k r Hk q t l' i).
Qed.

Lemma attached_frag : frag attached r.
Proof.
  split; [rewrite attached_r; by eexists| |apply attached_down|apply attached_up|apply attached_top].
  intros q t Hq. apply attached_inv in Hq as [[-> ->]|[[-> ->]|[[_ Hq]|[_ Hq]]]].
  - by apply (fr_addr c v Hc v V).
  - cbn. rewrite length_insert. by apply (fr_addr k r Hk).
  - by apply (fr_addr c v Hc q).
  - by apply (fr_addr k r Hk q).
Qed.

(** Entries seen from the attached heap. *)
Lemma attached_child_c q i : is_Some (c !! q) → child attached q i = child c q i.
Proof.
  intros [t Hq]. destruct (attached_in_c q t Hq) as (t' & Ht' & _ & He & _).
  by eapply child_same_entries.
Qed.

Lemma attached_child_r i : child attached r i = if decide (i = idx) then Some v else child k r i.
Proof.
  unfold child. rewrite attached_r, HT. cbn. destruct (decide (i = idx)) as [->|Hne].
  - rewrite list_lookup_insert_eq by (by eapply lookup_lt_Some). cbn.
    rewrite decide_False; [done|]. destruct (fr_addr c v Hc v V HV). lia.
  - by rewrite list_lookup_insert_ne.
Qed.

Lemma attached_child_k q i : q ≠ r → is_Some (k !! q) → child attached q i = child k q i.
Proof. intros Hne [t Hq]. unfold child. by rewrite Hq, (attached_k q t). Qed.
End Attach.

(** ** [deep_copy] *)

(** The fragment [c] with top [r] copies the first [n] entries of the table [t] at
    [p] of [h], and has no others. *)
Record part (h : heap) (p : Z) (t : PageTable) (c : heap) (r : Z) (n : nat) : Prop := {
  pa_frag : frag c r;
  pa_root : ∃ T, c !! r = Some T ∧ level T = level t ∧ upper_level T = upper_level t ∧
    upper_level_index T = upper_level_index t ∧
    ∀ i, n ≤ i < ENTRY_COUNT → entries T !! i = Some 0%Z;
  pa_walk i path : i < n → length path < depth (level t) → S (length path) = depth (level t) →
    walk c r (i :: path) = walk h p (i :: path);
  pa_child i : i < n → is_Some (child c r i) ↔ is_Some (child h p i);
  pa_inner q tq : c !! q = Some tq → q ≠ r → level tq = Two ∨ level tq = Three →
    ∃ i, is_Some (child c q i);
}.

Lemma part_empty h p t r :
  (0 < r)%Z →
  part h p t {[r := mkPageTable (replicate ENTRY_COUNT 0%Z) (level t) (upper_level t)
                      (upper_level_index t)]} r 0.
Proof.
  intros Hr. split; [split| | | |].
  - rewrite lookup_singleton_eq. by eexists.
  - intros q tq [<- <-]%lookup_singleton_Some. split; [done|apply length_replicate].
  - intros q tq l i e [<- <-]%lookup_singleton_Some _ He. by apply lookup_replicate_Some in He.
  - by intros q tq [<- <-]%lookup_singleton_Some.
  - intros q tq l i [<- <-]%lookup_singleton_Some _ He. apply lookup_replicate_Some in He. lia.
  - rewrite lookup_singleton_eq. eexists. split; [done|]. split_and!; [done..|].
    intros i [_ Hi]. by apply lookup_replicate_2.
  - lia.
  - lia.
  - intros q tq [<- <-]%lookup_singleton_Some. done.
Qed.

(** A round of the loop at level one. *)
Lemma frag_store_one c r T n e :
  frag c r → c !! r = Some T → level T = One →
  frag (<[r := set_entries T (<[n := e]> (entries T))]> c) r.
Proof.
  intros Hf HT H1. destruct (fr_addr c r Hf r T HT) as [Hr0 HlenT]. split.
  - rewrite lookup_insert_eq. by eexists.
  - intros q t [[<- <-]|[Hne Hq]]%lookup_insert_Some; [|by apply (fr_addr c r Hf)].
    cbn. by rewrite length_insert.
  - intros q t l i e' [[<- <-]|[Hne Hq]]%lookup_insert_Some Hl He Hne'.
    + cbn in Hl. by rewrite H1 in Hl.
    + destruct (fr_down c r Hf q t l i e') as (t' & Ht' & Hrest); [done..|].
      exists t'. rewrite lookup_insert_ne; [done|]. intros ->. by apply (fr_top c _ Hf q t l i).
  - intros q t [[<- <-]|[Hne Hq]]%lookup_insert_Some Hqr; [done|].
    destruct (fr_up c r Hf q t Hq Hqr) as (H4 & u & Hu & Hlow & Hi). split; [done|].
    exists u. rewrite lookup_insert_ne; [done|]. intros E. rewrite <- E in Hu. simplify_eq.
    by rewrite H1 in Hlow.
  - intros q t l i [[<- <-]|[Hne Hq]]%lookup_insert_Some Hl.
    + cbn in Hl. by rewrite H1 in Hl.
    + by apply (fr_top c r Hf q t l i).
Qed.

Lemma part_store_one h p t c r n e T :
  h !! p = Some t → level t = One → part h p t c r n → c !! r = Some T →
  entries t !! n = Some e → n < ENTRY_COUNT →
  part h p t (<[r := set_entries T (<[n := e]> (entries T))]> c) r (S n).
Proof.
  intros Ht Hl1 [Hf (T0 & HT0 & HlT & HuT & HiT & Hz) Hw Hch Hin] HT He Hn.
  assert (T0 = T) as -> by congruence. destruct (fr_addr c r Hf r T HT) as [Hr0 HlenT].
  assert (Hci : ∀ i, child (<[r := set_entries T (<[n := e]> (entries T))]> c) r i =
    if decide (i = n) then child h p n else child c r i).
  { intros i. rewrite child_insert. cbn. destruct (decide (i = n)) as [->|Hne].
    - rewrite list_lookup_insert_eq by lia. symmetry. by apply (child_entry h p t).
    - rewrite list_lookup_insert_ne by done. unfold child. by rewrite HT. }
  split.
  - apply frag_store_one; [done..|congruence].
  - rewrite lookup_insert_eq. eexists. split; [done|]. cbn. split_and!; [done..|].
    intros i Hi. rewrite list_lookup_insert_ne by lia. apply Hz. lia.
  - intros i path Hi Hlen Hlen'. rewrite Hl1 in Hlen'. destruct path; [|done]. cbn [walk].
    rewrite Hci. destruct (decide (i = n)) as [->|Hne]; [done|].
    specialize (Hw i []). cbn in Hw. apply Hw; rewrite ?Hl1; cbn; lia.
  - intros i Hi. rewrite Hci. destruct (decide (i = n)) as [->|Hne]; [done|]. apply Hch. lia.
  - intros q tq [[<- <-]|[Hne Hq]]%lookup_insert_Some Hqr Hl; [done|].
    destruct (Hin q tq Hq Hqr Hl) as [i Hi]. exists i. by rewrite child_insert_ne.
Qed.

(** A null entry of an upper table needs no work. *)
Lemma part_skip h p t c r n T :
  h !! p = Some t → part h p t c r n → c !! r = Some T → entries t !! n = Some 0%Z →
  n < ENTRY_COUNT → set_entries T (<[n := 0%Z]> (entries T)) = T ∧ part h p t c r (S n).
Proof.
  intros Ht [Hf (T0 & HT0 & HlT & HuT & HiT & Hz) Hw Hch Hin] HT He Hn.
  assert (T0 = T) as -> by congruence.
  assert (Hc0 : child c r n = None).
  { rewrite (child_entry c r T n 0%Z HT) by (apply Hz; lia). done. }
  assert (Hp0 : child h p n = None) by (by rewrite (child_entry h p t n 0%Z Ht He)).
  split.
  - destruct T as [es lv up ui]. unfold set_entries. cbn in *. f_equal.
    apply list_insert_id. apply Hz. lia.
  - split; [done| | | |done].
    + exists T. split_and!; [done..|]. intros i Hi. apply Hz. lia.
    + intros i path Hi Hlen Hlen'. destruct (decide (i = n)) as [->|]; [|by apply Hw; lia].
      cbn. by rewrite Hc0, Hp0.
    + intros i Hi. destruct (decide (i = n)) as [->|]; [by rewrite Hc0, Hp0|apply Hch; lia].
Qed.

(** A non-null entry of an upper table: the copy of the lower tree is attached. *)
Section PartAttach.
Context (h : heap) (p : Z) (t : PageTable) (k : heap) (r : Z) (n : nat) (T : PageTable).
Context (e : Z) (te : PageTable) (c : heap) (v : Z) (V : PageTable) (l : PageTableLevel).
Context (Hinv : pt_inv h) (Ht : h !! p = Some t) (Hlow : next_lower_level (level t) = Some l).
Context (He : entries t !! n = Some e) (Hne : e ≠ 0%Z) (Hte : h !! e = Some te).
Context (Hlte : level te = l) (Hn : n < ENTRY_COUNT).
Context (Hk : part h p t k r n) (HT : k !! r = Some T).
Context (Hc : part h e te c v ENTRY_COUNT) (HV : c !! v = Some V) (Hdisj : k ##ₘ c).

Abbreviation a := (attached k c r v T V n).

Lemma pa_child_e : child h p n = Some e.
Proof. rewrite (child_entry h p t n e Ht He). by rewrite decide_False. Qed.

Lemma root_facts : level T = level t ∧ upper_level T = upper_level t ∧
  upper_level_index T = upper_level_index t ∧
  ∀ i, n ≤ i < ENTRY_COUNT → entries T !! i = Some 0%Z.
Proof.
  destruct (pa_root _ _ _ _ _ _ Hk) as (T0 & HT0 & ?). by assert (T0 = T) as <- by congruence.
Qed.

Lemma top_level : level V = l.
Proof.
  destruct (pa_root _ _ _ _ _ _ Hc) as (V0 & HV0 & ? & _). congruence.
Qed.

Lemma attach_frag : frag a r.
Proof.
  destruct root_facts as (HlT & _ & _ & Hz). destruct Hk, Hc.
  apply (attached_frag k c r v T V n l); try done; [congruence|apply top_level|apply Hz; lia].
Qed.

Lemma attach_child_r i : child a r i = if decide (i = n) then Some v else child k r i.
Proof.
  destruct root_facts as (_ & _ & _ & Hz). destruct Hk, Hc.
  apply attached_child_r; try done. apply Hz. lia.
Qed.

(** Walks below the attached tree and below the entries copied before. *)
Lemma attach_walk i path :
  i < S n → S (length path) = depth (level t) → walk a r (i :: path) = walk h p (i :: path).
Proof.
  intros Hi Hlen. pose proof (depth_lower _ _ Hlow) as Hd. destruct Hk as [Hfk _ Hwk _ _].
  destruct Hc as [Hfc _ Hwc _ _]. destruct root_facts as (HlT & _).
  destruct (decide (i = n)) as [->|Hin].
  - cbn. rewrite attach_child_r, decide_True by done. rewrite pa_child_e. cbn.
    destruct path as [|j path]; [destruct l; cbn in *; lia|].
    assert (Hlp : S (length path) = depth l) by (cbn in Hlen; lia).
    rewrite (frag_walk_top c v a V); [|done| |done| |rewrite top_level; lia].
    + destruct (decide (j < ENTRY_COUNT)) as [Hj|Hj]; [apply Hwc; rewrite ?Hlte; lia|].
      cbn. replace (child c v j) with (@None Z); [replace (child h e j) with (@None Z)|]; [done|..];
        symmetry; apply eq_None_ne_Some_2; intros x (t' & Ht' & Hx%lookup_lt_Some & _)%child_Some.
      * rewrite (tw_length _ _ _ (inv_wf _ Hinv e t' Ht')) in Hx. lia.
      * destruct (fr_addr c v Hfc v t' Ht') as [_ Hl]. lia.
    + intros q j' Hq _. by eapply attached_child_c.
    + eapply attached_child_c; (done || by eexists).
  - rewrite (frag_walk_top k r a T); [apply Hwk; lia|done| |done| |rewrite HlT; lia].
    + intros q j Hq Hqr. by apply attached_child_k.
    + by rewrite attach_child_r, decide_False.
Qed.

Lemma attach_inner q tq :
  a !! q = Some tq → q ≠ r → level tq = Two ∨ level tq = Three → ∃ i, is_Some (child a q i).
Proof.
  intros Hq Hqr Hl. destruct Hk as [Hfk _ _ _ Hink], Hc as [Hfc _ _ Hchc Hinc].
  apply attached_inv in Hq as [[-> ->]|[[-> ->]|[[Hqv Hq]|[_ Hq]]]]; [| done | |].
  - assert (Hle : level te = Two ∨ level te = Three) by (cbn in Hl; by rewrite top_level, <- Hlte in Hl).
    destruct (inv_inner _ Hinv e te Hte Hle) as [i Hi]. exists i.
    erewrite attached_child_c by (done || by eexists). apply Hchc; [|done].
    destruct Hi as [x (t' & Ht' & Hx%lookup_lt_Some & _)%child_Some].
    by rewrite (tw_length _ _ _ (inv_wf _ Hinv e t' Ht')) in Hx.
  - destruct (Hinc q tq Hq Hqv Hl) as [i Hi]. exists i. by erewrite attached_child_c by (done || by eexists).
  - destruct (Hink q tq Hq Hqr Hl) as [i Hi]. exists i. by rewrite attached_child_k by (done || by eexists).
Qed.

Lemma part_attach : part h p t a r (S n).
Proof.
  destruct root_facts as (HlT & HuT & HiT & Hz). split.
  - apply attach_frag.
  - rewrite attached_r by (done || apply Hc). eexists. split; [done|]. cbn. split_and!; [done..|].
    intros i Hi. rewrite list_lookup_insert_ne by lia. apply Hz. lia.
  - intros i path Hi _ Hlen. by apply attach_walk.
  - intros i Hi. rewrite attach_child_r. destruct (decide (i = n)) as [->|].
    + rewrite pa_child_e. split; by eexists.
    + apply (pa_child _ _ _ _ _ _ Hk). lia.
  - apply attach_inner.
Qed.
End PartAttach.

Section DeepCopy.
Context {vm : Vmalloc} {vm_ok : VmallocOk} (h : heap) (Hinv : pt_inv h).

Definition entry_cost (fuel : nat) (e : Z) : nat :=
  if decide (e = 0%Z) then 0 else table_count fuel h e.

(** What a call of [deep_copy] on the table at [p] achieves. *)
Definition copies (fuel : nat) : Prop := ∀ base p t,
  h ⊆ base → h !! p = Some t → depth (level t) ≤ fuel →
  size base + table_count fuel h p ≤ vm_capacity →
  ∃ r c, deep_copy fuel base p = Ret (r, c ∪ base) ∧ c ##ₘ base ∧
    part h p t c r ENTRY_COUNT ∧ size (c ∪ base) ≤ size base + table_count fuel h p.

(** Stores to the top of a fragment. *)
Lemma store_top k base r T i e :
  k !! r = Some T → i < length (entries T) →
  store_entry (k ∪ base) r i e =
    Ret (<[r := set_entries T (<[i := e]> (entries T))]> k ∪ base).
Proof.
  intros HT Hi. unfold store_entry, deref. rewrite (lookup_union_Some_l _ _ _ _ HT). cbn.
  unfold PageTable_index_mut. rewrite decide_True by done. cbn. by rewrite insert_union_l.
Qed.

Lemma store_attach k c base r v T V i :
  k !! r = Some T → c !! v = Some V → k ##ₘ c → i < length (entries T) →
  (h1 ← set_upper (c ∪ (k ∪ base)) v r i; store_entry h1 r i v) =
    Ret (attached k c r v T V i ∪ base).
Proof.
  intros HT HV Hdisj Hi. unfold set_upper, deref.
  rewrite (lookup_union_Some_l _ _ _ _ HV). cbn.
  assert (Hr : c !! r = None) by (by eapply map_disjoint_Some_l).
  assert (Hvr : v ≠ r) by congruence. rewrite insert_union_l.
  unfold store_entry, deref. rewrite lookup_union_r by (by rewrite lookup_insert_ne).
  rewrite (lookup_union_Some_l _ _ _ _ HT). cbn.
  unfold PageTable_index_mut. rewrite decide_True by done. cbn.
  rewrite insert_union_r by (by rewrite lookup_insert_ne).
  rewrite insert_union_l. by rewrite map_union_assoc.
Qed.

Lemma insert_disjoint (k base : heap) r T T' :
  k ##ₘ base → k !! r = Some T → <[r := T']> k ##ₘ base.
Proof.
  intros Hd HT. apply map_disjoint_insert_l. split; [|done]. by eapply map_disjoint_Some_l.
Qed.

Lemma size_insert_union (k base : heap) r T T' :
  k !! r = Some T → size (<[r := T']> k ∪ base) = size (k ∪ base).
Proof.
  intros HT. rewrite <- insert_union_l. apply map_size_insert_Some.
  exists T. by apply lookup_union_Some_l.
Qed.

(** The attached fragment is as large as its parts. *)
Lemma attached_size k c base r v T V i :
  k !! r = Some T → c !! v = Some V → k ##ₘ c →
  size (attached k c r v T V i ∪ base) = size (c ∪ (k ∪ base)).
Proof.
  intros HT HV Hd. unfold attached. rewrite <- map_union_assoc.
  rewrite <- (insert_union_l k), <- insert_union_r, <- insert_union_l.
  - rewrite map_size_insert_Some; [rewrite map_size_insert_Some; [done|]|].
    + exists V. by apply lookup_union_Some_l.
    + rewrite lookup_insert_ne by (intros ->; by eapply map_disjoint_spec).
      exists T. rewrite lookup_union_r by (by eapply map_disjoint_Some_l).
      by apply lookup_union_Some_l.
  - rewrite lookup_insert_ne by (intros ->; by eapply map_disjoint_spec).
    by eapply map_disjoint_Some_l.
Qed.

Lemma attached_disjoint k c base r v T V i :
  k !! r = Some T → c !! v = Some V → k ##ₘ base → c ##ₘ k ∪ base →
  attached k c r v T V i ##ₘ base.
Proof.
  intros HT HV Hk [Hc1 Hc2]%map_disjoint_union_r.
  apply map_disjoint_union_l. split; by eapply insert_disjoint.
Qed.

Definition round_cost (fuel : nat) (t : PageTable) (e : Z) : nat :=
  if decide (level t = One) then 0 else entry_cost fuel e.

(** One round of the loop. *)
Lemma copy_round_ok fuel p t base r k n e :
  copies fuel → h ⊆ base → h !! p = Some t → depth (level t) ≤ S fuel →
  entries t !! n = Some e → n < ENTRY_COUNT → part h p t k r n → k ##ₘ base →
  size (k ∪ base) + round_cost fuel t e ≤ vm_capacity →
  ∃ k', match level t with
        | One => store_entry (k ∪ base) r n e
        | _ =>
            if decide (e = 0%Z) then store_entry (k ∪ base) r n 0
            else
              '(copy_level, h1) ← deep_copy fuel (k ∪ base) e;
              h1 ← set_upper h1 copy_level r n;
              store_entry h1 r n copy_level
        end = Ret (k' ∪ base) ∧
    k' ##ₘ base ∧ part h p t k' r (S n) ∧
    size (k' ∪ base) ≤ size (k ∪ base) + round_cost fuel t e.
Proof.
  intros Hrec Hsub Ht Hdepth He Hn Hpart Hdisj Hcap.
  destruct (pa_root _ _ _ _ _ _ Hpart) as (T & HT & HlT & _ & _ & Hz).
  assert (Hlen : n < length (entries T))
    by (by destruct (fr_addr k r (pa_frag _ _ _ _ _ _ Hpart) r T HT) as [_ ->]).
  destruct (decide (level t = One)) as [H1|Hn1].
  { rewrite H1. rewrite (store_top k base r T) by done. eexists. split_and!; [done| | |].
    - by eapply insert_disjoint.
    - by apply part_store_one.
    - rewrite (size_insert_union k base r T) by done. lia. }
  assert (Hl : ∃ l, next_lower_level (level t) = Some l) by (destruct (level t); by eauto).
  destruct Hl as [l Hlow]. unfold round_cost, entry_cost in *. rewrite (decide_False (P := level t = One)) in Hcap |- * by done.
  assert (Hbody : ∀ x y : outcome heap, match level t with One => x | _ => y end = y)
    by (intros; by destruct (level t)).
  rewrite Hbody. destruct (decide (e = 0%Z)) as [->|Hne].
  - rewrite (store_top k base r T) by done.
    destruct (part_skip h p t k r n T) as [-> Hpart']; [done..|].
    exists k. rewrite insert_id by done. split_and!; [done..|lia].
  - destruct (tw_down _ _ _ (inv_wf _ Hinv p t Ht) l n e Hlow He Hne) as (te & Hte & Hlte & _).
    pose proof (depth_lower _ _ Hlow).
    destruct (Hrec (k ∪ base) e te) as (v & c & -> & Hdc & Hpc & Hsz); [|done|rewrite Hlte; lia|lia|].
    { etrans; [exact Hsub|]. by apply map_union_subseteq_r. }
    destruct (pa_root _ _ _ _ _ _ Hpc) as (V & HV & _). cbn [mbind outcome_bind].
    assert (Hkc : k ##ₘ c) by (symmetry; by apply map_disjoint_union_r in Hdc as [? _]).
    rewrite (store_attach k c base r v T V) by done. eexists. split_and!; [done| | |].
    + by apply attached_disjoint.
    + by apply (part_attach h p t k r n T e te c v V l).
    + rewrite attached_size by done. lia.
Qed.

Lemma copy_loop_ok fuel p t base r k n es :
  copies fuel → h ⊆ base → h !! p = Some t → depth (level t) ≤ S fuel →
  drop n (entries t) = es → n ≤ ENTRY_COUNT → part h p t k r n → k ##ₘ base →
  size (k ∪ base) + sum_list_with (round_cost fuel t) es ≤ vm_capacity →
  ∃ k', copy_loop (deep_copy fuel) (level t) r (k ∪ base) n es = Ret (k' ∪ base) ∧ k' ##ₘ base ∧
    part h p t k' r ENTRY_COUNT ∧
    size (k' ∪ base) ≤ size (k ∪ base) + sum_list_with (round_cost fuel t) es.
Proof.
  intros Hrec Hsub Ht Hdepth. pose proof (tw_length _ _ _ (inv_wf _ Hinv p t Ht)) as Hlen.
  revert n k. induction es as [|e es IH]; intros n k Hdrop Hn Hpart Hdisj Hcap.
  - apply (f_equal length) in Hdrop. rewrite length_drop in Hdrop. cbn in Hdrop.
    assert (n = ENTRY_COUNT) as -> by lia. exists k. cbn. split_and!; [done..|lia].
  - assert (He : entries t !! n = Some e).
    { pose proof (lookup_drop (entries t) n 0) as E. rewrite Hdrop in E. cbn in E.
      by rewrite Nat.add_0_r in E. }
    assert (Hlt : n < ENTRY_COUNT) by (rewrite <- Hlen; by eapply lookup_lt_Some).
    cbn [sum_list_with] in Hcap |- *.
    destruct (copy_round_ok fuel p t base r k n e) as (k1 & E & Hd1 & Hp1 & Hs1); [done..|lia|].
    cbn [copy_loop]. rewrite E. cbn [mbind outcome_bind].
    destruct (IH (S n) k1) as (k2 & E2 & Hd2 & Hp2 & Hs2); [|lia|done|done|lia|].
    { rewrite <- Nat.add_1_r, <- drop_drop, Hdrop. done. }
    exists k2. split_and!; [done..|lia].
Qed.

Lemma table_count_cost fuel p t :
  h !! p = Some t → table_count (S fuel) h p = S (sum_list_with (round_cost fuel t) (entries t)).
Proof.
  intros Ht. cbn. rewrite Ht. unfold round_cost, entry_cost.
  destruct (level t) eqn:E; try done. f_equal. cbn.
  induction (entries t) as [|e es IH]; cbn; [done|]. by rewrite <- IH.
Qed.

Lemma deep_copy_ok fuel : copies fuel.
Proof.
  induction fuel as [|fuel IH]; intros base p t Hsub Ht Hdepth Hcap.
  - destruct (level t); cbn in Hdepth; lia.
  - rewrite (table_count_cost fuel p t Ht) in *.
    cbn [deep_copy]. rewrite (deref_Some base p t) by (by eapply lookup_weaken).
    cbn [mbind outcome_bind]. set (T := mkPageTable _ _ _ _).
    destruct (box_new_ok base T) as (r & -> & Hr & Hpos); [lia|]. cbn [mbind outcome_bind].
    rewrite (insert_union_singleton_l base r T).
    assert (Hs : size ({[r := T]} ∪ base) = S (size base)).
    { rewrite <- insert_union_singleton_l. by apply map_size_insert_None. }
    destruct (copy_loop_ok fuel p t base r {[r := T]} 0 (entries t)) as (k & -> & Hd & Hp & Hsz);
      [done|done|done|done|done|lia|apply part_empty; lia|by apply map_disjoint_singleton_l|lia|].
    exists r, k. split_and!; [done..|lia].
Qed.
End DeepCopy.

(** A heap that only gained tables. *)
Lemma subseteq_grows h h' : heap_wf h → h ⊆ h' → grows h h'.
Proof.
  intros Hwf Hsub.
  assert (Hch : ∀ q i t, h !! q = Some t → child h' q i = child h q i).
  { intros q i t Hq. unfold child. by rewrite Hq, (lookup_weaken _ _ _ _ Hq Hsub). }
  split.
  - intros q t Hq. exists t. split; [by eapply lookup_weaken|done].
  - intros q t path. revert q t. induction path as [|i path IH]; intros q t Hq Hlen; [done|].
    cbn in *. rewrite (Hch q i t Hq). destruct (child h q i) as [e|] eqn:Hc; cbn; [|done].
    destruct (decide (level t = One)) as [E|Hne].
    + rewrite E in Hlen. cbn in Hlen. by destruct path; cbn in *; [|lia].
    + destruct (child_wf h q i e t Hwf Hq Hc Hne) as (te & Hte & Hlow & _).
      apply depth_lower in Hlow. apply (IH e te Hte). lia.
  - intros q i e Hc. pose proof Hc as (t & Ht & _)%child_Some. by rewrite (Hch q i t).
Qed.

(** A complete copy beside a well-formed heap. *)
Lemma copied_pt_inv h p t c r :
  pt_inv h → h !! p = Some t → level t = Four → part h p t c r ENTRY_COUNT → c ##ₘ h →
  pt_inv (c ∪ h).
Proof.
  intros Hinv Ht Hl4 [Hf (T & HT & HlT & HuT & _ & _) _ _ Hin] Hdisj.
  assert (Hsc : c ⊆ c ∪ h) by apply map_union_subseteq_l.
  assert (Hsh : h ⊆ c ∪ h) by (by apply map_union_subseteq_r).
  split; intros q tq [Hq|[_ Hq]]%lookup_union_Some_raw.
  - destruct (fr_addr c r Hf q tq Hq). split; [done|done| | |].
    + intros l i e Hl He Hne. destruct (fr_down c r Hf q tq l i e) as (t' & Ht' & ?); [done..|].
      exists t'. split; [by eapply lookup_weaken|done].
    + intros H4. destruct (decide (q = r)) as [->|Hqr]; [congruence|].
      destruct (fr_up c r Hf q tq Hq Hqr) as (_ & u & Hu & ?).
      exists u. split; [by eapply lookup_weaken|done].
    + intros H4. destruct (decide (q = r)) as [->|Hqr].
      * assert (tq = T) as -> by congruence. rewrite HuT.
        by apply (tw_root _ _ _ (inv_wf _ Hinv p t Ht)).
      * by destruct (fr_up c r Hf q tq Hq Hqr) as [? _].
  - apply (table_wf_shape h); [by apply Hinv| |].
    + intros q' t' Hq'. exists t'. split; [by eapply lookup_weaken|done].
    + intros H4. destruct (tw_up _ _ _ (inv_wf _ Hinv q tq Hq) H4) as (u & Hu & _ & He).
      exists u. split; [by eapply lookup_weaken|done].
  - intros Hl. destruct (decide (q = r)) as [->|Hqr]; [by destruct Hl; congruence|].
    destruct (Hin q tq Hq Hqr Hl) as [i [e Hi]]. exists i. exists e.
    apply child_Some in Hi as (t' & Ht' & ?). apply child_Some. exists t'.
    split; [by eapply lookup_weaken|done].
  - intros Hl. destruct (inv_inner _ Hinv q tq Hq Hl) as [i [e Hi]]. exists i. exists e.
    apply child_Some in Hi as (t' & Ht' & ?). apply child_Some. exists t'.
    split; [by eapply lookup_weaken|done].
Qed.

Lemma copied_Rep h p t c r m :
  h !! p = Some t → level t = Four → part h p t c r ENTRY_COUNT → c ##ₘ h →
  Rep h p m → Rep (c ∪ h) r m.
Proof.
  intros Ht Hl4 [Hf (T & HT & HlT & _) Hw _ _] Hdisj [_ Hlk Hdom].
  assert (Hch : ∀ q i, is_Some (c !! q) → child (c ∪ h) q i = child c q i).
  { intros q i [tq Hq]. unfold child. by rewrite (lookup_union_Some_l _ _ _ _ Hq), Hq. }
  split; [|intros n Hn|done].
  - exists T. split; [by apply lookup_union_Some_l|congruence].
  - rewrite Hlk by done. pose proof (vpn_path_ok n) as Hok. unfold vpn_path in *.
    apply Forall_cons in Hok as [Hi _].
    rewrite (frag_walk_top c r (c ∪ h) T); [|done|by auto|done|by apply Hch|rewrite HlT, Hl4; cbn; lia].
    symmetry. apply Hw; rewrite ?Hl4; cbn; (done || lia).
Qed.

Section CopyProperties.
Context {vm : Vmalloc} {vm_ok : VmallocOk} {x86 : X86Crate} {x86_ok : X86CrateOk}.

(** [copy] makes a new table with the same pages and count; nothing that existed
    before changes. *)
Lemma RemotePageTable_copy_ok h self m :
  pt_inv h → rpt_ok h self m →
  size h + table_count 4 h (l4_page_table self) ≤ vm_capacity →
  ∃ self' h', RemotePageTable_copy h self = Ret (self', h') ∧ pt_inv h' ∧ h ⊆ h' ∧
    h !! l4_page_table self' = None ∧ rpt_ok h' self' m ∧
    size h' ≤ size h + table_count 4 h (l4_page_table self) ∧
    (∀ r m0, Rep h r m0 → Rep h' r m0) ∧
    (∀ path q, length path < 4 → walk h' (l4_page_table self') path = Some q → is_Some (h' !! q) ∧ h !! q = None).
Proof.
  intros Hinv [HR Hcnt] Hcap. destruct (rep_root _ _ _ HR) as (t & Ht & Hl4).
  destruct (deep_copy_ok h Hinv 4 h (l4_page_table self) t) as (r & c & E & Hd & Hp & Hs);
    [done|done|by rewrite Hl4|done|].
  unfold RemotePageTable_copy. rewrite E. cbn. eexists _, _. split_and!; [done| | | | |done| |].
  - by eapply copied_pt_inv.
  - by apply map_union_subseteq_r.
  - cbn. destruct (pa_root _ _ _ _ _ _ Hp) as (T & HT & _). by eapply map_disjoint_Some_l.
  - split; [by eapply copied_Rep|done].
  - intros r0 m0. apply grows_Rep, subseteq_grows; [apply Hinv|by apply map_union_subseteq_r].
  - cbn. intros path q Hlen Hw. destruct (pa_root _ _ _ _ _ _ Hp) as (T & HT & HlT & _).
    destruct (frag_walk_in c r h r T path q (pa_frag _ _ _ _ _ _ Hp) Hd HT) as [tq Hq]; [by rewrite HlT, Hl4|done|].
    split; [exists tq; by apply lookup_union_Some_l|by eapply map_disjoint_Some_l].
Qed.

(** C23: The copy is independent of the original.  All the tables it consists of are
    new blocks, the blocks there were before are as they were, and so is every
    other table; the copy translates every address as the original does and has
    its length, and a later [force_map] on either table shows on that table
    only. *)
Theorem page_table_copy_independent h self m addr phy :
  pt_inv h → rpt_ok h self m → is_u64 addr → pa_0 phy ≠ 0%Z →
  size h + table_count 4 h (l4_page_table self) + 3 ≤ vm_capacity →
  ∃ copy h1, RemotePageTable_copy h self = Ret (copy, h1) ∧
    h ⊆ h1 ∧ (∀ r m0, Rep h r m0 → Rep h1 r m0) ∧
    (∀ path q, length path < 4 → walk h1 (l4_page_table copy) path = Some q → is_Some (h1 !! q) ∧ h !! q = None) ∧
    RemotePageTable_len copy = RemotePageTable_len self ∧
    (∀ v, is_u64 v →
      RemotePageTable_translate h1 copy v = RemotePageTable_translate h self v ∧
      RemotePageTable_translate h1 self v = RemotePageTable_translate h self v) ∧
    ∀ a b, (a = copy ∧ b = self) ∨ (a = self ∧ b = copy) →
    ∃ a' h2, RemotePageTable_force_map h1 a addr phy = Ret (a', h2) ∧
      RemotePageTable_translate h2 a' addr = Ret (Some phy) ∧
      ∀ v, is_u64 v →
        RemotePageTable_translate h2 b v = RemotePageTable_translate h self v.
Proof.
  intros Hinv Hok Hv Hphy Hcap.
  destruct (RemotePageTable_copy_ok h self m Hinv Hok) as
    (copy & h1 & E & Hinv1 & Hsub & Hfresh & Hokc & Hs & Hkeep & Hnew); [lia|].
  assert (Hok1 : rpt_ok h1 self m) by (split; [apply Hkeep|]; apply Hok).
  assert (Hne : l4_page_table copy ≠ l4_page_table self).
  { destruct (rep_root _ _ _ (ok_rep _ _ _ Hok)) as (t & Ht & _). congruence. }
  assert (Htr : ∀ v, is_u64 v → RemotePageTable_translate h self v =
    Ret (PhysAddr_new <$> m !! vpn v))
    by (intros; apply RemotePageTable_translate_ok; (done || apply Hok)).
  exists copy, h1. split_and!; [done..| | |].
  - unfold RemotePageTable_len. by rewrite (ok_cnt _ _ _ Hok), (ok_cnt _ _ _ Hokc).
  - intros v Hvv. rewrite Htr by done.
    by split; apply RemotePageTable_translate_ok; (done || apply Hokc || apply Hok1).
  - intros a b Hab. assert (rpt_ok h1 a m ∧ rpt_ok h1 b m ∧ l4_page_table b ≠ l4_page_table a)
      as (Hoka & Hokb & Hba) by (destruct Hab as [[-> ->]|[-> ->]]; done).
    destruct (RemotePageTable_force_map_ok h1 a m addr phy) as
      (a' & h2 & E2 & Hinv2 & _ & Hoka' & _ & Hoth); [done..|lia|].
    exists a', h2. split_and!; [done| |].
    + rewrite (RemotePageTable_translate_ok h2 a' _ addr Hinv2 (ok_rep _ _ _ Hoka') Hv).
      rewrite lookup_insert_eq. by destruct phy.
    + intros v Hvv. rewrite Htr by done. apply RemotePageTable_translate_ok; [done| |done].
      apply Hoth; [done|]. apply Hokb.
Qed.
End CopyProperties.

Lemma page_table_copy_independent_witness :
  ∃ copy h1, RemotePageTable_copy (vm := area32) two_pages.1 two_pages.2 = Ret (copy, h1) ∧
    two_pages.1 ⊆ h1 ∧ two_pages.1 !! l4_page_table copy = None ∧
    RemotePageTable_translate (x86 := x86_reference) h1 copy (2 ^ 40) = Ret (Some (PhysAddr_new 8192)).
Proof.
  destruct two_pages_ok as [Hinv Hok].
  destruct (page_table_copy_independent (vm := area32) (vm_ok := area32_ok) (x86 := x86_reference) two_pages.1 two_pages.2 _
    8192%Z (PhysAddr_new 12288) Hinv Hok) as (copy & h1 & E & Hsub & _ & Hnew & _ & Ht & _).
  - by compute.
  - done.
  - vm_compute. lia.
  - exists copy, h1. split; [exact E|]. split; [exact Hsub|]. split; [by destruct (Hnew [] (l4_page_table copy) ltac:(cbn; lia) eq_refl)|].
    destruct (Ht (2 ^ 40)%Z) as [-> _]; [unfold is_u64; lia|].
    vm_compute. reflexivity.
Defined.
