(* ===== verification/PageDrop.v ===== *)
(** * Dropping page tables ([Drop for PageTable])

    Dropping a table drops the tables below it, gives the prefetched pages back
    to the kernel and frees the block.  [drop_table] returns the remaining heap
    and the pages passed to [pmem_free_page], in order. *)

From S2P Require Import Prelude PageStructures PageHeap RemotePageTable PageIter.

(** ** Operations *)

(** The [None] arm: the entries of a level-one table. *)
Fixpoint drop_pages (es : list Z) : outcome (list Z) :=
  match es with
  | [] => Ret []
  | entry :: es' =>
      if decide (entry = 0%Z) then drop_pages es'
      else
        let physaddr := PhysAddr_new entry in
        _ ← rust_assert (negb (bool_decide (entry = K_MAGIC_IN_PREFETCH)));
        freed ← drop_pages es';
        Ret (if PhysAddr_is_prefetch physaddr then PhysAddr_decode entry :: freed else freed)
  end.

(** The [Some] arm: [rec] drops the box made from the entry. *)
Fixpoint drop_children (rec : heap → Z → outcome (heap * list Z)) (h : heap) (es : list Z)
    : outcome (heap * list Z) :=
  match es with
  | [] => Ret (h, [])
  | entry :: es' =>
      if decide (entry = 0%Z) then drop_children rec h es'
      else
        '(h, freed) ← rec h entry;
        '(h, freed') ← drop_children rec h es';
        Ret (h, freed ++ freed')
  end.

(** Dropping the box at [p]: [Drop::drop], then the block is freed. *)
Fixpoint drop_table (fuel : nat) (h : heap) (p : Z) : outcome (heap * list Z) :=
  match fuel with
  | 0 => NoFuel
  | S fuel =>
      t ← deref h p;
      '(h, freed) ← match next_lower_level (level t) with
                    | Some _ => drop_children (drop_table fuel) h (entries t)
                    | None => freed ← drop_pages (entries t); Ret (h, freed)
                    end;
      Ret (delete p h, freed)
  end.

(** A [RemotePageTable] owns its level-four table; four levels. *)
Definition RemotePageTable_drop (h : heap) (self : RemotePageTable) : outcome (heap * list Z) :=
  drop_table 4 h (l4_page_table self).

(** ** The tables and pages below a table *)

Definition non_null (es : list Z) : list Z := filter (λ e, e ≠ 0%Z) es.

Fixpoint tables_below (fuel : nat) (h : heap) (p : Z) : list Z :=
  match fuel with
  | 0 => []
  | S fuel =>
      match h !! p with
      | None => []
      | Some t =>
          match next_lower_level (level t) with
          | Some _ => non_null (entries t) ≫= tables_below fuel h
          | None => []
          end ++ [p]
      end
  end.

(** The page entries below a table, left to right. *)
Fixpoint pages_below (fuel : nat) (h : heap) (p : Z) : list Z :=
  match fuel with
  | 0 => []
  | S fuel =>
      match h !! p with
      | None => []
      | Some t =>
          match next_lower_level (level t) with
          | Some _ => non_null (entries t) ≫= pages_below fuel h
          | None => non_null (entries t)
          end
      end
  end.

(** The page an entry gives back to the kernel. *)
Definition freed_page (e : Z) : option Z :=
  if PhysAddr_is_prefetch (PhysAddr_new e) then Some (PhysAddr_decode e) else None.

Definition delete_all (h : heap) (ps : list Z) : heap := foldl (λ h p, delete p h) h ps.

Lemma delete_all_app h ps qs : delete_all h (ps ++ qs) = delete_all (delete_all h ps) qs.
Proof. apply foldl_app. Qed.

Lemma delete_all_lookup h ps q :
  delete_all h ps !! q = if decide (q ∈ ps) then None else h !! q.
Proof.
  revert h. induction ps as [|p ps IH]; intros h; cbn.
  - by rewrite decide_False by apply not_elem_of_nil.
  - fold (delete_all (delete p h) ps). rewrite IH. destruct (decide (q = p)) as [->|Hne].
    + rewrite lookup_delete_eq, (decide_True (P := p ∈ p :: ps)) by left. by case_decide.
    + rewrite lookup_delete_ne by done.
      destruct (decide (q ∈ ps)) as [Hin|Hnin].
      * by rewrite decide_True by (by right).
      * by rewrite decide_False by (intros [|]%elem_of_cons; done).
Qed.

(** ** What [drop_table] does *)

Lemma drop_pages_ok es :
  Forall (λ e, e ≠ K_MAGIC_IN_PREFETCH) es →
  drop_pages es = Ret (omap freed_page (non_null es)).
Proof.
  induction es as [|e es IH]; intros Hall; [done|]. apply Forall_cons in Hall as [He Hall].
  cbn [drop_pages]. unfold non_null. rewrite filter_cons. destruct (decide (e = 0%Z)) as [->|Hne].
  - rewrite decide_False by auto. by apply IH.
  - rewrite decide_True by done. rewrite bool_decide_false by done. cbn.
    rewrite IH by done. cbn. unfold freed_page. by destruct (PhysAddr_is_prefetch _).
Qed.

Section Drop.
Context (h : heap) (Hwf : heap_wf h).

(** The claim for one level of fuel: it removes exactly the tables below [p] from
    any heap in which they are intact. *)
Definition drops (fuel : nat) : Prop := ∀ hc p t,
  h !! p = Some t → depth (level t) ≤ fuel →
  (∀ q, q ∈ tables_below fuel h p → hc !! q = h !! q) → NoDup (tables_below fuel h p) →
  Forall (λ e, e ≠ K_MAGIC_IN_PREFETCH) (pages_below fuel h p) →
  drop_table fuel hc p =
    Ret (delete_all hc (tables_below fuel h p), omap freed_page (pages_below fuel h p)).

Lemma drop_children_ok fuel hc es :
  drops fuel →
  (∀ e, e ∈ non_null es → ∃ te, h !! e = Some te ∧ depth (level te) ≤ fuel) →
  (∀ q, q ∈ non_null es ≫= tables_below fuel h → hc !! q = h !! q) →
  NoDup (non_null es ≫= tables_below fuel h) →
  Forall (λ e, e ≠ K_MAGIC_IN_PREFETCH) (non_null es ≫= pages_below fuel h) →
  drop_children (drop_table fuel) hc es =
    Ret (delete_all hc (non_null es ≫= tables_below fuel h),
         omap freed_page (non_null es ≫= pages_below fuel h)).
Proof.
  intros Hrec. revert hc. induction es as [|e es IH]; intros hc Hes Hq Hnd Hmagic; [done|].
  cbn [drop_children]. unfold non_null in *. rewrite filter_cons in *.
  destruct (decide (e = 0%Z)) as [->|Hne].
  { rewrite decide_False in * by auto. by apply IH. }
  rewrite decide_True in * by done. rewrite !bind_cons in *.
  apply NoDup_app in Hnd as (Hnd1 & Hdisj & Hnd2). apply Forall_app in Hmagic as [Hm1 Hm2].
  destruct (Hes e) as (te & Hte & Hd); [left|].
  rewrite (Hrec hc e te) by (try done; intros q Hin; apply Hq; set_solver). cbn [mbind outcome_bind].
  rewrite IH; [|set_solver| |done|done].
  - cbn. by rewrite delete_all_app, omap_app.
  - intros q Hin. rewrite delete_all_lookup, decide_False by set_solver. apply Hq. set_solver.
Qed.

Lemma drop_table_ok fuel : drops fuel.
Proof.
  induction fuel as [|fuel IH]; intros hc p t Ht Hd Hq Hnd Hmagic.
  { destruct (level t); cbn in Hd; lia. }
  cbn [tables_below pages_below drop_table] in *. rewrite Ht in *.
  assert (Hp : hc !! p = Some t) by (rewrite Hq; [done|set_solver]).
  rewrite (deref_Some _ _ _ Hp). cbn [mbind outcome_bind].
  destruct (next_lower_level (level t)) as [l|] eqn:El.
  - apply NoDup_app in Hnd as (Hnd & Hdisj & _).
    rewrite drop_children_ok; [|done| | |done|done].
    + cbn. by rewrite delete_all_app.
    + intros e [Hne He]%list_elem_of_filter. apply list_elem_of_lookup in He as [i He].
      destruct (tw_down _ _ _ (Hwf p t Ht) l i e El He Hne) as (te & Hte & Hl & _).
      exists te. split; [done|]. apply depth_lower in El. rewrite Hl. lia.
    + intros q Hin. apply Hq. set_solver.
  - rewrite drop_pages_ok; [done|]. apply Forall_forall. intros e He.
    destruct (decide (e = 0%Z)) as [->|Hne]; [done|].
    rewrite Forall_forall in Hmagic. apply Hmagic. by apply list_elem_of_filter.
Qed.
End Drop.

(** ** The tables below a table, by paths *)
Section Below.
Context (h : heap) (Hwf : heap_wf h).

Lemma non_null_elem es e : e ∈ non_null es ↔ ∃ i, es !! i = Some e ∧ e ≠ 0%Z.
Proof.
  unfold non_null. rewrite list_elem_of_filter, list_elem_of_lookup. naive_solver.
Qed.

Lemma non_null_child p t e :
  h !! p = Some t → e ∈ non_null (entries t) ↔ ∃ i, child h p i = Some e.
Proof.
  intros Ht. rewrite non_null_elem. split; intros [i Hi]; exists i.
  - apply child_Some. naive_solver.
  - apply child_Some in Hi as (t' & ? & ?). by simplify_eq.
Qed.

Lemma tables_below_elem fuel p t q :
  h !! p = Some t → depth (level t) ≤ fuel →
  q ∈ tables_below fuel h p ↔ ∃ path, length path < depth (level t) ∧ walk h p path = Some q.
Proof.
  revert p t. induction fuel as [|fuel IH]; intros p t Ht Hd.
  { destruct (level t); cbn in Hd; lia. }
  cbn [tables_below]. rewrite Ht, elem_of_app, list_elem_of_singleton.
  destruct (next_lower_level (level t)) as [l|] eqn:El.
  - pose proof (depth_lower _ _ El) as Hdl.
    assert (Hstep : ∀ e i, child h p i = Some e → ∃ te, h !! e = Some te ∧ level te = l).
    { intros e i Hc. destruct (child_wf h p i e t Hwf Ht Hc) as (te & ? & Hl & _); [|eexists; naive_solver].
      intros E. by rewrite E in El. }
    rewrite list_elem_of_bind. split.
    + intros [(e & Hq & He)| ->]; [|exists []; cbn; split; [lia|done]].
      apply (non_null_child p t e Ht) in He as [i Hc].
      destruct (Hstep e i Hc) as (te & Hte & Hle).
      apply (IH e te) in Hq as (path & Hlen & Hw); [|done|rewrite Hle; lia].
      exists (i :: path). cbn. rewrite Hc. rewrite Hle in Hlen. split; [lia|done].
    + intros ([|i path] & Hlen & Hw); [right; by injection Hw|left]. cbn in Hw, Hlen.
      apply bind_Some in Hw as (e & Hc & Hw). destruct (Hstep e i Hc) as (te & Hte & Hle).
      exists e. split; [|by apply (non_null_child p t); eauto].
      apply (IH e te); [done|rewrite Hle; lia|]. exists path. rewrite Hle. split; [lia|done].
  - assert (depth (level t) = 1) as -> by (by destruct (level t)). split.
    + intros [[]%elem_of_nil| ->]. exists []. cbn. split; [lia|done].
    + intros ([|i path] & Hlen & Hw); [right; by injection Hw|cbn in Hlen; lia].
Qed.

Lemma non_null_NoDup p t :
  h !! p = Some t → level t ≠ One → NoDup (non_null (entries t)).
Proof.
  intros Ht Hl. apply NoDup_filter_lookup. intros i j e Hi Hj Hne.
  assert (Hc : ∀ k, entries t !! k = Some e → child h p k = Some e).
  { intros k Hk. apply child_Some. eauto. }
  destruct (child_wf h p i e t Hwf Ht (Hc i Hi) Hl) as (te & Hte & _ & _ & <-).
  destruct (child_wf h p j e t Hwf Ht (Hc j Hj) Hl) as (te' & Hte' & _ & _ & <-).
  congruence.
Qed.

(** No table is below two different children. *)
Lemma tables_below_NoDup fuel p t :
  h !! p = Some t → depth (level t) ≤ fuel → NoDup (tables_below fuel h p).
Proof.
  revert p t. induction fuel as [|fuel IH]; intros p t Ht Hd; [constructor|].
  cbn [tables_below]. rewrite Ht.
  destruct (next_lower_level (level t)) as [l|] eqn:El; [|apply NoDup_singleton].
  pose proof (depth_lower _ _ El) as Hdl.
  assert (Hl1 : level t ≠ One) by (intros E; by rewrite E in El).
  assert (Hstep : ∀ e, e ∈ non_null (entries t) → ∃ te, h !! e = Some te ∧ level te = l).
  { intros e [i Hc]%(non_null_child p t e Ht).
    destruct (child_wf h p i e t Hwf Ht Hc Hl1) as (te & ? & Hl & _). exists te. naive_solver. }
  apply NoDup_app. split_and!; [apply NoDup_bind| |apply NoDup_singleton].
  - intros e1 e2 q He1 He2 H1 H2. destruct (Hstep e1 He1) as (t1 & Ht1 & Hl1').
    destruct (Hstep e2 He2) as (t2 & Ht2 & Hl2).
    apply (tables_below_elem fuel e1 t1) in H1 as (p1 & Hlen1 & Hw1); [|done|rewrite Hl1'; lia].
    apply (tables_below_elem fuel e2 t2) in H2 as (p2 & Hlen2 & Hw2); [|done|rewrite Hl2; lia].
    destruct (walk_table h e1 p1 t1 q Hwf Ht1 Hlen1 Hw1) as (tq & Htq & Hd1).
    destruct (walk_table h e2 p2 t2 q Hwf Ht2 Hlen2 Hw2) as (tq' & Htq' & Hd2).
    assert (tq' = tq) as -> by congruence.
    rewrite Hl1', Hl2 in *.
    destruct (walk_inj_level h e1 e2 t1 t2 p1 p2 q) as [-> _]; try done; (congruence || lia).
  - intros e He. destruct (Hstep e He) as (te & Hte & Hl). apply (IH e te); [done|rewrite Hl; lia].
  - by eapply non_null_NoDup.
  - intros q (e & Hq & He)%list_elem_of_bind ->%list_elem_of_singleton.
    destruct (Hstep e He) as (te & Hte & Hl).
    apply (tables_below_elem fuel e te) in Hq as (path & Hlen & Hw); [|done|rewrite Hl; lia].
    destruct (walk_table h e path te p Hwf Hte Hlen Hw) as (tp & Htp & Hd').
    assert (tp = t) as -> by congruence. rewrite Hl in Hd'. lia.
Qed.
End Below.

(** ** The pages below a table, by number *)

(** The page entries below the table number [n], with their page numbers. *)
Fixpoint leaves (fuel : nat) (h : heap) (p n : Z) : list (Z * Z) :=
  match fuel with
  | 0 => []
  | S fuel =>
      match h !! p with
      | None => []
      | Some t =>
          let es := indexed (λ e, e ≠ 0%Z) (entries t) in
          match next_lower_level (level t) with
          | Some _ => es ≫= λ ie, leaves fuel h ie.2 (n * 512 + Z.of_nat ie.1)
          | None => (λ ie, (n * 512 + Z.of_nat ie.1, ie.2)%Z) <$> es
          end
      end
  end.

Lemma leaves_pages fuel h p n : (leaves fuel h p n).*2 = pages_below fuel h p.
Proof.
  revert p n. induction fuel as [|fuel IH]; intros p n; [done|]. cbn [leaves pages_below].
  destruct (h !! p) as [t|]; [|done]. cbv zeta.
  unfold non_null. rewrite <- (indexed_snd (λ e, e ≠ 0%Z)).
  destruct (next_lower_level (level t)).
  - induction (indexed _ (entries t)) as [|ie es IHes]; [done|].
    rewrite fmap_cons, !bind_cons, fmap_app. by rewrite IH, IHes.
  - rewrite <- list_fmap_compose. by apply list_fmap_ext.
Qed.

Section Leaves.
Context (h : heap) (Hinv : pt_inv h) (r : Z) (Hr : is_root h r).

Lemma tab_prefix j k x : is_Some (tab h r (j + k) x) → is_Some (tab h r k (x / tab_bound j)).
Proof.
  revert x. induction j as [|j IH]; intros x Hx.
  - unfold tab_bound. cbn. by rewrite Z.div_1_r.
  - change (S j + k) with (S (j + k)) in Hx. rewrite tab_S in Hx. destruct Hx as [e Hx]. apply bind_Some in Hx as (e' & Hx & _).
    assert (Hj : is_Some (tab h r k (x / 512 / tab_bound j))) by (apply IH; by eexists).
    assert (0 < tab_bound j)%Z by (apply Z.pow_pos_nonneg; lia).
    rewrite Z.div_div in Hj by lia.
    rewrite tab_bound_S. by rewrite Z.mul_comm.
Qed.

Lemma digit_unique n (i : nat) y :
  i < ENTRY_COUNT → (y = n * 512 + Z.of_nat i → y / 512 = n ∧ Z.to_nat (y mod 512) = i)%Z.
Proof.
  intros Hi ->. unfold ENTRY_COUNT in Hi. split.
  - rewrite Z.div_add_l, Z.div_small by lia. lia.
  - rewrite Z.add_comm, Z.mod_add, Z.mod_small by lia. lia.
Qed.

Lemma digit_split y : (y = y / 512 * 512 + Z.of_nat (Z.to_nat (y mod 512)))%Z.
Proof. pose proof (Z.mod_pos_bound y 512). pose proof (Z.div_mod y 512). lia. Qed.

Lemma indexed_child p t i e :
  h !! p = Some t → (i, e) ∈ indexed (λ e, e ≠ 0%Z) (entries t) ↔ child h p i = Some e.
Proof.
  intros Ht. rewrite indexed_elem, child_Some. split; [by eauto|]. naive_solver.
Qed.

Lemma child_lt p t i e : h !! p = Some t → child h p i = Some e → i < ENTRY_COUNT.
Proof.
  intros Ht (t' & ? & Hi%lookup_lt_Some & _)%child_Some. simplify_eq.
  by rewrite <- (tw_length _ _ _ (inv_wf _ Hinv p t Ht)).
Qed.

(** A child of the table number [n] is a table one level down. *)
Lemma tab_step k p n t l i c :
  tab h r k n = Some p → h !! p = Some t → next_lower_level (level t) = Some l →
  child h p i = Some c →
  ∃ tc, h !! c = Some tc ∧ level tc = l ∧ tab h r (S k) (n * 512 + Z.of_nat i) = Some c.
Proof.
  intros Hp Ht El Hc. destruct (child_wf h p i c t (inv_wf _ Hinv) Ht Hc) as (tc & Htc & Hl & _).
  { intros E. by rewrite E in El. }
  exists tc. split_and!; [done|congruence|]. rewrite (tab_digit h r k n i p); [done| |done].
  by apply (child_lt p t i c).
Qed.

Lemma leaves_elem fuel k p n t x e :
  tab h r k n = Some p → h !! p = Some t → 4 = k + depth (level t) → depth (level t) ≤ fuel →
  (x, e) ∈ leaves fuel h p n ↔
    (x / tab_bound (depth (level t)) = n)%Z ∧ tab h r 4 x = Some e.
Proof.
  revert k p n t. induction fuel as [|fuel IH]; intros k p n t Hp Ht Hk Hd.
  { destruct (level t); cbn in Hd; lia. }
  cbn [leaves]. rewrite Ht. cbv zeta. destruct (next_lower_level (level t)) as [l|] eqn:El.
  - pose proof (depth_lower _ _ El) as Hdl.
    assert (Hstep := λ i c, tab_step k p n t l i c Hp Ht El).
    assert (0 < tab_bound (depth l))%Z by (apply Z.pow_pos_nonneg; lia).
    rewrite Hdl, tab_bound_S, <- Z.div_div by lia.
    rewrite list_elem_of_bind. split.
    + intros ([i c] & Hx & Hc). cbn in Hx. rewrite (indexed_child p t i c Ht) in Hc.
      destruct (Hstep i c Hc) as (tc & Htc & Hlc & Htab).
      apply (IH (S k) c _ tc Htab Htc) in Hx as [Hx Hval]; [|rewrite Hlc; lia..].
      rewrite Hlc in Hx. split; [|done]. eapply digit_unique; [by apply (child_lt p t i c)|done].
    + intros [Hx Hval]. set (y := (x / tab_bound (depth l))%Z) in *.
      destruct (tab_prefix (depth l) (S k) x) as [c Hc].
      { replace (depth l + S k) with 4 by lia. by eexists. }
      fold y in Hc. rewrite tab_S, Hx, Hp in Hc. cbn in Hc.
      destruct (Hstep _ c Hc) as (tc & Htc & Hlc & Htab). rewrite <- Hx, <- digit_split in Htab.
      exists (Z.to_nat (y mod 512), c). rewrite (indexed_child p t _ c Ht). split; [|done]. cbn.
      rewrite <- Hx, <- digit_split. apply (IH (S k) c y tc); [done|done|rewrite Hlc; lia..|].
      by rewrite Hlc.
  - assert (Hd1 : depth (level t) = 1) by (by destruct (level t)). rewrite Hd1 in *.
    assert (k = 3) as -> by lia. change (tab_bound 1) with 512%Z. rewrite list_elem_of_fmap. split.
    + intros ([i c] & [= -> ->] & Hc). rewrite (indexed_child p t i c Ht) in Hc. cbn [fst snd].
      split; [eapply digit_unique; [by apply (child_lt p t i c)|done]|].
      rewrite (tab_digit h r 3 n i p); [done|by apply (child_lt p t i c)|done].
    + intros [Hx Hval]. rewrite tab_S, Hx, Hp in Hval. cbn in Hval.
      exists (Z.to_nat (x mod 512), e). cbn. rewrite (indexed_child p t _ e Ht). split; [|done].
      by rewrite <- Hx, <- digit_split.
Qed.

Lemma leaves_NoDup fuel k p n t :
  tab h r k n = Some p → h !! p = Some t → 4 = k + depth (level t) → depth (level t) ≤ fuel →
  NoDup (leaves fuel h p n).
Proof.
  revert k p n t. induction fuel as [|fuel IH]; intros k p n t Hp Ht Hk Hd; [constructor|].
  cbn [leaves]. rewrite Ht. cbv zeta. destruct (next_lower_level (level t)) as [l|] eqn:El.
  - pose proof (depth_lower _ _ El) as Hdl.
    assert (Hstep := λ i c, tab_step k p n t l i c Hp Ht El).
    apply NoDup_bind; [| |apply indexed_NoDup].
    + intros [i1 c1] [i2 c2] [x e] H1 H2 Hx1 Hx2. cbn in Hx1, Hx2.
      rewrite (indexed_child p t i1 c1 Ht) in H1. rewrite (indexed_child p t i2 c2 Ht) in H2.
      destruct (Hstep i1 c1 H1) as (t1 & Ht1 & Hl1 & Htab1).
      destruct (Hstep i2 c2 H2) as (t2 & Ht2 & Hl2 & Htab2).
      apply (leaves_elem fuel (S k) c1 _ t1) in Hx1 as [Hx1 _]; [|done|done|rewrite Hl1; lia..].
      apply (leaves_elem fuel (S k) c2 _ t2) in Hx2 as [Hx2 _]; [|done|done|rewrite Hl2; lia..].
      rewrite Hl1 in Hx1. rewrite Hl2 in Hx2. assert (i1 = i2) as -> by lia. congruence.
    + intros [i c] Hc. rewrite (indexed_child p t _ _ Ht) in Hc.
      destruct (Hstep i c Hc) as (tc & Htc & Hlc & Htab). cbn.
      apply (IH (S k) c _ tc); [done|done|rewrite Hlc; lia..].
  - apply NoDup_fmap_2; [|apply indexed_NoDup].
    intros [i1 c1] [i2 c2]. cbn. intros [= ? ->]. f_equal. lia.
Qed.
End Leaves.

(** The pages below a root are the bindings of its abstract map. *)
Lemma leaves_map h r m t :
  pt_inv h → Rep h r m → h !! r = Some t → leaves 4 h r 0 ≡ₚ map_to_list m.
Proof.
  intros Hinv HR Ht. pose proof (rep_root _ _ _ HR) as Hr.
  assert (Hl : level t = Four) by (destruct Hr as (t' & ? & ?); congruence).
  apply NoDup_Permutation; [|apply NoDup_map_to_list|].
  - apply (leaves_NoDup h Hinv r 4 0 r 0 t); [done|done|by rewrite Hl..].
  - intros [x e]. rewrite elem_of_map_to_list.
    rewrite (leaves_elem h Hinv r 4 0 r 0 t) by (done || by rewrite Hl). rewrite Hl.
    change (tab_bound (depth Four)) with (2 ^ 36)%Z. split.
    + intros [Hx Hv]. rewrite <- Hv. apply (Rep_tab h r m x HR).
      unfold is_vpn. pose proof (Z.mod_pos_bound x (2 ^ 36)). pose proof (Z.div_mod x (2 ^ 36)). lia.
    + intros Hx. pose proof (rep_domain _ _ _ HR x ltac:(by eexists)) as Hv.
      rewrite <- (Rep_tab h r m x HR Hv). split; [|done]. by apply Z.div_small.
Qed.

(** [q] is one of the tables of the tree rooted at [r]. *)
Definition under (h : heap) (r q : Z) : Prop :=
  ∃ path, length path < 4 ∧ walk h r path = Some q.

Section DropTree.
Context (h : heap) (Hinv : pt_inv h) (r : Z) (t : PageTable).
Context (Ht : h !! r = Some t) (Hl4 : level t = Four).

Lemma under_tables q : q ∈ tables_below 4 h r ↔ under h r q.
Proof.
  rewrite (tables_below_elem h (inv_wf _ Hinv) 4 r t q Ht) by (by rewrite Hl4).
  by rewrite Hl4.
Qed.

Lemma under_root q tq : under h r q → h !! q = Some tq → level tq = Four → q = r.
Proof.
  intros (path & Hlen & Hw) Hq Hl.
  destruct (walk_table h r path t q (inv_wf _ Hinv) Ht) as (tq' & Hq' & Hd); [by rewrite Hl4|done|].
  assert (tq' = tq) as -> by congruence. rewrite Hl4, Hl in Hd.
  destruct path; [by injection Hw|cbn in Hd; lia].
Qed.

(** The tree is closed downwards and upwards. *)
Lemma under_child q tq i e :
  under h r q → h !! q = Some tq → level tq ≠ One → child h q i = Some e → under h r e.
Proof.
  intros (path & Hlen & Hw) Hq Hl Hc.
  destruct (walk_table h r path t q (inv_wf _ Hinv) Ht) as (tq' & Hq' & Hd); [by rewrite Hl4|done|].
  assert (tq' = tq) as -> by congruence. rewrite Hl4 in Hd.
  exists (path ++ [i]). rewrite walk_snoc, Hw, length_app. cbn. split; [|done].
  destruct (level tq); cbn in Hd; (done || lia).
Qed.

Lemma under_upper q tq i e :
  h !! q = Some tq → level tq ≠ One → child h q i = Some e → under h r e → under h r q.
Proof.
  intros Hq Hl Hc (path & Hlen & Hw).
  destruct (child_wf h q i e tq (inv_wf _ Hinv) Hq Hc Hl) as (te & Hte & Hlow & Hup & _).
  destruct path as [|j path _] using rev_ind.
  - injection Hw as <-. assert (te = t) as -> by congruence. rewrite Hl4 in Hlow.
    by destruct (level tq).
  - rewrite length_app in Hlen. cbn in Hlen. rewrite walk_snoc in Hw.
    apply bind_Some in Hw as (u & Hu & Hcu).
    destruct (walk_table h r path t u (inv_wf _ Hinv) Ht) as (tu & Htu & Hd); [rewrite Hl4; cbn; lia|done|].
    destruct (child_wf h u j e tu (inv_wf _ Hinv) Htu Hcu) as (te' & Hte' & _ & Hup' & _).
    { intros E. rewrite Hl4, E in Hd. cbn in Hd. lia. }
    assert (u = q) as <- by congruence. exists path. split; [lia|done].
Qed.

Abbreviation h' := (delete_all h (tables_below 4 h r)).

Lemma dropped_under q : under h r q → h' !! q = None.
Proof. intros Hq. rewrite delete_all_lookup. by rewrite decide_True by (by apply under_tables). Qed.

Lemma dropped_keeps q : ¬ under h r q → h' !! q = h !! q.
Proof.
  intros Hq. rewrite delete_all_lookup. rewrite decide_False; [done|].
  intros Hin. by apply Hq, under_tables.
Qed.

Lemma dropped_Some q tq : h' !! q = Some tq ↔ h !! q = Some tq ∧ ¬ under h r q.
Proof.
  rewrite delete_all_lookup. destruct (decide (q ∈ tables_below 4 h r)) as [Hin|Hnin].
  - split; [done|]. intros [_ Hn]. by destruct Hn; apply under_tables.
  - rewrite under_tables in Hnin. naive_solver.
Qed.

Lemma dropped_child q i : ¬ under h r q → child h' q i = child h q i.
Proof. intros Hq. unfold child. by rewrite dropped_keeps. Qed.

Lemma dropped_inv : pt_inv h'.
Proof.
  assert (Hdown : ∀ q tq i e, h !! q = Some tq → ¬ under h r q → level tq ≠ One →
    child h q i = Some e → ¬ under h r e) by (intros; eauto using under_upper).
  split.
  - intros q tq [Hq Hn]%dropped_Some. destruct (inv_wf _ Hinv q tq Hq) as [Ha Hlen Hd Hu Hroot].
    split; [done|done| | |done].
    + intros l i e Hl He Hne. destruct (Hd l i e Hl He Hne) as (te & Hte & Hrest).
      exists te. split; [|done]. apply dropped_Some. split; [done|].
      apply (Hdown q tq i); [done|done|intros E; by rewrite E in Hl|]. apply child_Some. eauto.
    + intros H4. destruct (Hu H4) as (u & Htu & Hlow & He). exists u. split; [|done].
      apply dropped_Some. split; [done|]. intros Hun. apply Hn.
      apply (under_child (upper_level tq) u (upper_level_index tq)); [done|done| |].
      * intros E. by rewrite E in Hlow.
      * apply child_Some. exists u. split_and!; [done..|lia].
  - intros q tq [Hq Hn]%dropped_Some Hl. destruct (inv_inner _ Hinv q tq Hq Hl) as [i Hi].
    exists i. by rewrite dropped_child.
Qed.

(** Every other table keeps its pages. *)
Lemma dropped_others : others_kept h h' r.
Proof.
  intros r' m' Hne HR. pose proof (rep_root _ _ _ HR) as (tr' & Htr' & Hlr').
  assert (Hnu : ∀ path q, length path < 4 → walk h r' path = Some q → ¬ under h r q).
  { intros path q Hlen Hw (path0 & Hlen0 & Hw0).
    destruct (walk_table h r' path tr' q (inv_wf _ Hinv) Htr') as (tq & Htq & Hd); [by rewrite Hlr'|done|].
    destruct (walk_table h r path0 t q (inv_wf _ Hinv) Ht) as (tq0 & Htq0 & Hd0); [by rewrite Hl4|done|].
    assert (tq0 = tq) as -> by congruence. rewrite Hlr' in Hd. rewrite Hl4 in Hd0.
    destruct (walk_inj h r' r path path0 q) as [-> _]; try done;
      [apply Hinv|by eexists|by eexists|lia]. }
  assert (Hwalk : ∀ path, length path ≤ 4 → walk h' r' path = walk h r' path).
  { induction path as [|i path IH] using rev_ind; [done|]. intros Hlen.
    rewrite length_app in Hlen. cbn in Hlen. rewrite !walk_snoc, IH by lia.
    destruct (walk h r' path) as [q|] eqn:Hq; cbn; [|done].
    apply dropped_child, (Hnu path); [lia|done]. }
  destruct HR as [_ Hlk Hdom]. split; [|intros n Hn|done].
  - exists tr'. split; [|done]. apply dropped_Some. split; [done|]. apply (Hnu []); [cbn; lia|done].
  - by rewrite Hwalk, Hlk.
Qed.
End DropTree.

Lemma RemotePageTable_drop_ok h self m :
  pt_inv h → Rep h (l4_page_table self) m → (∀ n, m !! n ≠ Some K_MAGIC_IN_PREFETCH) →
  ∃ h' freed, RemotePageTable_drop h self = Ret (h', freed) ∧ pt_inv h' ∧
    (∀ q, under h (l4_page_table self) q → h' !! q = None) ∧
    (∀ q, ¬ under h (l4_page_table self) q → h' !! q = h !! q) ∧
    freed ≡ₚ omap (freed_page ∘ snd) (map_to_list m) ∧
    others_kept h h' (l4_page_table self).
Proof.
  intros Hinv HR Hmagic. pose proof (rep_root _ _ _ HR) as (t & Ht & Hl4).
  pose proof (leaves_map h _ m t Hinv HR Ht) as Hleaves.
  assert (Hpages : pages_below 4 h (l4_page_table self) ≡ₚ (map_to_list m).*2)
    by (rewrite <- (leaves_pages 4 h _ 0); by rewrite Hleaves).
  eexists _, _. split_and!.
  - unfold RemotePageTable_drop. apply (drop_table_ok h (inv_wf _ Hinv) 4 h _ t); [done|by rewrite Hl4|done| |].
    + by apply (tables_below_NoDup h (inv_wf _ Hinv) 4 _ t); [|rewrite Hl4].
    + rewrite Hpages. apply Forall_forall. intros e He Hm.
      apply list_elem_of_fmap in He as ([n e'] & He & Hn%elem_of_map_to_list). cbn in He. subst e'.
      apply (Hmagic n). congruence.
  - by apply (dropped_inv h Hinv _ t).
  - intros q. by apply (dropped_under h Hinv _ t).
  - intros q. by apply (dropped_keeps h Hinv _ t).
  - rewrite Hpages. clear. induction (map_to_list m) as [|[n e] l IH]; [done|].
    cbn. destruct (freed_page e); [|done]. by constructor.
  - by apply (dropped_others h Hinv _ t).
Qed.

(** C24: Provided no entry still carries the in-flight marker, on which the code's
    assertion fails, dropping a table frees exactly the tables of its tree and
    gives every prefetched page back to the kernel once; the rest of the heap stays well formed and every other
    table keeps its pages. *)
Theorem page_table_drop_releases h self m :
  pt_inv h → Rep h (l4_page_table self) m → (∀ n, m !! n ≠ Some K_MAGIC_IN_PREFETCH) →
  ∃ h' freed, RemotePageTable_drop h self = Ret (h', freed) ∧ pt_inv h' ∧
    (∀ q, under h (l4_page_table self) q → h' !! q = None) ∧
    (∀ q, ¬ under h (l4_page_table self) q → h' !! q = h !! q) ∧
    freed ≡ₚ omap (freed_page ∘ snd) (map_to_list m) ∧
    others_kept h h' (l4_page_table self).
Proof. apply RemotePageTable_drop_ok. Qed.

(** A third page has been prefetched into the local page 64. *)
Lemma page_table_drop_releases_witness :
  ∃ t h h' freed,
    RemotePageTable_force_map (vm := area32) (x86 := x86_reference) two_pages.1 two_pages.2 8192
      (PhysAddr_new (PhysAddr_encode 64 (flag_as_u64 FlagPrefetch))) = Ret (t, h) ∧
    RemotePageTable_drop h t = Ret (h', freed) ∧ size h' = 0 ∧ freed = [64%Z].
Proof.
  destruct two_pages_ok as [Hinv Hok].
  destruct (RemotePageTable_force_map_ok (vm := area32) (vm_ok := area32_ok) (x86 := x86_reference) two_pages.1 two_pages.2 _ 8192
    (PhysAddr_new (PhysAddr_encode 64 (flag_as_u64 FlagPrefetch))) Hinv Hok) as (t & h & E & Hinv1 & _ & Hok1 & _).
  - by compute.
  - done.
  - vm_compute. lia.
  - destruct (page_table_drop_releases h t _ Hinv1 (ok_rep _ _ _ Hok1)) as (h' & freed & Ed & _).
    { intros n. rewrite !lookup_insert_Some, lookup_empty. intros [[_ ?]|[_ [[_ ?]|[_ [[_ ?]|[_ ?]]]]]]; done. }
    exists t, h, h', freed. split; [exact E|]. split; [exact Ed|].
    vm_compute in E. injection E as <- <-. vm_compute in Ed. injection Ed as <- <-. done.
Defined.
