(* ===== verification/Bytes.v ===== *)
(** * [BytesMut] and [Serialize] ([os-network/src/bytes.rs], [serialize.rs])

    A [BytesMut] is a raw pointer and a length over byte-addressed memory.  A
    typed access to memory that is not allocated or not aligned is undefined
    behaviour ([UB]).  Types that are copied as they lie in memory are the class
    [Pod]; the trait [Serialize] is a class with the laws [SerializeOk] its
    clients are proved against. *)

From S2P Require Import Prelude.

(** ** Little-endian integers *)
Fixpoint le_bytes (n : nat) (z : Z) : list Z :=
  match n with
  | 0 => []
  | S n => (z mod 256)%Z :: le_bytes n (z / 256)
  end.

Fixpoint of_le (bs : list Z) : Z :=
  match bs with
  | [] => 0
  | b :: bs => (b + 256 * of_le bs)%Z
  end.

Lemma le_bytes_length n z : length (le_bytes n z) = n.
Proof. revert z. induction n as [|n IH]; intros z; cbn; [done|]. by rewrite IH. Qed.

Lemma of_le_bytes n z : of_le (le_bytes n z) = (z mod 256 ^ Z.of_nat n)%Z.
Proof.
  revert z. induction n as [|n IH]; intros z.
  - cbn. by rewrite Z.mod_1_r.
  - cbn [le_bytes of_le]. rewrite IH, Nat2Z.inj_succ, Z.pow_succ_r by lia.
    rewrite Z.rem_mul_r by lia. lia.
Qed.

Lemma le_bytes_roundtrip n z : (0 ≤ z < 256 ^ Z.of_nat n)%Z → of_le (le_bytes n z) = z.
Proof. intros Hz. rewrite of_le_bytes. by apply Z.mod_small. Qed.

(** ** Memory *)
Abbreviation mem := (gmap Z Z).

Fixpoint load (m : mem) (p : Z) (n : nat) : option (list Z) :=
  match n with
  | 0 => Some []
  | S n => b ← m !! p; bs ← load m (p + 1) n; Some (b :: bs)
  end.

Fixpoint store (m : mem) (p : Z) (bs : list Z) : option mem :=
  match bs with
  | [] => Some m
  | b :: bs => _ ← m !! p; store (<[p := b]> m) (p + 1) bs
  end.

(** Out-of-allocation accesses are undefined. *)
Definition or_ub {A} (o : option A) : outcome A :=
  match o with Some a => Ret a | None => UB end.

(** ** Plain data

    [size_of], [align_of] and the image in memory.  The layout of a Rust struct
    is the compiler's choice, so for structs this is a parameter; the laws are
    what the language guarantees of a copy through memory. *)
Class Pod (T : Type) := {
  size_of : nat;
  align_of : Z;
  to_bytes : T → list Z;
  of_bytes : list Z → option T;
}.
#[global] Arguments size_of T {_}.
#[global] Arguments align_of T {_}.

Class PodOk (T : Type) `{Pod T} (valid : T → Prop) : Prop := {
  to_bytes_length x : length (to_bytes x) = size_of T;
  of_to_bytes x : valid x → of_bytes (to_bytes x) = Some x;
  align_pos : (0 < align_of T)%Z;
  align_size : (align_of T | Z.of_nat (size_of T))%Z;
}.

Definition int_Pod (n : nat) : Pod Z := {|
  size_of := n;
  align_of := Z.of_nat n;
  to_bytes := le_bytes n;
  of_bytes bs := Some (of_le bs);
|}.

Definition pod_u8 : Pod Z := int_Pod 1.
Definition pod_u32 : Pod Z := int_Pod 4.
Definition pod_u64 : Pod Z := int_Pod 8.

Lemma int_Pod_ok n :
  0 < n → @PodOk Z (int_Pod n) (λ z, (0 ≤ z < 256 ^ Z.of_nat n)%Z).
Proof.
  intros Hn. split; cbn.
  - apply le_bytes_length.
  - intros z Hz. by rewrite le_bytes_roundtrip.
  - lia.
  - done.
Qed.

(** ** [BytesMut] *)
Record BytesMut := mkBytesMut {
  bm_ptr : Z;
  bm_len : Z;
}.

#[export] Instance BytesMut_eq_dec : EqDecision BytesMut.
Proof. solve_decision. Defined.

Definition from_static (ptr len : Z) : BytesMut := mkBytesMut ptr len.

Definition from_raw (ptr len : Z) : BytesMut := from_static ptr len.

Definition truncate_header (self : BytesMut) (off : Z) : option BytesMut :=
  if (off <=? bm_len self)%Z then Some (mkBytesMut (bm_ptr self + off) (bm_len self - off))
  else None.

Definition clone_and_resize (self : BytesMut) (sz : Z) : option BytesMut :=
  if (sz <=? bm_len self)%Z then Some (mkBytesMut (bm_ptr self) sz) else None.

Definition BytesMut_clone (self : BytesMut) : BytesMut := mkBytesMut (bm_ptr self) (bm_len self).

(** [copy_nonoverlapping] of [n] bytes; overlapping ranges are undefined. *)
Definition copy_nonoverlapping (m : mem) (src dst : Z) (n : nat) : outcome mem :=
  if decide (src + Z.of_nat n ≤ dst ∨ dst + Z.of_nat n ≤ src)%Z then
    bs ← or_ub (load m src n);
    or_ub (store m dst bs)
  else UB.

Definition BytesMut_copy (m : mem) (self payload : BytesMut) (offset : Z) : outcome (bool * mem) :=
  if (offset <=? bm_len self)%Z then
    m ← copy_nonoverlapping m (bm_ptr payload) (bm_ptr self) (Z.to_nat (bm_len payload));
    Ret (true, m)
  else Ret (false, m).

Definition get_raw (self : BytesMut) : Z := bm_ptr self.

Definition BytesMut_resize (self : BytesMut) (sz : Z) : BytesMut :=
  if (sz <? bm_len self)%Z then mkBytesMut (bm_ptr self) sz else self.

Definition BytesMut_len (self : BytesMut) : Z := bm_len self.

Definition get_ptr (self : BytesMut) : Z := bm_ptr self.

(** [ptr::write_unaligned] and [ptr::read_unaligned] *)
Definition write_unaligned {T} `{Pod T} (m : mem) (p : Z) (v : T) : outcome mem :=
  or_ub (store m p (to_bytes v)).

Definition read_unaligned (T : Type) `{Pod T} (m : mem) (p : Z) : outcome T :=
  bs ← or_ub (load m p (size_of T));
  or_ub (of_bytes bs).

Definition write_unaligned_at_head {T} `{Pod T} (m : mem) (self : BytesMut) (src : T)
    : outcome (Z * mem) :=
  m ← write_unaligned m (bm_ptr self) src;
  Ret (Z.of_nat (size_of T), m).

Definition read_unaligned_at_head (T : Type) `{Pod T} (m : mem) (self : BytesMut) : outcome T :=
  read_unaligned T m (bm_ptr self).

Definition at_unchecked (m : mem) (self : BytesMut) (offset : Z) : outcome Z :=
  or_ub (m !! (bm_ptr self + offset)%Z).

(** [PartialEq]: the loop over [0..self.len]. *)
Fixpoint eq_loop (m : mem) (self other : BytesMut) (i : Z) (n : nat) : outcome bool :=
  match n with
  | 0 => Ret true
  | S n =>
      a ← at_unchecked m self i;
      b ← at_unchecked m other i;
      if bool_decide (a ≠ b) then Ret false else eq_loop m self other (i + 1) n
  end.

Definition BytesMut_eq (m : mem) (self other : BytesMut) : outcome bool :=
  if bool_decide (bm_len self ≠ bm_len other) then Ret false
  else eq_loop m self other 0 (Z.to_nat (bm_len self)).

(** [write_str]: the string is a byte list in memory of its own. *)
Definition write_str (m : mem) (self : BytesMut) (s : list Z) : outcome (bool * mem) :=
  if (Z.of_nat (length s) <=? bm_len self)%Z then
    m ← or_ub (store m (bm_ptr self) s);
    Ret (true, m)
  else Ret (false, m).

(** ** [memcpy_serialize] and friends *)

(** A typed copy of one [T] through a pointer needs an aligned pointer. *)
Definition aligned (T : Type) `{Pod T} (p : Z) : bool := (p mod align_of T =? 0)%Z.

Definition memcpy_serialize {T} `{Pod T} (m : mem) (self : BytesMut) (v : T)
    : outcome (option Z * mem) :=
  if (Z.of_nat (size_of T) <=? BytesMut_len self)%Z then
    if aligned T (bm_ptr self) then
      m ← or_ub (store m (bm_ptr self) (to_bytes v));
      Ret (Some (Z.of_nat (size_of T)), m)
    else UB
  else Ret (None, m).

Definition memcpy_serialize_at {T} `{Pod T} (m : mem) (self : BytesMut) (off : Z) (v : T)
    : outcome (option Z * mem) :=
  match truncate_header self off with
  | Some bytes => memcpy_serialize m bytes v
  | None => Ret (None, m)
  end.

(** The value read and its size. *)
Definition memcpy_deserialize (T : Type) `{Pod T} (m : mem) (self : BytesMut)
    : outcome (option (Z * T)) :=
  if (Z.of_nat (size_of T) <=? BytesMut_len self)%Z then
    if aligned T (bm_ptr self) then
      v ← read_unaligned T m (bm_ptr self);
      Ret (Some (Z.of_nat (size_of T), v))
    else UB
  else Ret None.

Definition memcpy_deserialize_at (T : Type) `{Pod T} (m : mem) (self : BytesMut) (off : Z)
    : outcome (option (Z * T)) :=
  match truncate_header self off with
  | Some bytes => memcpy_deserialize T m bytes
  | None => Ret None
  end.

(** ** Regions of memory *)

(** The bytes [bs] lie at [p]. *)
Definition at_mem (m : mem) (p : Z) (bs : list Z) : Prop :=
  ∀ i b, bs !! i = Some b → m !! (p + Z.of_nat i)%Z = Some b.

(** The [n] bytes from [p] on are allocated. *)
Definition alloc (m : mem) (p : Z) (n : Z) : Prop :=
  ∀ q, (p ≤ q < p + n)%Z → is_Some (m !! q).

(** [m'] differs from [m] only in the [n] bytes from [p] on, and allocates the
    same addresses. *)
Record frame (m m' : mem) (p n : Z) : Prop := {
  frame_out q : ¬ (p ≤ q < p + n)%Z → m' !! q = m !! q;
  frame_alloc q : is_Some (m' !! q) ↔ is_Some (m !! q);
}.

Lemma frame_refl m p n : frame m m p n.
Proof. by split. Qed.

Lemma frame_weaken m m' p n p' n' :
  frame m m' p n → (p' ≤ p)%Z → (p + n ≤ p' + n')%Z → frame m m' p' n'.
Proof. intros [Ho Ha] H1 H2. split; [|done]. intros q Hq. apply Ho. lia. Qed.

Lemma frame_trans m1 m2 m3 p n :
  frame m1 m2 p n → frame m2 m3 p n → frame m1 m3 p n.
Proof.
  intros [Ho1 Ha1] [Ho2 Ha2]. split.
  - intros q Hq. by rewrite Ho2, Ho1.
  - intros q. by rewrite Ha2, Ha1.
Qed.

Lemma frame_alloc_range m m' p n q k : frame m m' p n → alloc m q k → alloc m' q k.
Proof. intros [_ Ha] Hal x Hx. by apply Ha, Hal. Qed.

Lemma alloc_sub m p n q k :
  alloc m p n → (p ≤ q)%Z → (q + k ≤ p + n)%Z → alloc m q k.
Proof. intros Ha H1 H2 x Hx. apply Ha. lia. Qed.

Lemma at_mem_frame m m' p n q bs :
  frame m m' p n → at_mem m q bs →
  (q + Z.of_nat (length bs) ≤ p ∨ p + n ≤ q)%Z → at_mem m' q bs.
Proof.
  intros [Ho _] Hat Hd i b Hi. rewrite Ho; [by apply Hat|]. apply lookup_lt_Some in Hi. lia.
Qed.

Lemma at_mem_app m p bs1 bs2 :
  at_mem m p (bs1 ++ bs2) ↔ at_mem m p bs1 ∧ at_mem m (p + Z.of_nat (length bs1)) bs2.
Proof.
  split.
  - intros Hat. split; intros i b Hi.
    + apply Hat. by apply lookup_app_l_Some.
    + replace (p + Z.of_nat (length bs1) + Z.of_nat i)%Z with (p + Z.of_nat (length bs1 + i))%Z by lia.
      apply Hat. rewrite lookup_app_r by lia. by replace (length bs1 + i - length bs1) with i by lia.
  - intros [H1 H2] i b [Hi|[Hlen Hi]]%lookup_app_Some; [by apply H1|].
    specialize (H2 _ _ Hi).
    by replace (p + Z.of_nat (length bs1) + Z.of_nat (i - length bs1))%Z
      with (p + Z.of_nat i)%Z in H2 by lia.
Qed.

Lemma at_mem_nil m p : at_mem m p [].
Proof. intros i b. by rewrite lookup_nil. Qed.

Lemma load_at m p bs : at_mem m p bs → load m p (length bs) = Some bs.
Proof.
  revert p. induction bs as [|b bs IH]; intros p Hat; cbn; [done|].
  pose proof (Hat 0 b eq_refl) as H0. cbn in H0. rewrite Z.add_0_r in H0. rewrite H0. cbn.
  rewrite IH; [done|]. intros i b' Hi.
  replace (p + 1 + Z.of_nat i)%Z with (p + Z.of_nat (S i))%Z by lia. by apply Hat.
Qed.

Lemma store_ok m p bs :
  alloc m p (Z.of_nat (length bs)) →
  ∃ m', store m p bs = Some m' ∧ at_mem m' p bs ∧ frame m m' p (Z.of_nat (length bs)).
Proof.
  revert m p. induction bs as [|b bs IH]; intros m p Hal; cbn.
  - exists m. split_and!; [done|apply at_mem_nil|apply frame_refl].
  - destruct (Hal p) as [b0 Hb0]; [cbn; lia|]. rewrite Hb0. cbn.
    assert (Hal' : alloc (<[p := b]> m) (p + 1) (Z.of_nat (length bs))).
    { intros q Hq. rewrite lookup_insert_ne by lia. apply Hal. cbn. lia. }
    destruct (IH _ _ Hal') as (m' & Hst & Hat & [Hout Hdom]). exists m'. split_and!; [done| |].
    + intros [|i] b' Hi; cbn in Hi.
      * injection Hi as <-. rewrite Z.add_0_r, Hout by lia. by rewrite lookup_insert_eq.
      * replace (p + Z.of_nat (S i))%Z with (p + 1 + Z.of_nat i)%Z by lia. by apply Hat.
    + split.
      * intros q Hq. rewrite Hout by lia. rewrite lookup_insert_ne by lia. done.
      * intros q. rewrite Hdom. destruct (decide (p = q)) as [<-|].
        -- rewrite lookup_insert_eq, Hb0. split; by eexists.
        -- by rewrite lookup_insert_ne.
Qed.

(** ** The trait [Serialize] *)
Class Serialize (T : Type) := {
  serialize : mem → T → BytesMut → outcome (bool * mem);
  deserialize : mem → BytesMut → outcome (option T);
  serialization_buf_len : T → outcome Z;
}.

(** The trait's default methods. *)
Definition default_serialize {T} `{Pod T} (m : mem) (self : T) (bytes : BytesMut)
    : outcome (bool * mem) :=
  '(r, m) ← memcpy_serialize m bytes self;
  Ret (bool_decide (is_Some r), m).

Definition default_deserialize (T : Type) `{Pod T} (m : mem) (bytes : BytesMut)
    : outcome (option T) :=
  r ← memcpy_deserialize T m bytes;
  v ←? r;
  Ret (Some v.2).

Definition default_serialization_buf_len {T} `{Pod T} (self : T) : outcome Z :=
  Ret (Z.of_nat (size_of T)).

(** [impl Serialize for T {}] *)
Definition Serialize_default (T : Type) `{Pod T} : Serialize T := {|
  serialize := default_serialize;
  deserialize := default_deserialize T;
  serialization_buf_len := default_serialization_buf_len;
|}.

(** What a client of the trait relies on: [encode x] is the image of [x], [need x]
    the announced buffer length. *)
Class SerializeSpec (T : Type) := {
  valid : T → Prop;
  encode : T → list Z;
  need : T → Z;
}.

(** Buffers are eight-byte aligned: the code keeps every cursor so. *)
Definition buf_ok (m : mem) (b : BytesMut) : Prop :=
  alloc m (bm_ptr b) (bm_len b) ∧ (8 | bm_ptr b)%Z ∧ (0 ≤ bm_len b)%Z.

Class SerializeOk (T : Type) `{Serialize T} `{SerializeSpec T} : Prop := {
  buf_len_ok x : valid x → serialization_buf_len x = Ret (need x);
  need_fits x : valid x → (Z.of_nat (length (encode x)) ≤ need x)%Z;
  serialize_short m x b :
    valid x → (bm_len b < need x)%Z → serialize m x b = Ret (false, m);
  serialize_ok m x b :
    valid x → buf_ok m b → (need x ≤ bm_len b)%Z →
    ∃ m', serialize m x b = Ret (true, m') ∧ at_mem m' (bm_ptr b) (encode x) ∧
      frame m m' (bm_ptr b) (Z.of_nat (length (encode x)));
  deserialize_ok m x b :
    valid x → (8 | bm_ptr b)%Z → at_mem m (bm_ptr b) (encode x) →
    (Z.of_nat (length (encode x)) ≤ bm_len b)%Z → deserialize m b = Ret (Some x);
}.

(** Types whose image fills the announced length and keeps a cursor aligned. *)
Class SerializeExact (T : Type) `{SerializeSpec T} : Prop := {
  need_exact x : valid x → need x = Z.of_nat (length (encode x));
  need_aligned x : valid x → (8 | need x)%Z;
}.

(** *** Plain data *)

Lemma aligned_8 (T : Type) `{Pod T} p :
  (0 < align_of T)%Z → (align_of T | 8)%Z → (8 | p)%Z → aligned T p = true.
Proof.
  intros Hpos Ha Hp. unfold aligned. apply Z.eqb_eq, Z.mod_divide; [lia|]. by etrans.
Qed.

Section PodSerialize.
Context {T : Type} {pod : Pod T} {v : T → Prop} {pod_ok : PodOk T v}.
Context (Hal : (align_of T | 8)%Z).

Lemma memcpy_serialize_ok m b x :
  alloc m (bm_ptr b) (bm_len b) → (8 | bm_ptr b)%Z → (Z.of_nat (size_of T) ≤ bm_len b)%Z →
  ∃ m', memcpy_serialize m b x = Ret (Some (Z.of_nat (size_of T)), m') ∧
    at_mem m' (bm_ptr b) (to_bytes x) ∧ frame m m' (bm_ptr b) (Z.of_nat (size_of T)).
Proof.
  intros Ha H8 Hlen. unfold memcpy_serialize, BytesMut_len.
  rewrite (proj2 (Z.leb_le _ _)) by done. rewrite aligned_8 by (done || apply align_pos).
  destruct (store_ok m (bm_ptr b) (to_bytes x)) as (m' & E & Hat & Hf).
  - rewrite to_bytes_length. apply (alloc_sub m (bm_ptr b) (bm_len b)); [done|lia|lia].
  - rewrite to_bytes_length in Hf. exists m'. unfold or_ub. rewrite E. done.
Qed.

Lemma read_unaligned_ok m p x :
  v x → at_mem m p (to_bytes x) → read_unaligned T m p = Ret x.
Proof.
  intros Hv Hat. unfold read_unaligned. rewrite <- (to_bytes_length x), load_at by done. cbn.
  by rewrite of_to_bytes.
Qed.

Lemma memcpy_deserialize_ok m b x :
  v x → (8 | bm_ptr b)%Z → at_mem m (bm_ptr b) (to_bytes x) →
  (Z.of_nat (size_of T) ≤ bm_len b)%Z →
  memcpy_deserialize T m b = Ret (Some (Z.of_nat (size_of T), x)).
Proof.
  intros Hv H8 Hat Hlen. unfold memcpy_deserialize, BytesMut_len.
  rewrite (proj2 (Z.leb_le _ _)) by done. rewrite aligned_8 by (done || apply align_pos).
  by rewrite (read_unaligned_ok m _ x).
Qed.

Definition Pod_spec : SerializeSpec T := {|
  valid := v;
  encode := to_bytes;
  need _ := Z.of_nat (size_of T);
|}.

Lemma Pod_SerializeOk : @SerializeOk T (Serialize_default T) Pod_spec.
Proof.
  split; cbn.
  - done.
  - intros x _. by rewrite to_bytes_length.
  - intros m x b _ Hlt. unfold default_serialize, memcpy_serialize, BytesMut_len.
    by rewrite (proj2 (Z.leb_gt _ _)) by done.
  - intros m x b _ (Ha & H8 & _) Hlen.
    destruct (memcpy_serialize_ok m b x Ha H8 Hlen) as (m' & E & Hat & Hf).
    exists m'. unfold default_serialize. rewrite E. cbn. by rewrite to_bytes_length.
  - intros m x b Hv H8 Hat Hlen. rewrite to_bytes_length in Hlen. unfold default_deserialize.
    by rewrite (memcpy_deserialize_ok m b x).
Qed.
End PodSerialize.

(** ** Properties of [BytesMut] *)

Lemma eq_loop_ok m a b bs1 bs2 i :
  at_mem m (bm_ptr a + i) bs1 → at_mem m (bm_ptr b + i) bs2 → length bs1 = length bs2 →
  eq_loop m a b i (length bs1) = Ret (bool_decide (bs1 = bs2)).
Proof.
  revert bs2 i. induction bs1 as [|x bs1 IH]; intros [|y bs2] i H1 H2 Hlen; cbn in Hlen; try lia.
  - by rewrite bool_decide_true.
  - cbn. unfold at_unchecked.
    pose proof (H1 0 x eq_refl) as E1. pose proof (H2 0 y eq_refl) as E2.
    rewrite Z.add_0_r in E1, E2. rewrite E1, E2. cbn.
    assert (Hs : ∀ p (z : Z) bs, at_mem m (p + i) (z :: bs) → at_mem m (p + (i + 1)) bs).
    { intros p z bs Hat j w Hj. replace (p + (i + 1) + Z.of_nat j)%Z with (p + i + Z.of_nat (S j))%Z by lia.
      by apply Hat. }
    destruct (decide (x = y)) as [->|Hne].
    + rewrite bool_decide_false by auto. rewrite (IH bs2); [|by eapply Hs..|lia].
      f_equal. apply bool_decide_ext. naive_solver.
    + rewrite (bool_decide_true (x ≠ y)) by done. rewrite bool_decide_false; [done|]. by intros [= ? _].
Qed.

(** [==] on two buffers compares their contents, and nothing else. *)
Theorem BytesMut_eq_compares_contents m a b bs1 bs2 :
  at_mem m (bm_ptr a) bs1 → at_mem m (bm_ptr b) bs2 →
  bm_len a = Z.of_nat (length bs1) → bm_len b = Z.of_nat (length bs2) →
  BytesMut_eq m a b = Ret (bool_decide (bs1 = bs2)).
Proof.
  intros H1 H2 L1 L2. unfold BytesMut_eq. rewrite L1, L2.
  destruct (decide (length bs1 = length bs2)) as [E|Hne].
  - rewrite bool_decide_false by (intros Hn; apply Hn; by rewrite E).
    rewrite Nat2Z.id. apply eq_loop_ok; [by rewrite Z.add_0_r..|done].
  - rewrite bool_decide_true by lia. rewrite bool_decide_false; [done|]. by intros ->.
Qed.

Lemma BytesMut_eq_compares_contents_witness :
  BytesMut_eq (<[1%Z := 7%Z]> (<[9%Z := 7%Z]> ∅)) (mkBytesMut 1 1) (mkBytesMut 9 1) = Ret true.
Proof.
  rewrite (BytesMut_eq_compares_contents _ _ _ [7%Z] [7%Z]); [done|..|done|done];
    intros [|i] b Hi; cbn in Hi; simplify_eq; by vm_compute.
Defined.

(** A copy moves the payload's bytes to the head of the buffer. *)
Lemma BytesMut_copy_ok m self payload bs offset :
  (0 ≤ offset ≤ bm_len self)%Z → bm_len payload = Z.of_nat (length bs) →
  at_mem m (bm_ptr payload) bs → alloc m (bm_ptr self) (bm_len payload) →
  (bm_ptr payload + bm_len payload ≤ bm_ptr self ∨
   bm_ptr self + bm_len payload ≤ bm_ptr payload)%Z →
  ∃ m', BytesMut_copy m self payload offset = Ret (true, m') ∧
    at_mem m' (bm_ptr self) bs ∧ frame m m' (bm_ptr self) (bm_len payload).
Proof.
  intros Ho Hl Hat Hal Hd. unfold BytesMut_copy, copy_nonoverlapping.
  rewrite (proj2 (Z.leb_le _ _)) by lia. rewrite Hl in *. rewrite Nat2Z.id.
  rewrite decide_True by done. rewrite load_at by done. cbn.
  destruct (store_ok m (bm_ptr self) bs Hal) as (m' & -> & Hat' & Hf). by exists m'.
Qed.

(** [copy] writes the payload to the start of the buffer whatever the offset, and
    answers [true] as soon as the offset is within the buffer: neither the
    destination nor the check involves [offset + payload.len].  A payload longer
    than the buffer is written past its end. *)
Theorem BytesMut_copy_ignores_offset m self payload bs offset :
  (0 ≤ offset ≤ bm_len self)%Z → bm_len payload = Z.of_nat (length bs) →
  at_mem m (bm_ptr payload) bs → alloc m (bm_ptr self) (bm_len payload) →
  (bm_ptr payload + bm_len payload ≤ bm_ptr self ∨
   bm_ptr self + bm_len payload ≤ bm_ptr payload)%Z →
  ∃ m', BytesMut_copy m self payload offset = Ret (true, m') ∧
    at_mem m' (bm_ptr self) bs ∧ frame m m' (bm_ptr self) (bm_len payload).
Proof. apply BytesMut_copy_ok. Qed.

Lemma BytesMut_copy_ignores_offset_witness :
  ∃ m', BytesMut_copy (<[1%Z := 0%Z]> (<[2%Z := 0%Z]> (<[5%Z := 7%Z]> (<[6%Z := 8%Z]> ∅))))
      (mkBytesMut 1 1) (mkBytesMut 5 2) 1 = Ret (true, m') ∧ m' !! 2%Z = Some 8%Z.
Proof.
  destruct (BytesMut_copy_ignores_offset
    (<[1%Z := 0%Z]> (<[2%Z := 0%Z]> (<[5%Z := 7%Z]> (<[6%Z := 8%Z]> ∅))))
    (mkBytesMut 1 1) (mkBytesMut 5 2) [7; 8]%Z 1) as (m' & E & Hat & _); cbn.
  - lia.
  - done.
  - intros [|[|i]] b Hi; cbn in Hi; simplify_eq; by vm_compute.
  - intros q Hq. destruct (decide (q = 1%Z)) as [->|]; [by vm_compute; eexists|].
    assert (q = 2%Z) as -> by lia. by vm_compute; eexists.
  - lia.
  - exists m'. split; [exact E|]. by apply (Hat 1 8%Z).
Defined.

(** ** Cursors *)

(** The cursor [n] bytes further on. *)
Definition advance (b : BytesMut) (n : Z) : BytesMut := mkBytesMut (bm_ptr b + n) (bm_len b - n).

Lemma advance_advance b i j : advance (advance b i) j = advance b (i + j).
Proof. unfold advance. cbn. f_equal; lia. Qed.

Lemma truncate_header_advance b n :
  (0 ≤ n ≤ bm_len b)%Z → truncate_header b n = Some (advance b n).
Proof. intros Hn. unfold truncate_header. by rewrite (proj2 (Z.leb_le _ _)) by lia. Qed.

Lemma truncate_header_0 b : (0 ≤ bm_len b)%Z → truncate_header b 0 = Some b.
Proof.
  intros Hn. rewrite truncate_header_advance by lia. unfold advance. destruct b as [p n]. cbn.
  by rewrite Z.add_0_r, Z.sub_0_r.
Qed.

Lemma buf_ok_advance m b n :
  buf_ok m b → (8 | n)%Z → (0 ≤ n ≤ bm_len b)%Z → buf_ok m (advance b n).
Proof.
  intros (Hal & H8 & H0) Hn Hle. split_and!; cbn.
  - apply (alloc_sub m (bm_ptr b) (bm_len b)); [done|lia|lia].
  - by apply Z.divide_add_r.
  - lia.
Qed.

Lemma buf_ok_frame m m' p n b : frame m m' p n → buf_ok m b → buf_ok m' b.
Proof. intros Hf (Hal & ? & ?). split_and!; [by eapply frame_alloc_range|done|done]. Qed.

Section CursorSteps.
Context {T : Type} `{SerializeOk T} {exact : SerializeExact T}.

Lemma need_nonneg x : valid x → (0 ≤ need x)%Z.
Proof. intros Hv. rewrite need_exact by done. lia. Qed.

(** One field written and the cursor moved behind it. *)
Lemma serialize_step m x b :
  valid x → buf_ok m b → (need x ≤ bm_len b)%Z →
  ∃ m', serialize m x b = Ret (true, m') ∧ at_mem m' (bm_ptr b) (encode x) ∧
    frame m m' (bm_ptr b) (need x) ∧ truncate_header b (need x) = Some (advance b (need x)) ∧
    buf_ok m' (advance b (need x)).
Proof.
  intros Hv Hb Hlen. destruct (serialize_ok m x b Hv Hb Hlen) as (m' & E & Hat & Hf).
  pose proof (need_nonneg x Hv). rewrite <- need_exact in Hf by done.
  exists m'. split_and!; [done..| |].
  - by apply truncate_header_advance.
  - apply buf_ok_advance; [by eapply buf_ok_frame|by apply need_aligned|done].
Qed.

(** One field read and the cursor moved behind it. *)
Lemma deserialize_step m x b bs :
  valid x → (8 | bm_ptr b)%Z → at_mem m (bm_ptr b) (encode x ++ bs) → (need x ≤ bm_len b)%Z →
  deserialize m b = Ret (Some x) ∧ truncate_header b (need x) = Some (advance b (need x)) ∧
  (8 | bm_ptr (advance b (need x)))%Z ∧ at_mem m (bm_ptr (advance b (need x))) bs.
Proof.
  intros Hv H8 Hat Hlen. apply at_mem_app in Hat as [A1 A2]. pose proof (need_nonneg x Hv).
  pose proof (need_exact x Hv) as Hex. split_and!.
  - apply deserialize_ok; [done..|lia].
  - by apply truncate_header_advance.
  - cbn. apply Z.divide_add_r; [done|by apply need_aligned].
  - cbn. by rewrite Hex.
Qed.
End CursorSteps.

(** Plain data of alignment eight. *)
Lemma Pod_SerializeExact (T : Type) {pod : Pod T} {v : T → Prop} {pod_ok : PodOk T v} :
  align_of T = 8%Z → @SerializeExact T (Pod_spec (v := v)).
Proof.
  intros Ha. split; cbn.
  - intros x _. by rewrite to_bytes_length.
  - intros x _. rewrite <- Ha. apply align_size.
Qed.

(** ** Structs of 64-bit words

    A concrete layout for structs whose fields are words, to instantiate [Pod]. *)
Fixpoint words_bytes (ws : list Z) : list Z :=
  match ws with
  | [] => []
  | w :: ws => le_bytes 8 w ++ words_bytes ws
  end.

Fixpoint bytes_words (n : nat) (bs : list Z) : list Z :=
  match n with
  | 0 => []
  | S n => of_le (take 8 bs) :: bytes_words n (drop 8 bs)
  end.

Lemma words_bytes_length ws : length (words_bytes ws) = 8 * length ws.
Proof. induction ws as [|w ws IH]; [done|]. cbn [words_bytes]. rewrite length_app, IH. cbn. lia. Qed.

Lemma words_roundtrip ws : Forall is_u64 ws → bytes_words (length ws) (words_bytes ws) = ws.
Proof.
  induction 1 as [|w ws Hw Hws IH]; [done|]. cbn [words_bytes bytes_words length].
  rewrite take_app_length', drop_app_length' by (by rewrite le_bytes_length).
  by rewrite IH, le_bytes_roundtrip.
Qed.

Definition words_Pod {T} (n : nat) (to_words : T → list Z) (of_words : list Z → option T) : Pod T := {|
  size_of := 8 * n;
  align_of := 8;
  to_bytes x := words_bytes (to_words x);
  of_bytes bs := of_words (bytes_words n bs);
|}.

Lemma words_Pod_ok {T} n (to_words : T → list Z) of_words (v : T → Prop) :
  (∀ x, length (to_words x) = n) →
  (∀ x, v x → Forall is_u64 (to_words x) ∧ of_words (to_words x) = Some x) →
  @PodOk T (words_Pod n to_words of_words) v.
Proof.
  intros Hlen Hrt. split; cbn.
  - intros x. rewrite words_bytes_length, Hlen. lia.
  - intros x Hv. destruct (Hrt x Hv) as [Hw Ho]. by rewrite <- (Hlen x), words_roundtrip.
  - lia.
  - exists (Z.of_nat n). lia.
Qed.
