(* ===== verification/Descriptors.v ===== *)
(** * Process descriptors ([mitosis/src/descriptors])

    The data a parent publishes and a child rebuilds: registers, VMAs with their
    compact page tables and the RDMA access information, and the wire format.
    [RegDescriptor], [VMADescriptor] and [RDMADescriptor] are copied as they lie
    in memory; their layout is the compiler's, so it is a parameter ([Pod]). *)

From S2P Require Import Prelude PageStructures PageHeap RemotePageTable Bytes.

(** ** Data *)

(** [StackRegisters] is the kernel's [pt_regs]; the fields [PartialEq] reads. *)
Record StackRegisters := mkStackRegisters {
  r15 : Z; r14 : Z; r13 : Z; r12 : Z; bp : Z; bx : Z;
  r11 : Z; r10 : Z; r9 : Z; r8 : Z; ax : Z; cx : Z; dx : Z; si : Z; di : Z;
  orig_ax : Z; ip : Z; cs : Z; flags : Z; sp : Z; ss : Z;
}.

#[export] Instance StackRegisters_eq_dec : EqDecision StackRegisters.
Proof. solve_decision. Defined.

Definition StackRegisters_eq (self other : StackRegisters) : bool :=
  bool_decide (r15 self = r15 other) && bool_decide (r14 self = r14 other)
  && bool_decide (r13 self = r13 other) && bool_decide (r12 self = r12 other)
  && bool_decide (r11 self = r11 other) && bool_decide (r10 self = r10 other)
  && bool_decide (r9 self = r9 other) && bool_decide (r8 self = r8 other)
  && bool_decide (ax self = ax other) && bool_decide (cx self = cx other)
  && bool_decide (dx self = dx other) && bool_decide (di self = di other)
  && bool_decide (si self = si other) && bool_decide (sp self = sp other)
  && bool_decide (ss self = ss other) && bool_decide (flags self = flags other)
  && bool_decide (ip self = ip other).

Record RegDescriptor := mkRegDescriptor {
  others : StackRegisters;
  fs : Z;
  gs : Z;
}.

#[export] Instance RegDescriptor_eq_dec : EqDecision RegDescriptor.
Proof. solve_decision. Defined.

Definition get_fs (self : RegDescriptor) : Z := fs self.
Definition get_gs (self : RegDescriptor) : Z := gs self.

Record VMADescriptor := mkVMADescriptor {
  range : Z * Z;
  vm_flags : Z;
  prot : Z;
  is_anonymous : bool;
}.

#[export] Instance VMADescriptor_eq_dec : EqDecision VMADescriptor.
Proof. solve_decision. Defined.

Definition get_start (self : VMADescriptor) : Z := (range self).1.
Definition get_end (self : VMADescriptor) : Z := (range self).2.
Definition get_sz (self : VMADescriptor) : outcome Z := u64_sub (range self).2 (range self).1.

(** The [PMEM_*] constants, which [kernel_helper.h] takes from the kernel headers. *)
Class VmConsts := {
  VM_READ : Z; VM_WRITE : Z; VM_MAYWRITE : Z; VM_EXEC : Z; VM_STACK : Z; VM_SHARED : Z; VM_DONTEXPAND : Z;
  PROT_READ : Z; PROT_WRITE : Z; PROT_EXEC : Z; PROT_GROWSUP : Z;
}.

(** [VMFlags::contains] *)
Definition flags_contains (bits flag : Z) : bool := (Z.land bits flag =? flag)%Z.

Section VmaFlags.
Context `{VmConsts}.

Definition is_stack (self : VMADescriptor) : bool := flags_contains (vm_flags self) VM_STACK.

Definition get_mmap_flags (self : VMADescriptor) : Z :=
  let ret := 0%Z in
  let ret := if flags_contains (vm_flags self) VM_READ then Z.lor ret PROT_READ else ret in
  let ret := if flags_contains (vm_flags self) VM_WRITE then Z.lor ret PROT_WRITE else ret in
  let ret := if flags_contains (vm_flags self) VM_EXEC then Z.lor ret PROT_EXEC else ret in
  if is_stack self then Z.lor ret PROT_GROWSUP else ret.
End VmaFlags.

Record RDMADescriptor := mkRDMADescriptor {
  service_id : Z;
  port_num : Z;
  gid : Z * Z;
  lid : Z;
  rkey : Z;
  dct_key : Z;
  dct_num : Z;
  mac_id : Z;
}.

#[export] Instance RDMADescriptor_eq_dec : EqDecision RDMADescriptor.
Proof. solve_decision. Defined.

Definition get_rkey (self : RDMADescriptor) : Z := rkey self.
Definition get_service_id (self : RDMADescriptor) : Z := service_id self.

Definition set_rkey (self : RDMADescriptor) (key : Z) : RDMADescriptor :=
  mkRDMADescriptor (service_id self) (port_num self) (gid self) (lid self) key
    (dct_key self) (dct_num self) (mac_id self).

Definition set_service_id (self : RDMADescriptor) (id : Z) : RDMADescriptor :=
  mkRDMADescriptor id (port_num self) (gid self) (lid self) (rkey self)
    (dct_key self) (dct_num self) (mac_id self).

Record CompactPageTable := mkCompactPageTable { inner_pg_table : list (Z * Z) }.

#[export] Instance CompactPageTable_eq_dec : EqDecision CompactPageTable.
Proof. solve_decision. Defined.

Definition CompactPageTable_default : CompactPageTable := mkCompactPageTable [].

Definition add_one (self : CompactPageTable) (offset val : Z) : CompactPageTable :=
  mkCompactPageTable (inner_pg_table self ++ [(offset, val)]).

Definition table_len (self : CompactPageTable) : Z := Z.of_nat (length (inner_pg_table self)).

Record ParentDescriptor := mkParentDescriptor {
  regs : RegDescriptor;
  page_table : list CompactPageTable;
  vma : list VMADescriptor;
  machine_info : RDMADescriptor;
}.

#[export] Instance ParentDescriptor_eq_dec : EqDecision ParentDescriptor.
Proof. solve_decision. Defined.

(** ** [CompactPageTable]: wire format *)

(** [size_of::<Offset>()], [size_of::<Value>()], [size_of::<VirtAddrType>()]. *)
Definition SZ_OFFSET : Z := 4.
Definition SZ_VALUE : Z := 8.
Definition SZ_USIZE : Z := 8.

(** [size_of::<Offset>() < size_of::<VirtAddrType>() && n % 2 == 1] *)
Definition needs_pad (n : Z) : bool := (SZ_OFFSET <? SZ_USIZE)%Z && (n mod 2 =? 1)%Z.

Definition CompactPageTable_buf_len (self : CompactPageTable) : outcome Z :=
  entries ← u64_mul (table_len self) (SZ_OFFSET + SZ_VALUE);
  base ← u64_add SZ_USIZE entries;
  if needs_pad (table_len self) then u64_add base 4 else Ret base.

(** The loop over [inner_pg_table]; returns the cursor. *)
Fixpoint write_entries (m : mem) (cur : BytesMut) (es : list (Z * Z)) : outcome (BytesMut * mem) :=
  match es with
  | [] => Ret (cur, m)
  | (offset, paddr) :: es' =>
      '(sz0, m) ← @write_unaligned_at_head Z pod_u32 m cur offset;
      cur ← unwrap (truncate_header cur sz0);
      '(sz0, m) ← @write_unaligned_at_head Z pod_u64 m cur paddr;
      cur ← unwrap (truncate_header cur sz0);
      write_entries m cur es'
  end.

Definition CompactPageTable_serialize (m : mem) (self : CompactPageTable) (bytes : BytesMut)
    : outcome (bool * mem) :=
  need ← CompactPageTable_buf_len self;
  if (BytesMut_len bytes <? need)%Z then Ret (false, m)
  else
    cur ← unwrap (truncate_header bytes 0);
    '(r, m) ← @memcpy_serialize_at Z pod_u64 m cur 0 (table_len self);
    sz ← unwrap r;
    cur ← unwrap (truncate_header cur sz);
    '(cur, m) ←
      (if needs_pad (table_len self) then
         '(r, m) ← @memcpy_serialize_at Z pod_u32 m cur 0 0%Z;
         sz ← unwrap r;
         cur ← unwrap (truncate_header cur sz);
         Ret (cur, m)
       else Ret (cur, m));
    '(_, m) ← write_entries m cur (inner_pg_table self);
    Ret (true, m).

(** The loop [for _ in 0..count]; the cursor is returned for the child's reader. *)
Fixpoint read_entries (m : mem) (cur : BytesMut) (count : nat)
    : outcome (option (list (Z * Z) * BytesMut)) :=
  match count with
  | 0 => Ret (Some ([], cur))
  | S count =>
      virt ← @read_unaligned_at_head Z pod_u32 m cur;
      cur ←? truncate_header cur SZ_OFFSET;
      phy ← @read_unaligned_at_head Z pod_u64 m cur;
      cur ←? truncate_header cur SZ_VALUE;
      r ← read_entries m cur count;
      rest ←? r;
      Ret (Some ((virt, phy) :: rest.1, rest.2))
  end.

Definition CompactPageTable_deserialize (m : mem) (bytes : BytesMut)
    : outcome (option CompactPageTable) :=
  cur ← unwrap (truncate_header bytes 0);
  r ← @memcpy_deserialize Z pod_u64 m cur;
  oc ←? r;
  let '(off, count) := oc in
  cur ←? truncate_header cur off;
  rcur ← (if needs_pad count then
            r ← @memcpy_deserialize Z pod_u32 m cur;
            op ←? r;
            Ret (truncate_header cur op.1)
          else Ret (Some cur));
  cur ←? rcur;
  res ← read_entries m cur (Z.to_nat count);
  es ←? res;
  Ret (Some (mkCompactPageTable es.1)).

#[export] Instance CompactPageTable_Serialize : Serialize CompactPageTable := {|
  serialize := CompactPageTable_serialize;
  deserialize := CompactPageTable_deserialize;
  serialization_buf_len := CompactPageTable_buf_len;
|}.

(** *** Its specification *)

Definition entry_ok (e : Z * Z) : Prop := is_u32 e.1 ∧ is_u64 e.2.

Definition entry_bytes (e : Z * Z) : list Z := le_bytes 4 e.1 ++ le_bytes 8 e.2.

Fixpoint entries_bytes (es : list (Z * Z)) : list Z :=
  match es with
  | [] => []
  | e :: es => entry_bytes e ++ entries_bytes es
  end.

Definition pad_bytes (n : Z) : list Z := if needs_pad n then le_bytes 4 0 else [].

Definition CompactPageTable_encode (self : CompactPageTable) : list Z :=
  le_bytes 8 (table_len self) ++ pad_bytes (table_len self) ++
  entries_bytes (inner_pg_table self).

(** The entries fit their types and the table fits the address space. *)
Definition CompactPageTable_valid (self : CompactPageTable) : Prop :=
  Forall entry_ok (inner_pg_table self) ∧ (12 * table_len self + 12 < 2 ^ 64)%Z.

#[export] Instance CompactPageTable_Spec : SerializeSpec CompactPageTable := {|
  valid := CompactPageTable_valid;
  encode := CompactPageTable_encode;
  need self := Z.of_nat (length (CompactPageTable_encode self));
|}.

Lemma entries_length es : length (entries_bytes es) = 12 * length es.
Proof. induction es as [|e es IH]; [done|]. cbn [entries_bytes]. rewrite length_app, IH. cbn. lia. Qed.

Lemma CompactPageTable_encode_length self :
  Z.of_nat (length (CompactPageTable_encode self)) =
    (8 + 12 * table_len self + (if needs_pad (table_len self) then 4 else 0))%Z.
Proof.
  unfold CompactPageTable_encode, pad_bytes, table_len. rewrite !length_app, entries_length.
  destruct (needs_pad (Z.of_nat (length (inner_pg_table self)))); cbn; lia.
Qed.

Lemma CompactPageTable_buf_len_ok self :
  CompactPageTable_valid self →
  CompactPageTable_buf_len self = Ret (Z.of_nat (length (CompactPageTable_encode self))).
Proof.
  intros [_ Hlen]. rewrite CompactPageTable_encode_length. unfold CompactPageTable_buf_len.
  assert (0 ≤ table_len self)%Z by (unfold table_len; lia).
  unfold SZ_OFFSET, SZ_VALUE, SZ_USIZE in *. unfold u64_mul.
  rewrite u64_checked_Ret by (unfold is_u64; lia). cbn [mbind outcome_bind].
  rewrite u64_add_Ret by (unfold is_u64; lia). cbn [mbind outcome_bind].
  destruct (needs_pad (table_len self)).
  - rewrite u64_add_Ret by (unfold is_u64; lia). f_equal. lia.
  - f_equal. lia.
Qed.

(** The padding word makes the image a multiple of eight bytes long. *)
Lemma CompactPageTable_need_aligned self :
  (8 | Z.of_nat (length (CompactPageTable_encode self)))%Z.
Proof.
  rewrite CompactPageTable_encode_length. unfold needs_pad. cbn.
  assert (0 ≤ table_len self)%Z by (unfold table_len; lia).
  pose proof (Z.mod_pos_bound (table_len self) 2). pose proof (Z.div_mod (table_len self) 2).
  destruct (Z.eqb_spec (table_len self mod 2) 1).
  - exists (3 * (table_len self / 2) + 3)%Z. lia.
  - exists (3 * (table_len self / 2) + 1)%Z. lia.
Qed.

#[export] Instance CompactPageTable_Exact : SerializeExact CompactPageTable.
Proof. split; intros x _; [done|]. apply CompactPageTable_need_aligned. Qed.

Lemma truncate_header_ok b n :
  (0 ≤ n ≤ bm_len b)%Z → truncate_header b n = Some (mkBytesMut (bm_ptr b + n) (bm_len b - n)).
Proof. apply truncate_header_advance. Qed.

Lemma pod_u32_ok : @PodOk Z pod_u32 is_u32.
Proof. apply (int_Pod_ok 4). lia. Qed.

Lemma pod_u64_ok : @PodOk Z pod_u64 is_u64.
Proof. apply (int_Pod_ok 8). lia. Qed.

(** An unchecked integer write through a cursor with room for it. *)
Lemma write_int_ok n m b z :
  alloc m (bm_ptr b) (bm_len b) → (Z.of_nat n ≤ bm_len b)%Z →
  ∃ m', @write_unaligned_at_head Z (int_Pod n) m b z = Ret (Z.of_nat n, m') ∧
    at_mem m' (bm_ptr b) (le_bytes n z) ∧ frame m m' (bm_ptr b) (Z.of_nat n).
Proof.
  intros Hal Hlen. destruct (store_ok m (bm_ptr b) (le_bytes n z)) as (m' & E & Hat & Hf).
  - rewrite le_bytes_length. apply (alloc_sub m (bm_ptr b) (bm_len b)); [done|lia|lia].
  - rewrite le_bytes_length in Hf. exists m'. split_and!; try done.
    unfold write_unaligned_at_head, write_unaligned. cbn. by rewrite E.
Qed.

Lemma write_entries_ok m b es :
  alloc m (bm_ptr b) (bm_len b) → (12 * Z.of_nat (length es) ≤ bm_len b)%Z →
  ∃ b' m', write_entries m b es = Ret (b', m') ∧
    at_mem m' (bm_ptr b) (entries_bytes es) ∧
    frame m m' (bm_ptr b) (12 * Z.of_nat (length es)).
Proof.
  revert m b. induction es as [|[o v] es IH]; intros m b Hal Hlen.
  - exists b, m. split_and!; [done|apply at_mem_nil|apply frame_refl].
  - cbn [length] in Hlen. destruct (write_int_ok 4 m b o Hal) as (m1 & E1 & A1 & F1); [lia|].
    assert (Hal1 := frame_alloc_range _ _ _ _ _ _ F1 Hal).
    destruct (write_int_ok 8 m1 (mkBytesMut (bm_ptr b + 4) (bm_len b - 4)) v) as (m2 & E2 & A2 & F2);
      cbn [bm_ptr bm_len].
    { apply (alloc_sub m1 (bm_ptr b) (bm_len b)); [done|lia|lia]. }
    { lia. }
    assert (Hal2 := frame_alloc_range _ _ _ _ _ _ F2 Hal1). cbn [bm_ptr bm_len] in *.
    destruct (IH m2 (mkBytesMut (bm_ptr b + 4 + 8) (bm_len b - 4 - 8))) as (b' & m3 & E3 & A3 & F3); cbn [bm_ptr bm_len].
    { apply (alloc_sub m2 (bm_ptr b) (bm_len b)); [done|lia|lia]. }
    { lia. }
    cbn [bm_ptr bm_len] in *. exists b', m3. cbn [write_entries length]. unfold pod_u32, pod_u64. rewrite E1. cbn [mbind outcome_bind].
    change (Z.of_nat 4) with 4%Z in *. change (Z.of_nat 8) with 8%Z in *.
    rewrite truncate_header_ok by lia. cbn [unwrap mbind outcome_bind]. rewrite E2. cbn [mbind outcome_bind].
    rewrite truncate_header_ok by (cbn; lia). cbn [unwrap mbind outcome_bind bm_ptr bm_len].
    split; [done|]. split.
    + change (entries_bytes ((o, v) :: es)) with ((le_bytes 4 o ++ le_bytes 8 v) ++ entries_bytes es).
      rewrite <- app_assoc. apply at_mem_app. rewrite le_bytes_length. split.
      { eapply at_mem_frame; [exact F3|eapply at_mem_frame; [exact F2|exact A1|]|]; rewrite le_bytes_length; cbn; lia. }
      apply at_mem_app. rewrite le_bytes_length. split.
      { eapply at_mem_frame; [exact F3|exact A2|]. rewrite le_bytes_length. cbn. lia. }
      exact A3.
    + eapply frame_trans; [|eapply frame_trans]; eapply frame_weaken; eauto; lia.
Qed.

Lemma read_entries_ok m b es :
  Forall entry_ok es → at_mem m (bm_ptr b) (entries_bytes es) →
  (12 * Z.of_nat (length es) ≤ bm_len b)%Z →
  read_entries m b (length es) =
    Ret (Some (es, mkBytesMut (bm_ptr b + 12 * Z.of_nat (length es))
                     (bm_len b - 12 * Z.of_nat (length es)))).
Proof.
  revert b. induction es as [|[o v] es IH]; intros b Hok Hat Hlen.
  - destruct b as [p n]. cbn. by rewrite Z.add_0_r, Z.sub_0_r.
  - apply Forall_cons in Hok as [[Ho Hv] Hok]. cbn [fst snd] in *.
    change (entries_bytes ((o, v) :: es)) with ((le_bytes 4 o ++ le_bytes 8 v) ++ entries_bytes es) in Hat.
    rewrite <- app_assoc in Hat. apply at_mem_app in Hat as [A1 Hat]. apply at_mem_app in Hat as [A2 A3].
    rewrite !le_bytes_length in *. change (Z.of_nat 4) with 4%Z in *. change (Z.of_nat 8) with 8%Z in *.
    cbn [length] in Hlen. rewrite Nat2Z.inj_succ in Hlen. cbn [read_entries length].
    unfold read_unaligned_at_head.
    rewrite (read_unaligned_ok (pod_ok := pod_u32_ok) m _ o) by done. cbn [mbind outcome_bind].
    rewrite truncate_header_ok by (unfold SZ_OFFSET; lia). cbn [bm_ptr bm_len].
    rewrite (read_unaligned_ok (pod_ok := pod_u64_ok) m _ v) by done. cbn [mbind outcome_bind].
    rewrite truncate_header_ok by (unfold SZ_OFFSET, SZ_VALUE; cbn; lia). cbn [bm_ptr bm_len].
    rewrite IH; [|done|exact A3|unfold SZ_OFFSET, SZ_VALUE; cbn; lia]. cbn [mbind outcome_bind fst snd].
    unfold SZ_OFFSET, SZ_VALUE. cbn [bm_ptr bm_len]. rewrite Nat2Z.inj_succ. do 4 f_equal; lia.
Qed.

(** The head of the image: the count, then the padding word. *)
Lemma count_ok m b self :
  buf_ok m b → (8 ≤ bm_len b)%Z →
  ∃ m', @memcpy_serialize_at Z pod_u64 m b 0 (table_len self) = Ret (Some 8%Z, m') ∧
    at_mem m' (bm_ptr b) (le_bytes 8 (table_len self)) ∧ frame m m' (bm_ptr b) 8.
Proof.
  intros (Hal & H8 & H0) Hlen. unfold memcpy_serialize_at. rewrite truncate_header_0 by lia.
  apply (memcpy_serialize_ok (pod_ok := pod_u64_ok) ltac:(done) m b (table_len self)); done.
Qed.

Lemma pad_ok m b n :
  alloc m (bm_ptr b) (bm_len b) → (8 | bm_ptr b)%Z →
  let pad := Z.of_nat (length (pad_bytes n)) in
  (pad ≤ bm_len b)%Z →
  ∃ m', (if needs_pad n then
           '(r, m) ← @memcpy_serialize_at Z pod_u32 m b 0 0%Z;
           sz ← unwrap r;
           cur ← unwrap (truncate_header b sz);
           Ret (cur, m)
         else Ret (b, m)) = Ret (mkBytesMut (bm_ptr b + pad) (bm_len b - pad), m') ∧
    at_mem m' (bm_ptr b) (pad_bytes n) ∧ frame m m' (bm_ptr b) pad.
Proof.
  intros Hal H8. cbv zeta. unfold pad_bytes. destruct (needs_pad n); intros Hlen.
  - rewrite le_bytes_length in *. unfold memcpy_serialize_at. rewrite truncate_header_0 by lia.
    destruct (memcpy_serialize_ok (pod_ok := pod_u32_ok) ltac:(by exists 2%Z) m b 0%Z) as (m2 & E2 & A2 & F2);
      [done..|].
    rewrite E2. cbn [mbind outcome_bind unwrap]. change (Z.of_nat (@size_of Z pod_u32)) with 4%Z in *.
    rewrite truncate_header_ok by lia. by exists m2.
  - exists m. cbn [length]. rewrite Z.add_0_r, Z.sub_0_r.
    split; [by destruct b|]. split; [apply at_mem_nil|apply frame_refl].
Qed.

Lemma CompactPageTable_serialize_ok m self b :
  CompactPageTable_valid self → buf_ok m b →
  (Z.of_nat (length (CompactPageTable_encode self)) ≤ bm_len b)%Z →
  ∃ m', CompactPageTable_serialize m self b = Ret (true, m') ∧
    at_mem m' (bm_ptr b) (CompactPageTable_encode self) ∧
    frame m m' (bm_ptr b) (Z.of_nat (length (CompactPageTable_encode self))).
Proof.
  intros Hv Hb Hlen. pose proof Hb as (Hal & H8 & H0).
  assert (Hsum : Z.of_nat (length (CompactPageTable_encode self)) =
    (8 + Z.of_nat (length (pad_bytes (table_len self))) + 12 * Z.of_nat (length (inner_pg_table self)))%Z).
  { unfold CompactPageTable_encode. rewrite !length_app, entries_length, le_bytes_length. lia. }
  set (pad := Z.of_nat (length (pad_bytes (table_len self)))) in *.
  assert (0 ≤ pad)%Z by (unfold pad; lia).
  destruct (count_ok m b self Hb) as (m1 & E1 & A1 & F1); [lia|].
  assert (Hal1 := frame_alloc_range _ _ _ _ _ _ F1 Hal).
  destruct (pad_ok m1 (mkBytesMut (bm_ptr b + 8) (bm_len b - 8)) (table_len self)) as (m2 & E2 & A2 & F2);
    cbn [bm_ptr bm_len] in *.
  { apply (alloc_sub m1 (bm_ptr b) (bm_len b)); [done|lia|lia]. }
  { apply Z.divide_add_r; [done|]. by exists 1%Z. }
  { fold pad. lia. }
  fold pad in E2, F2.
  assert (Hal2 := frame_alloc_range _ _ _ _ _ _ F2 Hal1).
  destruct (write_entries_ok m2 (mkBytesMut (bm_ptr b + 8 + pad) (bm_len b - 8 - pad)) (inner_pg_table self))
    as (b3 & m3 & E3 & A3 & F3); cbn [bm_ptr bm_len] in *.
  { apply (alloc_sub m2 (bm_ptr b) (bm_len b)); [done|lia|lia]. }
  { lia. }
  exists m3. split; [|split].
  - unfold CompactPageTable_serialize. rewrite CompactPageTable_buf_len_ok by done. cbn [mbind outcome_bind].
    unfold BytesMut_len. rewrite (proj2 (Z.ltb_ge _ _)) by lia.
    rewrite truncate_header_0 by lia. cbn [mbind outcome_bind unwrap].
    rewrite E1. cbn [mbind outcome_bind unwrap]. rewrite truncate_header_ok by lia.
    cbn [mbind outcome_bind unwrap]. rewrite E2. cbn [mbind outcome_bind]. by rewrite E3.
  - unfold CompactPageTable_encode. apply at_mem_app. rewrite le_bytes_length. split.
    { eapply at_mem_frame; [exact F3|eapply at_mem_frame; [exact F2|exact A1|]|]; rewrite le_bytes_length; lia. }
    apply at_mem_app. fold pad. split; [|exact A3].
    eapply at_mem_frame; [exact F3|exact A2|]. fold pad. lia.
  - rewrite Hsum. eapply frame_trans; [|eapply frame_trans]; eapply frame_weaken; eauto; lia.
Qed.

Lemma CompactPageTable_deserialize_ok m self b :
  CompactPageTable_valid self → (8 | bm_ptr b)%Z →
  at_mem m (bm_ptr b) (CompactPageTable_encode self) →
  (Z.of_nat (length (CompactPageTable_encode self)) ≤ bm_len b)%Z →
  CompactPageTable_deserialize m b = Ret (Some self).
Proof.
  intros [Hok Hbig] H8 Hat Hlen.
  unfold CompactPageTable_encode in Hat, Hlen. rewrite !length_app, entries_length, le_bytes_length in Hlen.
  apply at_mem_app in Hat as [A1 Hat]. apply at_mem_app in Hat as [A2 A3].
  rewrite le_bytes_length in *. change (Z.of_nat 8) with 8%Z in *.
  assert (Hcnt : is_u64 (table_len self)) by (unfold is_u64; unfold table_len in *; lia).
  unfold CompactPageTable_deserialize. rewrite truncate_header_0 by lia. cbn [mbind outcome_bind unwrap].
  rewrite (memcpy_deserialize_ok (pod_ok := pod_u64_ok) ltac:(done) m b (table_len self)) by (done || (cbn; lia)).
  cbn [mbind outcome_bind]. change (Z.of_nat (@size_of Z pod_u64)) with 8%Z.
  rewrite truncate_header_ok by lia. unfold pad_bytes in *.
  assert (Hn : Z.to_nat (table_len self) = length (inner_pg_table self)) by (unfold table_len; lia).
  destruct (needs_pad (table_len self)).
  - rewrite le_bytes_length in *. change (Z.of_nat 4) with 4%Z in *.
    rewrite (memcpy_deserialize_ok (pod_ok := pod_u32_ok) ltac:(by exists 2%Z) m _ 0%Z);
      [|done| |exact A2|cbn; lia]; [|apply Z.divide_add_r; [done|by exists 1%Z]].
    cbn [mbind outcome_bind fst snd]. change (Z.of_nat (@size_of Z pod_u32)) with 4%Z.
    rewrite truncate_header_ok by (cbn; lia). cbn [bm_ptr bm_len].
    rewrite Hn, read_entries_ok; [|done|exact A3|cbn; lia]. cbn. by destruct self.
  - cbn [mbind outcome_bind length] in *. rewrite Z.add_0_r in A3.
    rewrite Hn, read_entries_ok; [|done|exact A3|cbn; lia]. cbn. by destruct self.
Qed.

#[export] Instance CompactPageTable_Ok : SerializeOk CompactPageTable.
Proof.
  split; cbn.
  - apply CompactPageTable_buf_len_ok.
  - lia.
  - intros m x b Hv Hlt. unfold CompactPageTable_serialize. rewrite CompactPageTable_buf_len_ok by done.
    cbn. unfold BytesMut_len. by rewrite (proj2 (Z.ltb_lt _ _)) by done.
  - apply CompactPageTable_serialize_ok.
  - apply CompactPageTable_deserialize_ok.
Qed.

(** ** Concrete layouts, to instantiate the parameters *)
Definition bool_word (b : bool) : Z := if b then 1 else 0.

Definition reg_words (x : RegDescriptor) : list Z :=
  let o := others x in
  [r15 o; r14 o; r13 o; r12 o; bp o; bx o; r11 o; r10 o; r9 o; r8 o; ax o; cx o; dx o; si o; di o;
   orig_ax o; ip o; cs o; flags o; sp o; ss o; fs x; gs x].

Definition of_reg_words (ws : list Z) : option RegDescriptor :=
  match ws with
  | [a1; a2; a3; a4; a5; a6; a7; a8; a9; a10; a11; a12; a13; a14; a15; a16; a17; a18; a19; a20; a21; f; g] =>
      Some (mkRegDescriptor (mkStackRegisters a1 a2 a3 a4 a5 a6 a7 a8 a9 a10 a11 a12 a13 a14 a15 a16
              a17 a18 a19 a20 a21) f g)
  | _ => None
  end.

Definition vma_words (x : VMADescriptor) : list Z :=
  [(range x).1; (range x).2; vm_flags x; prot x; bool_word (is_anonymous x)].

Definition of_vma_words (ws : list Z) : option VMADescriptor :=
  match ws with
  | [s; e; f; p; a] =>
      if decide (a = 0%Z) then Some (mkVMADescriptor (s, e) f p false)
      else if decide (a = 1%Z) then Some (mkVMADescriptor (s, e) f p true)
      else None
  | _ => None
  end.

Definition rdma_words (x : RDMADescriptor) : list Z :=
  [service_id x; port_num x; (gid x).1; (gid x).2; lid x; rkey x; dct_key x; dct_num x; mac_id x].

Definition of_rdma_words (ws : list Z) : option RDMADescriptor :=
  match ws with
  | [a; b; c; d; e; f; g; h; i] => Some (mkRDMADescriptor a b (c, d) e f g h i)
  | _ => None
  end.

Definition reg_Pod : Pod RegDescriptor := words_Pod 23 reg_words of_reg_words.
Definition vma_Pod : Pod VMADescriptor := words_Pod 5 vma_words of_vma_words.
Definition rdma_Pod : Pod RDMADescriptor := words_Pod 9 rdma_words of_rdma_words.

Lemma reg_Pod_ok : @PodOk _ reg_Pod (λ x, Forall is_u64 (reg_words x)).
Proof. apply words_Pod_ok; [done|]. intros [[] f g] Hv. done. Qed.

Lemma vma_Pod_ok : @PodOk _ vma_Pod (λ x, Forall is_u64 (vma_words x)).
Proof. apply words_Pod_ok; [done|]. intros [[s e] f p []] Hv; done. Qed.

Lemma rdma_Pod_ok : @PodOk _ rdma_Pod (λ x, Forall is_u64 (rdma_words x)).
Proof. apply words_Pod_ok; [done|]. intros [a b [c d] e f g h i] Hv. done. Qed.
