(* ===== verification/ParentWire.v ===== *)
(** * The parent descriptor on the wire ([descriptors/parent.rs])

    [Serialize for ParentDescriptor].  What is written is read back unchanged,
    every cursor stays aligned, and the announced length is always enough. *)

From S2P Require Import Prelude PageStructures PageHeap RemotePageTable Bytes Descriptors.

(** ** Operations *)
Section ParentOps.
Context {ser_reg : Serialize RegDescriptor} {ser_vma : Serialize VMADescriptor}.
Context {ser_rdma : Serialize RDMADescriptor} {pod_vma : Pod VMADescriptor}.

(** [for vma_pg_table in &self.page_table { result += .. }] *)
Fixpoint sum_buf_len (result : Z) (pts : list CompactPageTable) : outcome Z :=
  match pts with
  | [] => Ret result
  | pt :: pts' =>
      n ← serialization_buf_len pt;
      result ← u64_add result n;
      sum_buf_len result pts'
  end.

Definition vma_pg_table_serialization_buf_len (self : ParentDescriptor) : outcome Z :=
  sum_buf_len SZ_USIZE (page_table self).

Definition ParentDescriptor_buf_len (self : ParentDescriptor) : outcome Z :=
  a ← serialization_buf_len (regs self);
  b ← vma_pg_table_serialization_buf_len self;
  n ← u64_add a b;
  n ← u64_add n SZ_USIZE;
  c ← u64_mul (Z.of_nat (length (vma self))) (Z.of_nat (size_of VMADescriptor));
  n ← u64_add n c;
  d ← serialization_buf_len (machine_info self);
  u64_add n d.

(** [for (i, vma_pg_table) in self.page_table.iter().enumerate()] *)
Fixpoint write_vmas (m : mem) (cur : BytesMut) (vmas : list VMADescriptor) (i : nat)
    (pts : list CompactPageTable) : outcome (BytesMut * mem) :=
  match pts with
  | [] => Ret (cur, m)
  | vma_pg_table :: pts' =>
      v ← unwrap (vmas !! i);
      '(_, m) ← serialize m v cur;
      n ← serialization_buf_len v;
      cur ← unwrap (truncate_header cur n);
      '(_, m) ← serialize m vma_pg_table cur;
      n ← serialization_buf_len vma_pg_table;
      cur ← unwrap (truncate_header cur n);
      write_vmas m cur vmas (S i) pts'
  end.

Definition ParentDescriptor_serialize (m : mem) (self : ParentDescriptor) (bytes : BytesMut)
    : outcome (bool * mem) :=
  need ← ParentDescriptor_buf_len self;
  if (BytesMut_len bytes <? need)%Z then Ret (false, m)
  else
    cur ← unwrap (truncate_header bytes 0);
    '(_, m) ← serialize m (regs self) cur;
    n ← serialization_buf_len (regs self);
    cur ← unwrap (truncate_header cur n);
    '(r, m) ← @memcpy_serialize_at Z pod_u64 m cur 0 (Z.of_nat (length (page_table self)));
    sz ← unwrap r;
    cur ← unwrap (truncate_header cur sz);
    _ ← rust_assert (bool_decide (length (vma self) = length (page_table self)));
    '(cur, m) ← write_vmas m cur (vma self) 0 (page_table self);
    '(_, m) ← serialize m (machine_info self) cur;
    Ret (true, m).

(** [for _ in 0..count] *)
Fixpoint read_vmas (m : mem) (cur : BytesMut) (count : nat)
    : outcome (option (list VMADescriptor * list CompactPageTable * BytesMut)) :=
  match count with
  | 0 => Ret (Some ([], [], cur))
  | S count =>
      rv ← deserialize m cur;
      v ←? rv;
      n ← serialization_buf_len v;
      cur ←? truncate_header cur n;
      rp ← @deserialize CompactPageTable _ m cur;
      pt ←? rp;
      n ← serialization_buf_len pt;
      cur ←? truncate_header cur n;
      r ← read_vmas m cur count;
      rest ←? r;
      let '(vs, pts, cur) := rest in
      Ret (Some (v :: vs, pt :: pts, cur))
  end.

Definition ParentDescriptor_deserialize (m : mem) (bytes : BytesMut)
    : outcome (option ParentDescriptor) :=
  cur ← unwrap (truncate_header bytes 0);
  rr ← @deserialize RegDescriptor _ m cur;
  rg ←? rr;
  n ← serialization_buf_len rg;
  cur ←? truncate_header cur n;
  rc ← @memcpy_deserialize Z pod_u64 m cur;
  oc ←? rc;
  let '(off, count) := oc in
  cur ←? truncate_header cur off;
  r ← read_vmas m cur (Z.to_nat count);
  rest ←? r;
  let '(vs, pts, cur) := rest in
  rm ← @deserialize RDMADescriptor _ m cur;
  mi ←? rm;
  Ret (Some (mkParentDescriptor rg pts vs mi)).
End ParentOps.

(** ** The image *)
Section ParentSpec.
Context {spec_reg : SerializeSpec RegDescriptor} {spec_vma : SerializeSpec VMADescriptor}.
Context {spec_rdma : SerializeSpec RDMADescriptor}.

Fixpoint vmas_encode (vs : list VMADescriptor) (pts : list CompactPageTable) : list Z :=
  match vs, pts with
  | v :: vs, pt :: pts => encode v ++ encode pt ++ vmas_encode vs pts
  | _, _ => []
  end.

Definition ParentDescriptor_encode (self : ParentDescriptor) : list Z :=
  encode (regs self) ++ le_bytes 8 (Z.of_nat (length (page_table self))) ++
  vmas_encode (vma self) (page_table self) ++ encode (machine_info self).

(** A descriptor whose parts are valid, with one page table per VMA, that fits
    the address space. *)
Record ParentDescriptor_valid (self : ParentDescriptor) : Prop := {
  pv_regs : valid (regs self);
  pv_vma : Forall valid (vma self);
  pv_pts : Forall valid (page_table self);
  pv_info : valid (machine_info self);
  pv_len : length (vma self) = length (page_table self);
  pv_size : (Z.of_nat (length (ParentDescriptor_encode self)) + 8 < 2 ^ 64)%Z;
}.
End ParentSpec.

(** ** Lemmas *)
Section ParentLemmas.
Context {ser_reg : Serialize RegDescriptor} {spec_reg : SerializeSpec RegDescriptor}.
Context {reg_ok : SerializeOk RegDescriptor} {reg_ex : SerializeExact RegDescriptor}.
Context {ser_vma : Serialize VMADescriptor} {spec_vma : SerializeSpec VMADescriptor}.
Context {vma_ok : SerializeOk VMADescriptor} {vma_ex : SerializeExact VMADescriptor}.
Context {ser_rdma : Serialize RDMADescriptor} {spec_rdma : SerializeSpec RDMADescriptor}.
Context {rdma_ok : SerializeOk RDMADescriptor} {rdma_ex : SerializeExact RDMADescriptor}.
Context {pod_vma : Pod VMADescriptor}.
Context (vma_size : ∀ v : VMADescriptor, valid v → need v = Z.of_nat (size_of VMADescriptor)).

Fixpoint sum_need (pts : list CompactPageTable) : Z :=
  match pts with
  | [] => 0
  | pt :: pts => (need pt + sum_need pts)%Z
  end.

Lemma sum_need_nonneg pts : (0 ≤ sum_need pts)%Z.
Proof. induction pts as [|pt pts IH]; cbn in *; lia. Qed.

Lemma sum_need_length pts : (Z.of_nat (length pts) ≤ sum_need pts)%Z.
Proof.
  induction pts as [|pt pts IH]; [done|]. cbn [sum_need length need CompactPageTable_Spec].
  rewrite CompactPageTable_encode_length. unfold table_len.
  destruct (needs_pad (Z.of_nat (length (inner_pg_table pt)))); lia.
Qed.

Lemma sum_buf_len_ok result pts :
  Forall valid pts → (0 ≤ result)%Z → (result + sum_need pts < 2 ^ 64)%Z →
  sum_buf_len result pts = Ret (result + sum_need pts)%Z.
Proof.
  intros Hv. revert result. induction Hv as [|pt pts Hpt Hv IH]; intros result H0 Hlt; cbn [sum_buf_len sum_need] in *.
  - by rewrite Z.add_0_r.
  - pose proof (sum_need_nonneg pts). pose proof (need_nonneg pt Hpt).
    rewrite (buf_len_ok pt Hpt). cbn [mbind outcome_bind].
    rewrite u64_add_Ret by (unfold is_u64; lia). cbn [mbind outcome_bind].
    rewrite IH by lia. f_equal. lia.
Qed.

Lemma vmas_encode_length vs pts :
  Forall valid vs → Forall valid pts → length vs = length pts →
  Z.of_nat (length (vmas_encode vs pts)) =
    (Z.of_nat (length vs) * Z.of_nat (size_of VMADescriptor) + sum_need pts)%Z.
Proof.
  intros Hv. revert pts. induction Hv as [|v vs Hvv Hv IH]; intros [|pt pts] Hp Hlen; try done.
  apply Forall_cons in Hp as [Hpt Hp]. cbn [vmas_encode length sum_need] in *.
  rewrite !length_app, !Nat2Z.inj_add, (IH pts) by (done || lia).
  rewrite <- (need_exact v), <- (need_exact pt) by done. rewrite (vma_size v) by done. lia.
Qed.

Lemma ParentDescriptor_encode_parts self :
  valid (regs self) → Forall valid (vma self) → Forall valid (page_table self) → valid (machine_info self) →
  length (vma self) = length (page_table self) →
  Z.of_nat (length (ParentDescriptor_encode self)) =
    (need (regs self) + 8 +
     (Z.of_nat (length (vma self)) * Z.of_nat (size_of VMADescriptor) + sum_need (page_table self)) +
     need (machine_info self))%Z.
Proof.
  intros Hr Hv Hp Hi Hl. unfold ParentDescriptor_encode.
  rewrite !length_app, le_bytes_length, !Nat2Z.inj_add, vmas_encode_length by done.
  rewrite <- (need_exact (regs self)), <- (need_exact (machine_info self)) by done. lia.
Qed.

Lemma ParentDescriptor_encode_length self :
  ParentDescriptor_valid self →
  Z.of_nat (length (ParentDescriptor_encode self)) =
    (need (regs self) + 8 +
     (Z.of_nat (length (vma self)) * Z.of_nat (size_of VMADescriptor) + sum_need (page_table self)) +
     need (machine_info self))%Z.
Proof. intros []. by apply ParentDescriptor_encode_parts. Qed.

(** The announced length counts the eight bytes of the count twice. *)
Lemma ParentDescriptor_buf_len_ok self :
  ParentDescriptor_valid self →
  ParentDescriptor_buf_len self = Ret (Z.of_nat (length (ParentDescriptor_encode self)) + 8)%Z.
Proof.
  intros Hval. pose proof (ParentDescriptor_encode_length self Hval) as Hlen.
  destruct Hval as [Hr Hv Hp Hi Hl Hsz]. rewrite Hlen in *.
  pose proof (need_nonneg _ Hr). pose proof (need_nonneg _ Hi). pose proof (sum_need_nonneg (page_table self)).
  unfold ParentDescriptor_buf_len, vma_pg_table_serialization_buf_len, SZ_USIZE, u64_mul.
  rewrite (buf_len_ok _ Hr). cbn [mbind outcome_bind]. rewrite sum_buf_len_ok by (done || lia).
  cbn [mbind outcome_bind]. rewrite u64_add_Ret by (unfold is_u64; lia). cbn [mbind outcome_bind].
  rewrite u64_add_Ret by (unfold is_u64; lia). cbn [mbind outcome_bind].
  rewrite u64_checked_Ret by (unfold is_u64; lia). cbn [mbind outcome_bind].
  rewrite u64_add_Ret by (unfold is_u64; lia). cbn [mbind outcome_bind].
  rewrite (buf_len_ok _ Hi). cbn [mbind outcome_bind].
  rewrite u64_add_Ret by (unfold is_u64; lia). f_equal. lia.
Qed.

Lemma write_vmas_ok m b vmas i vs pts :
  drop i vmas = vs → Forall valid vs → Forall valid pts → length vs = length pts →
  buf_ok m b → (Z.of_nat (length (vmas_encode vs pts)) ≤ bm_len b)%Z →
  ∃ m', write_vmas m b vmas i pts =
      Ret (advance b (Z.of_nat (length (vmas_encode vs pts))), m') ∧
    at_mem m' (bm_ptr b) (vmas_encode vs pts) ∧
    frame m m' (bm_ptr b) (Z.of_nat (length (vmas_encode vs pts))) ∧
    buf_ok m' (advance b (Z.of_nat (length (vmas_encode vs pts)))).
Proof.
  intros Hdrop Hv. revert m b i pts Hdrop.
  induction Hv as [|v vs Hvv Hv IH]; intros m b i [|pt pts] Hdrop Hp Hlen Hb Hfit; try done.
  - exists m. cbn [write_vmas vmas_encode length]. unfold advance. cbn.
    rewrite Z.add_0_r, Z.sub_0_r. split_and!; [by destruct b|apply at_mem_nil|apply frame_refl|by destruct b].
  - apply Forall_cons in Hp as [Hpt Hp]. cbn [vmas_encode] in Hfit |- *.
    rewrite !length_app, !Nat2Z.inj_add, <- (need_exact v), <- (need_exact pt) in Hfit |- * by done.
    pose proof (need_nonneg v Hvv). pose proof (need_nonneg pt Hpt).
    set (rest := vmas_encode vs pts) in *.
    destruct (serialize_step m v b Hvv Hb) as (m1 & E1 & A1 & F1 & T1 & B1); [lia|].
    destruct (serialize_step m1 pt (advance b (need v)) Hpt B1) as (m2 & E2 & A2 & F2 & T2 & B2); [cbn [bm_len advance]; lia|].
    assert (Hi : vmas !! i = Some v).
    { pose proof (lookup_drop vmas i 0) as E. rewrite Hdrop in E. cbn in E. by rewrite Nat.add_0_r in E. }
    destruct (IH m2 (advance (advance b (need v)) (need pt)) (S i) pts) as (m3 & E3 & A3 & F3 & B3);
      [by rewrite <- Nat.add_1_r, <- drop_drop, Hdrop|done|by injection Hlen|done|cbn [bm_len advance]; fold rest; lia|].
    fold rest in E3, A3, F3, B3. exists m3.
    assert (Hadv : advance (advance (advance b (need v)) (need pt)) (Z.of_nat (length rest)) =
      advance b (need v + (need pt + Z.of_nat (length rest)))) by (rewrite !advance_advance; f_equal; lia).
    rewrite <- Hadv. cbn [bm_ptr bm_len advance] in *. split_and!.
    + cbn [write_vmas]. rewrite Hi. cbn [unwrap mbind outcome_bind]. rewrite E1. cbn [mbind outcome_bind].
      rewrite (buf_len_ok v Hvv). cbn [mbind outcome_bind]. rewrite T1. cbn [unwrap mbind outcome_bind].
      rewrite E2. cbn [mbind outcome_bind]. rewrite (buf_len_ok pt Hpt). cbn [mbind outcome_bind].
      rewrite T2. cbn [unwrap mbind outcome_bind]. exact E3.
    + apply at_mem_app. rewrite <- (need_exact v) by done. split.
      { eapply at_mem_frame; [exact F3|eapply at_mem_frame; [exact F2|exact A1|]|]; rewrite <- (need_exact v) by done; lia. }
      apply at_mem_app. rewrite <- (need_exact pt) by done. split; [|exact A3].
      eapply at_mem_frame; [exact F3|exact A2|]. rewrite <- (need_exact pt) by done. lia.
    + eapply frame_trans; [|eapply frame_trans]; eapply frame_weaken; eauto; lia.
    + exact B3.
Qed.

Lemma count_u64_ok m b n :
  buf_ok m b → (8 ≤ bm_len b)%Z →
  ∃ m', @memcpy_serialize_at Z pod_u64 m b 0 n = Ret (Some 8%Z, m') ∧
    at_mem m' (bm_ptr b) (le_bytes 8 n) ∧ frame m m' (bm_ptr b) 8 ∧ buf_ok m' (advance b 8).
Proof.
  intros Hb Hlen. pose proof Hb as (Hal & H8 & H0). unfold memcpy_serialize_at.
  rewrite truncate_header_0 by lia.
  destruct (memcpy_serialize_ok (pod_ok := pod_u64_ok) ltac:(done) m b n) as (m' & E & A & F); [done..|].
  exists m'. split_and!; try done. apply buf_ok_advance; [by eapply buf_ok_frame|by exists 1%Z|lia].
Qed.

Lemma ParentDescriptor_serialize_ok m self b :
  ParentDescriptor_valid self → buf_ok m b →
  (Z.of_nat (length (ParentDescriptor_encode self)) + 8 ≤ bm_len b)%Z →
  ∃ m', ParentDescriptor_serialize m self b = Ret (true, m') ∧
    at_mem m' (bm_ptr b) (ParentDescriptor_encode self) ∧
    frame m m' (bm_ptr b) (Z.of_nat (length (ParentDescriptor_encode self))).
Proof.
  intros Hval Hb Hfit. pose proof (ParentDescriptor_buf_len_ok self Hval) as Hneed.
  destruct Hval as [Hr Hv Hp Hi Hl Hsz]. pose proof (need_nonneg _ Hr). pose proof (need_nonneg _ Hi).
  set (vs := vmas_encode (vma self) (page_table self)) in *.
  assert (Hlen : Z.of_nat (length (ParentDescriptor_encode self)) =
    (need (regs self) + (8 + (Z.of_nat (length vs) + need (machine_info self))))%Z).
  { unfold ParentDescriptor_encode. rewrite !length_app, le_bytes_length, !Nat2Z.inj_add.
    by rewrite (need_exact (regs self)), (need_exact (machine_info self)). }
  rewrite Hlen in *.
  destruct (serialize_step m (regs self) b Hr Hb) as (m1 & E1 & A1 & F1 & T1 & B1); [lia|].
  destruct (count_u64_ok m1 (advance b (need (regs self))) (Z.of_nat (length (page_table self))) B1)
    as (m2 & E2 & A2 & F2 & B2); [cbn [bm_len advance]; lia|].
  destruct (write_vmas_ok m2 (advance (advance b (need (regs self))) 8) (vma self) 0 (vma self) (page_table self))
    as (m3 & E3 & A3 & F3 & B3); [done|done|done|done|done|cbn [bm_len advance]; fold vs; lia|].
  fold vs in E3, A3, F3, B3.
  destruct (serialize_step m3 (machine_info self) _ Hi B3) as (m4 & E4 & A4 & F4 & _); [cbn [bm_len advance]; lia|].
  cbn [bm_ptr bm_len advance] in *. exists m4. split; [|split].
  - unfold ParentDescriptor_serialize. rewrite Hneed. cbn [mbind outcome_bind]. unfold BytesMut_len.
    rewrite (proj2 (Z.ltb_ge _ _)) by lia. destruct Hb as (_ & _ & Hb0). rewrite truncate_header_0 by done.
    cbn [unwrap mbind outcome_bind]. rewrite E1. cbn [mbind outcome_bind].
    rewrite (buf_len_ok _ Hr). cbn [mbind outcome_bind]. rewrite T1. cbn [unwrap mbind outcome_bind].
    rewrite E2. cbn [unwrap mbind outcome_bind]. rewrite truncate_header_advance by (cbn [bm_len advance]; lia).
    cbn [unwrap mbind outcome_bind]. rewrite bool_decide_true by done. cbn [rust_assert mbind outcome_bind].
    rewrite E3. cbn [mbind outcome_bind]. by rewrite E4.
  - unfold ParentDescriptor_encode. fold vs.
    apply at_mem_app. rewrite <- (need_exact (regs self)) by done. split.
    { eapply at_mem_frame; [exact F4|eapply at_mem_frame; [exact F3|eapply at_mem_frame; [exact F2|exact A1|]|]|];
        rewrite <- (need_exact (regs self)) by done; lia. }
    apply at_mem_app. rewrite le_bytes_length. split.
    { eapply at_mem_frame; [exact F4|eapply at_mem_frame; [exact F3|exact A2|]|]; rewrite le_bytes_length; lia. }
    apply at_mem_app. split; [|exact A4]. eapply at_mem_frame; [exact F4|exact A3|]. lia.
  - eapply frame_trans; [|eapply frame_trans; [|eapply frame_trans]]; eapply frame_weaken; eauto; lia.
Qed.

Lemma read_vmas_ok m b vs pts bs :
  Forall valid vs → Forall valid pts → length vs = length pts → (8 | bm_ptr b)%Z →
  at_mem m (bm_ptr b) (vmas_encode vs pts ++ bs) →
  (Z.of_nat (length (vmas_encode vs pts)) ≤ bm_len b)%Z →
  read_vmas m b (length vs) =
    Ret (Some (vs, pts, advance b (Z.of_nat (length (vmas_encode vs pts))))) ∧
  (8 | bm_ptr (advance b (Z.of_nat (length (vmas_encode vs pts)))))%Z ∧
  at_mem m (bm_ptr (advance b (Z.of_nat (length (vmas_encode vs pts))))) bs.
Proof.
  intros Hv. revert b pts. induction Hv as [|v vs Hvv Hv IH]; intros b [|pt pts] Hp Hlen H8 Hat Hfit; try done.
  - cbn [read_vmas vmas_encode length app] in *. change (Z.of_nat 0) with 0%Z. cbn [bm_ptr advance].
    rewrite Z.add_0_r. split_and!; [|done..]. unfold advance. destruct b as [p n]. cbn.
    by rewrite Z.add_0_r, Z.sub_0_r.
  - apply Forall_cons in Hp as [Hpt Hp]. cbn [vmas_encode] in *. rewrite <- !app_assoc in Hat.
    rewrite !length_app, !Nat2Z.inj_add, <- (need_exact v), <- (need_exact pt) in Hfit |- * by done.
    pose proof (need_nonneg v Hvv). pose proof (need_nonneg pt Hpt).
    destruct (deserialize_step m v b _ Hvv H8 Hat) as (E1 & T1 & H81 & A1); [lia|].
    destruct (deserialize_step m pt _ _ Hpt H81 A1) as (E2 & T2 & H82 & A2); [cbn [bm_len advance]; lia|].
    destruct (IH (advance (advance b (need v)) (need pt)) pts) as (E3 & H83 & A3);
      [done|by injection Hlen|done|done|cbn [bm_len advance]; lia|].
    assert (Hadv : advance (advance (advance b (need v)) (need pt)) (Z.of_nat (length (vmas_encode vs pts))) =
      advance b (need v + (need pt + Z.of_nat (length (vmas_encode vs pts))))) by (rewrite !advance_advance; f_equal; lia).
    rewrite <- Hadv. split_and!; [|done..]. cbn [read_vmas length].
    rewrite E1. cbn [mbind outcome_bind]. rewrite (buf_len_ok v Hvv). cbn [mbind outcome_bind]. rewrite T1.
    rewrite E2. cbn [mbind outcome_bind]. rewrite (buf_len_ok pt Hpt). cbn [mbind outcome_bind]. rewrite T2.
    rewrite E3. done.
Qed.

Lemma ParentDescriptor_deserialize_ok m self b :
  ParentDescriptor_valid self → (8 | bm_ptr b)%Z →
  at_mem m (bm_ptr b) (ParentDescriptor_encode self) →
  (Z.of_nat (length (ParentDescriptor_encode self)) ≤ bm_len b)%Z →
  ParentDescriptor_deserialize m b = Ret (Some self).
Proof.
  intros Hval H8 Hat Hfit. destruct Hval as [Hr Hv Hp Hi Hl Hsz].
  pose proof (need_nonneg _ Hr). pose proof (need_nonneg _ Hi).
  unfold ParentDescriptor_encode in Hat, Hfit, Hsz.
  rewrite !length_app, le_bytes_length, !Nat2Z.inj_add in Hfit, Hsz.
  rewrite <- (need_exact (regs self)), <- (need_exact (machine_info self)) in Hfit, Hsz by done.
  destruct (deserialize_step m (regs self) b _ Hr H8 Hat) as (E1 & T1 & H81 & A1); [lia|].
  apply at_mem_app in A1 as [A1 A2]. rewrite le_bytes_length in A2. change (Z.of_nat 8) with 8%Z in *.
  unfold ParentDescriptor_deserialize. rewrite truncate_header_0 by lia. cbn [unwrap mbind outcome_bind].
  rewrite E1. cbn [mbind outcome_bind]. rewrite (buf_len_ok _ Hr). cbn [mbind outcome_bind]. rewrite T1.
  assert (Hcnt : is_u64 (Z.of_nat (length (page_table self)))).
  { rewrite (vmas_encode_length (vma self) (page_table self)) in Hsz by done.
    pose proof (sum_need_length (page_table self)). unfold is_u64. lia. }
  rewrite (memcpy_deserialize_ok (pod_ok := pod_u64_ok) ltac:(done) m _ (Z.of_nat (length (page_table self))));
    [|done|done|exact A1|cbn [bm_len advance]; cbn; lia].
  cbn [mbind outcome_bind]. change (Z.of_nat (@size_of Z pod_u64)) with 8%Z.
  rewrite truncate_header_advance by (cbn [bm_len advance]; lia). rewrite Nat2Z.id, <- Hl.
  destruct (read_vmas_ok m (advance (advance b (need (regs self))) 8) (vma self) (page_table self) (encode (machine_info self)))
    as (E2 & H82 & A3); [done|done|done| |done|cbn [bm_len advance]; lia|].
  { cbn [bm_ptr advance]. apply Z.divide_add_r; [done|by exists 1%Z]. }
  rewrite E2. cbn [mbind outcome_bind].
  rewrite (deserialize_ok m (machine_info self)); [by destruct self|done|done|exact A3|].
  cbn [bm_len advance]. rewrite <- (need_exact (machine_info self)) by done. lia.
Qed.

#[export] Instance ParentDescriptor_Serialize : Serialize ParentDescriptor := {|
  serialize := ParentDescriptor_serialize;
  deserialize := ParentDescriptor_deserialize;
  serialization_buf_len := ParentDescriptor_buf_len;
|}.

#[export] Instance ParentDescriptor_Spec : SerializeSpec ParentDescriptor := {|
  valid := ParentDescriptor_valid;
  encode := ParentDescriptor_encode;
  need self := (Z.of_nat (length (ParentDescriptor_encode self)) + 8)%Z;
|}.

Lemma ParentDescriptor_Ok : SerializeOk ParentDescriptor.
Proof.
  split; cbn.
  - apply ParentDescriptor_buf_len_ok.
  - lia.
  - intros m x b Hv Hlt. unfold ParentDescriptor_serialize. rewrite ParentDescriptor_buf_len_ok by done.
    cbn. unfold BytesMut_len. by rewrite (proj2 (Z.ltb_lt _ _)) by done.
  - apply ParentDescriptor_serialize_ok.
  - apply ParentDescriptor_deserialize_ok.
Qed.
End ParentLemmas.

(** ** The descriptors of the program

    [RegDescriptor], [VMADescriptor] and [RDMADescriptor] use the default methods
    of the trait; their fields are at most eight bytes wide and at least one is,
    so the language gives them alignment eight. *)
Class DescriptorLayout := {
  dl_reg : Pod RegDescriptor;
  dl_vma : Pod VMADescriptor;
  dl_rdma : Pod RDMADescriptor;
  dl_reg_valid : RegDescriptor → Prop;
  dl_vma_valid : VMADescriptor → Prop;
  dl_rdma_valid : RDMADescriptor → Prop;
}.

Class DescriptorLayoutOk `{DescriptorLayout} : Prop := {
  dl_reg_ok : @PodOk _ dl_reg dl_reg_valid;
  dl_vma_ok : @PodOk _ dl_vma dl_vma_valid;
  dl_rdma_ok : @PodOk _ dl_rdma dl_rdma_valid;
  dl_reg_align : @align_of _ dl_reg = 8%Z;
  dl_vma_align : @align_of _ dl_vma = 8%Z;
  dl_rdma_align : @align_of _ dl_rdma = 8%Z;
}.

Section Instances.
Context {dl : DescriptorLayout}.

#[export] Instance RegDescriptor_Serialize : Serialize RegDescriptor :=
  @Serialize_default _ dl_reg.
#[export] Instance VMADescriptor_Serialize : Serialize VMADescriptor :=
  @Serialize_default _ dl_vma.
#[export] Instance RDMADescriptor_Serialize : Serialize RDMADescriptor :=
  @Serialize_default _ dl_rdma.
#[export] Instance RegDescriptor_Spec : SerializeSpec RegDescriptor :=
  @Pod_spec _ dl_reg dl_reg_valid.
#[export] Instance VMADescriptor_Spec : SerializeSpec VMADescriptor :=
  @Pod_spec _ dl_vma dl_vma_valid.
#[export] Instance RDMADescriptor_Spec : SerializeSpec RDMADescriptor :=
  @Pod_spec _ dl_rdma dl_rdma_valid.

Context {dl_ok : DescriptorLayoutOk}.

#[export] Instance RegDescriptor_Ok : SerializeOk RegDescriptor.
Proof. apply (@Pod_SerializeOk _ _ _ dl_reg_ok). by rewrite dl_reg_align. Qed.
#[export] Instance VMADescriptor_Ok : SerializeOk VMADescriptor.
Proof. apply (@Pod_SerializeOk _ _ _ dl_vma_ok). by rewrite dl_vma_align. Qed.
#[export] Instance RDMADescriptor_Ok : SerializeOk RDMADescriptor.
Proof. apply (@Pod_SerializeOk _ _ _ dl_rdma_ok). by rewrite dl_rdma_align. Qed.
#[export] Instance RegDescriptor_Exact : SerializeExact RegDescriptor.
Proof. apply (@Pod_SerializeExact _ _ _ dl_reg_ok), dl_reg_align. Qed.
#[export] Instance VMADescriptor_Exact : SerializeExact VMADescriptor.
Proof. apply (@Pod_SerializeExact _ _ _ dl_vma_ok), dl_vma_align. Qed.
#[export] Instance RDMADescriptor_Exact : SerializeExact RDMADescriptor.
Proof. apply (@Pod_SerializeExact _ _ _ dl_rdma_ok), dl_rdma_align. Qed.
End Instances.

(** A concrete layout. *)
Definition word_layout : DescriptorLayout := {|
  dl_reg := reg_Pod;
  dl_vma := vma_Pod;
  dl_rdma := rdma_Pod;
  dl_reg_valid x := Forall is_u64 (reg_words x);
  dl_vma_valid x := Forall is_u64 (vma_words x);
  dl_rdma_valid x := Forall is_u64 (rdma_words x);
|}.

#[export] Instance word_layout_ok : DescriptorLayoutOk (H := word_layout).
Proof. split; [apply reg_Pod_ok|apply vma_Pod_ok|apply rdma_Pod_ok|done..]. Qed.

Section ParentProperties.
Context {dl : DescriptorLayout} {dl_ok : DescriptorLayoutOk}.
#[local] Existing Instance dl_vma.

Definition parent_serialize := ParentDescriptor_serialize (pod_vma := dl_vma).
Definition parent_deserialize := ParentDescriptor_deserialize.
Definition parent_buf_len := ParentDescriptor_buf_len (pod_vma := dl_vma).

(** C25: A parent descriptor written into an eight-byte aligned buffer of the announced
    length reads back as the same descriptor, from any buffer that starts there
    and holds the image; only the buffer is written.  A shorter buffer is refused
    and left as it was. *)
Theorem parent_descriptor_roundtrip m self b :
  ParentDescriptor_valid self → buf_ok m b →
  ∃ n, parent_buf_len self = Ret n ∧
  ((bm_len b < n)%Z → parent_serialize m self b = Ret (false, m)) ∧
  ((n ≤ bm_len b)%Z → ∃ m', parent_serialize m self b = Ret (true, m') ∧
     frame m m' (bm_ptr b) n ∧
     ∀ b', bm_ptr b' = bm_ptr b → (n ≤ bm_len b')%Z →
       parent_deserialize m' b' = Ret (Some self)).
Proof.
  intros Hv Hb. 
  pose proof (ParentDescriptor_Ok (pod_vma := dl_vma) (λ v _, eq_refl)) as Hok.
  pose proof (@need_fits _ _ _ Hok self Hv) as Hfit. exists (need self). split_and!.
  - apply (@buf_len_ok _ _ _ Hok self Hv).
  - apply (@serialize_short _ _ _ Hok m self b Hv).
  - intros Hn. destruct (@serialize_ok _ _ _ Hok m self b Hv Hb Hn) as (m' & E & Hat & Hf).
    exists m'. split_and!; [done|apply (frame_weaken _ _ _ _ _ _ Hf); lia|].
    intros b' Hp Hlen. destruct Hb as (_ & H8 & _).
    apply (@deserialize_ok _ _ _ Hok m' self b'); [done|by rewrite Hp|by rewrite Hp|lia].
Qed.
End ParentProperties.

(** A small descriptor with two VMAs, one with an odd number of pages. *)
Definition example_parent : ParentDescriptor :=
  mkParentDescriptor
    (mkRegDescriptor (mkStackRegisters 1 2 3 4 5 6 7 8 9 10 11 12 13 14 15 16 17 18 19 20 21) 22 23)
    [mkCompactPageTable [(0, 4100); (4096, 8196); (12288, 16388)]%Z; mkCompactPageTable [(0, 20484)]%Z]
    [mkVMADescriptor (4194304, 4210688) 7 9 true; mkVMADescriptor (8388608, 8392704) 3 9 false]%Z
    (mkRDMADescriptor 0 1 (2, 3)%Z 4 5 6 7 8).

Definition zeroed (n : nat) : mem := list_to_map ((λ i, (Z.of_nat i, 0%Z)) <$> seq 0 n).

Lemma zeroed_alloc n : alloc (zeroed n) 0 (Z.of_nat n).
Proof.
  intros q Hq. assert (In' : Z.to_nat q ∈ seq 0 n) by (apply elem_of_seq; lia).
  exists 0%Z. apply elem_of_list_to_map.
  - rewrite <- list_fmap_compose. apply NoDup_fmap_2; [intros i j; cbn; lia|apply NoDup_seq].
  - apply list_elem_of_fmap. exists (Z.to_nat q). split; [f_equal; lia|done].
Qed.

Lemma example_parent_valid : ParentDescriptor_valid (spec_reg := RegDescriptor_Spec (dl := word_layout))
  (spec_vma := VMADescriptor_Spec (dl := word_layout))
  (spec_rdma := RDMADescriptor_Spec (dl := word_layout)) example_parent.
Proof.
  assert (Hf : ∀ l, forallb (λ z, (0 <=? z) && (z <? 2 ^ 64))%Z l = true → Forall is_u64 l).
  { intros l Hl. apply Forall_forall. intros z Hz. rewrite forallb_forall in Hl.
    apply list_elem_of_In in Hz. apply Hl in Hz. unfold is_u64. lia. }
  split; cbn.
  - by apply Hf.
  - repeat (apply Forall_cons_2; [by apply Hf|]). apply Forall_nil_2.
  - unfold CompactPageTable_valid, entry_ok, is_u32, is_u64, table_len.
    repeat first [apply Forall_nil_2 | apply Forall_cons_2 | split]; cbn; lia.
  - by apply Hf.
  - done.
  - vm_compute. done.
Qed.

Lemma parent_descriptor_roundtrip_witness :
  ∃ m', parent_serialize (dl := word_layout) (zeroed 512) example_parent (mkBytesMut 0 512) = Ret (true, m') ∧
    parent_deserialize (dl := word_layout) m' (mkBytesMut 0 512) = Ret (Some example_parent).
Proof.
  destruct (parent_descriptor_roundtrip (dl := word_layout) (dl_ok := word_layout_ok) (zeroed 512)
    example_parent (mkBytesMut 0 512) example_parent_valid) as (n & En & _ & Hok).
  - split_and!; [apply (zeroed_alloc 512)|by exists 0%Z|done].
  - vm_compute in En. injection En as <-. destruct Hok as (m' & E & _ & Hd); [by compute|].
    exists m'. split; [exact E|]. by apply Hd; [|compute].
Defined.
