(* ===== verification/ChildWire.v ===== *)
(** * The child descriptor ([descriptors/child.rs], [ParentDescriptor::to_descriptor])

    A child rebuilds the parent's address space from the published image: it
    reads the same wire format and maps every recorded page into a fresh
    [RemotePageTable].  This is the build without the [prefetch] feature. *)

From S2P Require Import Prelude PageStructures PageHeap RemotePageTable PageIter PageDrop.
From S2P Require Import Bytes Descriptors ParentWire.

Record ChildDescriptor := mkChildDescriptor {
  c_regs : RegDescriptor;
  c_page_table : RemotePageTable;
  c_vma : list VMADescriptor;
  c_machine_info : RDMADescriptor;
}.

(** ** Operations *)
Section ChildOps.
Context {vm : Vmalloc} {x86 : X86Crate} {dl : DescriptorLayout}.

Definition lookup_pg_table (h : heap) (self : ChildDescriptor) (virt : Z) : outcome (option Z) :=
  va ← virt_new virt;
  r ← RemotePageTable_translate h (c_page_table self) va;
  Ret (option_map PhysAddr_as_u64 r).

(** [for _ in 0..page_num]: the cursor behind the pages, [None] where a
    [truncate_header(..)?] gives up. *)
Fixpoint child_read_pages (m : mem) (h : heap) (cur : BytesMut) (pt : RemotePageTable)
    (vma_start : Z) (page_num : nat) : outcome (option BytesMut * RemotePageTable * heap) :=
  match page_num with
  | 0 => Ret (Some cur, pt, h)
  | S page_num =>
      virt ← @read_unaligned_at_head Z pod_u32 m cur;
      match truncate_header cur SZ_OFFSET with
      | None => Ret (None, pt, h)
      | Some cur =>
          phy ← @read_unaligned_at_head Z pod_u64 m cur;
          match truncate_header cur SZ_VALUE with
          | None => Ret (None, pt, h)
          | Some cur =>
              a ← u64_add virt vma_start;
              va ← virt_new a;
              '(_, pt, h) ← RemotePageTable_map h pt va (PhysAddr_new phy);
              child_read_pages m h cur pt vma_start page_num
          end
      end
  end.

(** The head of a VMA's page table: the count and the padding word. *)
Definition child_read_count (m : mem) (cur : BytesMut) : outcome (option (Z * BytesMut)) :=
  r ← @memcpy_deserialize Z pod_u64 m cur;
  oc ←? r;
  let '(off, page_num) := oc in
  cur ←? truncate_header cur off;
  if needs_pad page_num then
    r ← @memcpy_deserialize Z pod_u32 m cur;
    op ←? r;
    cur ←? truncate_header cur op.1;
    Ret (Some (page_num, cur))
  else Ret (Some (page_num, cur)).

(** [for _ in 0..count] over the VMAs. *)
Fixpoint child_read_vmas (m : mem) (h : heap) (cur : BytesMut) (pt : RemotePageTable) (count : nat)
    : outcome (option (list VMADescriptor * BytesMut) * RemotePageTable * heap) :=
  match count with
  | 0 => Ret (Some ([], cur), pt, h)
  | S count =>
      rv ← @deserialize VMADescriptor _ m cur;
      match rv with
      | None => Ret (None, pt, h)
      | Some v =>
          n ← serialization_buf_len v;
          match truncate_header cur n with
          | None => Ret (None, pt, h)
          | Some cur =>
              rc ← child_read_count m cur;
              match rc with
              | None => Ret (None, pt, h)
              | Some (page_num, cur) =>
                  '(rcur, pt, h) ←
                    child_read_pages m h cur pt (get_start v) (Z.to_nat page_num);
                  match rcur with
                  | None => Ret (None, pt, h)
                  | Some cur =>
                      '(r, pt, h) ← child_read_vmas m h cur pt count;
                      Ret (option_map (λ rest, (v :: rest.1, rest.2)) r, pt, h)
                  end
              end
          end
      end
  end.

(** [deserialize] returns the descriptor, the heap and the pages given back to
    the kernel; on an early return the table built so far is dropped. *)
Definition child_deserialize (m : mem) (h : heap) (bytes : BytesMut)
    : outcome (option ChildDescriptor * heap * list Z) :=
  cur ← unwrap (truncate_header bytes 0);
  rr ← @deserialize RegDescriptor _ m cur;
  match rr with
  | None => Ret (None, h, [])
  | Some rg =>
      n ← serialization_buf_len rg;
      match truncate_header cur n with
      | None => Ret (None, h, [])
      | Some cur =>
          rc ← @memcpy_deserialize Z pod_u64 m cur;
          match rc with
          | None => Ret (None, h, [])
          | Some (off, count) =>
              match truncate_header cur off with
              | None => Ret (None, h, [])
              | Some cur =>
                  '(pt, h) ← RemotePageTable_new h;
                  '(rv, pt, h) ← child_read_vmas m h cur pt (Z.to_nat count);
                  match rv with
                  | None =>
                      '(h, freed) ← RemotePageTable_drop h pt;
                      Ret (None, h, freed)
                  | Some (vmas, cur) =>
                      rm ← @deserialize RDMADescriptor _ m cur;
                      match rm with
                      | None =>
                          '(h, freed) ← RemotePageTable_drop h pt;
                          Ret (None, h, freed)
                      | Some mi => Ret (Some (mkChildDescriptor rg pt vmas mi), h, [])
                      end
                  end
              end
          end
      end
  end.

(** [ParentDescriptor::to_descriptor] *)
Fixpoint map_entries (h : heap) (pt : RemotePageTable) (start : Z) (es : list (Z * Z))
    : outcome (RemotePageTable * heap) :=
  match es with
  | [] => Ret (pt, h)
  | (offset, phy_addr) :: es' =>
      a ← u64_add offset start;
      va ← virt_new a;
      '(_, pt, h) ← RemotePageTable_map h pt va (PhysAddr_new phy_addr);
      map_entries h pt start es'
  end.

Fixpoint map_vmas (h : heap) (pt : RemotePageTable) (vmas : list VMADescriptor) (vma_idx : nat)
    (pts : list CompactPageTable) : outcome (RemotePageTable * heap) :=
  match pts with
  | [] => Ret (pt, h)
  | vma_pg_table :: pts' =>
      v ← unwrap (vmas !! vma_idx);
      '(pt, h) ← map_entries h pt (get_start v) (inner_pg_table vma_pg_table);
      map_vmas h pt vmas (S vma_idx) pts'
  end.

Definition to_descriptor (h : heap) (self : ParentDescriptor) : outcome (ChildDescriptor * heap) :=
  '(pt, h) ← RemotePageTable_new h;
  '(pt, h) ← map_vmas h pt (vma self) 0 (page_table self);
  Ret (mkChildDescriptor (regs self) pt (vma self) (machine_info self), h).
End ChildOps.

(** ** What the parent published *)

(** Insert a page unless its number is taken. *)
Definition insert_absent (m : gmap Z Z) (n e : Z) : gmap Z Z :=
  match m !! n with Some _ => m | None => <[n := e]> m end.

Fixpoint add_entries (start : Z) (es : list (Z * Z)) (m : gmap Z Z) : gmap Z Z :=
  match es with
  | [] => m
  | (o, e) :: es => add_entries start es (insert_absent m (vpn (o + start)) e)
  end.

Fixpoint add_vmas (vs : list VMADescriptor) (pts : list CompactPageTable) (m : gmap Z Z) : gmap Z Z :=
  match vs, pts with
  | v :: vs, pt :: pts => add_vmas vs pts (add_entries (get_start v) (inner_pg_table pt) m)
  | _, _ => m
  end.

(** The (page number, entry) pairs a parent descriptor records, and the map they
    make: the first record of a page counts. *)
Definition recorded_vma (v : VMADescriptor) (pt : CompactPageTable) : list (Z * Z) :=
  (λ oe, (vpn (oe.1 + get_start v), oe.2)) <$> inner_pg_table pt.

Fixpoint recorded_vmas (vs : list VMADescriptor) (pts : list CompactPageTable) : list (Z * Z) :=
  match vs, pts with
  | v :: vs, pt :: pts => recorded_vma v pt ++ recorded_vmas vs pts
  | _, _ => []
  end.

Definition recorded (self : ParentDescriptor) : list (Z * Z) :=
  recorded_vmas (vma self) (page_table self).

Definition parent_pages (self : ParentDescriptor) : gmap Z Z := list_to_map (recorded self).

Lemma insert_absent_union (m m' : gmap Z Z) n e :
  insert_absent m n e ∪ m' = m ∪ <[n := e]> m'.
Proof.
  unfold insert_absent. destruct (m !! n) as [e'|] eqn:E.
  - apply map_eq. intros k. rewrite !lookup_union. destruct (decide (k = n)) as [->|Hne].
    + rewrite E, lookup_insert_eq. by destruct (m' !! n).
    + by rewrite lookup_insert_ne.
  - rewrite <- insert_union_l. by rewrite insert_union_r.
Qed.

Lemma add_entries_union start es m m' :
  add_entries start es m ∪ m' =
    m ∪ (list_to_map ((λ oe, (vpn (oe.1 + start), oe.2)) <$> es) ∪ m').
Proof.
  revert m. induction es as [|[o e] es IH]; intros m; cbn [add_entries].
  - cbn. by rewrite (left_id_L ∅ (∪)).
  - rewrite IH, insert_absent_union. cbn. by rewrite insert_union_l.
Qed.

Lemma add_vmas_union vs pts m m' :
  add_vmas vs pts m ∪ m' = m ∪ (list_to_map (recorded_vmas vs pts) ∪ m').
Proof.
  revert pts m m'. induction vs as [|v vs IH]; intros pts m m'; cbn [add_vmas recorded_vmas].
  - by rewrite list_to_map_nil, (left_id_L ∅ (∪)).
  - destruct pts as [|pt pts]; [by rewrite list_to_map_nil, (left_id_L ∅ (∪))|].
    rewrite IH, add_entries_union. unfold recorded_vma.
    by rewrite list_to_map_app, <- map_union_assoc.
Qed.

Lemma add_vmas_parent_pages self : add_vmas (vma self) (page_table self) ∅ = parent_pages self.
Proof.
  pose proof (add_vmas_union (vma self) (page_table self) ∅ ∅) as E.
  by rewrite !(right_id_L ∅ (∪)), (left_id_L ∅ (∪)) in E.
Qed.

(** The recorded pages are non-null and lie in the user half of the address
    space. *)
Definition entries_mappable (start : Z) (es : list (Z * Z)) : Prop :=
  Forall (λ oe, 0 ≤ oe.1 + start < 2 ^ 47 ∧ oe.2 ≠ 0)%Z es.

Definition parent_mappable (self : ParentDescriptor) : Prop :=
  Forall2 (λ v pt, entries_mappable (get_start v) (inner_pg_table pt)) (vma self) (page_table self).

Definition page_count (pts : list CompactPageTable) : nat :=
  sum_list_with (λ pt, length (inner_pg_table pt)) pts.

(** ** Lemmas *)
Section ChildLemmas.
Context {vm : Vmalloc} {vm_ok : VmallocOk} {x86 : X86Crate} {x86_ok : X86CrateOk}.
Context {dl : DescriptorLayout} {dl_ok : DescriptorLayoutOk}.

(** The table under construction: it represents [mp], sits at [r] and every other
    table still has the pages it had in [h0]. *)
Record building (h0 : heap) (r : Z) (h : heap) (pt : RemotePageTable) (mp : gmap Z Z) : Prop := {
  bd_inv : pt_inv h;
  bd_ok : rpt_ok h pt mp;
  bd_root : l4_page_table pt = r;
  bd_others : others_kept h0 h r;
}.

Lemma map_page_ok h0 r h pt mp o start e :
  building h0 r h pt mp → (0 ≤ o + start < 2 ^ 47)%Z → e ≠ 0%Z → size h + 3 ≤ vm_capacity →
  u64_add o start = Ret (o + start)%Z ∧ virt_new (o + start) = Ret (o + start)%Z ∧
  ∃ res pt' h', RemotePageTable_map h pt (o + start) (PhysAddr_new e) = Ret (res, pt', h') ∧
    building h0 r h' pt' (insert_absent mp (vpn (o + start)) e) ∧ size h' ≤ 3 + size h.
Proof.
  intros [Hinv Hok Hr Hoth] Ha He Hs. split; [apply u64_add_Ret; unfold is_u64; lia|].
  split; [by apply virt_new_low|].
  destruct (RemotePageTable_map_ok h pt mp (o + start) (PhysAddr_new e)) as
    (pt' & h' & E & Hinv' & Hr' & Hok' & Hs' & Hoth'); [done|done|unfold is_u64; lia|done|done|].
  exists (PhysAddr_new <$> mp !! vpn (o + start)), pt', h'. split; [exact E|]. split; [|done].
  split; [done|done|congruence|]. intros r' m' Hne HR. apply Hoth'; [congruence|]. by apply Hoth.
Qed.

Lemma child_read_pages_ok m h0 r h cur pt mp start es :
  building h0 r h pt mp → Forall entry_ok es → entries_mappable start es →
  at_mem m (bm_ptr cur) (entries_bytes es) → (12 * Z.of_nat (length es) ≤ bm_len cur)%Z →
  size h + 3 * length es ≤ vm_capacity →
  ∃ pt' h', child_read_pages m h cur pt start (length es) =
      Ret (Some (advance cur (12 * Z.of_nat (length es))), pt', h') ∧
    building h0 r h' pt' (add_entries start es mp) ∧ size h' ≤ 3 * length es + size h.
Proof.
  revert h cur pt mp. induction es as [|[o e] es IH]; intros h cur pt mp Hb Hok Hm Hat Hlen Hs.
  - exists pt, h. split; [|split; [done|lia]]. cbn. unfold advance. rewrite Z.add_0_r, Z.sub_0_r.
    by destruct cur.
  - apply Forall_cons in Hok as [[Ho Hv] Hok], Hm as [[Ha He] Hm]. cbn [fst snd length] in *.
    change (entries_bytes ((o, e) :: es)) with ((le_bytes 4 o ++ le_bytes 8 e) ++ entries_bytes es) in Hat.
    rewrite <- app_assoc in Hat. apply at_mem_app in Hat as [A1 Hat]. apply at_mem_app in Hat as [A2 A3].
    rewrite !le_bytes_length in *. change (Z.of_nat 4) with 4%Z in *. change (Z.of_nat 8) with 8%Z in *.
    destruct (map_page_ok h0 r h pt mp o start e Hb Ha He) as (Eadd & Ev & res & pt1 & h1 & Emap & Hb1 & Hs1); [lia|].
    destruct (IH h1 (advance (advance cur 4) 8) pt1 (insert_absent mp (vpn (o + start)) e)) as (pt' & h' & E & Hb' & Hs');
      [done|done|done|exact A3|cbn [bm_len advance]; lia|lia|].
    exists pt', h'. split; [|split; [exact Hb'|lia]]. cbn [child_read_pages length].
    unfold read_unaligned_at_head, SZ_OFFSET, SZ_VALUE.
    rewrite (read_unaligned_ok (pod_ok := pod_u32_ok) m _ o) by done. cbn [mbind outcome_bind].
    rewrite truncate_header_advance by lia.
    rewrite (read_unaligned_ok (pod_ok := pod_u64_ok) m _ e) by done. cbn [mbind outcome_bind].
    rewrite truncate_header_advance by (cbn [bm_len advance]; lia).
    rewrite Eadd. cbn [mbind outcome_bind]. rewrite Ev. cbn [mbind outcome_bind].
    rewrite Emap. cbn [mbind outcome_bind]. rewrite E.
    rewrite (advance_advance cur 4 8), (advance_advance cur).
    by replace (12 * Z.of_nat (S (length es)))%Z with (4 + 8 + 12 * Z.of_nat (length es))%Z by lia.
Qed.

Lemma child_read_count_ok m cur pt bs :
  CompactPageTable_valid pt → (8 | bm_ptr cur)%Z →
  at_mem m (bm_ptr cur) (CompactPageTable_encode pt ++ bs) →
  (need pt ≤ bm_len cur)%Z →
  ∃ hd, child_read_count m cur = Ret (Some (table_len pt, advance cur hd)) ∧
    at_mem m (bm_ptr (advance cur hd)) (entries_bytes (inner_pg_table pt)) ∧
    (0 ≤ hd)%Z ∧ (hd + 12 * Z.of_nat (length (inner_pg_table pt)) = need pt)%Z.
Proof.
  intros [Hok Hbig] H8 Hat Hlen. apply at_mem_app in Hat as [Hat _].
  cbn [need CompactPageTable_Spec] in *.
  unfold CompactPageTable_encode in Hat. apply at_mem_app in Hat as [A1 Hat]. apply at_mem_app in Hat as [A2 A3].
  assert (Hsum : Z.of_nat (length (CompactPageTable_encode pt)) =
    (8 + Z.of_nat (length (pad_bytes (table_len pt))) + 12 * Z.of_nat (length (inner_pg_table pt)))%Z).
  { unfold CompactPageTable_encode. rewrite !length_app, entries_length, le_bytes_length. lia. }
  rewrite Hsum in *. rewrite le_bytes_length in *. change (Z.of_nat 8) with 8%Z in *.
  assert (Hcnt : is_u64 (table_len pt)) by (unfold is_u64; unfold table_len in *; lia).
  unfold child_read_count.
  rewrite (memcpy_deserialize_ok (pod_ok := pod_u64_ok) ltac:(done) m cur (table_len pt)) by (done || (cbn; lia)).
  cbn [mbind outcome_bind]. change (Z.of_nat (@size_of Z pod_u64)) with 8%Z.
  rewrite truncate_header_advance by lia. unfold pad_bytes in *.
  destruct (needs_pad (table_len pt)).
  - rewrite le_bytes_length in *. change (Z.of_nat 4) with 4%Z in *.
    rewrite (memcpy_deserialize_ok (pod_ok := pod_u32_ok) ltac:(by exists 2%Z) m (advance cur 8) 0%Z);
      [|done|cbn [bm_ptr advance]; apply Z.divide_add_r; [done|by exists 1%Z]|exact A2|cbn; lia].
    cbn [mbind outcome_bind fst]. change (Z.of_nat (@size_of Z pod_u32)) with 4%Z.
    rewrite truncate_header_advance by (cbn [bm_len advance]; lia).
    rewrite advance_advance. exists 12%Z.
    split_and!; [done|by replace (bm_ptr cur + 8 + 4)%Z with (bm_ptr (advance cur 12)) in A3 by (cbn; lia)|lia|lia].
  - exists 8%Z. cbn [length] in *. rewrite Z.add_0_r in *. split_and!; [done|exact A3|lia|lia].
Qed.

Lemma child_read_vmas_ok m h0 r h cur pt mp vs pts bs :
  building h0 r h pt mp → Forall valid vs → Forall valid pts →
  Forall2 (λ v pt, entries_mappable (get_start v) (inner_pg_table pt)) vs pts →
  (8 | bm_ptr cur)%Z → at_mem m (bm_ptr cur) (vmas_encode vs pts ++ bs) →
  (Z.of_nat (length (vmas_encode vs pts)) ≤ bm_len cur)%Z →
  size h + 3 * page_count pts ≤ vm_capacity →
  ∃ pt' h', child_read_vmas m h cur pt (length vs) =
      Ret (Some (vs, advance cur (Z.of_nat (length (vmas_encode vs pts)))), pt', h') ∧
    building h0 r h' pt' (add_vmas vs pts mp) ∧
    (8 | bm_ptr (advance cur (Z.of_nat (length (vmas_encode vs pts)))))%Z ∧
    at_mem m (bm_ptr (advance cur (Z.of_nat (length (vmas_encode vs pts))))) bs.
Proof.
  intros Hb Hv Hp Hm. revert h cur pt mp Hb Hv Hp.
  induction Hm as [|v t vs pts Hmp Hm IH]; intros h cur pt mp Hb Hv Hp H8 Hat Hlen Hs.
  - exists pt, h. cbn [vmas_encode length app bm_ptr advance] in *. rewrite Z.add_0_r.
    split_and!; [|done..]. cbn. unfold advance. rewrite Z.add_0_r, Z.sub_0_r. by destruct cur.
  - apply Forall_cons in Hv as [Hvv Hv], Hp as [Hpt Hp]. cbn [vmas_encode] in *.
    rewrite <- !app_assoc in Hat.
    rewrite !length_app, !Nat2Z.inj_add, <- (need_exact v), <- (need_exact t) in Hlen |- * by done.
    pose proof (need_nonneg v Hvv). pose proof (need_nonneg t Hpt). unfold page_count in *. cbn [sum_list_with] in Hs.
    destruct (deserialize_step m v cur _ Hvv H8 Hat) as (E1 & T1 & H81 & A1); [lia|].
    destruct (child_read_count_ok m (advance cur (need v)) t (vmas_encode vs pts ++ bs) Hpt H81 A1)
      as (hd & E2 & A2 & Hhd & Hsum); [cbn [bm_len advance]; lia|].
    destruct (child_read_pages_ok m h0 r h (advance (advance cur (need v)) hd) pt mp (get_start v) (inner_pg_table t))
      as (pt1 & h1 & E3 & Hb1 & Hs1); [done|apply Hpt|done|exact A2|cbn [bm_len advance]; lia|lia|].
    rewrite (advance_advance (advance cur (need v)) hd), Hsum in E3. apply at_mem_app in A1 as [_ A1].
    change (encode t) with (CompactPageTable_encode t) in A1.
    change (Z.of_nat (length (CompactPageTable_encode t))) with (need t) in A1.
    destruct (IH h1 (advance (advance cur (need v)) (need t)) pt1 _ Hb1 Hv Hp) as (pt' & h' & E4 & Hb' & H84 & A4);
      [cbn [bm_ptr advance]; apply Z.divide_add_r; [done|by apply need_aligned]|exact A1|cbn [bm_len advance]; lia|lia|].
    assert (Hadv : ∀ L, advance (advance (advance cur (need v)) (need t)) L =
      advance cur (need v + (need t + L))) by (intros; by rewrite !advance_advance).
    rewrite Hadv in E4, H84, A4. exists pt', h'. split_and!; [|done..]. cbn [child_read_vmas length].
    rewrite E1. cbn [mbind outcome_bind]. rewrite (buf_len_ok v Hvv). cbn [mbind outcome_bind]. rewrite T1.
    rewrite E2. cbn [mbind outcome_bind]. unfold table_len. rewrite Nat2Z.id, E3. cbn [mbind outcome_bind].
    by rewrite E4.
Qed.

Lemma child_deserialize_ok m h b self :
  ParentDescriptor_valid self → parent_mappable self → pt_inv h →
  size h + 1 + 3 * page_count (page_table self) ≤ vm_capacity →
  (8 | bm_ptr b)%Z → at_mem m (bm_ptr b) (ParentDescriptor_encode self) →
  (Z.of_nat (length (ParentDescriptor_encode self)) ≤ bm_len b)%Z →
  ∃ child h', child_deserialize m h b = Ret (Some child, h', []) ∧
    c_regs child = regs self ∧ c_vma child = vma self ∧ c_machine_info child = machine_info self ∧
    pt_inv h' ∧ rpt_ok h' (c_page_table child) (parent_pages self) ∧
    others_kept h h' (l4_page_table (c_page_table child)).
Proof.
  intros Hval Hm Hinv Hcap H8 Hat Hfit. destruct Hval as [Hr Hv Hp Hi Hl Hsz].
  pose proof (need_nonneg _ Hr). pose proof (need_nonneg _ Hi).
  unfold ParentDescriptor_encode in Hat, Hfit, Hsz.
  rewrite !length_app, le_bytes_length, !Nat2Z.inj_add in Hfit, Hsz.
  rewrite <- (need_exact (regs self)), <- (need_exact (machine_info self)) in Hfit, Hsz by done.
  destruct (deserialize_step m (regs self) b _ Hr H8 Hat) as (E1 & T1 & H81 & A1); [lia|].
  apply at_mem_app in A1 as [A1 A2]. rewrite le_bytes_length in A2. change (Z.of_nat 8) with 8%Z in *.
  assert (Hcnt : is_u64 (Z.of_nat (length (page_table self)))).
  { assert (Hvs : ∀ v : VMADescriptor, valid v → need v = Z.of_nat (@size_of _ dl_vma)) by done.
    rewrite (vmas_encode_length Hvs (vma self) (page_table self)) in Hsz by done.
    pose proof (sum_need_length (page_table self)). unfold is_u64. lia. }
  destruct (RemotePageTable_new_ok h Hinv) as (pt0 & h0 & En & Hinv0 & Hok0 & Hs0 & _ & Hoth0); [lia|].
  destruct (child_read_vmas_ok m h (l4_page_table pt0) h0 (advance (advance b (need (regs self))) 8) pt0 ∅
    (vma self) (page_table self) (encode (machine_info self))) as (pt1 & h1 & E2 & Hb & H82 & A3);
    [by split|done|done|done| |done|cbn [bm_len advance]; lia|lia|].
  { cbn [bm_ptr advance]. apply Z.divide_add_r; [done|by exists 1%Z]. }
  destruct Hb as [Hinv1 Hok1 Hr1 Hoth1]. rewrite add_vmas_parent_pages in Hok1.
  exists (mkChildDescriptor (regs self) pt1 (vma self) (machine_info self)), h1. cbn [c_page_table].
  rewrite Hr1. split; [|done].
  unfold child_deserialize. rewrite truncate_header_0 by lia. cbn [unwrap mbind outcome_bind].
  rewrite E1. cbn [mbind outcome_bind]. rewrite (buf_len_ok _ Hr). cbn [mbind outcome_bind]. rewrite T1.
  rewrite (memcpy_deserialize_ok (pod_ok := pod_u64_ok) ltac:(done) m _ (Z.of_nat (length (page_table self))));
    [|done|done|exact A1|change (Z.of_nat (@size_of Z pod_u64)) with 8%Z; cbn [bm_len advance]; lia].
  cbn [mbind outcome_bind]. change (Z.of_nat (@size_of Z pod_u64)) with 8%Z.
  rewrite truncate_header_advance by (cbn [bm_len advance]; lia).
  rewrite En. cbn [mbind outcome_bind]. rewrite Nat2Z.id, <- Hl, E2. cbn [mbind outcome_bind].
  rewrite (deserialize_ok m (machine_info self)); [done|done|done|exact A3|].
  cbn [bm_len advance]. rewrite <- (need_exact (machine_info self)) by done. lia.
Qed.

Lemma lookup_pg_table_ok h child mp virt :
  pt_inv h → rpt_ok h (c_page_table child) mp → (0 ≤ virt < 2 ^ 47)%Z →
  lookup_pg_table h child virt = Ret (mp !! vpn virt).
Proof.
  intros Hinv Hok Hv. unfold lookup_pg_table. rewrite virt_new_low by done. cbn.
  rewrite (RemotePageTable_translate_ok h _ mp virt) by (done || apply Hok || (unfold is_u64; lia)).
  cbn. by destruct (mp !! vpn virt).
Qed.

(** [to_descriptor] builds the same table without going through bytes. *)
Lemma map_entries_ok h0 r h pt mp start es :
  building h0 r h pt mp → entries_mappable start es → size h + 3 * length es ≤ vm_capacity →
  ∃ pt' h', map_entries h pt start es = Ret (pt', h') ∧
    building h0 r h' pt' (add_entries start es mp) ∧ size h' ≤ 3 * length es + size h.
Proof.
  revert h pt mp. induction es as [|[o e] es IH]; intros h pt mp Hb Hm Hs.
  - exists pt, h. split_and!; [done..|lia].
  - apply Forall_cons in Hm as [[Ha He] Hm]. cbn [fst snd length] in *.
    destruct (map_page_ok h0 r h pt mp o start e Hb Ha He) as (Eadd & Ev & res & pt1 & h1 & Emap & Hb1 & Hs1); [lia|].
    destruct (IH h1 pt1 _ Hb1 Hm) as (pt' & h' & E & Hb' & Hs'); [lia|].
    exists pt', h'. split_and!; [|exact Hb'|lia]. cbn [map_entries].
    rewrite Eadd. cbn [mbind outcome_bind]. rewrite Ev. cbn [mbind outcome_bind]. by rewrite Emap.
Qed.

Lemma map_vmas_ok h0 r h pt mp vmas i vs pts :
  building h0 r h pt mp → drop i vmas = vs →
  Forall2 (λ v pt, entries_mappable (get_start v) (inner_pg_table pt)) vs pts →
  size h + 3 * page_count pts ≤ vm_capacity →
  ∃ pt' h', map_vmas h pt vmas i pts = Ret (pt', h') ∧ building h0 r h' pt' (add_vmas vs pts mp).
Proof.
  intros Hb Hdrop Hm. revert h pt mp i Hb Hdrop.
  induction Hm as [|v t vs pts Hmp Hm IH]; intros h pt mp i Hb Hdrop Hs; [by exists pt, h|].
  unfold page_count in *. cbn [sum_list_with] in Hs.
  assert (Hi : vmas !! i = Some v).
  { pose proof (lookup_drop vmas i 0) as E. rewrite Hdrop in E. cbn in E. by rewrite Nat.add_0_r in E. }
  destruct (map_entries_ok h0 r h pt mp (get_start v) (inner_pg_table t) Hb Hmp) as (pt1 & h1 & E1 & Hb1 & Hs1); [lia|].
  destruct (IH h1 pt1 _ (S i) Hb1) as (pt' & h' & E' & Hb'); [by rewrite <- Nat.add_1_r, <- drop_drop, Hdrop|lia|].
  exists pt', h'. split; [|exact Hb']. cbn [map_vmas]. rewrite Hi. cbn [unwrap mbind outcome_bind].
  by rewrite E1.
Qed.
End ChildLemmas.

Section ChildProperties.
Context {vm : Vmalloc} {vm_ok : VmallocOk} {x86 : X86Crate} {x86_ok : X86CrateOk}.
Context {dl : DescriptorLayout} {dl_ok : DescriptorLayoutOk}.

(** C15: What a parent publishes is what the child gets: after the parent has
    serialized its descriptor, the child that reads the buffer has the parent's
    registers, VMAs and access information, and finds at every user address
    exactly the page the parent recorded there, or none; its page table counts
    the recorded pages and the other tables of the machine are untouched. *)
Theorem child_sees_parent_pages m self b n h :
  ParentDescriptor_valid self → parent_mappable self → buf_ok m b →
  parent_buf_len self = Ret n → (n ≤ bm_len b)%Z → pt_inv h →
  size h + 1 + 3 * page_count (page_table self) ≤ vm_capacity →
  ∃ m' child h', parent_serialize m self b = Ret (true, m') ∧
    child_deserialize m' h b = Ret (Some child, h', []) ∧
    c_regs child = regs self ∧ c_vma child = vma self ∧ c_machine_info child = machine_info self ∧
    (∀ virt, (0 ≤ virt < 2 ^ 47)%Z →
      lookup_pg_table h' child virt = Ret (parent_pages self !! vpn virt)) ∧
    RemotePageTable_len (c_page_table child) = Z.of_nat (size (parent_pages self)) ∧
    pt_inv h' ∧ others_kept h h' (l4_page_table (c_page_table child)).
Proof.
  intros Hv Hm Hb Hn Hle Hinv Hcap.
  assert (Hvs : ∀ v : VMADescriptor, valid v → need v = Z.of_nat (@size_of _ dl_vma)) by done.
  pose proof (ParentDescriptor_buf_len_ok Hvs self Hv) as Hneed.
  assert (n = Z.of_nat (length (ParentDescriptor_encode self)) + 8)%Z as ->
    by (unfold parent_buf_len in Hn; congruence).
  destruct (ParentDescriptor_serialize_ok Hvs m self b Hv Hb Hle) as (m' & E & Hat & _).
  destruct (child_deserialize_ok m' h b self Hv Hm Hinv Hcap) as
    (child & h' & E' & ? & ? & ? & Hinv' & Hok & Hoth); [apply Hb|done|lia|].
  exists m', child, h'. split_and!; try done.
  - intros virt Hvirt. by apply lookup_pg_table_ok.
  - apply (ok_cnt _ _ _ Hok).
Qed.

(** [to_descriptor] and the path through bytes give a child the same view. *)
Theorem to_descriptor_agrees h self :
  length (vma self) = length (page_table self) → parent_mappable self → pt_inv h →
  size h + 1 + 3 * page_count (page_table self) ≤ vm_capacity →
  ∃ child h', to_descriptor h self = Ret (child, h') ∧
    c_regs child = regs self ∧ c_vma child = vma self ∧ c_machine_info child = machine_info self ∧
    ∀ virt, (0 ≤ virt < 2 ^ 47)%Z →
      lookup_pg_table h' child virt = Ret (parent_pages self !! vpn virt).
Proof.
  intros Hl Hm Hinv Hcap.
  destruct (RemotePageTable_new_ok h Hinv) as (pt0 & h0 & En & Hinv0 & Hok0 & Hs0 & _ & Hoth0); [lia|].
  destruct (map_vmas_ok h (l4_page_table pt0) h0 pt0 ∅ (vma self) 0 (vma self) (page_table self))
    as (pt1 & h1 & E1 & [Hinv1 Hok1 _ _]); [by split|done|done|lia|].
  rewrite add_vmas_parent_pages in Hok1.
  exists (mkChildDescriptor (regs self) pt1 (vma self) (machine_info self)), h1.
  unfold to_descriptor. rewrite En. cbn [mbind outcome_bind]. rewrite E1. cbn [mbind outcome_bind].
  split_and!; try done. intros virt Hvirt. by apply lookup_pg_table_ok.
Qed.
End ChildProperties.

Lemma example_parent_mappable : parent_mappable example_parent.
Proof.
  unfold parent_mappable, entries_mappable. cbn.
  repeat first [apply List.Forall2_nil | apply List.Forall2_cons | apply List.Forall_nil | apply List.Forall_cons];
    cbn; unfold is_u64; lia.
Qed.

Lemma child_sees_parent_pages_witness :
  ∃ m' child h', parent_serialize (dl := word_layout) (zeroed 512) example_parent (mkBytesMut 0 512) = Ret (true, m') ∧
    child_deserialize (vm := area32) (x86 := x86_reference) (dl := word_layout) m' ∅ (mkBytesMut 0 512)
      = Ret (Some child, h', []) ∧
    lookup_pg_table (x86 := x86_reference) h' child 4206592 = Ret (Some 16388%Z) ∧
    lookup_pg_table (x86 := x86_reference) h' child 4202496 = Ret None.
Proof.
  assert (Hn : parent_buf_len (dl := word_layout) example_parent = Ret 424%Z) by (by vm_compute).
  destruct (child_sees_parent_pages (vm := area32) (vm_ok := area32_ok) (x86 := x86_reference)
    (dl := word_layout) (dl_ok := word_layout_ok) (zeroed 512) example_parent (mkBytesMut 0 512) 424 ∅
    example_parent_valid example_parent_mappable) as (m' & child & h' & E1 & E2 & _ & _ & _ & Hl & _).
  - split_and!; [apply (zeroed_alloc 512)|by exists 0%Z|done].
  - exact Hn.
  - by compute.
  - apply pt_inv_empty.
  - vm_compute. lia.
  - exists m', child, h'. split; [exact E1|]. split; [exact E2|]. split; rewrite Hl by lia; by vm_compute.
Defined.

Lemma to_descriptor_agrees_witness :
  ∃ child h', to_descriptor (vm := area32) (x86 := x86_reference) ∅ example_parent = Ret (child, h') ∧
    lookup_pg_table (x86 := x86_reference) h' child 8388608 = Ret (Some 20484%Z).
Proof.
  destruct (to_descriptor_agrees (vm := area32) (vm_ok := area32_ok) (x86 := x86_reference) ∅ example_parent
    eq_refl example_parent_mappable pt_inv_empty) as (child & h' & E & _ & _ & _ & Hl).
  - vm_compute. lia.
  - exists child, h'. split; [exact E|]. rewrite Hl by lia. by vm_compute.
Defined.
