(* ===== verification/Future.v ===== *)
(** * Futures, timeouts and blocking ([os-network/src/future.rs], [timeout.rs], [lib.rs])

    The trait [Future] is a class of state machines polled in a machine state
    [W].  The kernel timer is outside the crate: it is the class [KTimerApi],
    and [KTimerOk] says that it counts ticks of a clock that moves on at every
    reading.  The main result is that [block_on] of a [Timeout] ends, within a
    number of polls given by the deadline, and how it ends. *)

From S2P Require Import Prelude.

(** ** [future.rs] *)
Inductive Async (T : Type) : Type :=
| Ready (v : T)
| NotReady.
Arguments Ready {T} v.
Arguments NotReady {T}.

#[export] Instance Async_eq_dec {T} `{EqDecision T} : EqDecision (Async T).
Proof. solve_decision. Defined.

Definition Async_from {T} (t : T) : Async T := Ready t.

Definition Poll (T E : Type) : Type := Result (Async T) E.

Class Future (W F O E : Type) := poll : F → io W (Poll O E * F).

(** ** [lib.rs]: blocking on a future

    [fuel] bounds the polls; running out of it is [NoFuel]. *)
Section Block.
Context {W F O E : Type} {fut : Future W F O E}.

Fixpoint block_on (fuel : nat) (f : F) : io W (Result O E * F) :=
  match fuel with
  | 0 => λ _, NoFuel
  | S fuel =>
      '(r, f) ← poll f;
      match r with
      | Ok (Ready v) => mret (Ok v, f)
      | Ok NotReady => block_on fuel f
      | Err e => mret (Err e, f)
      end
  end.

Context (yield_now : io W ()).

Fixpoint block_on_w_yield (fuel : nat) (f : F) : io W (Result O E * F) :=
  match fuel with
  | 0 => λ _, NoFuel
  | S fuel =>
      '(r, f) ← poll f;
      match r with
      | Ok (Ready v) => mret (Ok v, f)
      | Ok NotReady => yield_now ≫= λ _, block_on_w_yield fuel f
      | Err e => mret (Err e, f)
      end
  end.
End Block.

(** ** [timeout.rs] *)
Inductive Kind (T : Type) : Type :=
| Inner (err : T)
| Elapsed.
Arguments Inner {T} err.
Arguments Elapsed {T}.

Definition is_inner {T} (self : Kind T) : bool :=
  match self with Inner _ => true | _ => false end.
Definition into_inner {T} (self : Kind T) : option T :=
  match self with Inner err => Some err | _ => None end.
Definition is_elapsed {T} (self : Kind T) : bool :=
  match self with Elapsed => true | _ => false end.

(** [rust_kernel_linux_util::timer::KTimer] *)
Class KTimerApi (W : Type) := {
  KTimer : Type;
  KTimer_new : io W KTimer;
  KTimer_reset : KTimer → io W KTimer;
  get_passed_usec : KTimer → io W Z }.

Section Timeout.
Context {W : Type} {kt : KTimerApi W}.

Record Delay := mkDelay { timer : KTimer; wait_usec : Z }.

Definition Delay_new (wait_usec : Z) : io W Delay :=
  t ← KTimer_new; mret (mkDelay t wait_usec).

Definition Delay_reset (self : Delay) : io W Delay :=
  t ← KTimer_reset (timer self); mret (mkDelay t (wait_usec self)).

Definition Delay_reset_timer (self : Delay) (wait_usec : Z) : io W Delay :=
  Delay_reset (mkDelay (timer self) wait_usec).

Definition get_cur_delay_usec (self : Delay) : io W Z := get_passed_usec (timer self).

#[export] Instance Delay_Future : Future W Delay Z () := λ self,
  passed ← get_cur_delay_usec self;
  if (wait_usec self <=? passed)%Z then mret (Ok (Ready passed), self) else mret (Ok NotReady, self).

Context {T O E : Type} {fut : Future W T O E}.

(** [Timeout] owns its future, [TimeoutWRef] borrows it: [tr_value] is the
    borrowed value, read back by the caller when the borrow ends. *)
Record Timeout := mkTimeout { value : T; delay : Delay }.
Record TimeoutWRef := mkTimeoutWRef { tr_value : T; tr_delay : Delay }.

Definition Timeout_new (value : T) (timeout_usec : Z) : io W Timeout :=
  d ← Delay_new timeout_usec; mret (mkTimeout value d).

Definition TimeoutWRef_new (value : T) (timeout_usec : Z) : io W TimeoutWRef :=
  d ← Delay_new timeout_usec; mret (mkTimeoutWRef value d).

Definition Timeout_reset_timer (self : Timeout) (timeout_usec : Z) : io W Timeout :=
  d ← Delay_reset_timer (delay self) timeout_usec; mret (mkTimeout (value self) d).

Definition Timeout_get_cur_delay_usec (self : Timeout) : io W Z := get_cur_delay_usec (delay self).

#[export] Instance Timeout_Future : Future W Timeout O (Kind E) := λ self,
  '(r, value) ← poll (value self);
  match r with
  | Ok (Ready v) => mret (Ok (Ready v), mkTimeout value (delay self))
  | Err e => mret (Err (Inner e), mkTimeout value (delay self))
  | Ok NotReady =>
      '(r, delay) ← poll (delay self);
      match r with
      | Ok NotReady => mret (Ok NotReady, mkTimeout value delay)
      | Ok (Ready _passed) => mret (Err Elapsed, mkTimeout value delay)
      | Err _ => panic
      end
  end.

#[export] Instance TimeoutWRef_Future : Future W TimeoutWRef O (Kind E) := λ self,
  '(r, value) ← poll (tr_value self);
  match r with
  | Ok (Ready v) => mret (Ok (Ready v), mkTimeoutWRef value (tr_delay self))
  | Err e => mret (Err (Inner e), mkTimeoutWRef value (tr_delay self))
  | Ok NotReady =>
      '(r, delay) ← poll (tr_delay self);
      match r with
      | Ok NotReady => mret (Ok NotReady, mkTimeoutWRef value delay)
      | Ok (Ready _passed) => mret (Err Elapsed, mkTimeoutWRef value delay)
      | Err _ => panic
      end
  end.
End Timeout.
Arguments Delay W {kt}.
Arguments Timeout W {kt} T.
Arguments TimeoutWRef W {kt} T.

(** ** The clock

    [ticks] is the machine's clock; every reading of a timer takes time, and
    gives the whole microseconds since the timer was started. *)
Class KTimerOk (W : Type) `{KTimerApi W} := {
  ticks : W → Z;
  ticks_per_usec : Z;
  started : KTimer → Z;
  ticks_per_usec_pos : (0 < ticks_per_usec)%Z;
  KTimer_new_ok w : ∃ t w', KTimer_new w = Ret (t, w') ∧ (ticks w ≤ started t ≤ ticks w')%Z;
  KTimer_reset_ok t w : ∃ t' w', KTimer_reset t w = Ret (t', w') ∧ (ticks w ≤ started t' ≤ ticks w')%Z;
  get_passed_usec_ok t w : ∃ w',
    get_passed_usec t w = Ret (((ticks w' - started t) / ticks_per_usec)%Z, w') ∧ (ticks w < ticks w')%Z }.

(** A future that can be polled: from a state that satisfies [inv], polling
    returns, does not turn the clock back, and keeps [inv] while not ready. *)
Class Pollable {W F O E} `{Future W F O E} `{KTimerOk W} (inv : F → W → Prop) : Prop := {
  poll_returns f w : inv f w → ∃ r f' w', poll f w = Ret ((r, f'), w') ∧ (ticks w ≤ ticks w')%Z ∧
    (r = Ok NotReady → inv f' w');
  inv_clock f t w p w' : inv f w → get_passed_usec t w = Ret (p, w') → inv f w';
  inv_start f w t w' : inv f w → KTimer_new w = Ret (t, w') → inv f w' }.

Section TimeoutSpec.
Context {W : Type} {kt : KTimerApi W} {kt_ok : KTimerOk W}.
Context {T O E : Type} {fut : Future W T O E}.

(** The rounds of a timed wait in which neither the future nor the deadline
    was reached. *)
Inductive waits (d : Delay W) : T → W → T → W → Prop :=
| waits_done f w : waits d f w f w
| waits_again f w f1 w1 p w2 f' w' :
    poll f w = Ret ((Ok NotReady, f1), w1) → get_passed_usec (timer d) w1 = Ret (p, w2) →
    (p < wait_usec d)%Z → waits d f1 w2 f' w' → waits d f w f' w'.

(** How a timed wait on [v] ends: with the future's own result at the first
    poll that gives one, or, after a poll that gave none, with the deadline. *)
Definition timed_result (d : Delay W) (v : T) (w : W) (r : Result O (Kind E)) (v' : T) (w' : W) : Prop :=
  ∃ f1 w1 w2, waits d v w f1 w1 ∧
    match r with
    | Ok o => poll f1 w1 = Ret ((Ok (Ready o), v'), w')
    | Err (Inner e) => poll f1 w1 = Ret ((Err e, v'), w')
    | Err Elapsed => poll f1 w1 = Ret ((Ok NotReady, v'), w2) ∧
        ∃ p, get_passed_usec (timer d) w2 = Ret (p, w') ∧ (wait_usec d ≤ p)%Z
    end.

(** Ticks left until the deadline of [d]. *)
Definition ticks_left (d : Delay W) (w : W) : Z :=
  (started (timer d) + ticks_per_usec * wait_usec d - ticks w)%Z.

Lemma passed_late d w p w' :
  get_passed_usec (timer d) w = Ret (p, w') → (p < wait_usec d)%Z → (0 < ticks_left d w' < ticks_left d w)%Z.
Proof.
  intros E' Hp. destruct (get_passed_usec_ok (timer d) w) as (w1 & E1 & Hlt).
  rewrite E1 in E'. simplify_eq. pose proof ticks_per_usec_pos.
  unfold ticks_left. split; [|lia].
  pose proof (Z.mul_succ_div_gt (ticks w' - started (timer d)) ticks_per_usec). nia.
Qed.

Lemma Delay_poll_ok (d : Delay W) w p w' :
  get_passed_usec (timer d) w = Ret (p, w') →
  poll d w = Ret ((if (wait_usec d <=? p)%Z then Ok (Ready p) else Ok NotReady, d), w').
Proof.
  intros E'. unfold poll, Delay_Future, get_cur_delay_usec. rewrite (io_bind_run _ _ _ _ _ E').
  by destruct (wait_usec d <=? p)%Z.
Qed.

Context {inv : T → W → Prop} {ok : Pollable inv}.

Lemma block_on_timeout_ok fuel d v w :
  inv v w → (ticks_left d w < Z.of_nat fuel)%Z → (0 < fuel) →
  ∃ r v' d' w', block_on fuel (mkTimeout v d) w = Ret ((r, mkTimeout v' d'), w') ∧
    timed_result d v w r v' w'.
Proof.
  revert v w. induction fuel as [|fuel IH]; intros v w Hinv Hfuel Hpos; [lia|].
  cbn [block_on]. destruct (poll_returns v w Hinv) as (r & v1 & w1 & E1 & Ht1 & Hinv1).
  unfold poll at 1, Timeout_Future. cbn [value delay].
  unfold mbind at 1, io_bind at 1. rewrite (io_bind_run _ _ _ _ _ E1).
  destruct r as [[o|]|e].
  - exists (Ok o), v1, d, w1. split; [done|]. exists v, w, w. by split; [constructor|].
  - destruct (get_passed_usec_ok (timer d) w1) as (w2 & E2 & Ht2).
    rewrite (io_bind_run _ _ _ _ _ (Delay_poll_ok _ _ _ _ E2)).
    set (p := ((ticks w2 - started (timer d)) / ticks_per_usec)%Z) in *.
    destruct (Z.leb_spec (wait_usec d) p) as [Hle|Hlt].
    + exists (Err Elapsed), v1, d, w2. split; [done|]. exists v, w, w1. split; [constructor|]. eauto.
    + pose proof (passed_late d w1 p w2 E2 Hlt). unfold ticks_left in *.
      destruct (IH v1 w2) as (r & v' & d' & w' & E' & f1 & w3 & w4 & Hw & Hr);
        [eapply inv_clock; [by apply Hinv1|done]|lia|lia|].
      exists r, v', d', w'. split; [exact E'|]. exists f1, w3, w4. split; [|done].
      by eapply waits_again.
  - exists (Err (Inner e)), v1, d, w1. split; [done|]. exists v, w, w. by split; [constructor|].
Qed.

(** Waiting on a borrowed future is waiting on the future. *)
Lemma block_on_timeout_ref fuel v d w :
  block_on fuel (mkTimeoutWRef v d) w =
  match block_on fuel (mkTimeout v d) w with
  | Ret ((r, t), w') => Ret ((r, mkTimeoutWRef (value t) (delay t)), w')
  | Panic => Panic
  | UB => UB
  | NoFuel => NoFuel
  end.
Proof.
  revert v d w. induction fuel as [|fuel IH]; intros v d w; [done|]. cbn [block_on].
  unfold poll at 1 2, TimeoutWRef_Future, Timeout_Future. cbn [tr_value tr_delay value delay].
  unfold mbind, io_bind. destruct (poll v w) as [[[[[o|]|e] v'] w']| | |]; try done.
  destruct (poll d w') as [[[[[p|]|[]] d'] w'']| | |]; try done. apply IH.
Qed.

(** C7: A timed wait ends: polling once more than the ticks in the timeout is
    enough, whatever the future does, and the result is the future's first own
    result or, if the time passed before there was one, [Elapsed]. *)
Theorem timeout_wait_ends fuel v t w :
  inv v w → (Z.max 0 (ticks_per_usec * t) < Z.of_nat fuel)%Z →
  ∃ d w0 r v' d' w', Delay_new t w = Ret (d, w0) ∧ wait_usec d = t ∧
    (Timeout_new v t ≫= block_on fuel) w = Ret ((r, mkTimeout v' d'), w') ∧
    timed_result d v w0 r v' w'.
Proof.
  intros Hinv Hfuel. destruct (KTimer_new_ok w) as (tm & w0 & E0 & Ht0).
  assert (Ed : Delay_new t w = Ret (mkDelay tm t, w0)) by (unfold Delay_new; by rewrite (io_bind_run _ _ _ _ _ E0)).
  destruct (block_on_timeout_ok fuel (mkDelay tm t) v w0) as (r & v' & d' & w' & E' & Hr);
    [by eapply inv_start|unfold ticks_left; cbn; lia|lia|].
  exists (mkDelay tm t), w0, r, v', d', w'. split_and!; [done..| |done].
  unfold Timeout_new. rewrite (io_bind_run _ _ w (mkTimeout v (mkDelay tm t)) w0); [done|].
  by rewrite (io_bind_run _ _ _ _ _ Ed).
Qed.
End TimeoutSpec.

(** A clock that counts nanoseconds, advancing by 300 at every reading. *)
Definition ns_clock : KTimerApi Z := {|
  KTimer := Z;
  KTimer_new := λ w, Ret (w, w);
  KTimer_reset := λ _ w, Ret (w, w);
  get_passed_usec := λ t w, Ret (((w + 300 - t) / 1000)%Z, (w + 300)%Z) |}.

#[export] Instance ns_clock_ok : @KTimerOk Z ns_clock.
Proof.
  refine {| ticks := λ w : Z, w; ticks_per_usec := 1000; started := λ t : @KTimer Z ns_clock, t |}; cbn; [lia|..].
  - intros w. exists w, w. split; [done|lia].
  - intros _ w. exists w, w. split; [done|lia].
  - intros t w. exists (w + 300)%Z. split; [done|lia].
Defined.

(** A request whose completion arrives at a given time. *)
Definition completion : Future Z Z Z () := λ at_ns w,
  if (at_ns <=? w)%Z then Ret ((Ok (Ready w), at_ns), w) else Ret ((Ok NotReady, at_ns), w).

#[export] Instance completion_Pollable :
  @Pollable Z Z Z () completion ns_clock ns_clock_ok (λ _ _, True).
Proof.
  split; [|done..]. intros f w _. unfold poll, completion.
  destruct (Z.leb_spec f w).
  - exists (Ok (Ready w)), f, w. split_and!; [done|cbn; lia|done].
  - exists (Ok NotReady), f, w. split_and!; [done|cbn; lia|done].
Qed.

Lemma timeout_wait_ends_witness :
  ∃ d w0 r v' d' w', Delay_new (kt := ns_clock) 2 7%Z = Ret (d, w0) ∧ wait_usec d = 2%Z ∧
    (Timeout_new (kt := ns_clock) 1500%Z 2 ≫= block_on (fut := Timeout_Future (fut := completion)) 2001) 7%Z
      = Ret ((r, mkTimeout v' d'), w') ∧
    timed_result (fut := completion) d 1500%Z w0 r v' w'.
Proof.
  apply (timeout_wait_ends (kt_ok := ns_clock_ok) (ok := completion_Pollable) 2001 1500%Z 2 7%Z); [done|].
  cbn. lia.
Defined.
