(* ===== verification/Rdma.v ===== *)
(** * RDMA connections ([os-network/src/rdma*], [remote_memory*])

    The verbs library KRdmaKit and the card behind it are outside the crate: the
    class [KRdmaKit] lists the calls the crate makes, [NicOk] what it relies on
    of the datapath.  On top are the request payloads, the dynamically connected
    (DC) and reliably connected (RC) queue pairs as connections and futures, and
    the remote-memory devices that read and write through them. *)

From S2P Require Import Prelude Future.

(** ** [rdma.rs]: statuses and errors *)
Inductive WCStatus :=
| IB_WC_SUCCESS | IB_WC_LOC_LEN_ERR | IB_WC_LOC_QP_OP_ERR | IB_WC_LOC_EEC_OP_ERR
| IB_WC_LOC_PROT_ERR | IB_WC_WR_FLUSH_ERR | IB_WC_MW_BIND_ERR | IB_WC_BAD_RESP_ERR
| IB_WC_LOC_ACCESS_ERR | IB_WC_REM_INV_REQ_ERR | IB_WC_REM_ACCESS_ERR | IB_WC_REM_OP_ERR
| IB_WC_RETRY_EXC_ERR | IB_WC_RNR_RETRY_EXC_ERR | IB_WC_LOC_RDD_VIOL_ERR
| IB_WC_REM_INV_RD_REQ_ERR | IB_WC_REM_ABORT_ERR | IB_WC_INV_EECN_ERR
| IB_WC_INV_EEC_STATE_ERR | IB_WC_FATAL_ERR | IB_WC_RESP_TIMEOUT_ERR | IB_WC_GENERAL_ERR.

#[export] Instance WCStatus_eq_dec : EqDecision WCStatus.
Proof. solve_decision. Defined.

Definition WCStatus_all : list WCStatus :=
  [ IB_WC_SUCCESS; IB_WC_LOC_LEN_ERR; IB_WC_LOC_QP_OP_ERR; IB_WC_LOC_EEC_OP_ERR;
    IB_WC_LOC_PROT_ERR; IB_WC_WR_FLUSH_ERR; IB_WC_MW_BIND_ERR; IB_WC_BAD_RESP_ERR;
    IB_WC_LOC_ACCESS_ERR; IB_WC_REM_INV_REQ_ERR; IB_WC_REM_ACCESS_ERR; IB_WC_REM_OP_ERR;
    IB_WC_RETRY_EXC_ERR; IB_WC_RNR_RETRY_EXC_ERR; IB_WC_LOC_RDD_VIOL_ERR;
    IB_WC_REM_INV_RD_REQ_ERR; IB_WC_REM_ABORT_ERR; IB_WC_INV_EECN_ERR;
    IB_WC_INV_EEC_STATE_ERR; IB_WC_FATAL_ERR; IB_WC_RESP_TIMEOUT_ERR; IB_WC_GENERAL_ERR ].

(** [transmute] of a [u32] to the enumeration: a number that is no
    discriminant is undefined behaviour. *)
Definition WCStatus_from (err : Z) : outcome WCStatus :=
  match WCStatus_all !! Z.to_nat err with Some s => Ret s | None => UB end.

(** ** [rdma/payload.rs] *)
Inductive RDMAOp := READ | WRITE.

#[export] Instance RDMAOp_eq_dec : EqDecision RDMAOp.
Proof. solve_decision. Defined.

(** ** KRdmaKit *)
Class KRdmaKit (W : Type) := {
  Context_t : Type;
  QueuePair : Type;
  MemoryRegion : Type;
  DatagramEndpoint : Type;
  DatapathError : Type;
  TimeoutError : DatapathError;
  ib_wc : Type;
  wc_status : ib_wc → Z;
  qp_ctx : QueuePair → Context_t;
  (** [MemoryRegion::new_from_raw(ctx, vaddr, size)] and its virtual address *)
  mr_new_from_raw : Context_t → Z → Z → option MemoryRegion;
  get_virt_addr : MemoryRegion → Z;
  (** [MemoryRegion::new(ctx, size)], its size and its address for the card *)
  mr_new : Context_t → Z → io W (option MemoryRegion);
  capacity : MemoryRegion → Z;
  get_rdma_addr : MemoryRegion → Z;
  (** [DatagramEndpoint::new(ctx, port, lid, gid, qpn, qkey, dct_num, dc_key)] *)
  endpoint_new : Context_t → Z → Z → Z * Z → Z → Z → Z → Z → io W (option DatagramEndpoint);
  post_send_dc_read : QueuePair → DatagramEndpoint → MemoryRegion → Z * Z → bool → Z → Z →
    io W (Result () DatapathError);
  post_send_dc_write : QueuePair → DatagramEndpoint → MemoryRegion → Z * Z → bool → Z → Z →
    io W (Result () DatapathError);
  post_send_read : QueuePair → MemoryRegion → Z * Z → bool → Z → Z → Z → io W (Result () DatapathError);
  post_send_write : QueuePair → MemoryRegion → Z * Z → bool → Z → Z → Z → io W (Result () DatapathError);
  post_datagram : QueuePair → DatagramEndpoint → MemoryRegion → Z * Z → Z → bool → io W (Result () DatapathError);
  post_recv : QueuePair → MemoryRegion → Z * Z → Z → io W (Result () DatapathError);
  (** the completions found, at most as many as the buffer has room for *)
  poll_send_cq : QueuePair → nat → io W (Result (list ib_wc) DatapathError);
  poll_recv_cq : QueuePair → nat → io W (Result (list ib_wc) DatapathError);
  (** [bd_phys_to_virt] *)
  bd_phys_to_virt : Z → Z }.

Section Rdma.
Context {W : Type} {kr : KRdmaKit W}.

Inductive RdmaErr :=
| EDatapath (e : DatapathError)
| EWC (s : WCStatus).

Definition is_wc_err (self : RdmaErr) : bool :=
  match self with EWC _ => true | _ => false end.
Definition unwrap_wc_err (self : RdmaErr) : outcome WCStatus :=
  match self with EWC status => Ret status | _ => Panic end.

(** *** [rdma/payload/dc.rs], [rdma/payload/rc.rs] *)
Record DCReqPayload := mkDCReqPayload {
  dc_mr : MemoryRegion;
  dc_range : Z * Z;
  dc_signaled : bool;
  dc_op : RDMAOp;
  dc_rkey : Z;
  dc_raddr : Z;
  dc_endpoint : DatagramEndpoint }.

Record RCReqPayload := mkRCReqPayload {
  rc_mr : MemoryRegion;
  rc_range : Z * Z;
  rc_signaled : bool;
  rc_op : RDMAOp;
  rc_rkey : Z;
  rc_raddr : Z }.

(** *** [rdma/dc.rs], [rdma/rc.rs] *)
Record DCConn := mkDCConn { dc : QueuePair; watermark : Z }.
Record RCConn := mkRCConn { rc : QueuePair }.

Definition DCConn_clone (self : DCConn) : DCConn := mkDCConn (dc self) 0.
Definition RCConn_clone (self : RCConn) : RCConn := mkRCConn (rc self).

Definition DCConn_post (self : DCConn) (req : DCReqPayload) : io W (Result () DatapathError) :=
  match dc_op req with
  | READ => post_send_dc_read (dc self) (dc_endpoint req) (dc_mr req) (dc_range req)
              (dc_signaled req) (dc_raddr req) (dc_rkey req)
  | WRITE => post_send_dc_write (dc self) (dc_endpoint req) (dc_mr req) (dc_range req)
              (dc_signaled req) (dc_raddr req) (dc_rkey req)
  end.

Definition RCConn_post (self : RCConn) (req : RCReqPayload) : io W (Result () DatapathError) :=
  match rc_op req with
  | READ => post_send_read (rc self) (rc_mr req) (rc_range req) (rc_signaled req)
              (rc_raddr req) (rc_rkey req) (get_virt_addr (rc_mr req))
  | WRITE => post_send_write (rc self) (rc_mr req) (rc_range req) (rc_signaled req)
              (rc_raddr req) (rc_rkey req) (get_virt_addr (rc_mr req))
  end.

#[export] Instance DCConn_Future : Future W DCConn ib_wc DatapathError := λ self,
  ret ← poll_send_cq (dc self) 1;
  match ret with
  | Err e => mret (Err e, self)
  | Ok (wc :: _) => mret (Ok (Ready wc), self)
  | Ok [] => mret (Ok NotReady, self)
  end.

#[export] Instance RCConn_Future : Future W RCConn ib_wc DatapathError := λ self,
  ret ← poll_send_cq (rc self) 1;
  match ret with
  | Err e => mret (Err e, self)
  | Ok (wc :: _) => mret (Ok (Ready wc), self)
  | Ok [] => mret (Ok NotReady, self)
  end.

(** *** [remote_memory/rdma.rs], [remote_memory/rdma/dc.rs], [rc.rs] *)
Record MemoryKeys := mkMemoryKeys { rkey : Z }.
Record DCRemoteDevice := mkDCRemoteDevice { dev_dc : DCConn }.
Record RCRemoteDevice := mkRCRemoteDevice { dev_rc : RCConn }.

Definition DCRemoteDevice_read (self : DCRemoteDevice) (loc : DatagramEndpoint) (addr : Z)
    (key : MemoryKeys) (to size : Z) : io W (Result () DatapathError) :=
  let qp := dc (dev_dc self) in
  let vaddr := bd_phys_to_virt to in
  mr ← lift (unwrap (mr_new_from_raw (qp_ctx qp) vaddr size));
  post_send_dc_read qp loc mr (0, size)%Z true addr (rkey key).

Definition DCRemoteDevice_write (self : DCRemoteDevice) (loc : DatagramEndpoint) (addr : Z)
    (key : MemoryKeys) (to size : Z) : io W (Result () DatapathError) :=
  let qp := dc (dev_dc self) in
  let vaddr := bd_phys_to_virt to in
  mr ← lift (unwrap (mr_new_from_raw (qp_ctx qp) vaddr size));
  post_send_dc_write qp loc mr (0, size)%Z true addr (rkey key).

Definition RCRemoteDevice_read (self : RCRemoteDevice) (addr : Z) (key : MemoryKeys) (to size : Z) :
    io W (Result () DatapathError) :=
  let vaddr := bd_phys_to_virt to in
  mr ← lift (unwrap (mr_new_from_raw (qp_ctx (rc (dev_rc self))) vaddr size));
  RCConn_post (dev_rc self) (mkRCReqPayload mr (0, size)%Z true READ (rkey key) addr).

Definition RCRemoteDevice_write (self : RCRemoteDevice) (addr : Z) (key : MemoryKeys) (to size : Z) :
    io W (Result () DatapathError) :=
  let vaddr := bd_phys_to_virt to in
  mr ← lift (unwrap (mr_new_from_raw (qp_ctx (rc (dev_rc self))) vaddr size));
  RCConn_post (dev_rc self) (mkRCReqPayload mr (0, size)%Z true WRITE (rkey key) addr).

#[export] Instance DCRemoteDevice_Future : Future W DCRemoteDevice ib_wc RdmaErr := λ self,
  '(res, conn) ← poll (dev_dc self);
  match res with
  | Ok (Ready res) =>
      if (wc_status res =? 0)%Z then mret (Ok (Ready res), mkDCRemoteDevice conn)
      else s ← lift (WCStatus_from (wc_status res)); mret (Err (EWC s), mkDCRemoteDevice conn)
  | Ok NotReady => mret (Ok NotReady, mkDCRemoteDevice conn)
  | Err e => mret (Err (EDatapath e), mkDCRemoteDevice conn)
  end.

#[export] Instance RCRemoteDevice_Future : Future W RCRemoteDevice ib_wc RdmaErr := λ self,
  '(res, conn) ← poll (dev_rc self);
  match res with
  | Ok (Ready res) =>
      if (wc_status res =? 0)%Z then mret (Ok (Ready res), mkRCRemoteDevice conn)
      else s ← lift (WCStatus_from (wc_status res)); mret (Err (EWC s), mkRCRemoteDevice conn)
  | Ok NotReady => mret (Ok NotReady, mkRCRemoteDevice conn)
  | Err e => mret (Err (EDatapath e), mkRCRemoteDevice conn)
  end.
End Rdma.

(** ** What the code relies on of the card

    A queue pair executes its requests in the order they were posted; polling
    the completion queue retires the requests up to the first signaled one, and
    a successful completion means that their data has landed. *)
Record Wr {W} {kr : KRdmaKit W} := mkWr {
  wr_op : RDMAOp;
  wr_peer : option DatagramEndpoint;
  wr_mr : MemoryRegion;
  wr_range : Z * Z;
  wr_signaled : bool;
  wr_raddr : Z;
  wr_rkey : Z }.
Arguments Wr W {kr}.

Class NicOk (W : Type) {kt : KTimerApi W} {kt_ok : KTimerOk W} {kr : KRdmaKit W} := {
  outstanding : QueuePair → W → list (Wr W);
  landed : Wr W → W → Prop;
  nic_timer_new w t w' qp : KTimer_new w = Ret (t, w') → outstanding qp w' = outstanding qp w;
  nic_timer_read tm w p w' qp : get_passed_usec tm w = Ret (p, w') → outstanding qp w' = outstanding qp w;
  mr_new_from_raw_ok ctx va sz : ∃ mr, mr_new_from_raw ctx va sz = Some mr ∧ get_virt_addr mr = va;
  post_dc_read_ok qp ep mr range sig raddr key w : ∃ r w',
    post_send_dc_read qp ep mr range sig raddr key w = Ret (r, w') ∧ (ticks w ≤ ticks w')%Z ∧
    outstanding qp w' = outstanding qp w ++
      match r with Ok _ => [mkWr _ _ READ (Some ep) mr range sig raddr key] | Err _ => [] end ∧
    (∀ qp', qp' = qp ∨ outstanding qp' w' = outstanding qp' w);
  post_read_ok qp mr range sig raddr key wr_id w : ∃ r w',
    post_send_read qp mr range sig raddr key wr_id w = Ret (r, w') ∧ (ticks w ≤ ticks w')%Z ∧
    outstanding qp w' = outstanding qp w ++
      match r with Ok _ => [mkWr _ _ READ None mr range sig raddr key] | Err _ => [] end;
  poll_send_cq_frame qp n w r w' qp' : poll_send_cq qp n w = Ret (r, w') →
    qp' = qp ∨ outstanding qp' w' = outstanding qp' w;
  poll_send_cq_ok qp w : ∃ r w', poll_send_cq qp 1 w = Ret (r, w') ∧ (ticks w ≤ ticks w')%Z ∧
    match r with
    | Err _ | Ok [] => outstanding qp w' = outstanding qp w
    | Ok [wc] => (0 ≤ wc_status wc < 22)%Z ∧
        ∃ us wr rest, outstanding qp w = us ++ wr :: rest ∧ Forall (λ u, wr_signaled u = false) us ∧
          wr_signaled wr = true ∧ outstanding qp w' = rest ∧
          (wc_status wc = 0%Z → Forall (λ u, landed u w') (us ++ [wr]))
    | Ok _ => False
    end }.

Section NicLemmas.
Context {W : Type} {kt : KTimerApi W} {kt_ok : KTimerOk W} {kr : KRdmaKit W} {nic : NicOk W}.

(** When every outstanding request is signaled, a completion is that of the
    oldest one. *)
Definition all_signaled (q : list (Wr W)) : Prop := Forall (λ u, wr_signaled u = true) q.

Lemma split_signaled q us wr rest :
  all_signaled q → q = us ++ wr :: rest → Forall (λ u, wr_signaled u = false) us → us = [].
Proof.
  intros Hq -> Hus. destruct us as [|u us]; [done|].
  apply Forall_cons in Hus as [? _]. apply Forall_cons in Hq as [? _]. congruence.
Qed.

(** What one poll of a connection does to a queue of signaled requests. *)
Definition polled (qp : QueuePair) (r : Poll ib_wc DatapathError) (w w' : W) : Prop :=
  match r with
  | Ok (Ready wc) => (0 ≤ wc_status wc < 22)%Z ∧ ∃ wr rest, outstanding qp w = wr :: rest ∧
      outstanding qp w' = rest ∧ (wc_status wc = 0%Z → landed wr w')
  | Ok NotReady | Err _ => outstanding qp w' = outstanding qp w
  end.

Lemma poll_cq_polled {C} (qp : QueuePair) (conn : C) w :
  all_signaled (outstanding qp w) → ∃ r w',
  (ret ← poll_send_cq qp 1;
   match ret with
   | Err e => mret (Err e, conn)
   | Ok (wc :: _) => mret (Ok (Ready wc), conn)
   | Ok [] => mret (Ok NotReady, conn)
   end) w = Ret ((r, conn), w') ∧ (ticks w ≤ ticks w')%Z ∧ polled qp r w w'.
Proof.
  intros Hsig. destruct (poll_send_cq_ok qp w) as (r & w' & E & Ht & Hr).
  rewrite (io_bind_run _ _ _ _ _ E). destruct r as [[|wc [|wc2 l]]|e]; [..|done|].
  - by exists (Ok NotReady), w'.
  - destruct Hr as (Hwc & us & wr & rest & Eq & Hus & _ & Eq' & Hl).
    exists (Ok (Ready wc)), w'. split_and!; [done|done|split; [done|]].
    pose proof (split_signaled _ us wr rest Hsig Eq Hus) as ->. exists wr, rest. split; [exact Eq|]. split; [done|].
    intros H0. apply Hl in H0. by apply Forall_cons in H0 as [? _].
  - by exists (Err e), w'.
Qed.

Lemma DCConn_poll_ok (self : DCConn) w :
  all_signaled (outstanding (dc self) w) → ∃ r w', poll self w = Ret ((r, self), w') ∧
  (ticks w ≤ ticks w')%Z ∧ polled (dc self) r w w'.
Proof. apply poll_cq_polled. Qed.

(** A device reports the completion of the oldest request and turns a bad
    status into an error. *)
Definition dev_polled (qp : QueuePair) (r : Poll ib_wc RdmaErr) (w w' : W) : Prop :=
  match r with
  | Ok (Ready wc) => ∃ wr rest, outstanding qp w = wr :: rest ∧ outstanding qp w' = rest ∧ landed wr w'
  | Err (EWC s) => s ≠ IB_WC_SUCCESS ∧ ∃ wr rest, outstanding qp w = wr :: rest ∧ outstanding qp w' = rest
  | Ok NotReady | Err (EDatapath _) => outstanding qp w' = outstanding qp w
  end.

Lemma WCStatus_from_ok z : (0 < z < 22)%Z → ∃ s, WCStatus_from z = Ret s ∧ s ≠ IB_WC_SUCCESS.
Proof.
  intros Hz. unfold WCStatus_from. set (n := Z.to_nat z). assert (Hn : 0 < n < 22) by lia. clearbody n.
  do 22 (destruct n as [|n]; [first [lia|by eexists]|]). lia.
Qed.

(** Polling a device wraps polling its connection. *)
Lemma device_poll_ok {C D} (mk : C → D) (conn : C) (pollc : io W (Poll ib_wc DatapathError * C)) qp r w w' :
  pollc w = Ret ((r, conn), w') → polled qp r w w' → ∃ r',
  ('(res, conn) ← pollc;
   match res with
   | Ok (Ready res) =>
       if (wc_status res =? 0)%Z then mret (Ok (Ready res), mk conn)
       else s ← lift (WCStatus_from (wc_status res)); mret (Err (EWC s), mk conn)
   | Ok NotReady => mret (Ok NotReady, mk conn)
   | Err e => mret (Err (EDatapath e), mk conn)
   end) w = Ret ((r', mk conn), w') ∧ dev_polled qp r' w w'.
Proof.
  intros E Hr. rewrite (io_bind_run _ _ _ _ _ E).
  destruct r as [[wc|]|e]; [|by exists (Ok NotReady)|by exists (Err (EDatapath e))].
  destruct Hr as (Hwc & wr & rest & Eq & Eq' & Hl).
  destruct (Z.eqb_spec (wc_status wc) 0) as [H0|H0].
  - exists (Ok (Ready wc)). split; [done|]. exists wr, rest. auto.
  - destruct (WCStatus_from_ok (wc_status wc)) as (s & Es & Hs); [lia|].
    exists (Err (EWC s)). split; [|split; [done|by exists wr, rest]].
    unfold mbind, io_bind, lift. by rewrite Es.
Qed.

Lemma DCRemoteDevice_poll_ok (self : DCRemoteDevice) w :
  all_signaled (outstanding (dc (dev_dc self)) w) → ∃ r w', poll self w = Ret ((r, self), w') ∧
  (ticks w ≤ ticks w')%Z ∧ dev_polled (dc (dev_dc self)) r w w'.
Proof.
  intros Hsig. destruct (DCConn_poll_ok (dev_dc self) w Hsig) as (r & w' & E & Ht & Hr).
  destruct (device_poll_ok mkDCRemoteDevice _ _ _ _ _ _ E Hr) as (r' & E' & Hr'). destruct self. by exists r', w'.
Qed.

Lemma RCRemoteDevice_poll_ok (self : RCRemoteDevice) w :
  all_signaled (outstanding (rc (dev_rc self)) w) → ∃ r w', poll self w = Ret ((r, self), w') ∧
  (ticks w ≤ ticks w')%Z ∧ dev_polled (rc (dev_rc self)) r w w'.
Proof.
  intros Hsig. destruct (poll_cq_polled (rc (dev_rc self)) (dev_rc self) w Hsig) as (r & w' & E & Ht & Hr).
  destruct (device_poll_ok mkRCRemoteDevice _ _ _ _ _ _ E Hr) as (r' & E' & Hr'). destruct self. by exists r', w'.
Qed.
End NicLemmas.
