(* ===== verification/Task.v ===== *)
(** * The current task ([kern_wrappers/task.rs], [mm.rs], [vma.rs], [descriptors/child.rs])

    A child becomes its parent by unmapping all it has and mapping the parent's
    VMAs over the device file.  [vm_area_struct]s are reached by raw pointers, so
    reading one that the kernel has freed is undefined behaviour; the kernel's
    own functions are the class [TaskApi]. *)

From S2P Require Import Prelude Descriptors.

(** [struct vm_area_struct], the fields the code reads or writes *)
Module VmArea.
Record t := mk {
  vm_start : Z;
  vm_end : Z;
  vm_next : Z;
  vm_flags : Z;
  vm_page_prot : Z;
  vm_ops : Z;
  vm_file : Z;
}.

Definition set_flags (v : t) (flags : Z) : t :=
  mk (vm_start v) (vm_end v) (vm_next v) flags (vm_page_prot v) (vm_ops v) (vm_file v).

Definition set_next (v : t) (next : Z) : t :=
  mk (vm_start v) (vm_end v) next (vm_flags v) (vm_page_prot v) (vm_ops v) (vm_file v).

#[export] Instance eq_dec : EqDecision t.
Proof. solve_decision. Defined.
End VmArea.

(** What the kernel does for the current task.  [vm_area_read p] is [*p]. *)
Class TaskApi (W : Type) := {
  get_mmap : io W Z;
  vm_area_read : Z → io W VmArea.t;
  vm_area_write : Z → VmArea.t → io W ();
  bd_find_vma : Z → io W Z;
  do_munmap : Z → Z → io W Z;
  vm_mmap : Z → Z → Z → Z → Z → Z → io W Z;
  flush_tlb_all : io W ();
  current_pt_regs : io W StackRegisters;
  set_current_pt_regs : StackRegisters → io W ();
  pmem_arch_get_my_fs : io W Z;
  pmem_arch_get_my_gs : io W Z;
  pmem_arch_set_my_fs : Z → io W Z;
  pmem_arch_set_my_gs : Z → io W Z }.

(** [VMFlags::VM_ALLOC], which is [PMEM_VM_RESERVE] of [kernel_helper.h] *)
Definition VM_ALLOC : Z := 0.

Section Task.
Context {W : Type} {ta : TaskApi W} {vc : VmConsts}.

(** ** [VMA] *)
Definition VMA_get_start (self : Z) : io W Z := v ← vm_area_read self; mret (VmArea.vm_start v).
Definition VMA_get_end (self : Z) : io W Z := v ← vm_area_read self; mret (VmArea.vm_end v).
Definition VMA_get_sz (self : Z) : io W Z :=
  v ← vm_area_read self; lift (u64_sub (VmArea.vm_end v) (VmArea.vm_start v)).
Definition VMA_get_range (self : Z) : io W (Z * Z) :=
  s ← VMA_get_start self; e ← VMA_get_end self; mret (s, e).
Definition VMA_is_anonymous (self : Z) : io W bool :=
  v ← vm_area_read self; mret (VmArea.vm_ops v =? 0)%Z.
Definition VMA_get_raw_flags (self : Z) : io W Z := v ← vm_area_read self; mret (VmArea.vm_flags v).
Definition VMA_get_prot (self : Z) : io W Z := v ← vm_area_read self; mret (VmArea.vm_page_prot v).
Definition VMA_get_file_ptr (self : Z) : io W Z := v ← vm_area_read self; mret (VmArea.vm_file v).
Definition VMA_set_raw_flags (self flags : Z) : io W () :=
  v ← vm_area_read self; vm_area_write self (VmArea.set_flags v flags).

Definition VMA_set_alloc (self : Z) : io W () :=
  vm_flag ← VMA_get_raw_flags self; VMA_set_raw_flags self (Z.lor vm_flag VM_ALLOC).

Definition VMA_clear_alloc (self : Z) : io W () :=
  vm_flag ← VMA_get_raw_flags self; VMA_set_raw_flags self (Z.land vm_flag (u64_not VM_ALLOC)).

Definition VMA_generate_descriptor (self : Z) : io W VMADescriptor :=
  range ← VMA_get_range self;
  flags ← VMA_get_raw_flags self;
  prot ← VMA_get_prot self;
  anonymous ← VMA_is_anonymous self;
  mret (mkVMADescriptor range flags prot anonymous).

(** ** [MemoryDescriptor] and its iterator *)
Definition VMAIter_new : io W Z := get_mmap.

Definition VMAIter_next (cur : Z) : io W (option Z * Z) :=
  if (cur =? 0)%Z then mret (None, cur)
  else v ← vm_area_read cur; mret (Some cur, VmArea.vm_next v).

Definition pmem_do_munmap (start len : Z) : io W Z := do_munmap start len.

Definition unmap_region (addr_s sz : Z) : io W Z := pmem_do_munmap addr_s sz.

Definition mm_find_vma (addr : Z) : io W (option Z) :=
  vma_p ← bd_find_vma addr; mret (if (vma_p =? 0)%Z then None else Some vma_p).

(** ** [Task] *)
Fixpoint unmap_loop (fuel : nat) (cur : Z) : io W () :=
  match fuel with
  | 0 => λ _, NoFuel
  | S fuel =>
      '(m, cur) ← VMAIter_next cur;
      match m with
      | None => mret ()
      | Some m =>
          start ← VMA_get_start m;
          sz ← VMA_get_sz m;
          unmap_region start sz ≫= λ _, unmap_loop fuel cur
      end
  end.

Definition unmap_self (fuel : nat) : io W () := cur ← VMAIter_new; unmap_loop fuel cur.

Definition pmem_vm_mmap (file addr len prot flag offset : Z) : io W Z :=
  vm_mmap file addr len prot flag offset.

Definition MAP_PRIVATE : Z := 2.
Definition EXTENSION : Z := 1024 * 1024 * 1024.

Definition extended_map_area_sz (vma_meta : VMADescriptor) (next_vma : option VMADescriptor) : outcome Z :=
  match next_vma with
  | Some next =>
      _ ← rust_assert (get_end vma_meta <=? get_start next)%Z;
      gap ← u64_sub (get_start next) (get_end vma_meta);
      Ret (Z.min EXTENSION gap)
  | None => Ret 0%Z
  end.

Definition map_one_region (file : Z) (vma_meta : VMADescriptor) (next_vma : option VMADescriptor) :
    io W (option Z) :=
  extended ← lift (extended_map_area_sz vma_meta next_vma);
  ret ← (if is_anonymous vma_meta then
      sz ← lift (get_sz vma_meta);
      len ← lift (u64_add sz extended);
      pmem_vm_mmap file (get_start vma_meta) len (get_mmap_flags vma_meta) MAP_PRIVATE 0
    else
      sz ← lift (get_sz vma_meta);
      pmem_vm_mmap file (get_start vma_meta) sz (get_mmap_flags vma_meta) MAP_PRIVATE 0);
  if negb (ret =? get_start vma_meta)%Z then mret None
  else
    found ← mm_find_vma (get_start vma_meta);
    vma ← lift (unwrap found);
    v ← vm_area_read vma;
    vm_area_write vma (VmArea.set_flags v
      (Z.lor (VmArea.vm_flags v) (if is_stack vma_meta then VM_STACK else VM_DONTEXPAND))) ≫= λ _,
    mret (Some vma).

Definition get_stack_registers : io W StackRegisters := current_pt_regs.
Definition set_stack_registers (regs : StackRegisters) : io W () := set_current_pt_regs regs.

Definition set_mm_reg_states (regs : RegDescriptor) : io W () :=
  flush_tlb_all ≫= λ _,
  set_stack_registers (others regs) ≫= λ _,
  pmem_arch_set_my_fs (fs regs) ≫= λ _,
  pmem_arch_set_my_gs (gs regs) ≫= λ _, mret ().

Definition generate_reg_descriptor : io W RegDescriptor :=
  others ← get_stack_registers;
  fs ← pmem_arch_get_my_fs;
  gs ← pmem_arch_get_my_gs;
  mret (mkRegDescriptor others fs gs).

(** ** [ChildDescriptor::apply_to], step 2: the parent's VMAs

    [self.vma.get(i + 1)] is the VMA after the one being mapped. *)
Fixpoint map_regions (file : Z) (vmas : list VMADescriptor) : io W () :=
  match vmas with
  | [] => mret ()
  | m :: rest =>
      vma ← map_one_region file m (head rest);
      vma ← lift (unwrap vma);
      (if flags_contains (vm_flags m) VM_ALLOC then VMA_set_alloc vma else mret ()) ≫= λ _,
      map_regions file rest
  end.
End Task.

(** ** What the kernel promises *)
Definition head_ptr (l : list (Z * VmArea.t)) : Z := match l with [] => 0%Z | (p, _) :: _ => p end.

(** The areas of a task form a list linked by [vm_next], sorted by address. *)
Fixpoint linked (l : list (Z * VmArea.t)) : Prop :=
  match l with
  | [] => True
  | (p, v) :: l => p ≠ 0%Z ∧ VmArea.vm_next v = head_ptr l ∧ linked l
  end.

Fixpoint ordered (l : list (Z * VmArea.t)) : Prop :=
  match l with
  | [] => True
  | (_, v) :: l => (0 ≤ VmArea.vm_start v < VmArea.vm_end v)%Z ∧ (VmArea.vm_end v < 2 ^ 64)%Z ∧
      Forall (λ x, VmArea.vm_end v ≤ VmArea.vm_start x.2)%Z l ∧ ordered l
  end.

(** An area without its link. *)
Definition bare (x : Z * VmArea.t) : Z * VmArea.t := (x.1, VmArea.set_next x.2 0).

(** [do_munmap] of the range of an area removes that area; [vm_mmap] of a free
    page-aligned range of user addresses, given as a hint, maps it there (the
    file offset is 0, so areas that touch are not merged). *)
Class TaskOk (W : Type) {ta : TaskApi W} := {
  mm_inv : W → Prop;
  areas : W → list (Z * VmArea.t);
  user_regs : W → RegDescriptor;
  min_addr : Z;
  max_addr : Z;
  areas_ok w : mm_inv w → NoDup (areas w).*1 ∧ linked (areas w) ∧ ordered (areas w);
  get_mmap_ok w : mm_inv w → get_mmap w = Ret (head_ptr (areas w), w);
  vm_area_read_ok w p v : mm_inv w → (p, v) ∈ areas w → vm_area_read p w = Ret (v, w);
  vm_area_write_ok w p v flags : mm_inv w → (p, v) ∈ areas w →
    ∃ w', vm_area_write p (VmArea.set_flags v flags) w = Ret ((), w') ∧ mm_inv w' ∧
      areas w' = (λ x, if decide (x.1 = p) then (p, VmArea.set_flags v flags) else x) <$> areas w ∧
      user_regs w' = user_regs w;
  find_vma_ok w p v a : mm_inv w → (p, v) ∈ areas w → (VmArea.vm_start v ≤ a < VmArea.vm_end v)%Z →
    bd_find_vma a w = Ret (p, w);
  do_munmap_ok w p v : mm_inv w → (p, v) ∈ areas w →
    ∃ r w', do_munmap (VmArea.vm_start v) (VmArea.vm_end v - VmArea.vm_start v) w = Ret (r, w') ∧ mm_inv w' ∧
      bare <$> areas w' = bare <$> filter (λ x, x.1 ≠ p) (areas w) ∧ user_regs w' = user_regs w;
  vm_mmap_ok w file addr len prot l1 l2 : mm_inv w → areas w = l1 ++ l2 →
    Forall (λ x, VmArea.vm_end x.2 ≤ addr)%Z l1 → Forall (λ x, addr + len ≤ VmArea.vm_start x.2)%Z l2 →
    (4096 | addr)%Z → (4096 | len)%Z → (0 < len)%Z → (min_addr ≤ addr)%Z → (addr + len ≤ max_addr)%Z →
    ∃ p v w', vm_mmap file addr len prot MAP_PRIVATE 0 w = Ret (addr, w') ∧ mm_inv w' ∧
      bare <$> areas w' = (bare <$> l1) ++ bare (p, v) :: (bare <$> l2) ∧
      VmArea.vm_start v = addr ∧ VmArea.vm_end v = (addr + len)%Z ∧ VmArea.vm_file v = file ∧
      user_regs w' = user_regs w;
  set_regs_ok r w : ∃ w', set_current_pt_regs r w = Ret ((), w') ∧
    user_regs w' = mkRegDescriptor r (fs (user_regs w)) (gs (user_regs w)) ∧ areas w' = areas w ∧
    (mm_inv w → mm_inv w');
  addr_bounds : (0 ≤ min_addr)%Z ∧ (max_addr < 2 ^ 64)%Z;
  set_fs_ok z w : (0 ≤ z < max_addr)%Z → ∃ r w', pmem_arch_set_my_fs z w = Ret (r, w') ∧
    user_regs w' = mkRegDescriptor (others (user_regs w)) z (gs (user_regs w)) ∧ areas w' = areas w ∧
    (mm_inv w → mm_inv w');
  set_gs_ok z w : (0 ≤ z < max_addr)%Z → ∃ r w', pmem_arch_set_my_gs z w = Ret (r, w') ∧
    user_regs w' = mkRegDescriptor (others (user_regs w)) (fs (user_regs w)) z ∧ areas w' = areas w ∧
    (mm_inv w → mm_inv w');
  flush_ok w : ∃ w', flush_tlb_all w = Ret ((), w') ∧ user_regs w' = user_regs w ∧ areas w' = areas w ∧
    (mm_inv w → mm_inv w') }.

Section TaskSpec.
Context {W : Type} {ta : TaskApi W} {ok : TaskOk W} {vc : VmConsts}.

Lemma bare_fst l : (bare <$> l).*1 = l.*1.
Proof. rewrite <- list_fmap_compose. by apply list_fmap_ext. Qed.

Lemma head_ptr_bare l l' : bare <$> l = bare <$> l' → head_ptr l = head_ptr l'.
Proof. destruct l as [|[p v] l], l' as [|[p' v'] l']; by intros [=]. Qed.

Lemma NoDup_fst_inj {A B} (l : list (A * B)) a b b' :
  NoDup l.*1 → (a, b) ∈ l → (a, b') ∈ l → b = b'.
Proof.
  induction l as [|[x y] l IH]; cbn; [by intros _ ?%elem_of_nil|]. intros [Hx Hnd]%NoDup_cons.
  rewrite !elem_of_cons. intros [E1|H1] [E2|H2]; simplify_eq; [done| | |by apply IH].
  - exfalso. apply Hx. by apply (list_elem_of_fmap_2' fst _ (x, b')).
  - exfalso. apply Hx. by apply (list_elem_of_fmap_2' fst _ (x, b)).
Qed.

Lemma filter_other (p : Z) (v : VmArea.t) l :
  NoDup (((p, v) :: l).*1) → filter (λ x, x.1 ≠ p) ((p, v) :: l) = l.
Proof.
  intros Hnd. cbn in Hnd. apply NoDup_cons in Hnd as [Hp _]. rewrite filter_cons_False by (by intros []).
  induction l as [|[q u] l IH]; [done|]. cbn in Hp. rewrite filter_cons_True by (cbn; set_solver).
  f_equal. apply IH. set_solver.
Qed.

Lemma ordered_elem l p v :
  ordered l → (p, v) ∈ l → (0 ≤ VmArea.vm_start v < VmArea.vm_end v)%Z ∧ (VmArea.vm_end v < 2 ^ 64)%Z.
Proof.
  induction l as [|[q u] l IH]; [by intros _ ?%elem_of_nil|]. intros (H1 & H2 & _ & Hl) [[= -> ->]|Hin]%elem_of_cons; [done|by apply IH].
Qed.

Lemma VMA_reads_ok w p v :
  mm_inv w → (p, v) ∈ areas w → ordered (areas w) →
  VMA_get_start p w = Ret (VmArea.vm_start v, w) ∧
  VMA_get_sz p w = Ret ((VmArea.vm_end v - VmArea.vm_start v)%Z, w).
Proof.
  intros Hinv Hin Hord. unfold VMA_get_start, VMA_get_sz. rewrite !(io_bind_run _ _ _ _ _ (vm_area_read_ok w p v Hinv Hin)).
  split; [done|]. destruct (ordered_elem _ _ _ Hord Hin).
  rewrite u64_sub_Ret by (unfold is_u64; lia). done.
Qed.

(** The iterator has moved on to the next area before an area is unmapped. *)
Lemma unmap_loop_ok fuel w :
  mm_inv w → length (areas w) < fuel →
  ∃ w', unmap_loop fuel (head_ptr (areas w)) w = Ret ((), w') ∧ mm_inv w' ∧ areas w' = [] ∧ user_regs w' = user_regs w.
Proof.
  revert w. induction fuel as [|fuel IH]; intros w Hinv Hf; [lia|].
  pose proof (areas_ok w Hinv) as (Hnd & Hlink & Hord). cbn [unmap_loop]. unfold VMAIter_next.
  destruct (areas w) as [|[p v] l] eqn:El; [by exists w|]. cbn [head_ptr].
  destruct Hlink as (Hp & Hnext & _). rewrite (proj2 (Z.eqb_neq _ _)) by done.
  assert (Hin : (p, v) ∈ areas w) by (rewrite El; left).
  erewrite io_bind_run; [|exact (io_bind_run _ _ _ _ _ (vm_area_read_ok w p v Hinv Hin))]. cbv iota beta.
  destruct (VMA_reads_ok w p v Hinv Hin) as [Es Ez]; [by rewrite El|].
  rewrite (io_bind_run _ _ _ _ _ Es), (io_bind_run _ _ _ _ _ Ez).
  destruct (do_munmap_ok w p v Hinv Hin) as (r & w1 & E1 & Hinv1 & Hl1 & Hr1).
  unfold unmap_region, pmem_do_munmap. rewrite (io_bind_run _ _ _ _ _ E1).
  rewrite El, filter_other in Hl1 by done. rewrite Hnext, <- (head_ptr_bare _ _ Hl1).
  destruct (IH w1 Hinv1) as (w' & E' & Hinv' & Hl' & Hr').
  - rewrite <- (length_fmap bare), Hl1, length_fmap. cbn in Hf. lia.
  - exists w'. split_and!; [done|done|done|congruence].
Qed.

(** *** Iterating over the areas *)
Lemma linked_app l1 l2 : linked (l1 ++ l2) → linked l2.
Proof. induction l1 as [|[p v] l1 IH]; [done|]. intros (_ & _ & H). by apply IH. Qed.

Lemma VMAIter_next_end w : VMAIter_next 0 w = Ret ((None, 0%Z), w).
Proof. done. Qed.

Lemma VMAIter_next_ok w l1 p v l2 :
  mm_inv w → areas w = l1 ++ (p, v) :: l2 → VMAIter_next p w = Ret ((Some p, head_ptr l2), w).
Proof.
  intros Hinv El. pose proof (areas_ok w Hinv) as (_ & Hl & _). rewrite El in Hl. apply linked_app in Hl as (Hp & Hn & _).
  unfold VMAIter_next. rewrite (proj2 (Z.eqb_neq _ _)) by done.
  step (vm_area_read_ok w p v Hinv ltac:(rewrite El; apply elem_of_app; right; left)). by rewrite Hn.
Qed.

(** *** Mapping the parent's areas *)
Fixpoint with_next (ds : list VMADescriptor) : list (VMADescriptor * option VMADescriptor) :=
  match ds with
  | [] => []
  | d :: rest => (d, head rest) :: with_next rest
  end.

(** Page-aligned areas in increasing order, inside user memory. *)
Definition vma_ok (dn : VMADescriptor * option VMADescriptor) : Prop :=
  (min_addr ≤ get_start dn.1 < get_end dn.1)%Z ∧ (4096 | get_start dn.1)%Z ∧ (4096 | get_end dn.1)%Z ∧
  match dn.2 with
  | Some n => (get_end dn.1 ≤ get_start n ≤ max_addr)%Z ∧ (4096 | get_start n)%Z
  | None => (get_end dn.1 ≤ max_addr)%Z
  end.

(** Where the area of a VMA ends: an anonymous one grows into the gap before
    the next, by a gigabyte at most. *)
Definition mapped_end (dn : VMADescriptor * option VMADescriptor) : Z :=
  match is_anonymous dn.1, dn.2 with
  | true, Some n => (get_end dn.1 + Z.min EXTENSION (get_start n - get_end dn.1))%Z
  | _, _ => get_end dn.1
  end.

Definition mapped_as (file : Z) (dn : VMADescriptor * option VMADescriptor) (x : Z * VmArea.t) : Prop :=
  VmArea.vm_start x.2 = get_start dn.1 ∧ VmArea.vm_end x.2 = mapped_end dn ∧ VmArea.vm_file x.2 = file ∧
  flags_contains (VmArea.vm_flags x.2) (if is_stack dn.1 then VM_STACK else VM_DONTEXPAND) = true.

Lemma mapped_end_bounds dn :
  vma_ok dn → (get_end dn.1 ≤ mapped_end dn ≤ max_addr)%Z ∧ (4096 | mapped_end dn)%Z ∧
  match dn.2 with Some n => (mapped_end dn ≤ get_start n)%Z | None => True end.
Proof.
  unfold vma_ok, mapped_end, EXTENSION. destruct dn as [d [n|]]; cbn [fst snd].
  - intros (H1 & H2 & H3 & H4 & H5). destruct (is_anonymous d); [|split_and!; (lia || done)].
    split_and!; [lia|lia| |lia]. destruct (Z.min_spec (1024 * 1024 * 1024) (get_start n - get_end d)) as [[_ ->]|[_ ->]].
    + apply Z.divide_add_r; [done|]. by exists 262144%Z.
    + by replace (get_end d + (get_start n - get_end d))%Z with (get_start n) by lia.
  - intros (H1 & H2 & H3 & H4). destruct (is_anonymous d); split_and!; (lia || done).
Qed.

Lemma flags_contains_lor f c : flags_contains (Z.lor f c) c = true.
Proof.
  unfold flags_contains. apply Z.eqb_eq. apply Z.bits_inj'. intros i Hi. rewrite Z.land_spec, Z.lor_spec.
  by destruct (Z.testbit f i), (Z.testbit c i).
Qed.

Lemma fmap_snoc_inv {A B} (f : A → B) l k y :
  f <$> l = k ++ [y] → ∃ l' x, l = l' ++ [x] ∧ f <$> l' = k ∧ f x = y.
Proof.
  intros H. apply fmap_app_inv in H as (l1 & l2 & -> & Hl2 & ->).
  destruct l2 as [|x [|]]; try done. injection Hl2 as Hx. by exists l1, x.
Qed.

Lemma update_last (p : Z) (v v' : VmArea.t) l :
  NoDup ((l ++ [(p, v)]).*1) →
  (λ x, if decide (x.1 = p) then (p, v') else x) <$> l ++ [(p, v)] = l ++ [(p, v')].
Proof.
  rewrite fmap_app. intros (_ & Hd & _)%NoDup_app. rewrite fmap_app. cbn. rewrite decide_True by done. f_equal.
  rewrite <- (list_fmap_id l) at 2. apply list_fmap_ext. intros i [q u] Hi. apply list_elem_of_lookup_2 in Hi.
  rewrite decide_False; [done|]. cbn. intros ->. apply (Hd p); [by eapply list_elem_of_fmap_2'|left].
Qed.

Lemma map_one_region_ok w file d n :
  mm_inv w → vma_ok (d, n) → Forall (λ x, VmArea.vm_end x.2 ≤ get_start d)%Z (areas w) →
  ∃ p v l w', map_one_region file d n w = Ret (Some p, w') ∧ mm_inv w' ∧ areas w' = l ++ [(p, v)] ∧
    bare <$> l = bare <$> areas w ∧ mapped_as file (d, n) (p, v) ∧ user_regs w' = user_regs w.
Proof.
  intros Hinv Hok Hbelow. pose proof (mapped_end_bounds _ Hok) as (Hend & Hal & _).
  pose proof Hok as (Hs & Hs4 & He4 & Hn). cbn [fst snd] in *. destruct addr_bounds as [Hmin Hmax].
  assert (Hx : extended_map_area_sz d n = Ret (match n with Some n => Z.min EXTENSION (get_start n - get_end d) | None => 0 end)%Z).
  { unfold extended_map_area_sz. destruct n as [n|]; [|done]. rewrite (proj2 (Z.leb_le _ _)) by lia. cbn.
    rewrite u64_sub_Ret by (unfold is_u64; lia). done. }
  assert (Hsz : get_sz d = Ret (get_end d - get_start d)%Z).
  { unfold get_sz. fold (get_end d). fold (get_start d). apply u64_sub_Ret. unfold is_u64. lia. }
  set (len := (mapped_end (d, n) - get_start d)%Z).
  destruct (vm_mmap_ok w file (get_start d) len (get_mmap_flags d) (areas w) [] Hinv) as
    (p & v & w1 & E1 & Hinv1 & Hl1 & Hv1 & Hv2 & Hv3 & Hr1); try done; [by rewrite app_nil_r|by apply Z.divide_sub_r|lia..|].
  apply fmap_snoc_inv in Hl1 as (l & [p' v'] & Hl1 & Hbare & Hpv).
  pose proof (f_equal fst Hpv) as Hp. cbn in Hp. subst p'.
  assert (Hv1' : VmArea.vm_start v' = get_start d) by (by rewrite <- Hv1; apply (f_equal (λ x, VmArea.vm_start x.2) Hpv)).
  assert (Hv2' : VmArea.vm_end v' = mapped_end (d, n)).
  { transitivity (VmArea.vm_end v); [apply (f_equal (λ x, VmArea.vm_end x.2) Hpv)|subst len; lia]. }
  assert (Hv3' : VmArea.vm_file v' = file) by (by rewrite <- Hv3; apply (f_equal (λ x, VmArea.vm_file x.2) Hpv)).
  assert (Hin : (p, v') ∈ areas w1) by (rewrite Hl1; apply elem_of_app; right; left).
  set (f := Z.lor (VmArea.vm_flags v') (if is_stack d then VM_STACK else VM_DONTEXPAND)).
  destruct (vm_area_write_ok w1 p v' f Hinv1 Hin) as (w2 & E2 & Hinv2 & Hl2 & Hr2).
  pose proof (areas_ok w1 Hinv1) as (Hnd & Hlinked & _). rewrite Hl1 in Hl2, Hnd. rewrite update_last in Hl2 by done.
  exists p, (VmArea.set_flags v' f), l, w2. split_and!; try done; [|unfold mapped_as; cbn; split_and!; [done..|apply flags_contains_lor]|congruence].
  unfold map_one_region. rewrite (io_lift_run _ _ _ _ Hx).
  assert (Em : (if is_anonymous d then
      sz ← lift (get_sz d);
      len ← lift (u64_add sz (match n with Some n => Z.min EXTENSION (get_start n - get_end d) | None => 0 end)%Z);
      pmem_vm_mmap file (get_start d) len (get_mmap_flags d) MAP_PRIVATE 0
    else
      sz ← lift (get_sz d);
      pmem_vm_mmap file (get_start d) sz (get_mmap_flags d) MAP_PRIVATE 0) w = Ret (get_start d, w1)).
  { rewrite <- E1. subst len. unfold mapped_end in *. cbn [fst snd] in *. unfold pmem_vm_mmap.
    destruct (is_anonymous d); rewrite (io_lift_run _ _ _ _ Hsz); [|done].
    destruct n as [n|]; (erewrite io_lift_run; [|apply u64_add_Ret; unfold is_u64; lia]); do 2 f_equal; lia. }
  rewrite (io_bind_run _ _ _ _ _ Em), Z.eqb_refl. cbn [negb].
  assert (Hp0 : p ≠ 0%Z).
  { clear -Hlinked Hin. induction (areas w1) as [|[q u] k IH]; [by apply elem_of_nil in Hin|].
    destruct Hlinked as (? & _ & ?). apply elem_of_cons in Hin as [[= -> ->]|Hin]; [done|by apply IH]. }
  assert (Ef : mm_find_vma (get_start d) w1 = Ret (Some p, w1)).
  { unfold mm_find_vma. rewrite (io_bind_run _ _ _ _ _ (find_vma_ok w1 p v' (get_start d) Hinv1 Hin ltac:(lia))).
    by rewrite (proj2 (Z.eqb_neq _ _)). }
  rewrite (io_bind_run _ _ _ _ _ Ef), (io_lift_run _ _ _ p eq_refl).
  rewrite (io_bind_run _ _ _ _ _ (vm_area_read_ok w1 p v' Hinv1 Hin)). fold f. by rewrite (io_bind_run _ _ _ _ _ E2).
Qed.

Lemma mapped_as_bare file dn x y : bare x = bare y → mapped_as file dn x → mapped_as file dn y.
Proof.
  intros E (H1 & H2 & H3 & H4). unfold mapped_as.
  pose proof (f_equal (λ z, VmArea.vm_start z.2) E) as E1. pose proof (f_equal (λ z, VmArea.vm_end z.2) E) as E2.
  pose proof (f_equal (λ z, VmArea.vm_file z.2) E) as E3. pose proof (f_equal (λ z, VmArea.vm_flags z.2) E) as E4.
  cbn in *. split_and!; congruence.
Qed.

(** [VM_ALLOC] has no bits, so marking an area with it changes nothing. *)
Lemma VMA_set_alloc_ok w p v :
  mm_inv w → (p, v) ∈ areas w →
  ∃ w', VMA_set_alloc p w = Ret ((), w') ∧ mm_inv w' ∧ areas w' = areas w ∧ user_regs w' = user_regs w.
Proof.
  intros Hinv Hin. unfold VMA_set_alloc, VMA_get_raw_flags, VMA_set_raw_flags.
  erewrite io_bind_run; [|exact (io_bind_run _ _ _ _ _ (vm_area_read_ok w p v Hinv Hin))]. cbv beta.
  rewrite (io_bind_run _ _ _ _ _ (vm_area_read_ok w p v Hinv Hin)).
  destruct (vm_area_write_ok w p v (Z.lor (VmArea.vm_flags v) VM_ALLOC) Hinv Hin) as (w' & E & Hinv' & Hl & Hr).
  exists w'. split_and!; [done|done| |done]. rewrite Hl. unfold VM_ALLOC. rewrite Z.lor_0_r.
  rewrite <- (list_fmap_id (areas w)) at 2. apply list_fmap_ext. intros i [q u] Hi. case_decide as Hq; [|done].
  cbn in Hq. subst q. pose proof (areas_ok w Hinv) as (Hnd & _). apply list_elem_of_lookup_2 in Hi.
  assert (u = v) as -> by (by eapply (NoDup_fst_inj (areas w))). by destruct v.
Qed.

Lemma map_regions_ok file ds w :
  mm_inv w → Forall vma_ok (with_next ds) →
  match ds with d :: _ => Forall (λ x, VmArea.vm_end x.2 ≤ get_start d)%Z (areas w) | [] => True end →
  ∃ l l2 w', map_regions file ds w = Ret ((), w') ∧ mm_inv w' ∧ areas w' = l ++ l2 ∧ bare <$> l = bare <$> areas w ∧
    Forall2 (mapped_as file) (with_next ds) l2 ∧ user_regs w' = user_regs w.
Proof.
  revert w. induction ds as [|d ds IH]; intros w Hinv Hok Hbelow; cbn [map_regions with_next] in *.
  { exists (areas w), [], w. rewrite app_nil_r. split_and!; [done..|constructor|done]. }
  apply Forall_cons in Hok as [Hd Hok].
  destruct (map_one_region_ok w file d (head ds) Hinv Hd Hbelow) as (p & v & l & w1 & E1 & Hinv1 & Hl1 & Hb1 & Hm1 & Hr1).
  rewrite (io_bind_run _ _ _ _ _ E1), (io_lift_run _ _ _ p eq_refl).
  assert (Hin : (p, v) ∈ areas w1) by (rewrite Hl1; apply elem_of_app; right; left).
  destruct (VMA_set_alloc_ok w1 p v Hinv1 Hin) as (w2 & E2 & Hinv2 & Hl2 & Hr2).
  assert (Ha : flags_contains (vm_flags d) VM_ALLOC = true) by (unfold flags_contains, VM_ALLOC; by rewrite Z.land_0_r).
  rewrite Ha, (io_bind_run _ _ _ _ _ E2).
  destruct (IH w2 Hinv2 Hok) as (l' & l2 & w' & E' & Hinv' & Hl' & Hb' & Hm' & Hr').
  { pose proof (mapped_end_bounds _ Hd) as (_ & _ & Hnext). destruct ds as [|d' ds]; [done|]. cbn in Hnext.
    rewrite Hl2, Hl1. apply Forall_app. split.
    - apply Forall_forall. intros x Hx. assert (H : ∃ y, y ∈ areas w ∧ VmArea.vm_end y.2 = VmArea.vm_end x.2).
      { apply (list_elem_of_fmap_2 bare) in Hx. rewrite Hb1 in Hx. apply list_elem_of_fmap in Hx as (y & Exy & Hy).
        exists y. split; [done|]. by apply (f_equal (λ z, VmArea.vm_end z.2)) in Exy. }
      destruct H as (y & Hy & <-). rewrite Forall_forall in Hbelow. specialize (Hbelow y Hy).
      destruct Hd as ((_ & ?) & _ & _ & (? & _) & _). cbn in *. lia.
    - apply Forall_singleton. destruct Hm1 as (_ & -> & _). done. }
  rewrite Hl2, Hl1, fmap_app in Hb'. apply fmap_snoc_inv in Hb' as (la & x & -> & Hla & Hx).
  exists la, (x :: l2), w'. split_and!; [done|done|by rewrite Hl', <- app_assoc|congruence| |congruence].
  constructor; [|done]. by eapply mapped_as_bare.
Qed.

Lemma set_mm_reg_states_ok regs w :
  mm_inv w → (0 ≤ fs regs < max_addr)%Z → (0 ≤ gs regs < max_addr)%Z →
  ∃ w', set_mm_reg_states regs w = Ret ((), w') ∧ user_regs w' = regs ∧ areas w' = areas w ∧ mm_inv w'.
Proof.
  intros Hinv Hfs Hgs. unfold set_mm_reg_states.
  destruct (flush_ok w) as (w1 & E1 & Hr1 & Hl1 & Hi1). rewrite (io_bind_run _ _ _ _ _ E1).
  destruct (set_regs_ok (others regs) w1) as (w2 & E2 & Hr2 & Hl2 & Hi2). unfold set_stack_registers. rewrite (io_bind_run _ _ _ _ _ E2).
  destruct (set_fs_ok (fs regs) w2 Hfs) as (r3 & w3 & E3 & Hr3 & Hl3 & Hi3). rewrite (io_bind_run _ _ _ _ _ E3).
  destruct (set_gs_ok (gs regs) w3 Hgs) as (r4 & w4 & E4 & Hr4 & Hl4 & Hi4). rewrite (io_bind_run _ _ _ _ _ E4).
  exists w4. split_and!; [done| |congruence|by auto]. rewrite Hr4, Hr3, Hr2. by destruct regs.
Qed.
End TaskSpec.
