(* ===== verification/RefTask.v ===== *)
(** * A concrete task

    A task whose areas are kept in a list, with the kernel functions of
    [TaskApi] computed on it: it shows that what [TaskOk] asks for can hold, and
    the examples run on it. *)

From S2P Require Import Prelude Descriptors Task.

Record ref_task := mkRefTask {
  rt_areas : list (Z * VmArea.t);
  rt_regs : RegDescriptor;
  rt_next : Z;  (** a pointer no area has had yet *)
}.

(** Its page-table entries, and the counters and contents of pages and files. *)
Record ref_mem := mkRefMem {
  rm_ptes : gmap Z Z;
  rm_refs : gmap Z Z;
  rm_maps : gmap Z Z;
  rm_files : gmap Z Z;
  rm_data : gmap Z Z;
}.

Fixpoint relink (l : list (Z * VmArea.t)) : list (Z * VmArea.t) :=
  match l with
  | [] => []
  | (p, v) :: l => (p, VmArea.set_next v (head_ptr l)) :: relink l
  end.

Definition rt_set_areas (l : list (Z * VmArea.t)) (s : ref_task) : ref_task :=
  mkRefTask l (rt_regs s) (rt_next s).

Definition rt_set_regs (r : RegDescriptor) (s : ref_task) : ref_task :=
  mkRefTask (rt_areas s) r (rt_next s).

Definition rt_find (P : Z * VmArea.t → Prop) `{∀ x, Decision (P x)} (s : ref_task) : option (Z * VmArea.t) :=
  head (filter P (rt_areas s)).

Definition rt_mmap (file addr len prot : Z) (s : ref_task) : outcome (Z * ref_task) :=
  let below := filter (λ x, VmArea.vm_end x.2 ≤ addr)%Z (rt_areas s) in
  let above := filter (λ x, addr + len ≤ VmArea.vm_start x.2)%Z (rt_areas s) in
  if decide (length below + length above = length (rt_areas s)) then
    Ret (addr, mkRefTask (relink (below ++ (rt_next s, VmArea.mk addr (addr + len) 0 prot prot 1 file) :: above))
      (rt_regs s) (rt_next s + 1))
  else Ret (-12, s)%Z.

#[export] Instance rt_TaskApi : TaskApi ref_task := {|
  get_mmap := λ s, Ret (head_ptr (rt_areas s), s);
  vm_area_read := λ p s, match rt_find (λ x, x.1 = p) s with Some (_, v) => Ret (v, s) | None => UB end;
  vm_area_write := λ p v s,
    Ret ((), rt_set_areas ((λ x, if decide (x.1 = p) then (p, v) else x) <$> rt_areas s) s);
  bd_find_vma := λ a s,
    Ret (match rt_find (λ x, a < VmArea.vm_end x.2)%Z s with Some (p, _) => p | None => 0%Z end, s);
  do_munmap := λ start len s,
    Ret (0%Z, rt_set_areas (relink (filter (λ x, VmArea.vm_start x.2 ≠ start) (rt_areas s))) s);
  vm_mmap := λ file addr len prot _ _ s, rt_mmap file addr len prot s;
  flush_tlb_all := λ s, Ret ((), s);
  current_pt_regs := λ s, Ret (others (rt_regs s), s);
  set_current_pt_regs := λ r s, Ret ((), rt_set_regs (mkRegDescriptor r (fs (rt_regs s)) (gs (rt_regs s))) s);
  pmem_arch_get_my_fs := λ s, Ret (fs (rt_regs s), s);
  pmem_arch_get_my_gs := λ s, Ret (gs (rt_regs s), s);
  pmem_arch_set_my_fs := λ z s, Ret (0%Z, rt_set_regs (mkRegDescriptor (others (rt_regs s)) z (gs (rt_regs s))) s);
  pmem_arch_set_my_gs := λ z s, Ret (0%Z, rt_set_regs (mkRegDescriptor (others (rt_regs s)) (fs (rt_regs s)) z) s) |}.

Record rt_inv (s : ref_task) : Prop := {
  rt_nodup : NoDup (rt_areas s).*1;
  rt_linked : linked (rt_areas s);
  rt_ordered : ordered (rt_areas s);
  rt_fresh : Forall (λ x, 0 < x.1 < rt_next s)%Z (rt_areas s);
  rt_next_pos : (0 < rt_next s)%Z;
}.

Lemma relink_bare l : bare <$> relink l = bare <$> l.
Proof. induction l as [|[p v] l IH]; [done|]. cbn. by rewrite IH. Qed.

Lemma relink_fst l : (relink l).*1 = l.*1.
Proof. by rewrite <- (bare_fst (relink l)), relink_bare, bare_fst. Qed.

Lemma relink_linked l : Forall (λ x, 0 < x.1)%Z l → linked (relink l).
Proof.
  induction l as [|[p v] l IH]; [done|]. intros [Hp Hl]%Forall_cons. cbn in *. split_and!; [lia| |by apply IH].
  destruct l as [|[q u] l]; done.
Qed.

Lemma fmap_bare_cons x y l l' : bare <$> x :: l = bare <$> y :: l' → bare x = bare y ∧ bare <$> l = bare <$> l'.
Proof. intros E. pose proof (f_equal head E) as E1. pose proof (f_equal tail E) as E2. split; [by apply (inj Some)|exact E2]. Qed.

(** [ordered] and bounds on addresses do not look at the links. *)
Lemma Forall_bare (P : Z * VmArea.t → Prop) l l' :
  (∀ x y, bare x = bare y → P x → P y) → bare <$> l = bare <$> l' → Forall P l → Forall P l'.
Proof.
  intros HP. revert l'. induction l as [|x l IH]; intros [|y l'] E Hl; try done. apply fmap_bare_cons in E as [Exy El].
  apply Forall_cons in Hl as [Hx Hl]. constructor; [by apply (HP x)|by apply IH].
Qed.

Lemma ordered_bare l l' : bare <$> l = bare <$> l' → ordered l → ordered l'.
Proof.
  revert l'. induction l as [|[p v] l IH]; intros [|[p' v'] l'] E Ho; try done. apply fmap_bare_cons in E as [E El].
  destruct Ho as (H1 & H2 & H3 & H4).
  pose proof (f_equal (λ z, VmArea.vm_start z.2) E) as Hs. pose proof (f_equal (λ z, VmArea.vm_end z.2) E) as He. cbn in Hs, He.
  cbn. rewrite <- Hs, <- He. split; [done|]. split; [done|]. split; [|by apply IH].
  eapply Forall_bare; [|exact El|exact H3]. intros x y Exy. cbn. apply (f_equal (λ z, VmArea.vm_start z.2)) in Exy.
  cbn in Exy. by rewrite Exy.
Qed.

(** In an ordered list an area is found by its pointer, its start or an address in it. *)
Lemma filter_by_ptr (l : list (Z * VmArea.t)) p v : NoDup l.*1 → (p, v) ∈ l → filter (λ x, x.1 = p) l = [(p, v)].
Proof.
  induction l as [|[q u] l IH]; [by intros _ ?%elem_of_nil|]. intros [Hq Hnd]%NoDup_cons Hin. cbn in Hq.
  rewrite filter_cons. apply elem_of_cons in Hin as [[= -> ->]|Hin].
  - rewrite decide_True by done. f_equal. destruct (filter _ l) as [|x k] eqn:E; [done|exfalso].
    assert (x ∈ filter (λ x, x.1 = q) l) as [Hx Hxl]%list_elem_of_filter by (rewrite E; left). apply Hq. rewrite <- Hx.
    by apply list_elem_of_fmap_2.
  - rewrite decide_False; [by apply IH|]. cbn. intros ->. apply Hq. by apply (list_elem_of_fmap_2 fst _ (p, v)).
Qed.

Lemma filter_by_addr l p v a :
  ordered l → (p, v) ∈ l → (VmArea.vm_start v ≤ a < VmArea.vm_end v)%Z →
  head (filter (λ x, a < VmArea.vm_end x.2)%Z l) = Some (p, v).
Proof.
  induction l as [|[q u] l IH]; [by intros _ ?%elem_of_nil|]. intros (H1 & _ & H3 & Hl) Hin Ha. rewrite filter_cons.
  apply elem_of_cons in Hin as [[= -> ->]|Hin]; [by rewrite decide_True by (cbn; lia)|].
  rewrite Forall_forall in H3. specialize (H3 _ Hin). cbn in H3. rewrite decide_False by (cbn; lia). by apply IH.
Qed.

Lemma filter_by_start l p v :
  NoDup l.*1 → ordered l → (p, v) ∈ l →
  filter (λ x, VmArea.vm_start x.2 ≠ VmArea.vm_start v) l = filter (λ x, x.1 ≠ p) l.
Proof.
  intros Hnd Ho Hin. apply list_filter_elem_iff. intros [q u] Hq. cbn. split; [|].
  - intros Hs ->. apply Hs. by rewrite (NoDup_fst_inj l p u v Hnd Hq Hin).
  - intros Hne Hs. assert (Heq : (q, u) = (p, v)); [|by injection Heq].
    clear Hnd Hne. induction l as [|[x y] l IH]; [by apply elem_of_nil in Hin|]. destruct Ho as (H1 & _ & H3 & Hl).
    rewrite Forall_forall in H3. apply elem_of_cons in Hin as [E1|Hin], Hq as [E2|Hq]; simplify_eq.
    + done.
    + specialize (H3 _ Hq). cbn in H3. lia.
    + specialize (H3 _ Hin). cbn in H3. lia.
    + by apply IH.
Qed.

Lemma linked_head l : Forall (λ x, 0 < x.1)%Z l → relink l = l → linked l.
Proof. intros H <-. by apply relink_linked. Qed.

Lemma rt_read_ok s p v : rt_inv s → (p, v) ∈ rt_areas s → vm_area_read p s = Ret (v, s).
Proof.
  intros Hs Hin. cbn. unfold rt_find. by rewrite (filter_by_ptr _ p v (rt_nodup _ Hs) Hin).
Qed.

Lemma update_fst (l : list (Z * VmArea.t)) p v :
  ((λ x, if decide (x.1 = p) then (p, v) else x) <$> l).*1 = l.*1.
Proof.
  rewrite <- list_fmap_compose. apply list_fmap_ext. intros i [q u] _. cbn. case_decide; by subst.
Qed.

(** Changing the flags of an area keeps list, links and order. *)
Lemma rt_write_ok s p v flags :
  rt_inv s → (p, v) ∈ rt_areas s →
  rt_inv (rt_set_areas ((λ x, if decide (x.1 = p) then (p, VmArea.set_flags v flags) else x) <$> rt_areas s) s).
Proof.
  intros [Hnd Hl Ho Hf Hn] Hin. set (g := λ x : Z * VmArea.t, if decide (x.1 = p) then _ else x).
  assert (Hg : ∀ x, x ∈ rt_areas s → (g x).1 = x.1 ∧ VmArea.vm_next (g x).2 = VmArea.vm_next x.2 ∧
    VmArea.vm_start (g x).2 = VmArea.vm_start x.2 ∧ VmArea.vm_end (g x).2 = VmArea.vm_end x.2).
  { intros [q u] Hq. unfold g. cbn. case_decide; [|done]. subst q. by rewrite (NoDup_fst_inj _ p u v Hnd Hq Hin). }
  split; cbn [rt_areas rt_set_areas rt_next].
  - unfold g. by rewrite update_fst.
  - clear -Hl Hg. induction (rt_areas s) as [|[q u] l IH]; [done|]. destruct Hl as (H1 & H2 & H3).
    rewrite fmap_cons. destruct (Hg (q, u) ltac:(left)) as (Hg1 & Hg2 & _). destruct (g (q, u)) as [q' u']. cbn in Hg1, Hg2. subst q'.
    split_and!; [done| |apply IH; [done|]; intros x Hx; apply Hg; by right]. rewrite Hg2, H2. destruct l as [|y l]; [done|].
    rewrite fmap_cons. destruct (Hg y ltac:(right; left)) as (Hy & _). destruct y, (g _). cbn in *. by subst.
  - clear -Ho Hg. induction (rt_areas s) as [|[q u] l IH]; [done|]. destruct Ho as (H1 & H2 & H3 & H4).
    rewrite fmap_cons. destruct (Hg (q, u) ltac:(left)) as (_ & _ & Hg3 & Hg4). destruct (g (q, u)) as [q' u']. cbn in Hg3, Hg4.
    cbn. rewrite Hg3, Hg4. split; [done|]. split; [done|]. split; [|apply IH; [done|]; intros x Hx; apply Hg; by right].
    apply Forall_fmap. rewrite Forall_forall in H3 |- *. intros x Hx. cbn.
    destruct (Hg x ltac:(by right)) as (_ & _ & -> & _). by apply H3.
  - apply Forall_fmap. rewrite Forall_forall in Hf |- *. intros x Hx. cbn. rewrite (proj1 (Hg x Hx)). by apply Hf.
  - done.
Qed.

Lemma ordered_filter (P : Z * VmArea.t → Prop) `{∀ x, Decision (P x)} l : ordered l → ordered (filter P l).
Proof.
  induction l as [|[p v] l IH]; [done|]. intros (H1 & H2 & H3 & H4). rewrite filter_cons. case_decide; [|by apply IH].
  cbn. split; [done|]. split; [done|]. split; [|by apply IH]. by apply Forall_list_filter.
Qed.

Lemma rt_relink_inv s l :
  rt_inv s → NoDup l.*1 → ordered l → Forall (λ x, 0 < x.1 < rt_next s)%Z l → rt_inv (rt_set_areas (relink l) s).
Proof.
  intros [_ _ _ _ Hn] Hnd Ho Hf. split; cbn.
  - by rewrite relink_fst.
  - apply relink_linked. eapply Forall_impl; [exact Hf|]. cbn. lia.
  - eapply ordered_bare; [|exact Ho]. by rewrite relink_bare.
  - eapply Forall_bare; [|by symmetry; apply relink_bare|exact Hf]. intros x y E.
    apply (f_equal fst) in E. cbn in *. by rewrite E.
  - done.
Qed.

Lemma ordered_app l1 x l2 a b :
  ordered (l1 ++ l2) → (0 ≤ a < b)%Z → (b < 2 ^ 64)%Z → VmArea.vm_start x.2 = a → VmArea.vm_end x.2 = b →
  Forall (λ y, VmArea.vm_end y.2 ≤ a)%Z l1 → Forall (λ y, b ≤ VmArea.vm_start y.2)%Z l2 →
  ordered (l1 ++ x :: l2).
Proof.
  intros Ho Hab Hb Hs He H1 H2. destruct x as [p v]. cbn in Hs, He. induction l1 as [|[q u] l1 IH]; cbn in *.
  - rewrite Hs, He. split; [done|]. split; [done|]. by split.
  - destruct Ho as (Hq1 & Hq2 & Hq3 & Hq4). apply Forall_cons in H1 as [Hu H1]. split; [done|]. split; [done|].
    split; [|by apply IH]. apply Forall_app in Hq3 as [Hq3 Hq5]. apply Forall_app. split; [done|]. constructor; [|done].
    cbn in *. lia.
Qed.

Lemma rt_mmap_ok s file addr len prot l1 l2 :
  rt_inv s → rt_areas s = l1 ++ l2 →
  Forall (λ x, VmArea.vm_end x.2 ≤ addr)%Z l1 → Forall (λ x, addr + len ≤ VmArea.vm_start x.2)%Z l2 →
  (0 < len)%Z → (4096 ≤ addr)%Z → (addr + len ≤ 2 ^ 47 - 4096)%Z →
  let v := VmArea.mk addr (addr + len) 0 prot prot 1 file in
  let s' := mkRefTask (relink (l1 ++ (rt_next s, v) :: l2)) (rt_regs s) (rt_next s + 1) in
  rt_mmap file addr len prot s = Ret (addr, s') ∧ rt_inv s'.
Proof.
  intros [Hnd Hl Ho Hf Hn] El H1 H2 Hlen Hmin Hmax v s'. rewrite El in Hnd, Ho, Hf.
  assert (Hpos : ∀ x, x ∈ l1 ++ l2 → (0 ≤ VmArea.vm_start x.2 < VmArea.vm_end x.2)%Z).
  { intros [p u] Hx. by apply (ordered_elem (l1 ++ l2) p). }
  rewrite Forall_forall in H1, H2.
  assert (E1 : filter (λ x, VmArea.vm_end x.2 ≤ addr)%Z (l1 ++ l2) = l1).
  { rewrite filter_app, list_filter_all, list_filter_none; [by rewrite app_nil_r| |apply H1].
    intros x Hx. specialize (H2 x Hx). specialize (Hpos x ltac:(apply elem_of_app; by right)). lia. }
  assert (E2 : filter (λ x, addr + len ≤ VmArea.vm_start x.2)%Z (l1 ++ l2) = l2).
  { rewrite filter_app, list_filter_none, list_filter_all; [done|apply H2|].
    intros x Hx. specialize (H1 x Hx). specialize (Hpos x ltac:(apply elem_of_app; by left)). lia. }
  split.
  - unfold rt_mmap. rewrite El, E1, E2, length_app, decide_True by done. done.
  - apply (rt_relink_inv (mkRefTask [] (rt_regs s) (rt_next s + 1)) (l1 ++ (rt_next s, v) :: l2)).
    + split; cbn; [constructor|done|done|constructor|lia].
    + rewrite fmap_app, fmap_cons. apply (NoDup_Permutation_proper _ (rt_next s :: l1.*1 ++ l2.*1)); [by rewrite Permutation_middle|].
      rewrite <- fmap_app. constructor; [|done]. intros (x & Hx & Hin)%list_elem_of_fmap. rewrite Forall_forall in Hf.
      specialize (Hf x Hin). cbn in Hf. lia.
    + apply (ordered_app _ _ _ addr (addr + len)); try done; [lia|lia|by apply Forall_forall|by apply Forall_forall].
    + cbn. apply Forall_app in Hf as [Hf1 Hf2]. apply Forall_app.
      split; [eapply Forall_impl; [exact Hf1|]; cbn; lia|]. constructor; [cbn; lia|]. eapply Forall_impl; [exact Hf2|]; cbn; lia.
Qed.

#[export] Instance rt_TaskOk : TaskOk ref_task.
Proof.
  refine {| mm_inv := rt_inv; areas := rt_areas; user_regs := rt_regs; min_addr := 4096; max_addr := 2 ^ 47 - 4096 |}.
  - by intros s [].
  - done.
  - apply rt_read_ok.
  - intros s p v flags Hs Hin. eexists. split; [done|]. split; [by apply rt_write_ok|done].
  - intros s p v a Hs Hin Ha. cbn. unfold rt_find. by rewrite (filter_by_addr _ p v a (rt_ordered _ Hs) Hin Ha).
  - intros s p v Hs Hin. eexists _, _. split; [done|]. pose proof Hs as [Hnd Hl Ho Hf Hn]. split_and!.
    + apply (rt_relink_inv s); [done| |by apply ordered_filter|by apply Forall_list_filter].
      eapply sublist_NoDup; [exact Hnd|]. apply fmap_sublist, sublist_filter.
    + cbn. by rewrite relink_bare, (filter_by_start _ p v).
    + done.
  - intros s file addr len prot l1 l2 Hs El H1 H2 _ _ Hlen Hmin Hmax.
    destruct (rt_mmap_ok s file addr len prot l1 l2 Hs El H1 H2 Hlen Hmin Hmax) as [E Hinv].
    eexists (rt_next s), (VmArea.mk addr (addr + len) 0 prot prot 1 file), _. split; [exact E|]. split; [exact Hinv|].
    split_and!; try done. cbn. by rewrite relink_bare, fmap_app.
  - intros r s. eexists. split; [done|]. split_and!; [done|done|by intros []].
  - lia.
  - intros z s _. eexists _, _. split; [done|]. split_and!; [done|done|by intros []].
  - intros z s _. eexists _, _. split; [done|]. split_and!; [done|done|by intros []].
  - intros s. eexists. split; [done|]. by split_and!.
Defined.

(** ** A task inside a larger machine *)
Section Zoom.
Context {W S : Type} {ta : TaskApi S} {ok : TaskOk S} (get : W → S) (set : S → W → W).
Context (get_set : ∀ s w, get (set s w) = s) (set_get : ∀ w, set (get w) w = w).

Definition zoom {A} (m : io S A) : io W A := λ w,
  match m (get w) with
  | Ret (a, s) => Ret (a, set s w)
  | Panic => Panic
  | UB => UB
  | NoFuel => NoFuel
  end.

Definition zoom_TaskApi : TaskApi W := {|
  get_mmap := zoom get_mmap;
  vm_area_read := λ p, zoom (vm_area_read p);
  vm_area_write := λ p v, zoom (vm_area_write p v);
  bd_find_vma := λ a, zoom (bd_find_vma a);
  do_munmap := λ a l, zoom (do_munmap a l);
  vm_mmap := λ a b c d e f, zoom (vm_mmap a b c d e f);
  flush_tlb_all := zoom flush_tlb_all;
  current_pt_regs := zoom current_pt_regs;
  set_current_pt_regs := λ r, zoom (set_current_pt_regs r);
  pmem_arch_get_my_fs := zoom pmem_arch_get_my_fs;
  pmem_arch_get_my_gs := zoom pmem_arch_get_my_gs;
  pmem_arch_set_my_fs := λ z, zoom (pmem_arch_set_my_fs z);
  pmem_arch_set_my_gs := λ z, zoom (pmem_arch_set_my_gs z) |}.

Lemma zoom_run {A} (m : io S A) w a s : m (get w) = Ret (a, s) → zoom m w = Ret (a, set s w).
Proof. intros E. unfold zoom. by rewrite E. Qed.

Lemma zoom_pure {A} (m : io S A) w a : m (get w) = Ret (a, get w) → zoom m w = Ret (a, w).
Proof. intros E. by rewrite (zoom_run _ _ _ _ E), set_get. Qed.

Definition zoom_TaskOk : @TaskOk W zoom_TaskApi.
Proof.
  refine (@Build_TaskOk W zoom_TaskApi (λ w, mm_inv (get w)) (λ w, areas (get w)) (λ w, user_regs (get w))
    min_addr max_addr _ _ _ _ _ _ _ _ addr_bounds _ _ _); cbn.
  - intros w. apply areas_ok.
  - intros w H. apply zoom_pure, get_mmap_ok, H.
  - intros w p v H Hin. apply zoom_pure, vm_area_read_ok; done.
  - intros w p v flags H Hin. destruct (vm_area_write_ok _ p v flags H Hin) as (s & E & Hs).
    exists (set s w). rewrite get_set. split; [by apply zoom_run|done].
  - intros w p v a H Hin Ha. eapply zoom_pure, find_vma_ok; done.
  - intros w p v H Hin. destruct (do_munmap_ok _ p v H Hin) as (r & s & E & Hs).
    exists r, (set s w). rewrite get_set. split; [by apply zoom_run|done].
  - intros w file addr len prot l1 l2 H1 H2 H3 H4 H5 H6 H7 H8 H9.
    destruct (vm_mmap_ok _ file addr len prot l1 l2 H1 H2 H3 H4 H5 H6 H7 H8 H9) as (p & v & s & E & Hs).
    exists p, v, (set s w). rewrite get_set. split; [by apply zoom_run|done].
  - intros r w. destruct (set_regs_ok r (get w)) as (s & E & Hs). exists (set s w). rewrite get_set. split; [by apply zoom_run|done].
  - intros z w Hz. destruct (set_fs_ok z (get w) Hz) as (r & s & E & Hs). exists r, (set s w). rewrite get_set.
    split; [by apply zoom_run|done].
  - intros z w Hz. destruct (set_gs_ok z (get w) Hz) as (r & s & E & Hs). exists r, (set s w). rewrite get_set.
    split; [by apply zoom_run|done].
  - intros w. destruct (flush_ok (get w)) as (s & E & Hs). exists (set s w). rewrite get_set. split; [by apply zoom_run|done].
Defined.
End Zoom.

(** The constants of Linux on x86-64 *)
Definition linux_VmConsts : VmConsts := {|
  VM_READ := 1; VM_WRITE := 2; VM_MAYWRITE := 32; VM_EXEC := 4; VM_STACK := 256; VM_SHARED := 8; VM_DONTEXPAND := 262144;
  PROT_READ := 1; PROT_WRITE := 2; PROT_EXEC := 4; PROT_GROWSUP := 33554432 |}.
