(* ===== verification/Machine.v ===== *)
(** * The machine under the module

    The class [Kernel] lists what the module calls of the Linux kernel's page
    allocator, and [KernelOk] what it relies on.  [ref_machine] is one concrete
    machine with a clock, a network card and a page allocator on which the
    assumptions hold; the examples of the other files run on it. *)

From S2P Require Import Prelude Future Rdma Descriptors Task RefTask.

(** ** Pages of the kernel ([bindings::pmem_*], outside the crate's Rust code) *)
Class Kernel (W : Type) := {
  pmem_alloc_page : Z → io W Z;
  pmem_free_page : Z → io W ();
  pmem_page_to_phy : Z → Z;
  pmem_page_to_virt : Z → Z;
  pmem_get_current_cpu : io W Z;
  PMEM_GFP_HIGHUSER : Z }.

(** While fewer than [mem_pages] pages are in use an allocation succeeds with a
    page that was free; a [struct page] pointer is
    a non-null multiple of eight.  Neither call moves the clock back or touches
    a queue pair, and the card allocates no pages. *)
Class KernelOk (W : Type) {kn : Kernel W} {kt : KTimerApi W} {kt_ok : KTimerOk W}
    {kr : KRdmaKit W} {nic : NicOk W} := {
  allocated : W → gset Z;
  mem_pages : nat;
  alloc_page_ok gfp w : size (allocated w) < mem_pages → ∃ p w', pmem_alloc_page gfp w = Ret (p, w') ∧ (p ∉ allocated w) ∧
    allocated w' = {[p]} ∪ allocated w ∧ is_u64 p ∧ p ≠ 0%Z ∧ (8 | p)%Z ∧ (ticks w ≤ ticks w')%Z ∧
    (∀ qp, outstanding qp w' = outstanding qp w);
  free_page_ok p w : p ∈ allocated w → ∃ w', pmem_free_page p w = Ret ((), w') ∧
    allocated w' = allocated w ∖ {[p]} ∧ (ticks w ≤ ticks w')%Z ∧
    (∀ qp, outstanding qp w' = outstanding qp w);
  current_cpu_ok w : ∃ c, pmem_get_current_cpu w = Ret (c, w) ∧ (0 ≤ c)%Z;
  timer_new_pages w t w' : KTimer_new w = Ret (t, w') → allocated w' = allocated w;
  timer_read_pages tm w p w' : get_passed_usec tm w = Ret (p, w') → allocated w' = allocated w;
  post_dc_read_pages qp ep mr range sig raddr key w r w' :
    post_send_dc_read qp ep mr range sig raddr key w = Ret (r, w') → allocated w' = allocated w;
  post_read_pages qp mr range sig raddr key wr_id w r w' :
    post_send_read qp mr range sig raddr key wr_id w = Ret (r, w') → allocated w' = allocated w;
  poll_send_cq_pages qp n w r w' : poll_send_cq qp n w = Ret (r, w') → allocated w' = allocated w }.

(** ** A concrete machine *)
Definition ref_wr : Type := RDMAOp * option Z * (Z * Z) * (Z * Z) * bool * (Z * Z).

Record ref_machine := mkRef {
  ref_clock : Z;
  ref_alive : bool;  (** whether the card answers *)
  ref_sq : gmap Z (list ref_wr);
  ref_landed : list ref_wr;
  ref_rq : gmap Z (list (Z * Z));
  ref_inbox : gmap Z nat;  (** messages that have arrived, per queue pair *)
  ref_pages : gset Z;
  ref_next_mr : Z;
  ref_cpu : Z;
  ref_tsk : ref_task;
  ref_memory : ref_mem;
  ref_hints : gmap (Z * Z) Z;  (** queue pairs registered under a service and a hint *)
  ref_sent : gmap Z (list ref_wr);  (** all requests the card was ever given, per queue pair *)
  ref_devs : gset Z;  (** character devices *)
  ref_rounds : nat  (** how often a kernel thread is yet to be told to go on *) }.

Definition ref_idle : ref_task :=
  mkRefTask [] (mkRegDescriptor (mkStackRegisters 0 0 0 0 0 0 0 0 0 0 0 0 0 0 0 0 0 0 0 0 0) 0 0) 1.
Definition ref_no_mem : ref_mem := mkRefMem ∅ ∅ ∅ ∅ ∅.

Definition ref_boot : ref_machine := mkRef 0 true ∅ [] ∅ ∅ ∅ 4096 0 ref_idle ref_no_mem ∅ ∅ ∅ 6.

Definition ref_tick (w : ref_machine) : ref_machine :=
  mkRef (ref_clock w + 1) (ref_alive w) (ref_sq w) (ref_landed w) (ref_rq w) (ref_inbox w)
    (ref_pages w) (ref_next_mr w) (ref_cpu w) (ref_tsk w) (ref_memory w) (ref_hints w) (ref_sent w) (ref_devs w) (ref_rounds w).

Definition ref_set_sq (q : gmap Z (list ref_wr)) (l : list ref_wr) (w : ref_machine) : ref_machine :=
  mkRef (ref_clock w) (ref_alive w) q l (ref_rq w) (ref_inbox w)
    (ref_pages w) (ref_next_mr w) (ref_cpu w) (ref_tsk w) (ref_memory w) (ref_hints w) (ref_sent w) (ref_devs w) (ref_rounds w).

Definition ref_log (qp : Z) (u : ref_wr) (w : ref_machine) : ref_machine :=
  mkRef (ref_clock w) (ref_alive w) (ref_sq w) (ref_landed w) (ref_rq w) (ref_inbox w) (ref_pages w) (ref_next_mr w) (ref_cpu w)
    (ref_tsk w) (ref_memory w) (ref_hints w) (<[qp := default [] (ref_sent w !! qp) ++ [u]]> (ref_sent w)) (ref_devs w) (ref_rounds w).

Definition ref_set_rq (q : gmap Z (list (Z * Z))) (i : gmap Z nat) (w : ref_machine) : ref_machine :=
  mkRef (ref_clock w) (ref_alive w) (ref_sq w) (ref_landed w) q i
    (ref_pages w) (ref_next_mr w) (ref_cpu w) (ref_tsk w) (ref_memory w) (ref_hints w) (ref_sent w) (ref_devs w) (ref_rounds w).

Definition ref_set_pages (ps : gset Z) (w : ref_machine) : ref_machine :=
  mkRef (ref_clock w) (ref_alive w) (ref_sq w) (ref_landed w) (ref_rq w) (ref_inbox w)
    ps (ref_next_mr w) (ref_cpu w) (ref_tsk w) (ref_memory w) (ref_hints w) (ref_sent w) (ref_devs w) (ref_rounds w).

Definition ref_set_tsk (t : ref_task) (w : ref_machine) : ref_machine :=
  mkRef (ref_clock w) (ref_alive w) (ref_sq w) (ref_landed w) (ref_rq w) (ref_inbox w)
    (ref_pages w) (ref_next_mr w) (ref_cpu w) t (ref_memory w) (ref_hints w) (ref_sent w) (ref_devs w) (ref_rounds w).

Definition ref_set_memory (m : ref_mem) (w : ref_machine) : ref_machine :=
  mkRef (ref_clock w) (ref_alive w) (ref_sq w) (ref_landed w) (ref_rq w) (ref_inbox w)
    (ref_pages w) (ref_next_mr w) (ref_cpu w) (ref_tsk w) m (ref_hints w) (ref_sent w) (ref_devs w) (ref_rounds w).

#[export] Instance ref_TaskApi : TaskApi ref_machine := zoom_TaskApi ref_tsk ref_set_tsk.
#[export] Instance ref_TaskOk : TaskOk ref_machine.
Proof. apply zoom_TaskOk; [done|by intros []]. Defined.

#[export] Instance ref_KTimer : KTimerApi ref_machine := {|
  KTimer := Z;
  KTimer_new := λ w, Ret (ref_clock w, w);
  KTimer_reset := λ _ w, Ret (ref_clock w, w);
  get_passed_usec := λ t w, Ret ((ref_clock w + 1 - t)%Z, ref_tick w) |}.

#[export] Instance ref_KTimerOk : KTimerOk ref_machine.
Proof.
  refine {| ticks := ref_clock; ticks_per_usec := 1; started := λ t : @KTimer _ ref_KTimer, t |};
    [lia|..].
  - intros w. eexists _, _. split; [done|lia].
  - intros t w. eexists _, _. split; [done|lia].
  - intros t w. exists (ref_tick w). rewrite Z.div_1_r. split; [done|cbn; lia].
Defined.

Definition ref_queue (w : ref_machine) (qp : Z) : list ref_wr := default [] (ref_sq w !! qp).

Definition ref_signaled (u : ref_wr) : bool := u.1.2.

(** The requests up to the first signaled one, and the rest. *)
Fixpoint ref_retire (q : list ref_wr) : option (list ref_wr * list ref_wr) :=
  match q with
  | [] => None
  | u :: q => if ref_signaled u then Some ([u], q)
              else '(done, rest) ← ref_retire q; Some (u :: done, rest)
  end.

Definition ref_post (qp : Z) (u : ref_wr) : io ref_machine (Result () ()) := λ w,
  Ret (Ok (), ref_log qp u (ref_set_sq (<[qp := ref_queue w qp ++ [u]]> (ref_sq w)) (ref_landed w) w)).

Definition ref_poll (qp : Z) : io ref_machine (Result (list Z) ()) := λ w,
  match (if ref_alive w then ref_retire (ref_queue w qp) else None) with
  | Some (retired, rest) =>
      Ret (Ok [0%Z], ref_set_sq (<[qp := rest]> (ref_sq w)) (retired ++ ref_landed w) w)
  | None => Ret (Ok [], w)
  end.

Definition ref_recv_queue (w : ref_machine) (qp : Z) : list (Z * Z) := default [] (ref_rq w !! qp).
Definition ref_arrived (w : ref_machine) (qp : Z) : nat := default 0 (ref_inbox w !! qp).

Definition ref_poll_recv (qp : Z) : io ref_machine (Result (list Z) ()) := λ w,
  match ref_arrived w qp, ref_recv_queue w qp with
  | S n, _ :: q => Ret (Ok [0%Z], ref_set_rq (<[qp := q]> (ref_rq w)) (<[qp := n]> (ref_inbox w)) w)
  | _, _ => Ret (Ok [], w)
  end.

#[export] Instance ref_KRdmaKit : KRdmaKit ref_machine := {|
  Context_t := ();
  QueuePair := Z;
  MemoryRegion := Z * Z;
  DatagramEndpoint := Z;
  DatapathError := ();
  TimeoutError := tt;
  ib_wc := Z;
  wc_status := λ s, s;
  qp_ctx := λ _, ();
  mr_new_from_raw := λ _ va sz, Some (va, sz);
  get_virt_addr := fst;
  mr_new := λ _ sz w, Ret (Some (ref_next_mr w, sz),
    mkRef (ref_clock w) (ref_alive w) (ref_sq w) (ref_landed w) (ref_rq w) (ref_inbox w)
      (ref_pages w) (ref_next_mr w + sz) (ref_cpu w) (ref_tsk w) (ref_memory w) (ref_hints w) (ref_sent w) (ref_devs w) (ref_rounds w));
  capacity := snd;
  get_rdma_addr := fst;
  endpoint_new := λ _ _ _ _ _ _ dct _ w, Ret (Some dct, w);
  post_send_dc_read := λ qp ep mr range sig raddr key, ref_post qp (READ, Some ep, mr, range, sig, (raddr, key));
  post_send_dc_write := λ qp ep mr range sig raddr key, ref_post qp (WRITE, Some ep, mr, range, sig, (raddr, key));
  post_send_read := λ qp mr range sig raddr key _, ref_post qp (READ, None, mr, range, sig, (raddr, key));
  post_send_write := λ qp mr range sig raddr key _, ref_post qp (WRITE, None, mr, range, sig, (raddr, key));
  post_datagram := λ qp ep mr range _ sig, ref_post qp (WRITE, Some ep, mr, range, sig, (0, 0)%Z);
  post_recv := λ qp mr _ _ w,
    Ret (Ok (), ref_set_rq (<[qp := ref_recv_queue w qp ++ [mr]]> (ref_rq w)) (ref_inbox w) w);
  poll_send_cq := λ qp _, ref_poll qp;
  poll_recv_cq := λ qp _, ref_poll_recv qp;
  bd_phys_to_virt := λ pa, pa |}.

Definition ref_Wr (u : ref_wr) : Wr ref_machine :=
  let '(op, peer, mr, range, sig, (raddr, key)) := u in
  mkWr ref_machine ref_KRdmaKit op peer mr range sig raddr key.

Lemma ref_Wr_signaled u : wr_signaled (ref_Wr u) = ref_signaled u.
Proof. by destruct u as [[[[[op peer] mr] range] sig] [raddr key]]. Qed.

Lemma ref_retire_spec q retired rest :
  ref_retire q = Some (retired, rest) → ∃ us u, retired = us ++ [u] ∧ q = us ++ u :: rest ∧
  Forall (λ u, ref_signaled u = false) us ∧ ref_signaled u = true.
Proof.
  revert retired rest. induction q as [|u q IH]; intros retired rest; cbn [ref_retire]; [done|].
  destruct (ref_signaled u) eqn:Eu.
  - intros [= <- <-]. exists [], u. auto.
  - destruct (ref_retire q) as [[r1 r2]|]; cbn; [|done]. intros [= <- <-].
    destruct (IH r1 r2 eq_refl) as (us & u' & -> & -> & Hus & Hu'). exists (u :: us), u'. auto.
Qed.

Lemma ref_queue_post w qp qp' q l :
  ref_queue (ref_set_sq (<[qp := q]> (ref_sq w)) l w) qp' = if decide (qp = qp') then q else ref_queue w qp'.
Proof.
  unfold ref_queue. cbn. case_decide as H; [subst; by rewrite lookup_insert_eq|by rewrite lookup_insert_ne].
Qed.

Lemma ref_queue_log qp u w qp' : ref_queue (ref_log qp u w) qp' = ref_queue w qp'.
Proof. done. Qed.

Definition ref_outstanding (qp : Z) (w : ref_machine) : list (Wr ref_machine) := ref_Wr <$> ref_queue w qp.

Lemma ref_post_frame qp u w r w' : ref_post qp u w = Ret (r, w') →
  ∀ qp', qp' = qp ∨ ref_outstanding qp' w' = ref_outstanding qp' w.
Proof.
  intros [= _ <-] qp'. unfold ref_outstanding. rewrite ref_queue_log, ref_queue_post. case_decide; auto.
Qed.

Lemma ref_post_ok qp u w : ∃ r w', ref_post qp u w = Ret (r, w') ∧ (ref_clock w ≤ ref_clock w')%Z ∧
  ref_outstanding qp w' = ref_outstanding qp w ++ match r with Ok _ => [ref_Wr u] | Err _ => [] end.
Proof.
  eexists _, _. split; [done|]. split; [done|]. unfold ref_outstanding.
  rewrite ref_queue_log, ref_queue_post, decide_True by done. by rewrite fmap_app.
Qed.

Lemma ref_poll_frame qp w r w' : ref_poll qp w = Ret (r, w') →
  ∀ qp', qp' = qp ∨ ref_outstanding qp' w' = ref_outstanding qp' w.
Proof.
  intros E qp'. unfold ref_poll in E. destruct (if ref_alive w then _ else _) as [[retired rest]|];
    injection E as _ <-; [|by right].
  unfold ref_outstanding. rewrite ref_queue_post. case_decide; auto.
Qed.

Lemma ref_poll_ok qp w : ∃ r w', ref_poll qp w = Ret (r, w') ∧ (ref_clock w ≤ ref_clock w')%Z ∧
  match r with
  | Err _ | Ok [] => ref_outstanding qp w' = ref_outstanding qp w
  | Ok [wc] => (0 ≤ wc < 22)%Z ∧ ∃ us wr rest, ref_outstanding qp w = us ++ wr :: rest ∧
      Forall (λ u, wr_signaled u = false) us ∧ wr_signaled wr = true ∧ ref_outstanding qp w' = rest ∧
      (wc = 0%Z → Forall (λ u, u ∈ ref_Wr <$> ref_landed w') (us ++ [wr]))
  | Ok _ => False
  end.
Proof.
  unfold ref_poll. destruct (if ref_alive w then _ else _) as [[retired rest]|] eqn:E;
    [|by exists (Ok []), w].
  assert (Er : ref_retire (ref_queue w qp) = Some (retired, rest)) by (by destruct (ref_alive w)).
  destruct (ref_retire_spec _ _ _ Er) as (us & u & -> & Eq & Hus & Hu).
  eexists (Ok [0%Z]), _. split; [done|]. split; [done|]. split; [lia|].
  exists (ref_Wr <$> us), (ref_Wr u), (ref_Wr <$> rest). unfold ref_outstanding.
  rewrite ref_queue_post, decide_True, Eq, fmap_app by done. split_and!; [done| |by rewrite ref_Wr_signaled|done|].
  - apply Forall_fmap. eapply Forall_impl; [exact Hus|]. intros v. cbn. by rewrite ref_Wr_signaled.
  - intros _. apply Forall_forall. intros v Hv. cbn. rewrite fmap_app. apply elem_of_app. left.
    by rewrite fmap_app.
Qed.

#[export] Instance ref_NicOk : NicOk ref_machine.
Proof.
  refine {| outstanding := ref_outstanding : QueuePair → ref_machine → _;
            landed := λ u w, u ∈ ref_Wr <$> ref_landed w |}.
  - intros w t w' qp [= _ <-]. done.
  - intros tm w p w' qp [= _ <-]. done.
  - intros ctx va sz. by exists (va, sz).
  - intros. destruct (ref_post_ok qp (READ, Some ep, mr, range, sig, (raddr, key)) w) as (r & w' & E & Ht & Hq).
    exists r, w'. split_and!; [exact E|exact Ht|exact Hq|exact (ref_post_frame _ _ _ _ _ E)].
  - intros. apply (ref_post_ok qp (READ, None, mr, range, sig, (raddr, key))).
  - intros qp n w r w' qp' E. destruct (ref_poll_frame _ _ _ _ E qp') as [->|H]; auto.
  - intros qp w. apply ref_poll_ok.
Defined.

(** The first of 1024 page structures that is not in use, or null. *)
Definition ref_page_structs : list Z := (λ k, 64 * Z.of_nat k)%Z <$> seq 1 1024.

Definition ref_free_page (ps : gset Z) : Z :=
  default 0%Z (head (filter (λ p, p ∉ ps) ref_page_structs)).

#[export] Instance ref_Kernel : Kernel ref_machine := {|
  pmem_alloc_page := λ _ w,
    let p := ref_free_page (ref_pages w) in
    Ret (p, ref_set_pages (if (p =? 0)%Z then ref_pages w else {[p]} ∪ ref_pages w) w);
  pmem_free_page := λ p w, Ret ((), ref_set_pages (ref_pages w ∖ {[p]}) w);
  pmem_page_to_phy := λ p, (p * 64)%Z;
  pmem_page_to_virt := λ p, (p * 64)%Z;
  pmem_get_current_cpu := λ w, Ret ((ref_cpu w mod 4)%Z, w);
  PMEM_GFP_HIGHUSER := 0 |}.

Lemma ref_free_page_ok ps :
  size ps < 1024 → ref_free_page ps ∈ ref_page_structs ∧ ref_free_page ps ∉ ps.
Proof.
  intros Hs. unfold ref_free_page.
  destruct (filter (λ p, p ∉ ps) ref_page_structs) as [|p l] eqn:E; cbn [head default].
  - assert (Hsub : (list_to_set ref_page_structs : gset Z) ⊆ ps).
    { intros p Hp. apply elem_of_list_to_set in Hp. apply dec_stable. intros Hn.
      assert (p ∈ filter (λ p, p ∉ ps) ref_page_structs) as Hf by (by apply list_elem_of_filter).
      rewrite E in Hf. by apply elem_of_nil in Hf. }
    apply subseteq_size in Hsub. rewrite size_list_to_set in Hsub.
    + unfold ref_page_structs in Hsub. rewrite length_fmap, length_seq in Hsub. lia.
    + unfold ref_page_structs. apply NoDup_fmap_2; [intros ???; lia|apply NoDup_seq].
  - assert (p ∈ filter (λ p, p ∉ ps) ref_page_structs) as Hf by (rewrite E; apply list_elem_of_here).
    apply list_elem_of_filter in Hf. by destruct Hf.
Qed.

#[export] Instance ref_KernelOk : KernelOk ref_machine.
Proof.
  refine {| allocated := ref_pages; mem_pages := 1024 |}.
  - intros gfp w Hs. destruct (ref_free_page_ok (ref_pages w) Hs) as [Hin Hfree].
    unfold ref_page_structs in Hin. apply list_elem_of_fmap in Hin as (k & Hk & Hin). apply elem_of_seq in Hin.
    eexists _, _. split; [done|]. rewrite Hk in *. cbn [ref_pages ref_set_pages].
    rewrite (proj2 (Z.eqb_neq _ _)) by lia. unfold is_u64.
    split_and!; [done|done|lia|lia|lia|by exists (8 * Z.of_nat k)%Z; lia|done|done].
  - intros p w _. eexists. split; [done|]. done.
  - intros w. eexists. split; [done|]. pose proof (Z.mod_pos_bound (ref_cpu w) 4). lia.
  - by intros w t w' [= _ <-].
  - by intros tm w p w' [= _ <-].
  - by intros qp ep mr range sig raddr key w r w' [= _ <-].
  - by intros qp mr range sig raddr key wr_id w r w' [= _ <-].
  - intros qp n w r w'. cbn. unfold ref_poll.
    destruct (if ref_alive w then _ else _) as [[retired rest]|]; by intros [= _ <-].
Defined.
