(* ===== verification/ShadowProcess.v ===== *)
(** * Shadow processes ([shadow_process.rs], [shadow_process/], [kernel_helper.c])

    Preparing a fork takes a snapshot of the current process: its VMAs, its
    registers and, per VMA, the physical pages it has, either copied or shared
    copy-on-write.  The page-table walk of the kernel calls back into
    [handle_pte_entry] for each entry; it is a parameter that lists the entries
    it visits. *)

From S2P Require Import Prelude Future Rdma Descriptors Task RefTask Machine PageStructures.

(** What the kernel offers on page-table entries, pages and files.  The entry of
    the current process for address [a] stands for the [pte_t] pointer the walk
    passes with [a]. *)
Class PagesApi (W : Type) := {
  walk_page_range : Z → Z → io W (list Z);
  pte_val : Z → io W Z;
  set_pte : Z → Z → io W ();
  pte_clear_rw : Z → Z;
  pte_write : Z → bool;
  pte_page : Z → Z;
  get_page : Z → io W ();
  put_page : Z → io W ();
  mapcount_inc : Z → io W ();
  mapcount_dec : Z → io W ();
  get_file : Z → io W ();
  fput : Z → io W ();
  flush_tlb_mm : io W ();
  phys_to_virt : Z → Z;
  read_user : Z → Z → Z → io W (Result () ());
  GFP_KERNEL : Z }.

Section ShadowProcess.
Context {W : Type} {ta : TaskApi W} {pa : PagesApi W} {kn : Kernel W} {vc : VmConsts} .

(** ** [kernel_helper.c] *)
Definition PAGE_MASK : Z := u64_not 4095.
(** [~(((long) 1 << 63) >> 11)], the shift of a negative number *)
Definition X86_64_PTE_HIGHER_BIT_MASK : Z := u64_not (as_u64 (Z.shiftr (- 2 ^ 63) 11)).

Definition phy_of_pte (v : Z) : Z := Z.land (Z.land v PAGE_MASK) X86_64_PTE_HIGHER_BIT_MASK.

Definition pmem_get_phy_from_pte (pte : Z) : io W Z := v ← pte_val pte; mret (phy_of_pte v).

Definition pmem_clear_pte_write (pte : Z) : io W () :=
  v ← pte_val pte; set_pte pte (pte_clear_rw v).

Definition pmem_check_pte_write (pte : Z) : io W bool := v ← pte_val pte; mret (pte_write v).

Definition pmem_pte_to_page (pte : Z) : io W Z := v ← pte_val pte; mret (pte_page v).

Definition pmem_get_page (page : Z) : io W () := get_page page.
Definition pmem_put_page (page : Z) : io W () := put_page page.
Definition pmem_page_dup_rmap (page : Z) : io W () := mapcount_inc page.
Definition pmem_page_free_rmap (page : Z) : io W () := mapcount_dec page.
Definition pmem_get_file (f : Z) : io W () := get_file f.
Definition pmem_put_file (f : Z) : io W () := fput f.
Definition pmem_phys_to_virt (p : Z) : Z := phys_to_virt p.

(** ** [page.rs] *)
Record Copy4KPage := mkCopy4KPage { copy_inner : Z }.
Record COW4KPage := mkCOW4KPage { cow_inner : Z }.

Definition Copy4KPage_new (user_vaddr : Z) : io W (option Copy4KPage) :=
  new_page_p ← pmem_alloc_page GFP_KERNEL;
  if (new_page_p =? 0)%Z then mret None
  else
    let new_virt := pmem_phys_to_virt (pmem_page_to_phy new_page_p) in
    r ← read_user user_vaddr 4096 new_virt;
    match r with
    | Ok _ => mret (Some (mkCopy4KPage new_page_p))
    | Err _ => panic
    end.

Definition Copy4KPage_get_physical_addr (self : Copy4KPage) : Z := pmem_page_to_phy (copy_inner self).

Definition Copy4KPage_drop (self : Copy4KPage) : io W () :=
  if (copy_inner self =? 0)%Z then mret () else pmem_free_page (copy_inner self).

Definition COW4KPage_new (page : Z) : io W (option COW4KPage) :=
  pmem_get_page page ≫= λ _, pmem_page_dup_rmap page ≫= λ _, mret (Some (mkCOW4KPage page)).

Definition COW4KPage_get_physical_addr (self : COW4KPage) : Z := pmem_page_to_phy (cow_inner self).

Definition COW4KPage_drop (self : COW4KPage) : io W () :=
  pmem_put_page (cow_inner self) ≫= λ _, pmem_page_free_rmap (cow_inner self).

(** ** [page_table.rs]: [ShadowPageTable] *)
Record ShadowPageTable (P : Type) := mkShadowPageTable { table : list P }.
Arguments mkShadowPageTable {P} table.
Arguments table {P}.

Definition ShadowPageTable_new {P} : ShadowPageTable P := mkShadowPageTable [].
Definition add_page {P} (self : ShadowPageTable P) (p : P) : ShadowPageTable P := mkShadowPageTable (table self ++ [p]).
Definition ShadowPageTable_len {P} (self : ShadowPageTable P) : nat := length (table self).

(** ** [vma.rs] *)
Record ShadowVMA := mkShadowVMA { vma_inner : Z; shadow_file : Z; is_cow : bool }.

Definition ShadowVMA_new (vma : Z) (is_cow : bool) : io W ShadowVMA :=
  file ← VMA_get_file_ptr vma;
  (if negb (file =? 0)%Z && is_cow then pmem_get_file file else mret ()) ≫= λ _,
  mret (mkShadowVMA vma file is_cow).

Definition backed_by_file (self : ShadowVMA) : bool := negb (shadow_file self =? 0)%Z.

Definition has_write_permission (self : ShadowVMA) : io W bool :=
  flags ← VMA_get_raw_flags (vma_inner self);
  if flags_contains flags VM_WRITE then mret true
  else flags ← VMA_get_raw_flags (vma_inner self); mret (flags_contains flags VM_MAYWRITE).

Definition ShadowVMA_drop (self : ShadowVMA) : io W () :=
  if negb (shadow_file self =? 0)%Z && is_cow self then pmem_put_file (shadow_file self) else mret ().

(** *** [VMACopyPTGenerator]: [inner] and [inner_flat] are the tables it fills *)
Record Generator (P : Type) := mkGenerator { gen_inner : ShadowPageTable P; gen_flat : CompactPageTable }.
Arguments mkGenerator {P}.
Arguments gen_inner {P}.
Arguments gen_flat {P}.

Definition copy_handle_pte_entry (vma : ShadowVMA) (addr : Z) (my : Generator Copy4KPage) : io W (Generator Copy4KPage) :=
  phy_addr ← pmem_get_phy_from_pte addr;
  if (0 <? phy_addr)%Z then
    copied_page ← Copy4KPage_new addr;
    copied_page ← lift (unwrap copied_page);
    start ← VMA_get_start (vma_inner vma);
    off ← lift (u64_sub addr start);
    mret (mkGenerator (add_page (gen_inner my) copied_page)
      (add_one (gen_flat my) (as_u32 off) (Copy4KPage_get_physical_addr copied_page)))
  else mret my.

Definition cow_handle_pte_entry (vma : ShadowVMA) (addr : Z) (my : Generator COW4KPage) : io W (Generator COW4KPage) :=
  phy_addr ← pmem_get_phy_from_pte addr;
  if (0 <? phy_addr)%Z then
    writable ← has_write_permission vma;
    inner ← (if (writable : bool) then
        page ← pmem_pte_to_page addr;
        cow ← COW4KPage_new page;
        cow ← lift (unwrap cow);
        pmem_clear_pte_write addr ≫= λ _, mret (add_page (gen_inner my) cow)
      else mret (gen_inner my));
    w ← pmem_check_pte_write addr;
    let phy_addr := if (w : bool) then phy_addr else PhysAddr_encode phy_addr (flag_as_u64 FlagReadOnly) in
    start ← VMA_get_start (vma_inner vma);
    off ← lift (u64_sub addr start);
    mret (mkGenerator inner (add_one (gen_flat my) (as_u32 off) phy_addr))
  else mret my.

(** The walk calls the handler for each entry with the visitor ([private]); the
    handlers return 0, go on. *)
Fixpoint walk_entries {A} (handler : Z → A → io W A) (addrs : list Z) (my : A) : io W A :=
  match addrs with
  | [] => mret my
  | addr :: addrs => my ← handler addr my; walk_entries handler addrs my
  end.

(** [VMWalkEngine::walk] *)
Definition engine_walk {A} (handler : Z → A → io W A) (vma : Z) (my : A) : io W A :=
  v ← vm_area_read vma;
  addrs ← walk_page_range (VmArea.vm_start v) (VmArea.vm_end v);
  walk_entries handler addrs my.

Definition VMACopyPTGenerator_generate (vma : ShadowVMA) (my : Generator Copy4KPage) : io W (Generator Copy4KPage) :=
  engine_walk (copy_handle_pte_entry vma) (vma_inner vma) my.

Definition VMACOWPTGenerator_generate (vma : ShadowVMA) (my : Generator COW4KPage) : io W (Generator COW4KPage) :=
  engine_walk (cow_handle_pte_entry vma) (vma_inner vma) my.

(** ** [shadow_process.rs] *)
Record ShadowProcess := mkShadowProcess {
  descriptor : ParentDescriptor;
  shadow_vmas : list ShadowVMA;
  copy_shadow_pagetable : option (ShadowPageTable Copy4KPage);
  cow_shadow_pagetable : option (ShadowPageTable COW4KPage);
}.

Definition get_descriptor_ref (self : ShadowProcess) : ParentDescriptor := descriptor self.

(** The first loop over the VMAs: descriptors, shadow VMAs and empty tables. *)
Fixpoint collect_vmas (fuel : nat) (is_cow : bool) (cur : Z) (vma_descriptors : list VMADescriptor)
    (shadow_vmas : list ShadowVMA) (vma_page_table : list CompactPageTable) :
    io W (list VMADescriptor * list ShadowVMA * list CompactPageTable) :=
  match fuel with
  | 0 => λ _, NoFuel
  | S fuel =>
      '(vma, cur) ← VMAIter_next cur;
      match vma with
      | None => mret (vma_descriptors, shadow_vmas, vma_page_table)
      | Some vma =>
          d ← VMA_generate_descriptor vma;
          s ← ShadowVMA_new vma is_cow;
          collect_vmas fuel is_cow cur (vma_descriptors ++ [d]) (shadow_vmas ++ [s])
            (vma_page_table ++ [CompactPageTable_default])
      end
  end.

(** The second loop: the [idx]-th shadow VMA fills the [idx]-th table. *)
Fixpoint generate_tables {P} (fuel : nat) (generate : ShadowVMA → Generator P → io W (Generator P)) (cur : Z)
    (idx : nat) (shadow_vmas : list ShadowVMA) (shadow_pt : ShadowPageTable P) (vma_page_table : list CompactPageTable) :
    io W (ShadowPageTable P * list CompactPageTable) :=
  match fuel with
  | 0 => λ _, NoFuel
  | S fuel =>
      '(vma, cur) ← VMAIter_next cur;
      match vma with
      | None => mret (shadow_pt, vma_page_table)
      | Some _ =>
          pt ← lift (unwrap (vma_page_table !! idx));
          s_vma ← lift (unwrap (shadow_vmas !! idx));
          g ← generate s_vma (mkGenerator shadow_pt pt);
          generate_tables fuel generate cur (S idx) shadow_vmas (gen_inner g) (<[idx := gen_flat g]> vma_page_table)
      end
  end.

Definition new_cow (fuel : nat) (rdma_descriptor : RDMADescriptor) : io W ShadowProcess :=
  cur ← VMAIter_new;
  '(vma_descriptors, shadow_vmas, vma_page_table) ← collect_vmas fuel true cur [] [] [];
  cur ← VMAIter_new;
  '(shadow_pt, vma_page_table) ←
    generate_tables fuel VMACOWPTGenerator_generate cur 0 shadow_vmas ShadowPageTable_new vma_page_table;
  flush_tlb_mm ≫= λ _,
  regs ← generate_reg_descriptor;
  mret (mkShadowProcess (mkParentDescriptor regs vma_page_table vma_descriptors rdma_descriptor) shadow_vmas
    None (Some shadow_pt)).

Definition new_copy (fuel : nat) (rdma_descriptor : RDMADescriptor) : io W ShadowProcess :=
  cur ← VMAIter_new;
  '(vma_descriptors, shadow_vmas, vma_page_table) ← collect_vmas fuel false cur [] [] [];
  cur ← VMAIter_new;
  '(shadow_pt, vma_page_table) ←
    generate_tables fuel VMACopyPTGenerator_generate cur 0 shadow_vmas ShadowPageTable_new vma_page_table;
  regs ← generate_reg_descriptor;
  mret (mkShadowProcess (mkParentDescriptor regs vma_page_table vma_descriptors rdma_descriptor) shadow_vmas
    (Some shadow_pt) None).

(** Dropping a [Vec] drops its elements in order. *)
Fixpoint drop_all {A} (drop : A → io W ()) (l : list A) : io W () :=
  match l with
  | [] => mret ()
  | x :: l => drop x ≫= λ _, drop_all drop l
  end.

(** Fields are dropped in the order they are declared. *)
Definition ShadowProcess_drop (self : ShadowProcess) : io W () :=
  drop_all ShadowVMA_drop (shadow_vmas self) ≫= λ _,
  match copy_shadow_pagetable self with
  | Some t => drop_all Copy4KPage_drop (table t)
  | None => mret ()
  end ≫= λ _,
  match cow_shadow_pagetable self with
  | Some t => drop_all COW4KPage_drop (table t)
  | None => mret ()
  end.
End ShadowProcess.
Arguments mkShadowPageTable {P}.
Arguments table {P}.
Arguments mkGenerator {P}.
Arguments gen_inner {P}.
Arguments gen_flat {P}.
