(* ===== verification/ShadowSpec.v ===== *)
(** * What the kernel promises about pages

    The part of the machine a snapshot touches, and the laws of the kernel
    functions [PagesApi] on it. *)

From Stdlib Require Import Sorted.
From stdpp Require Import sorting.
From S2P Require Import Prelude Future Rdma Descriptors Task RefTask Machine PageStructures ShadowProcess.

(** Page-table entries of the current process by page address, reference and
    map counts of pages, reference counts of files, contents of page frames and
    the pages in use. *)
Record osview (D : Type) := mkView {
  v_ptes : gmap Z Z;
  v_refs : gmap Z Z;
  v_maps : gmap Z Z;
  v_files : gmap Z Z;
  v_data : gmap Z D;
  v_alloc : gset Z;
}.
Arguments mkView {D}.
Arguments v_ptes {D}.
Arguments v_refs {D}.
Arguments v_maps {D}.
Arguments v_files {D}.
Arguments v_data {D}.
Arguments v_alloc {D}.

(** Counters: an absent entry counts as zero. *)
Definition count (m : gmap Z Z) (k : Z) : Z := default 0%Z (m !! k).
Definition bump (d k : Z) (m : gmap Z Z) : gmap Z Z := <[k := (count m k + d)%Z]> m.

Lemma count_bump d k m k' : count (bump d k m) k' = (count m k' + if decide (k = k') then d else 0)%Z.
Proof.
  unfold count, bump. case_decide as H; [subst; by rewrite lookup_insert_eq|]. rewrite lookup_insert_ne by done. lia.
Qed.

(** How often [x] occurs in [l]. *)
Definition occ (l : list Z) (x : Z) : Z := Z.of_nat (length (filter (λ y, y = x) l)).

Lemma occ_cons y l x : occ (y :: l) x = ((if decide (y = x) then 1 else 0) + occ l x)%Z.
Proof. unfold occ. rewrite filter_cons. case_decide; cbn [length]; lia. Qed.

Lemma occ_nonneg l x : (0 ≤ occ l x)%Z.
Proof. unfold occ. lia. Qed.

Lemma elem_of_concat {A} (x : A) ls : x ∈ concat ls ↔ ∃ l, x ∈ l ∧ l ∈ ls.
Proof. rewrite list_elem_of_In, in_concat. setoid_rewrite list_elem_of_In. firstorder. Qed.

Section View.
Context {D : Type}.
Implicit Types o : osview D.

Definition v_pte o (a : Z) : Z := default 0%Z (v_ptes o !! a).
Definition v_set_pte (a v : Z) o : osview D :=
  mkView (<[a := v]> (v_ptes o)) (v_refs o) (v_maps o) (v_files o) (v_data o) (v_alloc o).
Definition v_ref (d p : Z) o : osview D :=
  mkView (v_ptes o) (bump d p (v_refs o)) (v_maps o) (v_files o) (v_data o) (v_alloc o).
Definition v_map (d p : Z) o : osview D :=
  mkView (v_ptes o) (v_refs o) (bump d p (v_maps o)) (v_files o) (v_data o) (v_alloc o).
Definition v_file (d f : Z) o : osview D :=
  mkView (v_ptes o) (v_refs o) (v_maps o) (bump d f (v_files o)) (v_data o) (v_alloc o).
Definition v_copy (dst src : Z) o : osview D :=
  mkView (v_ptes o) (v_refs o) (v_maps o) (v_files o) (partial_alter (λ _, v_data o !! src) dst (v_data o)) (v_alloc o).
Definition v_set_alloc (ps : gset Z) o : osview D :=
  mkView (v_ptes o) (v_refs o) (v_maps o) (v_files o) (v_data o) ps.
End View.

(** The task is as it was. *)
Definition same_task {W} {ta : TaskApi W} {tok : TaskOk W} (w w' : W) : Prop :=
  areas w' = areas w ∧ user_regs w' = user_regs w ∧ (mm_inv w → mm_inv w').

Section SameTask.
Context {W : Type} {ta : TaskApi W} {tok : TaskOk W}.

#[export] Instance same_task_preorder : PreOrder (same_task (W := W)).
Proof.
  split; [by intros w; split_and!|]. intros w1 w2 w3 (H1 & H2 & H3) (H4 & H5 & H6). split_and!; [congruence..|by auto].
Qed.
End SameTask.

(** The walk visits page addresses of the range in increasing order, among them
    all that have an entry. *)
Class PagesOk (W : Type) {ta : TaskApi W} {tok : TaskOk W} {pa : PagesApi W} {kn : Kernel W}
    {kt : KTimerApi W} {kt_ok : KTimerOk W} {kr : KRdmaKit W} {nic : NicOk W} {kn_ok : KernelOk W} := {
  PageData : Type;
  os : W → osview PageData;
  is_page : Z → Prop;
  os_allocated w : v_alloc (os w) = allocated w;
  walk_ok s e w : ∃ l, walk_page_range s e w = Ret (l, w) ∧ StronglySorted Z.lt l ∧
    (∀ a, a ∈ l → (s ≤ a < e)%Z ∧ (4096 | a)%Z) ∧
    (∀ a, (s ≤ a < e)%Z → (4096 | a)%Z → is_Some (v_ptes (os w) !! a) → a ∈ l);
  pte_val_ok a w : pte_val a w = Ret (v_pte (os w) a, w);
  set_pte_ok a v w : ∃ w', set_pte a v w = Ret ((), w') ∧ os w' = v_set_pte a v (os w) ∧ same_task w w';
  pte_clear_rw_ok v : pte_write (pte_clear_rw v) = false ∧ phy_of_pte (pte_clear_rw v) = phy_of_pte v;
  pte_page_ok p v : is_page p → pmem_page_to_phy p = phy_of_pte v → pte_page v = p;
  get_page_ok p w : ∃ w', get_page p w = Ret ((), w') ∧ os w' = v_ref 1 p (os w) ∧ same_task w w';
  put_page_ok p w : (1 < count (v_refs (os w)) p)%Z →
    ∃ w', put_page p w = Ret ((), w') ∧ os w' = v_ref (-1) p (os w) ∧ same_task w w';
  mapcount_inc_ok p w : ∃ w', mapcount_inc p w = Ret ((), w') ∧ os w' = v_map 1 p (os w) ∧ same_task w w';
  mapcount_dec_ok p w : ∃ w', mapcount_dec p w = Ret ((), w') ∧ os w' = v_map (-1) p (os w) ∧ same_task w w';
  get_file_ok f w : ∃ w', get_file f w = Ret ((), w') ∧ os w' = v_file 1 f (os w) ∧ same_task w w';
  fput_ok f w : (1 < count (v_files (os w)) f)%Z →
    ∃ w', fput f w = Ret ((), w') ∧ os w' = v_file (-1) f (os w) ∧ same_task w w';
  flush_tlb_mm_ok w : ∃ w', flush_tlb_mm w = Ret ((), w') ∧ os w' = os w ∧ same_task w w';
  read_user_ok va dst w : (4096 | va)%Z → (0 < phy_of_pte (v_pte (os w) va))%Z →
    ∃ w', read_user va 4096 (phys_to_virt dst) w = Ret (Ok (), w') ∧
      os w' = v_copy dst (phy_of_pte (v_pte (os w) va)) (os w) ∧ same_task w w';
  alloc_page_os gfp w p w' : pmem_alloc_page gfp w = Ret (p, w') → p ≠ 0%Z →
    os w' = v_set_alloc ({[p]} ∪ v_alloc (os w)) (os w) ∧ same_task w w' ∧ is_page p;
  free_page_os p w w' : pmem_free_page p w = Ret ((), w') →
    os w' = v_set_alloc (v_alloc (os w) ∖ {[p]}) (os w) ∧ same_task w w';
  page_not_null p : is_page p → p ≠ 0%Z;
  page_to_phy_inj p q : is_page p → is_page q → pmem_page_to_phy p = pmem_page_to_phy q → p = q;
  page_to_phy_ok p : is_page p → (0 < pmem_page_to_phy p < 2 ^ 52)%Z ∧ (4096 | pmem_page_to_phy p)%Z;
  get_regs_ok w : current_pt_regs w = Ret (others (user_regs w), w) ∧
    pmem_arch_get_my_fs w = Ret (fs (user_regs w), w) ∧ pmem_arch_get_my_gs w = Ret (gs (user_regs w), w) }.

Section ShadowSpec.
Context {W : Type} {ta : TaskApi W} {tok : TaskOk W} {pa : PagesApi W} {kn : Kernel W} {vc : VmConsts}.
Context {kt : KTimerApi W} {kt_ok : KTimerOk W} {kr : KRdmaKit W} {nic : NicOk W} {kn_ok : KernelOk W}.
Context {pok : PagesOk W}.
Implicit Types o : osview PageData.

(** ** The pages of a VMA *)
Definition frame_of o (a : Z) : Z := phy_of_pte (v_pte o a).
Definition is_mapped o (a : Z) : Prop := (0 < frame_of o a)%Z.

#[export] Instance is_mapped_dec o a : Decision (is_mapped o a).
Proof. unfold is_mapped. apply _. Defined.

(** The page addresses of an area that have a page, in increasing order. *)
Definition page_addrs o (v : VmArea.t) (l : list Z) : Prop :=
  StronglySorted Z.lt l ∧
  ∀ a, a ∈ l ↔ (4096 | a)%Z ∧ (VmArea.vm_start v ≤ a < VmArea.vm_end v)%Z ∧ is_mapped o a.

(** Every entry of the process names the frame of a page in use. *)
Definition resident o : Prop :=
  ∀ a, is_mapped o a → ∃ p, is_page p ∧ p ∈ v_alloc o ∧ pmem_page_to_phy p = frame_of o a.

Lemma StronglySorted_filter (P : Z → Prop) `{∀ x, Decision (P x)} l :
  StronglySorted Z.lt l → StronglySorted Z.lt (filter P l).
Proof.
  induction 1 as [|x l Hl IH Hx]; [constructor|]. rewrite filter_cons. case_decide; [|done].
  constructor; [done|]. by apply Forall_list_filter.
Qed.

Lemma walk_page_addrs o s e v l :
  VmArea.vm_start v = s → VmArea.vm_end v = e → StronglySorted Z.lt l →
  (∀ a, a ∈ l → (s ≤ a < e)%Z ∧ (4096 | a)%Z) →
  (∀ a, (s ≤ a < e)%Z → (4096 | a)%Z → is_Some (v_ptes o !! a) → a ∈ l) →
  page_addrs o v (filter (is_mapped o) l).
Proof.
  intros <- <- Hs Hin Hall. split; [by apply StronglySorted_filter|]. intros a. rewrite list_elem_of_filter. split.
  - intros [Hm Ha]. specialize (Hin a Ha). tauto.
  - intros (Ha & Hr & Hm). split; [done|]. apply Hall; [done..|]. unfold is_mapped, frame_of, v_pte in Hm.
    destruct (v_ptes o !! a); [by eexists|]. done.
Qed.

Lemma sorted_NoDup k : StronglySorted Z.lt k → NoDup k.
Proof.
  induction 1 as [|x k _ IH Hx]; constructor; [|done]. intros Hin. rewrite Forall_forall in Hx. specialize (Hx x Hin). lia.
Qed.

Lemma page_addrs_unique o v l l' : page_addrs o v l → page_addrs o v l' → l = l'.
Proof.
  intros [Hs H] [Hs' H']. apply (StronglySorted_unique_strong Z.lt); [lia|done|done|].
  apply NoDup_Permutation; [by apply sorted_NoDup..|]. intros a. by rewrite H, H'.
Qed.

(** VMAs do not overlap, so no page address belongs to two of them. *)
Lemma page_addrs_NoDup o l ls : ordered l → Forall2 (page_addrs o) l.*2 ls → NoDup (concat ls).
Proof.
  revert ls. induction l as [|[p v] l IH]; intros ls Ho Hls; cbn in Hls.
  { apply Forall2_nil_inv_l in Hls as ->. constructor. }
  apply Forall2_cons_inv_l in Hls as (k & ks & [Hs Hk] & Hls & ->). destruct Ho as (_ & _ & Hlt & Ho). cbn.
  apply NoDup_app. split_and!; [by apply sorted_NoDup| |by apply IH]. intros a Ha (k' & Ha' & Hk')%elem_of_concat.
  apply list_elem_of_lookup in Hk' as [i Hi]. destruct (Forall2_lookup_r _ _ _ _ _ Hls Hi) as (u & Hu & [_ Hku]).
  apply list_elem_of_lookup_2, list_elem_of_fmap in Hu as ([q u'] & -> & Hin). rewrite Forall_forall in Hlt.
  specialize (Hlt _ Hin). cbn in Hlt. apply Hk in Ha. apply Hku in Ha'. cbn in Ha'. lia.
Qed.

(** [t] lists the pages of the area in [o], by their offset, and in [o'] the
    frames it names hold what the area's pages hold in [o]. *)
Definition snapshot_table o o' (v : VmArea.t) (t : CompactPageTable) : Prop :=
  ∃ l, page_addrs o v l ∧ (inner_pg_table t).*1 = (λ a, as_u32 (a - VmArea.vm_start v)) <$> l ∧
    Forall2 (λ a e, is_u64 e ∧ (0 < PhysAddr_decode e)%Z ∧ v_data o' !! PhysAddr_decode e = v_data o !! frame_of o a)
      l (inner_pg_table t).*2.

Lemma area_walk w v p l :
  mm_inv w → (p, v) ∈ areas w → page_addrs (os w) v l →
  ∃ k, walk_page_range (VmArea.vm_start v) (VmArea.vm_end v) w = Ret (k, w) ∧ filter (is_mapped (os w)) k = l ∧ NoDup k ∧
    ∀ a, a ∈ k → (0 ≤ VmArea.vm_start v ≤ a)%Z ∧ (a < 2 ^ 64)%Z ∧ (4096 | a)%Z.
Proof.
  intros Hinv Hin Hl. destruct (walk_ok (VmArea.vm_start v) (VmArea.vm_end v) w) as (k & E & Hs & Hk & Hall).
  exists k. split_and!; [done| | |].
  - eapply page_addrs_unique; [|exact Hl]. by eapply walk_page_addrs.
  - by apply sorted_NoDup.
  - intros a Ha. destruct (Hk a Ha) as [Hr H4]. pose proof (areas_ok w Hinv) as (_ & _ & Ho).
    destruct (ordered_elem _ _ _ Ho Hin). split_and!; [lia..|done].
Qed.

(** ** The VMAs *)
Definition area_desc (v : VmArea.t) : VMADescriptor :=
  mkVMADescriptor (VmArea.vm_start v, VmArea.vm_end v) (VmArea.vm_flags v) (VmArea.vm_page_prot v) (VmArea.vm_ops v =? 0)%Z.

Definition shadow_of (cow : bool) (x : Z * VmArea.t) : ShadowVMA := mkShadowVMA x.1 (VmArea.vm_file x.2) cow.

(** The files a shadow process holds a reference to. *)
Definition files_of (cow : bool) (l : list (Z * VmArea.t)) : list Z :=
  if cow then filter (λ f, f ≠ 0%Z) ((λ x, VmArea.vm_file x.2) <$> l) else [].

Definition os_files (d : Z) (fs : list Z) o : osview PageData := foldl (λ o f, v_file d f o) o fs.

Lemma generate_descriptor_ok w p v :
  mm_inv w → (p, v) ∈ areas w → VMA_generate_descriptor p w = Ret (area_desc v, w).
Proof.
  intros Hinv Hin. pose proof (vm_area_read_ok w p v Hinv Hin) as E.
  assert (Er : VMA_get_range p w = Ret ((VmArea.vm_start v, VmArea.vm_end v), w)).
  { unfold VMA_get_range, VMA_get_start, VMA_get_end. erewrite io_bind_run; [|by step E]. cbv beta.
    erewrite io_bind_run; [|by step E]. done. }
  unfold VMA_generate_descriptor. step Er. unfold VMA_get_raw_flags, VMA_get_prot, VMA_is_anonymous.
  do 3 (erewrite io_bind_run; [|by step E]; cbv beta). done.
Qed.

Lemma ShadowVMA_new_ok w p v cow :
  mm_inv w → (p, v) ∈ areas w →
  ∃ w', ShadowVMA_new p cow w = Ret (shadow_of cow (p, v), w') ∧ os w' = os_files 1 (files_of cow [(p, v)]) (os w) ∧ same_task w w'.
Proof.
  intros Hinv Hin. unfold ShadowVMA_new, VMA_get_file_ptr. pose proof (vm_area_read_ok w p v Hinv Hin) as E.
  erewrite io_bind_run; [|by step E]. cbv beta. unfold files_of. destruct cow; [|rewrite andb_false_r; by exists w].
  cbn [fmap list_fmap snd]. rewrite andb_true_r, filter_cons. destruct (Z.eqb_spec (VmArea.vm_file v) 0) as [H|H]; cbn [negb].
  - rewrite decide_False by (by intros []). by exists w.
  - rewrite decide_True by done. destruct (get_file_ok (VmArea.vm_file v) w) as (w' & Ef & Ho & Ht). unfold pmem_get_file.
    step Ef. by exists w'.
Qed.

Lemma os_files_app d l1 l2 o : os_files d (l1 ++ l2) o = os_files d l2 (os_files d l1 o).
Proof. apply foldl_app. Qed.

Lemma files_of_cons cow x l : files_of cow (x :: l) = files_of cow [x] ++ files_of cow l.
Proof. unfold files_of. destruct cow; [|done]. cbn [fmap list_fmap]. by rewrite <- filter_app. Qed.

Lemma collect_vmas_ok fuel cow w l1 l2 ds ss ts :
  mm_inv w → areas w = l1 ++ l2 → length l2 < fuel →
  ∃ w', collect_vmas fuel cow (head_ptr l2) ds ss ts w =
      Ret ((ds ++ (area_desc <$> l2.*2), ss ++ (shadow_of cow <$> l2), ts ++ replicate (length l2) CompactPageTable_default), w') ∧
    os w' = os_files 1 (files_of cow l2) (os w) ∧ same_task w w'.
Proof.
  revert w l1 ds ss ts fuel. induction l2 as [|[p v] l2 IH]; intros w l1 ds ss ts [|fuel] Hinv El Hf; try (cbn in Hf; lia); cbn [collect_vmas head_ptr].
  { step (VMAIter_next_end w). exists w. cbn. rewrite !app_nil_r. split_and!; [done|by destruct cow|done..]. }
  step (VMAIter_next_ok w l1 p v l2 Hinv El).
  assert (Hin : (p, v) ∈ areas w) by (rewrite El; apply elem_of_app; right; left).
  step (generate_descriptor_ok w p v Hinv Hin).
  destruct (ShadowVMA_new_ok w p v cow Hinv Hin) as (w1 & E1 & Ho1 & Ht1). step E1. pose proof Ht1 as (Hl1 & _ & Hi1).
  destruct (IH w1 (l1 ++ [(p, v)]) (ds ++ [area_desc v]) (ss ++ [shadow_of cow (p, v)]) (ts ++ [CompactPageTable_default]) fuel)
    as (w' & E' & Ho' & Ht'); [by apply Hi1|by rewrite Hl1, El, <- app_assoc|cbn in Hf; lia|].
  exists w'. rewrite E', Ho', Ho1, <- os_files_app, <- files_of_cons. split_and!; [|done|by etransitivity].
  cbn. by rewrite <- !app_assoc.
Qed.

Lemma os_files_frame d fs o :
  v_ptes (os_files d fs o) = v_ptes o ∧ v_refs (os_files d fs o) = v_refs o ∧ v_maps (os_files d fs o) = v_maps o ∧
  v_data (os_files d fs o) = v_data o ∧ v_alloc (os_files d fs o) = v_alloc o.
Proof. revert o. induction fs as [|f fs IH]; intros o; [done|]. apply (IH (v_file d f o)). Qed.

Lemma os_files_count d fs o f : count (v_files (os_files d fs o)) f = (count (v_files o) f + d * occ fs f)%Z.
Proof.
  revert o. induction fs as [|g fs IH]; intros o; [unfold occ; cbn; lia|]. change (os_files d (g :: fs) o) with (os_files d fs (v_file d g o)).
  rewrite IH, occ_cons. cbn [v_file v_files]. rewrite count_bump. case_decide; lia.
Qed.

Lemma generate_reg_descriptor_ok w : generate_reg_descriptor w = Ret (user_regs w, w).
Proof.
  unfold generate_reg_descriptor, get_stack_registers. destruct (get_regs_ok w) as (E1 & E2 & E3).
  step E1. step E2. step E3. by destruct (user_regs w).
Qed.

(** One round of the second loop: the generator of the VMA fills its table. *)
Lemma generate_tables_step {P} (gen : ShadowVMA → Generator P → io W (Generator P)) fuel cow w w1 l1 p v l2 spt ts g :
  mm_inv w → areas w = l1 ++ (p, v) :: l2 → length ts = length l1 →
  gen (shadow_of cow (p, v)) (mkGenerator spt CompactPageTable_default) w = Ret (g, w1) →
  generate_tables (S fuel) gen p (length l1) (shadow_of cow <$> l1 ++ (p, v) :: l2) spt
    (ts ++ replicate (S (length l2)) CompactPageTable_default) w =
  generate_tables fuel gen (head_ptr l2) (length (l1 ++ [(p, v)])) (shadow_of cow <$> (l1 ++ [(p, v)]) ++ l2) (gen_inner g)
    ((ts ++ [gen_flat g]) ++ replicate (length l2) CompactPageTable_default) w1.
Proof.
  intros Hinv El Hts E. cbn [generate_tables]. step (VMAIter_next_ok w l1 p v l2 Hinv El).
  rewrite (io_lift_run _ _ _ CompactPageTable_default); [|rewrite lookup_app_r, Hts, Nat.sub_diag by lia; done]. cbv beta.
  rewrite (io_lift_run _ _ _ (shadow_of cow (p, v))); [|rewrite list_lookup_fmap, lookup_app_r, Nat.sub_diag by lia; done]. cbv beta.
  step E. rewrite insert_app_r_alt, Hts, Nat.sub_diag by lia. cbn [replicate]. rewrite length_app, Nat.add_1_r.
  by rewrite <- !app_assoc.
Qed.
End ShadowSpec.
