(* ===== verification/RefPages.v ===== *)
(** * Pages of the concrete machine

    The kernel functions of [PagesApi] on [ref_machine]: page-table entries,
    counters and page contents are the maps of [ref_mem]. *)

From Stdlib Require Import Sorted.
From stdpp Require Import sorting.
From S2P Require Import Prelude Future Rdma Descriptors Task RefTask Machine PageStructures ShadowProcess ShadowSpec.

Definition ref_view (w : ref_machine) : osview Z :=
  let m := ref_memory w in mkView (rm_ptes m) (rm_refs m) (rm_maps m) (rm_files m) (rm_data m) (ref_pages w).

Definition ref_put (o : osview Z) (w : ref_machine) : ref_machine :=
  ref_set_pages (v_alloc o) (ref_set_memory (mkRefMem (v_ptes o) (v_refs o) (v_maps o) (v_files o) (v_data o)) w).

Definition ref_modify (f : osview Z → osview Z) : io ref_machine () := λ w, Ret ((), ref_put (f (ref_view w)) w).

Definition ref_entries (s e : Z) (w : ref_machine) : list Z :=
  merge_sort Z.le (filter (λ a, (s ≤ a < e)%Z ∧ (a `mod` 4096 = 0)%Z) (map_to_list (rm_ptes (ref_memory w))).*1).

(** Bit 1 of an entry is its write bit; the frame number starts at bit 12. *)
#[export] Instance ref_PagesApi : PagesApi ref_machine := {|
  walk_page_range := λ s e w, Ret (ref_entries s e w, w);
  pte_val := λ a w, Ret (v_pte (ref_view w) a, w);
  set_pte := λ a v, ref_modify (v_set_pte a v);
  pte_clear_rw := λ v, Z.clearbit v 1;
  pte_write := λ v, Z.testbit v 1;
  pte_page := λ v, (phy_of_pte v / 64)%Z;
  get_page := λ p, ref_modify (v_ref 1 p);
  put_page := λ p, ref_modify (v_ref (-1) p);
  mapcount_inc := λ p, ref_modify (v_map 1 p);
  mapcount_dec := λ p, ref_modify (v_map (-1) p);
  get_file := λ f, ref_modify (v_file 1 f);
  fput := λ f, ref_modify (v_file (-1) f);
  flush_tlb_mm := λ w, Ret ((), w);
  phys_to_virt := λ p, p;
  read_user := λ va _ dst w, Ret (Ok (), ref_put (v_copy dst (phy_of_pte (v_pte (ref_view w) va)) (ref_view w)) w);
  GFP_KERNEL := 0 |}.

Lemma ref_view_put o w : ref_view (ref_put o w) = o.
Proof. by destruct o. Qed.

Lemma ref_put_task o w : same_task w (ref_put o w).
Proof. by split_and!. Qed.

Lemma ref_modify_ok f w : ∃ w', ref_modify f w = Ret ((), w') ∧ ref_view w' = f (ref_view w) ∧ same_task w w'.
Proof. exists (ref_put (f (ref_view w)) w). split_and!; [done|by rewrite ref_view_put|apply ref_put_task]. Qed.

Lemma sorted_le_lt (l : list Z) : NoDup l → StronglySorted Z.le l → StronglySorted Z.lt l.
Proof.
  intros Hnd. induction 1 as [|x l Hl IH Hx]; [constructor|]. apply NoDup_cons in Hnd as [Hn Hnd]. constructor; [by apply IH|].
  rewrite Forall_forall in Hx |- *. intros y Hy. specialize (Hx y Hy). destruct (decide (x = y)); [by subst|lia].
Qed.

Lemma ref_entries_ok s e w :
  StronglySorted Z.lt (ref_entries s e w) ∧
  ∀ a, a ∈ ref_entries s e w ↔ ((s ≤ a < e)%Z ∧ (4096 | a)%Z) ∧ is_Some (rm_ptes (ref_memory w) !! a).
Proof.
  unfold ref_entries. set (l := filter _ _). assert (Hp := merge_sort_Permutation Z.le l). split.
  - apply sorted_le_lt; [|apply (StronglySorted_merge_sort Z.le)]. rewrite Hp. unfold l.
    apply NoDup_filter, NoDup_fst_map_to_list.
  - intros a. rewrite Hp. unfold l. rewrite list_elem_of_filter, <- (Z.mod_divide a 4096) by done. apply and_iff_compat_l. rewrite list_elem_of_fmap. split.
    + intros ([b v] & -> & Hb%elem_of_map_to_list). by exists v.
    + intros [v Hv]. exists (a, v). split; [done|]. by apply elem_of_map_to_list.
Qed.

Lemma clear_rw_frame v : phy_of_pte (Z.clearbit v 1) = phy_of_pte v.
Proof.
  unfold phy_of_pte. bits_ext i Hi. rewrite !Z.land_spec, Z.clearbit_eqb. destruct (Z.eqb_spec 1 i) as [<-|]; cbn [negb].
  - by rewrite !andb_false_r.
  - by rewrite andb_true_r.
Qed.

Lemma ref_free_page_struct ps : ref_free_page ps ≠ 0%Z → ref_free_page ps ∈ ref_page_structs.
Proof.
  unfold ref_free_page. destruct (filter _ ref_page_structs) as [|p l] eqn:E; [done|]. intros _.
  assert (Hin : p ∈ filter (λ p, p ∉ ps) ref_page_structs) by (rewrite E; left). by apply list_elem_of_filter in Hin as [_ ?].
Qed.

Lemma ref_page_struct_ok p : p ∈ ref_page_structs → ∃ k, p = (64 * k)%Z ∧ (0 < k ≤ 1024)%Z.
Proof. intros (k & -> & Hk)%list_elem_of_fmap. apply elem_of_seq in Hk. exists (Z.of_nat k). lia. Qed.

#[export] Instance ref_PagesOk : PagesOk ref_machine.
Proof.
  refine {| os := ref_view; is_page := λ p, p ∈ ref_page_structs |}; try (intros; apply ref_modify_ok); try done.
  - intros s e w. exists (ref_entries s e w). destruct (ref_entries_ok s e w) as [Hs Hin]. split_and!; [done|done| |].
    + intros a Ha. by apply Hin in Ha as [? _].
    + intros a Hr H4 Hv. by apply Hin.
  - intros v. split; [apply Z.clearbit_eq|apply clear_rw_frame].
  - intros p v Hp E. cbn in *. rewrite <- E. by rewrite Z.div_mul.
  - intros w. by exists w.
  - intros va dst w _ _. eexists. split; [done|]. split; [by rewrite ref_view_put|apply ref_put_task].
  - intros gfp w p w' [= <- <-] Hp. split_and!; [| |by apply ref_free_page_struct].
    + cbn. by rewrite (proj2 (Z.eqb_neq _ _)).
    + by split_and!.
  - intros p w w' [= <-]. split; [done|]. by split_and!.
  - intros p Hp. apply ref_page_struct_ok in Hp as (k & -> & Hk). lia.
  - intros p q _ _. cbn. lia.
  - intros p Hp. apply ref_page_struct_ok in Hp as (k & -> & Hk). cbn. split; [lia|]. exists k. lia.
  - by intros [].
Defined.

(** ** An example: a process with one writable, file-backed VMA of three pages,
    the second of which it has not touched. *)
Definition example_area : VmArea.t := VmArea.mk 4194304 4206592 0 3 37 7 500.

Definition example_process : ref_machine :=
  ref_set_tsk (mkRefTask [(1%Z, example_area)] (rt_regs ref_idle) 2)
    (ref_set_pages {[64%Z; 128%Z]}
      (ref_set_memory
        (mkRefMem {[4194304%Z := 4199%Z; 4202496%Z := 8295%Z]} {[64%Z := 1%Z; 128%Z := 1%Z]}
          {[64%Z := 1%Z; 128%Z := 1%Z]} {[500%Z := 1%Z]} {[4096%Z := 11%Z; 8192%Z := 22%Z]})
        ref_boot)).

Lemma example_process_inv : mm_inv example_process.
Proof.
  split; cbn.
  - apply (bool_decide_unpack _). vm_compute. done.
  - split_and!; lia.
  - split; [lia|]. split; [lia|]. by split.
  - repeat constructor; cbn; lia.
  - lia.
Qed.

Lemma example_process_mapped a : is_mapped (os example_process) a ↔ a = 4194304%Z ∨ a = 4202496%Z.
Proof.
  unfold is_mapped, frame_of, v_pte. cbn [v_ptes os ref_PagesOk ref_view ref_memory example_process ref_set_tsk ref_set_pages ref_set_memory rm_ptes]. split.
  - destruct (decide (a = 4194304%Z)); [by left|]. destruct (decide (a = 4202496%Z)); [by right|].
    rewrite lookup_insert_ne, lookup_singleton_ne by done. done.
  - intros [-> | ->]; vm_compute; done.
Qed.

Lemma example_process_pages :
  Forall2 (page_addrs (os example_process)) (areas example_process).*2 [[4194304; 4202496]%Z].
Proof.
  constructor; [|constructor]. split; [repeat constructor|]. intros a. rewrite example_process_mapped.
  rewrite elem_of_cons, list_elem_of_singleton. split; [|tauto]. intros [-> | ->].
  - split; [by exists 1024%Z|]. split; [cbn; lia|by left].
  - split; [by exists 1026%Z|]. split; [cbn; lia|by right].
Qed.

Lemma example_process_resident : resident (os example_process).
Proof.
  intros a [-> | ->]%example_process_mapped.
  - exists 64%Z. split_and!; [|by apply (bool_decide_unpack _); vm_compute|by vm_compute].
    apply (list_elem_of_fmap_2 (λ k, 64 * Z.of_nat k)%Z (seq 1 1024) 1). apply elem_of_seq. lia.
  - exists 128%Z. split_and!; [|by apply (bool_decide_unpack _); vm_compute|by vm_compute].
    apply (list_elem_of_fmap_2 (λ k, 64 * Z.of_nat k)%Z (seq 1 1024) 2). apply elem_of_seq. lia.
Qed.
