(* ===== verification/ShadowCopy.v ===== *)
(** * Snapshots by copying ([ShadowProcess::new_copy])

    The descriptor of a copied process lists, for each VMA, exactly the pages
    the process has there, and the local pages it names hold what the process's
    pages held; the process itself is not touched. *)

From Stdlib Require Import Sorted.
From S2P Require Import Prelude Future Rdma Descriptors Task RefTask Machine PageStructures ShadowProcess ShadowSpec RefPages.
Import PhysAddrFacts.

Section ShadowCopy.
Context {W : Type} {ta : TaskApi W} {tok : TaskOk W} {pa : PagesApi W} {kn : Kernel W} {vc : VmConsts}.
Context {kt : KTimerApi W} {kt_ok : KTimerOk W} {kr : KRdmaKit W} {nic : NicOk W} {kn_ok : KernelOk W}.
Context {pok : PagesOk W}.
Implicit Types o : osview PageData.

(** ** One copied page *)
Definition os_copied (a p : Z) o : osview PageData :=
  v_copy (pmem_page_to_phy p) (frame_of o a) (v_set_alloc ({[p]} ∪ v_alloc o) o).

Definition copies (aps : list (Z * Z)) o : osview PageData := foldl (λ o ap, os_copied ap.1 ap.2 o) o aps.

Lemma Copy4KPage_new_ok a w :
  (4096 | a)%Z → is_mapped (os w) a → size (v_alloc (os w)) < mem_pages →
  ∃ p w', Copy4KPage_new a w = Ret (Some (mkCopy4KPage p), w') ∧ os w' = os_copied a p (os w) ∧ same_task w w' ∧
    (p ∉ v_alloc (os w)) ∧ is_page p.
Proof.
  intros Ha Hm Hs. rewrite os_allocated in *.
  destruct (alloc_page_ok GFP_KERNEL w Hs) as (p & w1 & E1 & Hp & _ & _ & Hp0 & _).
  destruct (alloc_page_os _ _ _ _ E1) as (Ho1 & Ht1 & Hpg); [lia|].
  destruct (read_user_ok a (pmem_page_to_phy p) w1 Ha) as (w2 & E2 & Ho2 & Ht2); [by rewrite Ho1|].
  exists p, w2. split_and!; [| |by etransitivity|done|done].
  - unfold Copy4KPage_new. rewrite (io_bind_run _ _ _ _ _ E1), (proj2 (Z.eqb_neq _ _)) by lia. cbv zeta.
    unfold pmem_phys_to_virt. by rewrite (io_bind_run _ _ _ _ _ E2).
  - rewrite Ho2, Ho1. unfold os_copied. by rewrite !os_allocated.
Qed.

(** The handler on an entry that has a page. *)
Lemma copy_handle_mapped vma v a my w :
  mm_inv w → (vma_inner vma, v) ∈ areas w → (0 ≤ VmArea.vm_start v ≤ a)%Z → (a < 2 ^ 64)%Z → (4096 | a)%Z →
  is_mapped (os w) a → size (v_alloc (os w)) < mem_pages →
  ∃ p w', copy_handle_pte_entry vma a my w =
      Ret (mkGenerator (add_page (gen_inner my) (mkCopy4KPage p))
        (add_one (gen_flat my) (as_u32 (a - VmArea.vm_start v)) (pmem_page_to_phy p)), w') ∧
    os w' = os_copied a p (os w) ∧ same_task w w' ∧ (p ∉ v_alloc (os w)) ∧ is_page p.
Proof.
  intros Hinv Hin Hr Hu Ha Hm Hs. destruct (Copy4KPage_new_ok a w Ha Hm Hs) as (p & w1 & E1 & Ho1 & Ht1 & Hp & Hpg).
  exists p, w1. split_and!; [|done..]. unfold copy_handle_pte_entry, pmem_get_phy_from_pte.
  erewrite io_bind_run; [|by step (pte_val_ok a w)]. fold (frame_of (os w) a).
  rewrite (proj2 (Z.ltb_lt _ _)) by done. step E1. rewrite (io_lift_run _ _ _ (mkCopy4KPage p) eq_refl). cbv beta.
  destruct Ht1 as (Hl1 & _ & Hi1). rewrite <- Hl1 in Hin.
  erewrite io_bind_run; [|unfold VMA_get_start; by step (vm_area_read_ok w1 _ v (Hi1 Hinv) Hin)]. cbv beta.
  erewrite io_lift_run; [|apply u64_sub_Ret; unfold is_u64; lia]. done.
Qed.

Lemma copy_handle_unmapped vma a my w :
  ¬ is_mapped (os w) a → copy_handle_pte_entry vma a my w = Ret (my, w).
Proof.
  intros Hm. unfold copy_handle_pte_entry, pmem_get_phy_from_pte. erewrite io_bind_run; [|by step (pte_val_ok a w)].
  fold (frame_of (os w) a). rewrite (proj2 (Z.ltb_ge _ _)); [done|]. unfold is_mapped in Hm. lia.
Qed.

Lemma size_new_page (p : Z) (ps : gset Z) : p ∉ ps → size ({[p]} ∪ ps) = S (size ps).
Proof. intros H. rewrite size_union by set_solver. by rewrite size_singleton. Qed.

(** ** The walk of one VMA *)
Abbreviation flat_entry := (λ (v : VmArea.t) (a p : Z), (as_u32 (a - VmArea.vm_start v), pmem_page_to_phy p)).
Abbreviation mapped_in o l := (filter (is_mapped o) l).

Lemma walk_copy_ok vma v l my w :
  mm_inv w → (vma_inner vma, v) ∈ areas w →
  (∀ a, a ∈ l → (0 ≤ VmArea.vm_start v ≤ a)%Z ∧ (a < 2 ^ 64)%Z ∧ (4096 | a)%Z) →
  size (v_alloc (os w)) + length (mapped_in (os w) l) ≤ mem_pages →
  ∃ ps w', walk_entries (copy_handle_pte_entry vma) l my w =
      Ret (mkGenerator (mkShadowPageTable (table (gen_inner my) ++ (mkCopy4KPage <$> ps)))
        (mkCompactPageTable (inner_pg_table (gen_flat my) ++ zip_with (flat_entry v) (mapped_in (os w) l) ps)), w') ∧
    length ps = length (mapped_in (os w) l) ∧ os w' = copies (zip (mapped_in (os w) l) ps) (os w) ∧ same_task w w' ∧
    NoDup ps ∧ (∀ p, p ∈ ps → (p ∉ v_alloc (os w)) ∧ is_page p).
Proof.
  revert my w. induction l as [|a l IH]; intros my w Hinv Hin Hl Hs.
  { exists [], w. cbn. rewrite !app_nil_r. destruct my as [[t] [f]]. split_and!; [done|done|done|done|constructor|by intros p ?%elem_of_nil]. }
  destruct (Hl a ltac:(left)) as (Ha & Hau & Ha4). cbn [walk_entries]. rewrite filter_cons in *. case_decide as Hm.
  - destruct (copy_handle_mapped vma v a my w Hinv Hin) as (p & w1 & E1 & Ho1 & Ht1 & Hp & Hpg); [lia|lia|done..|cbn in Hs; lia|].
    step E1. assert (Hf : mapped_in (os w1) l = mapped_in (os w) l) by (by rewrite Ho1).
    assert (Hal : v_alloc (os w1) = {[p]} ∪ v_alloc (os w)) by (by rewrite Ho1).
    pose proof Ht1 as (Hl1 & Hr1 & Hi1).
    edestruct (IH (mkGenerator (add_page (gen_inner my) (mkCopy4KPage p)) (add_one (gen_flat my) (as_u32 (a - VmArea.vm_start v)) (pmem_page_to_phy p))) w1)
      as (ps & w' & E' & Hlen & Ho' & Ht' & Hnd & Hps).
    + by apply Hi1.
    + by rewrite Hl1.
    + intros b Hb. apply Hl. by right.
    + rewrite Hf, Hal, size_new_page by done. cbn in Hs. lia.
    + exists (p :: ps), w'. rewrite Hf in *. rewrite E'. split_and!.
      * cbn. by rewrite <- !app_assoc.
      * cbn. by rewrite Hlen.
      * by rewrite Ho', Ho1.
      * by etransitivity.
      * constructor; [|done]. intros Hpp. apply Hps in Hpp as [Hpp _]. set_solver.
      * rewrite Hal in Hps. intros q [->|Hq]%elem_of_cons; [done|]. apply Hps in Hq as [? ?]. split; [set_solver|done].
  - step (copy_handle_unmapped vma a my w Hm). apply IH; [done|done| |done]. intros b Hb. apply Hl. by right.
Qed.

(** ** What the copies hold *)
Lemma copies_frame aps o :
  v_ptes (copies aps o) = v_ptes o ∧ v_refs (copies aps o) = v_refs o ∧ v_maps (copies aps o) = v_maps o ∧
  v_files (copies aps o) = v_files o ∧ v_alloc (copies aps o) = list_to_set aps.*2 ∪ v_alloc o.
Proof.
  revert o. induction aps as [|[a p] aps IH]; intros o; [cbn; split_and!; try done; set_solver|].
  change (copies ((a, p) :: aps) o) with (copies aps (os_copied a p o)). destruct (IH (os_copied a p o)) as (-> & -> & -> & -> & ->). cbn. split_and!; try done. set_solver.
Qed.

Lemma copies_data aps o :
  resident o → NoDup aps.*2 → Forall (λ ap, is_mapped o ap.1 ∧ (ap.2 ∉ v_alloc o) ∧ is_page ap.2) aps →
  (∀ q, is_page q → q ∈ v_alloc o → v_data (copies aps o) !! pmem_page_to_phy q = v_data o !! pmem_page_to_phy q) ∧
  Forall (λ ap, v_data (copies aps o) !! pmem_page_to_phy ap.2 = v_data o !! frame_of o ap.1) aps.
Proof.
  revert o. induction aps as [|[a p] aps IH]; intros o Hres Hnd Hok; [done|].
  cbn in Hnd. apply NoDup_cons in Hnd as [Hp Hnd]. apply Forall_cons in Hok as [(Hm & Hpa & Hpg) Hok]. cbn [fst snd] in *.
  assert (Hkeep : ∀ q, is_page q → q ∈ v_alloc o →
    v_data (os_copied a p o) !! pmem_page_to_phy q = v_data o !! pmem_page_to_phy q).
  { intros q Hq Hqa. cbn. rewrite lookup_partial_alter_ne; [done|]. intros E. apply page_to_phy_inj in E; [|done..]. by subst. }
  assert (Hnew : v_data (os_copied a p o) !! pmem_page_to_phy p = v_data o !! frame_of o a) by (cbn; by rewrite lookup_partial_alter_eq).
  destruct (IH (os_copied a p o)) as [IH1 IH2].
  - intros b Hb. destruct (Hres b Hb) as (q & ? & ? & ?). exists q. split_and!; [done| |done]. cbn. set_solver.
  - done.
  - rewrite Forall_forall in Hok |- *. intros [b q] Hbq. destruct (Hok _ Hbq) as (? & ? & ?). cbn in *.
    split_and!; [done| |done]. apply (list_elem_of_fmap_2 snd) in Hbq. cbn in Hbq. set_solver.
  - change (copies ((a, p) :: aps) o) with (copies aps (os_copied a p o)). split.
    + intros q Hq Hqa. rewrite IH1 by (done || cbn; set_solver). by apply Hkeep.
    + constructor; [cbn [fst snd]; rewrite IH1 by (done || cbn; set_solver); exact Hnew|].
      rewrite Forall_forall in IH2, Hok |- *. intros [b q] Hbq. pose proof (IH2 _ Hbq) as E2. cbn [fst snd] in *. rewrite E2.
      destruct (Hok _ Hbq) as (Hmb & _). cbn in Hmb. destruct (Hres b Hmb) as (q' & Hq' & Hq'a & E).
      change (frame_of (os_copied a p o) b) with (frame_of o b). rewrite <- E. by apply Hkeep.
Qed.

(** ** All VMAs *)
Definition copy_table (v : VmArea.t) (lp : list Z * list Z) : CompactPageTable :=
  mkCompactPageTable (zip_with (flat_entry v) lp.1 lp.2).

Lemma generate_copy_ok vma v l spt w :
  mm_inv w → (vma_inner vma, v) ∈ areas w → page_addrs (os w) v l → size (v_alloc (os w)) + length l ≤ mem_pages →
  ∃ ps w', VMACopyPTGenerator_generate vma (mkGenerator (mkShadowPageTable spt) CompactPageTable_default) w =
      Ret (mkGenerator (mkShadowPageTable (spt ++ (mkCopy4KPage <$> ps))) (copy_table v (l, ps)), w') ∧
    length ps = length l ∧ os w' = copies (zip l ps) (os w) ∧ same_task w w' ∧
    NoDup ps ∧ (∀ p, p ∈ ps → (p ∉ v_alloc (os w)) ∧ is_page p).
Proof.
  intros Hinv Hin Hl Hs. destruct (area_walk w v _ l Hinv Hin Hl) as (k & Ek & Hk & _ & Hall).
  unfold VMACopyPTGenerator_generate, engine_walk. step (vm_area_read_ok w _ v Hinv Hin). step Ek.
  destruct (walk_copy_ok vma v k (mkGenerator (mkShadowPageTable spt) CompactPageTable_default) w Hinv Hin Hall)
    as (ps & w' & E & Hrest); [by rewrite Hk|]. exists ps, w'. rewrite E. by rewrite Hk in *.
Qed.

Lemma generate_tables_copy_ok fuel w l1 l2 spt ts ls :
  mm_inv w → areas w = l1 ++ l2 → length ts = length l1 → Forall2 (page_addrs (os w)) l2.*2 ls →
  size (v_alloc (os w)) + length (concat ls) ≤ mem_pages → length l2 < fuel →
  ∃ pss w', generate_tables fuel VMACopyPTGenerator_generate (head_ptr l2) (length l1) (shadow_of false <$> l1 ++ l2)
      (mkShadowPageTable spt) (ts ++ replicate (length l2) CompactPageTable_default) w =
      Ret ((mkShadowPageTable (spt ++ (mkCopy4KPage <$> concat pss)), ts ++ zip_with copy_table l2.*2 (zip ls pss)), w') ∧
    Forall2 (λ l ps, length l = length ps) ls pss ∧ os w' = copies (zip (concat ls) (concat pss)) (os w) ∧ same_task w w' ∧
    NoDup (concat pss) ∧ (∀ p, p ∈ concat pss → (p ∉ v_alloc (os w)) ∧ is_page p).
Proof.
  revert w l1 spt ts ls fuel. induction l2 as [|[p v] l2 IH]; intros w l1 spt ts ls [|fuel] Hinv El Hts Hls Hs Hf; try (cbn in Hf; lia).
  { cbn [generate_tables head_ptr]. step (VMAIter_next_end w). apply Forall2_nil_inv_l in Hls as ->. exists [], w. cbn. rewrite !app_nil_r.
    split_and!; [done|constructor|done|done|constructor|by intros p ?%elem_of_nil]. }
  cbn in Hls. apply Forall2_cons_inv_l in Hls as (l & ls' & Hl & Hls & ->).
  assert (Hin : (p, v) ∈ areas w) by (rewrite El; apply elem_of_app; right; left).
  cbn in Hs. rewrite length_app in Hs.
  destruct (generate_copy_ok (shadow_of false (p, v)) v l spt w Hinv Hin Hl) as (ps & w1 & E1 & Hlen & Ho1 & Ht1 & Hnd & Hps); [lia|].
  rewrite (generate_tables_step _ _ _ _ _ _ _ _ _ _ _ _ Hinv El Hts E1). cbn [gen_inner gen_flat]. pose proof Ht1 as (Hl1 & _ & Hi1). destruct (copies_frame (zip l ps) (os w)) as (Hpt & _ & _ & _ & Hal).
  rewrite <- Ho1 in Hpt, Hal. rewrite snd_zip in Hal by lia.
  destruct (IH w1 (l1 ++ [(p, v)]) (spt ++ (mkCopy4KPage <$> ps)) (ts ++ [copy_table v (l, ps)]) ls' fuel)
    as (pss & w' & E' & Hlens & Ho' & Ht' & Hnd' & Hps').
  - by apply Hi1.
  - by rewrite Hl1, El, <- app_assoc.
  - rewrite !length_app. cbn. lia.
  - eapply Forall2_impl; [exact Hls|]. intros u k. unfold page_addrs, is_mapped, frame_of, v_pte. by rewrite Hpt.
  - rewrite Hal, size_union, size_list_to_set by (done || intros q Hq%elem_of_list_to_set; by apply Hps). lia.
  - cbn in Hf. lia.
  - exists (ps :: pss), w'. rewrite E'. split_and!.
    + cbn. by rewrite fmap_app, <- !app_assoc.
    + by constructor.
    + rewrite Ho', Ho1. unfold copies. rewrite <- foldl_app. cbn [concat]. by rewrite zip_with_app by done.
    + by etransitivity.
    + cbn. apply NoDup_app. split_and!; [done| |done]. intros q Hq Hq'. apply Hps' in Hq' as [Hq' _]. rewrite Hal in Hq'. set_solver.
    + cbn. intros q [Hq|Hq]%elem_of_app; [by apply Hps|]. apply Hps' in Hq as [Hq ?]. rewrite Hal in Hq. split; [set_solver|done].
Qed.

Lemma copy_tables_snapshot o o' ws ls pss :
  Forall2 (page_addrs o) ws ls → Forall2 (λ l ps, length l = length ps) ls pss →
  Forall (λ ap, v_data o' !! pmem_page_to_phy ap.2 = v_data o !! frame_of o ap.1) (zip (concat ls) (concat pss)) →
  Forall is_page (concat pss) →
  Forall2 (snapshot_table o o') ws (zip_with copy_table ws (zip ls pss)).
Proof.
  intros Hl Hlen. revert ws Hl. induction Hlen as [|l ps ls pss Hlen Hlens IH]; intros ws Hl Hd Hpg.
  { apply Forall2_nil_inv_r in Hl as ->. constructor. }
  apply Forall2_cons_inv_r in Hl as (v & ws' & Hv & Hl & ->). cbn [concat] in Hd, Hpg. cbn [zip_with zip].
  rewrite (zip_with_app pair l (concat ls) ps (concat pss) Hlen) in Hd. apply Forall_app in Hd as [Hd1 Hd2], Hpg as [Hpg1 Hpg2].
  constructor; [|by apply IH]. exists l. cbn. split_and!; [done| |].
  - clear -Hlen. revert ps Hlen. induction l as [|a l IHl]; intros [|p ps] Hlen; try done. cbn. f_equal. apply IHl. by injection Hlen.
  - clear -Hlen Hd1 Hpg1. revert ps Hlen Hd1 Hpg1. induction l as [|a l IHl]; intros [|p ps] Hlen Hd Hpg; try done.
    cbn in *. apply Forall_cons in Hd as [Hd Hds], Hpg as [Hp Hps]. destruct (page_to_phy_ok p Hp) as [Hb H4].
    constructor; [|apply IHl; [by injection Hlen|done|done]]. cbn in Hd.
    assert (Hu : is_u64 (pmem_page_to_phy p)) by (unfold is_u64; lia).
    rewrite decode_aligned; [split_and!; [done|lia|done]|done|]. destruct H4 as [k ->]. exists (k * 512)%Z. lia.
Qed.

(** ** Giving the copies back *)
Lemma drop_copies_ok ps w :
  NoDup ps → (∀ p, p ∈ ps → p ∈ v_alloc (os w) ∧ is_page p) →
  ∃ w', drop_all Copy4KPage_drop (mkCopy4KPage <$> ps) w = Ret ((), w') ∧
    os w' = v_set_alloc (v_alloc (os w) ∖ list_to_set ps) (os w) ∧ same_task w w'.
Proof.
  revert w. induction ps as [|p ps IH]; intros w Hnd Hps.
  { exists w. split_and!; [done| |done]. cbn. rewrite difference_empty_L. by destruct (os w). }
  apply NoDup_cons in Hnd as [Hp Hnd]. destruct (Hps p ltac:(left)) as [Hpa Hpg].
  rewrite os_allocated in Hpa. destruct (free_page_ok p w Hpa) as (w1 & E1 & _).
  destruct (free_page_os p w w1 E1) as [Ho1 Ht1]. rewrite fmap_cons. cbn [drop_all].
  assert (Ed : Copy4KPage_drop (mkCopy4KPage p) w = Ret ((), w1)).
  { unfold Copy4KPage_drop. cbn [copy_inner]. by rewrite (proj2 (Z.eqb_neq _ _)) by (by apply page_not_null). }
  step Ed.
  destruct (IH w1 Hnd) as (w' & E' & Ho' & Ht').
  { intros q Hq. rewrite Ho1. cbn. destruct (Hps q) as [??]; [by right|]. split; [set_solver|done]. }
  exists w'. split_and!; [done| |by etransitivity]. rewrite Ho', Ho1. unfold v_set_alloc. cbn. by rewrite difference_difference_l_L.
Qed.

Lemma drop_copied_vmas l w : drop_all ShadowVMA_drop (shadow_of false <$> l) w = Ret ((), w).
Proof.
  induction l as [|x l IH]; [done|]. rewrite fmap_cons. cbn [drop_all].
  assert (Ed : ShadowVMA_drop (shadow_of false x) w = Ret ((), w)).
  { unfold ShadowVMA_drop. cbn [shadow_file is_cow shadow_of]. by rewrite andb_false_r. }
  step Ed. exact IH.
Qed.

(** ** The snapshot *)
Lemma new_copy_ok fuel mi w ls :
  mm_inv w → length (areas w) < fuel → Forall2 (page_addrs (os w)) (areas w).*2 ls →
  size (v_alloc (os w)) + length (concat ls) ≤ mem_pages →
  ∃ w' pss, let ps := concat pss in
    new_copy fuel mi w = Ret (mkShadowProcess
      (mkParentDescriptor (user_regs w) (zip_with copy_table (areas w).*2 (zip ls pss)) (area_desc <$> (areas w).*2) mi)
      (shadow_of false <$> areas w) (Some (mkShadowPageTable (mkCopy4KPage <$> ps))) None, w') ∧
    Forall2 (λ l ps, length l = length ps) ls pss ∧ NoDup ps ∧ (∀ p, p ∈ ps → (p ∉ v_alloc (os w)) ∧ is_page p) ∧
    os w' = copies (zip (concat ls) ps) (os w) ∧ same_task w w'.
Proof.
  intros Hinv Hf Hls Hs. unfold new_copy, VMAIter_new. step (get_mmap_ok w Hinv).
  destruct (collect_vmas_ok fuel false w [] (areas w) [] [] [] Hinv eq_refl Hf) as (w1 & E1 & Ho1 & Ht1). step E1.
  cbn in Ho1. pose proof Ht1 as (Hl1 & Hr1 & Hi1). step (get_mmap_ok w1 (Hi1 Hinv)). rewrite Hl1.
  destruct (generate_tables_copy_ok fuel w1 [] (areas w) [] [] ls) as (pss & w2 & E2 & Hlen & Ho2 & Ht2 & Hnd & Hps);
    [by apply Hi1|done|done|by rewrite Ho1|by rewrite Ho1|done|]. cbn [app length] in *. unfold ShadowPageTable_new. step E2.
  step (generate_reg_descriptor_ok w2). rewrite Ho1 in *. pose proof Ht2 as (_ & Hr2 & _).
  exists w2, pss. split_and!; try done; [by rewrite Hr2, Hr1|by etransitivity].
Qed.

(** The copies hold what the process's pages hold, which stay as they are. *)
Lemma new_copy_data w' w ls pss :
  resident (os w) → Forall2 (page_addrs (os w)) (areas w).*2 ls → Forall2 (λ l ps, length l = length ps) ls pss →
  NoDup (concat pss) → (∀ p, p ∈ concat pss → (p ∉ v_alloc (os w)) ∧ is_page p) →
  os w' = copies (zip (concat ls) (concat pss)) (os w) →
  Forall2 (snapshot_table (os w) (os w')) (areas w).*2 (zip_with copy_table (areas w).*2 (zip ls pss)) ∧
  v_alloc (os w') = list_to_set (concat pss) ∪ v_alloc (os w) ∧ v_ptes (os w') = v_ptes (os w) ∧
  ∀ a, is_mapped (os w) a → v_data (os w') !! frame_of (os w) a = v_data (os w) !! frame_of (os w) a.
Proof.
  intros Hres Hls Hlen Hnd Hps Ho.
  assert (Hzip : (zip (concat ls) (concat pss)).*2 = concat pss).
  { apply snd_zip. clear -Hlen. induction Hlen as [|l ps ls pss H Hl IH]; [done|]. cbn. rewrite !length_app. lia. }
  assert (Hok : Forall (λ ap, is_mapped (os w) ap.1 ∧ (ap.2 ∉ v_alloc (os w)) ∧ is_page ap.2) (zip (concat ls) (concat pss))).
  { apply Forall_forall. intros [a p] Hap. split; [|apply Hps; rewrite <- Hzip; by apply (list_elem_of_fmap_2 snd _ (a, p))].
    apply elem_of_zip_l, elem_of_concat in Hap as (l & Ha & Hl). clear -Hls Hl Ha.
    apply list_elem_of_lookup in Hl as [i Hi]. destruct (Forall2_lookup_r _ _ _ _ _ Hls Hi) as (v & _ & [_ Hv]). by apply Hv in Ha as (_ & _ & ?). }
  destruct (copies_data (zip (concat ls) (concat pss)) (os w) Hres) as [Hkeep Hnew]; [by rewrite Hzip|done|].
  destruct (copies_frame (zip (concat ls) (concat pss)) (os w)) as (Hpt & _ & _ & _ & Hal). rewrite Hzip in Hal. rewrite <- Ho in *.
  split_and!; [|done|done|].
  - apply copy_tables_snapshot; [done|done|done|]. apply Forall_forall. intros p Hp. by apply Hps.
  - intros a Ha. destruct (Hres a Ha) as (q & Hq & Hqa & <-). by apply Hkeep.
Qed.

(** Taking a snapshot by copying: it ends, the descriptor has the parent's
    registers and VMAs and, for each VMA, exactly its pages with their contents
    at this moment; the copies are pages of their own that the shadow process
    owns, and the parent's page table, memory contents, VMAs and registers stay
    as they are.  Dropping the shadow process later gives back exactly these
    pages and changes nothing else. *)
Theorem new_copy_snapshot fuel mi w ls :
  mm_inv w → length (areas w) < fuel → resident (os w) → Forall2 (page_addrs (os w)) (areas w).*2 ls →
  size (v_alloc (os w)) + length (concat ls) ≤ mem_pages →
  ∃ sp w' ps, new_copy fuel mi w = Ret (sp, w') ∧
    descriptor sp = mkParentDescriptor (user_regs w) (page_table (descriptor sp)) (area_desc <$> (areas w).*2) mi ∧
    Forall2 (snapshot_table (os w) (os w')) (areas w).*2 (page_table (descriptor sp)) ∧
    (∀ p, p ∈ ps → (p ∉ v_alloc (os w)) ∧ is_page p) ∧ v_alloc (os w') = list_to_set ps ∪ v_alloc (os w) ∧
    v_ptes (os w') = v_ptes (os w) ∧
    (∀ a, is_mapped (os w) a → v_data (os w') !! frame_of (os w) a = v_data (os w) !! frame_of (os w) a) ∧ same_task w w' ∧
    (∀ w1, list_to_set ps ⊆ v_alloc (os w1) → ∃ w2, ShadowProcess_drop sp w1 = Ret ((), w2) ∧
      os w2 = v_set_alloc (v_alloc (os w1) ∖ list_to_set ps) (os w1) ∧ same_task w1 w2).
Proof.
  intros Hinv Hf Hres Hls Hs. destruct (new_copy_ok fuel mi w ls Hinv Hf Hls Hs) as (w' & pss & E & Hlen & Hnd & Hps & Ho & Ht).
  destruct (new_copy_data w' w ls pss Hres Hls Hlen Hnd Hps Ho) as (Hsn & Hal & Hpt & Hkeep).
  eexists _, w', (concat pss). split; [exact E|]. cbn [descriptor page_table]. split_and!; try done.
  intros w3 Hw3. destruct (drop_copies_ok (concat pss) w3 Hnd) as (w4 & E4 & Hw4).
  { intros p Hp. split; [apply Hw3; by apply elem_of_list_to_set|by apply Hps]. }
  exists w4. split; [|done]. unfold ShadowProcess_drop. cbn [shadow_vmas copy_shadow_pagetable cow_shadow_pagetable table].
  step (drop_copied_vmas (areas w) w3). by step E4.
Qed.
End ShadowCopy.

Lemma new_copy_snapshot_witness :
  ∃ sp w' t, new_copy 2 (mkRDMADescriptor 0 1 (0, 0)%Z 0 0 0 0 0) example_process = Ret (sp, w') ∧
    page_table (descriptor sp) = [t] ∧ (inner_pg_table t).*1 = [0; 8192]%Z.
Proof.
  destruct (new_copy_snapshot 2 (mkRDMADescriptor 0 1 (0, 0)%Z 0 0 0 0 0) example_process [[4194304; 4202496]%Z])
    as (sp & w' & ps & E & _ & Ht & _).
  - exact example_process_inv.
  - cbn. lia.
  - exact example_process_resident.
  - exact example_process_pages.
  - apply (bool_decide_unpack _). vm_compute. done.
  - apply Forall2_cons_inv_l in Ht as (t & ts & Ht & Hts & Et). apply Forall2_nil_inv_l in Hts as ->.
    exists sp, w', t. split_and!; [exact E|exact Et|]. destruct Ht as (l & Hl & Hoff & _).
    pose proof example_process_pages as Hp. apply Forall2_cons_inv_l in Hp as (k & ks & Hk & _ & [= <- <-]).
    rewrite Hoff, (page_addrs_unique _ _ _ _ Hl Hk). by vm_compute.
Defined.
