(* ===== verification/ShadowCow.v ===== *)
(** * Snapshots by sharing ([ShadowProcess::new_cow])

    A copy-on-write snapshot names the process's own frames: each shared page
    gets one more reference and mapping and loses its write bit, so that a later
    write of the process goes to another page. *)

From Stdlib Require Import Sorted.
From S2P Require Import Prelude Future Rdma Descriptors Task RefTask Machine PageStructures ShadowProcess ShadowSpec RefPages.
Import PhysAddrFacts.

Section ShadowCow.
Context {W : Type} {ta : TaskApi W} {tok : TaskOk W} {pa : PagesApi W} {kn : Kernel W} {vc : VmConsts}.
Context {kt : KTimerApi W} {kt_ok : KTimerOk W} {kr : KRdmaKit W} {nic : NicOk W} {kn_ok : KernelOk W}.
Context {pok : PagesOk W}.
Implicit Types o : osview PageData.

(** ** One shared page *)
Definition page_of o (a : Z) : Z := pte_page (v_pte o a).

Definition os_cow (a : Z) o : osview PageData :=
  v_set_pte a (pte_clear_rw (v_pte o a)) (v_map 1 (page_of o a) (v_ref 1 (page_of o a) o)).

Definition cows (l : list Z) o : osview PageData := foldl (λ o a, os_cow a o) o l.

Definition may_write (v : VmArea.t) : bool :=
  flags_contains (VmArea.vm_flags v) VM_WRITE || flags_contains (VmArea.vm_flags v) VM_MAYWRITE.

Definition cow_entry o (v : VmArea.t) (a : Z) : Z * Z :=
  (as_u32 (a - VmArea.vm_start v),
   if may_write v || negb (pte_write (v_pte o a)) then PhysAddr_encode (frame_of o a) (flag_as_u64 FlagReadOnly)
   else frame_of o a).

Lemma has_write_permission_ok w p v cow :
  mm_inv w → (p, v) ∈ areas w → has_write_permission (shadow_of cow (p, v)) w = Ret (may_write v, w).
Proof.
  intros Hinv Hin. pose proof (vm_area_read_ok w p v Hinv Hin) as E. unfold has_write_permission, VMA_get_raw_flags, may_write.
  cbn [shadow_of vma_inner fst]. erewrite io_bind_run; [|by step E]. cbv beta. destruct (flags_contains _ VM_WRITE); [done|].
  by erewrite io_bind_run; [|by step E].
Qed.

Lemma v_pte_set a b v o : v_pte (v_set_pte a v o) b = if decide (a = b) then v else v_pte o b.
Proof. unfold v_pte. cbn. case_decide; [subst; by rewrite lookup_insert_eq|by rewrite lookup_insert_ne]. Qed.

Lemma os_cow_pte a b o : v_pte (os_cow a o) b = if decide (a = b) then pte_clear_rw (v_pte o b) else v_pte o b.
Proof. unfold os_cow. rewrite v_pte_set. case_decide; [by subst|done]. Qed.

Lemma os_cow_frame a b o : frame_of (os_cow a o) b = frame_of o b.
Proof. unfold frame_of. rewrite os_cow_pte. case_decide; [|done]. apply pte_clear_rw_ok. Qed.

Lemma share_page_ok {B} (f : COW4KPage → B) a w :
  ∃ w', (page ← pmem_pte_to_page a; cow ← COW4KPage_new page; cow ← lift (unwrap cow);
      pmem_clear_pte_write a ≫= λ _, mret (f cow)) w = Ret (f (mkCOW4KPage (page_of (os w) a)), w') ∧
    os w' = os_cow a (os w) ∧ same_task w w'.
Proof.
  destruct (get_page_ok (page_of (os w) a) w) as (w1 & E1 & Ho1 & Ht1).
  destruct (mapcount_inc_ok (page_of (os w) a) w1) as (w2 & E2 & Ho2 & Ht2).
  destruct (set_pte_ok a (pte_clear_rw (v_pte (os w2) a)) w2) as (w3 & E3 & Ho3 & Ht3).
  exists w3. split_and!; [| |by do 2 (etransitivity; [eassumption|])].
  - unfold pmem_pte_to_page. erewrite io_bind_run; [|by step (pte_val_ok a w)]. cbv beta. fold (page_of (os w) a).
    erewrite io_bind_run; [|unfold COW4KPage_new, pmem_get_page, pmem_page_dup_rmap; step E1; by step E2]. cbv beta.
    rewrite (io_lift_run _ _ _ (mkCOW4KPage (page_of (os w) a)) eq_refl). cbv beta.
    erewrite io_bind_run; [done|]. unfold pmem_clear_pte_write. by step (pte_val_ok a w2).
  - rewrite Ho3, Ho2, Ho1. done.
Qed.

(** The handler on an entry that has a page. *)
Lemma cow_handle_mapped p v a my w :
  mm_inv w → (p, v) ∈ areas w → (0 ≤ VmArea.vm_start v ≤ a)%Z → (a < 2 ^ 64)%Z → is_mapped (os w) a →
  ∃ w', cow_handle_pte_entry (shadow_of true (p, v)) a my w =
      Ret (mkGenerator (if may_write v then add_page (gen_inner my) (mkCOW4KPage (page_of (os w) a)) else gen_inner my)
        (add_one (gen_flat my) (cow_entry (os w) v a).1 (cow_entry (os w) v a).2), w') ∧
    os w' = (if may_write v then os_cow a (os w) else os w) ∧ same_task w w'.
Proof.
  intros Hinv Hin Hr Hu Hm. unfold cow_handle_pte_entry, pmem_get_phy_from_pte.
  erewrite io_bind_run; [|by step (pte_val_ok a w)]. fold (frame_of (os w) a). rewrite (proj2 (Z.ltb_lt _ _)) by done.
  step (has_write_permission_ok w p v true Hinv Hin).
  assert (Hshare : ∃ w1, (if may_write v then
        page ← pmem_pte_to_page a; cow ← COW4KPage_new page; cow ← lift (unwrap cow);
        pmem_clear_pte_write a ≫= λ _, mret (add_page (gen_inner my) cow)
      else mret (gen_inner my)) w =
      Ret (if may_write v then add_page (gen_inner my) (mkCOW4KPage (page_of (os w) a)) else gen_inner my, w1) ∧
    os w1 = (if may_write v then os_cow a (os w) else os w) ∧ same_task w w1).
  { destruct (may_write v); [apply (share_page_ok (add_page (gen_inner my)))|by exists w]. }
  destruct Hshare as (w1 & E1 & Ho1 & Ht1). step E1. exists w1. split_and!; [|done..].
  unfold pmem_check_pte_write. erewrite io_bind_run; [|by step (pte_val_ok a w1)]. cbv beta.
  destruct Ht1 as (Hl1 & _ & Hi1). rewrite <- Hl1 in Hin. cbn [shadow_of vma_inner fst].
  erewrite io_bind_run; [|unfold VMA_get_start; by step (vm_area_read_ok w1 _ v (Hi1 Hinv) Hin)]. cbv beta.
  erewrite io_lift_run; [|apply u64_sub_Ret; unfold is_u64; lia]. cbv beta. rewrite Ho1. unfold cow_entry. destruct (may_write v).
  - rewrite os_cow_pte, decide_True, (proj1 (pte_clear_rw_ok _)) by done. done.
  - cbn [orb]. by destruct (pte_write _).
Qed.

Lemma cow_handle_unmapped vma a my w :
  ¬ is_mapped (os w) a → cow_handle_pte_entry vma a my w = Ret (my, w).
Proof.
  intros Hm. unfold cow_handle_pte_entry, pmem_get_phy_from_pte. erewrite io_bind_run; [|by step (pte_val_ok a w)].
  fold (frame_of (os w) a). rewrite (proj2 (Z.ltb_ge _ _)); [done|]. unfold is_mapped in Hm. lia.
Qed.

(** ** The walk of one VMA *)
Abbreviation mapped_in o l := (filter (is_mapped o) l).
Definition shared (v : VmArea.t) (l : list Z) : list Z := if may_write v then l else [].
Definition cow_pages o (l : list Z) : list COW4KPage := (λ a, mkCOW4KPage (page_of o a)) <$> l.

Lemma os_cow_mapped a (l : list Z) o : mapped_in (os_cow a o) l = mapped_in o l.
Proof. apply list_filter_elem_iff. intros b _. unfold is_mapped. by rewrite os_cow_frame. Qed.

Lemma os_cow_entries a v l o :
  (a ∉ l) → cow_entry (os_cow a o) v <$> l = cow_entry o v <$> l ∧ cow_pages (os_cow a o) l = cow_pages o l.
Proof.
  intros Ha. assert (Hp : ∀ i b, l !! i = Some b → v_pte (os_cow a o) b = v_pte o b).
  { intros i b Hb%list_elem_of_lookup_2. rewrite os_cow_pte, decide_False; [done|]. by intros ->. }
  split; apply list_fmap_ext; intros i b Hb; specialize (Hp i b Hb).
  - unfold cow_entry, frame_of. by rewrite Hp.
  - unfold page_of. by rewrite Hp.
Qed.

Lemma walk_cow_ok p v l my w :
  mm_inv w → (p, v) ∈ areas w → NoDup l →
  (∀ a, a ∈ l → (0 ≤ VmArea.vm_start v ≤ a)%Z ∧ (a < 2 ^ 64)%Z ∧ (4096 | a)%Z) →
  ∃ w', walk_entries (cow_handle_pte_entry (shadow_of true (p, v))) l my w =
      Ret (mkGenerator (mkShadowPageTable (table (gen_inner my) ++ cow_pages (os w) (shared v (mapped_in (os w) l))))
        (mkCompactPageTable (inner_pg_table (gen_flat my) ++ (cow_entry (os w) v <$> mapped_in (os w) l))), w') ∧
    os w' = cows (shared v (mapped_in (os w) l)) (os w) ∧ same_task w w'.
Proof.
  revert my w. induction l as [|a l IH]; intros my w Hinv Hin Hnd Hl.
  { exists w. cbn. unfold shared. destruct my as [[t] [f]], (may_write v); cbn; by rewrite !app_nil_r. }
  apply NoDup_cons in Hnd as [Ha Hnd]. destruct (Hl a ltac:(left)) as (Har & Hau & _). cbn [walk_entries]. rewrite filter_cons.
  case_decide as Hm.
  - destruct (cow_handle_mapped p v a my w Hinv Hin) as (w1 & E1 & Ho1 & Ht1); [lia|lia|done|]. step E1.
    pose proof Ht1 as (Hl1 & _ & Hi1). set (my1 := mkGenerator _ _).
    destruct (IH my1 w1) as (w' & E' & Ho' & Ht'); [by apply Hi1|by rewrite Hl1|done|intros b Hb; apply Hl; by right|].
    exists w'. rewrite E'. unfold my1, shared in *. destruct (may_write v); rewrite Ho1 in *.
    + assert (Hb : a ∉ mapped_in (os w) l) by (intros [_ ?]%list_elem_of_filter; done).
      destruct (os_cow_entries a v _ (os w) Hb) as [He Hp]. rewrite os_cow_mapped in *. rewrite He, Hp.
      split_and!; [|by rewrite Ho'|by etransitivity]. cbn. by rewrite <- !app_assoc.
    + split_and!; [|done|by etransitivity]. cbn. by rewrite !app_nil_r, <- !app_assoc.
  - step (cow_handle_unmapped (shadow_of true (p, v)) a my w Hm). apply IH; [done..|]. intros b Hb. apply Hl. by right.
Qed.

(** ** What sharing changes *)
Lemma cows_frame l o :
  (∀ b, frame_of (cows l o) b = frame_of o b) ∧ v_files (cows l o) = v_files o ∧ v_data (cows l o) = v_data o ∧
  v_alloc (cows l o) = v_alloc o.
Proof.
  revert o. induction l as [|a l IH]; intros o; [done|]. change (cows (a :: l) o) with (cows l (os_cow a o)).
  destruct (IH (os_cow a o)) as (Hf & -> & -> & ->). split; [|done]. intros b. by rewrite Hf, os_cow_frame.
Qed.

Lemma cows_pte l o b :
  NoDup l → v_pte (cows l o) b = if decide (b ∈ l) then pte_clear_rw (v_pte o b) else v_pte o b.
Proof.
  revert o. induction l as [|a l IH]; intros o Hnd; [done|]. change (cows (a :: l) o) with (cows l (os_cow a o)).
  apply NoDup_cons in Hnd as [Ha Hnd]. rewrite IH, os_cow_pte by done. destruct (decide (a = b)) as [<-|Hne].
  - rewrite decide_False, decide_True by (done || left). done.
  - destruct (decide (b ∈ l)); [by rewrite decide_True by (by right)|]. rewrite decide_False; [done|].
    by intros [->|]%elem_of_cons.
Qed.

(** How many of the addresses have page [p]. *)
Definition sharers o (l : list Z) (p : Z) : Z := occ (page_of o <$> l) p.

Lemma cows_count l o p :
  NoDup l → count (v_refs (cows l o)) p = (count (v_refs o) p + sharers o l p)%Z ∧
    count (v_maps (cows l o)) p = (count (v_maps o) p + sharers o l p)%Z.
Proof.
  revert o. induction l as [|a l IH]; intros o Hnd; [unfold sharers, occ; cbn; lia|].
  change (cows (a :: l) o) with (cows l (os_cow a o)). apply NoDup_cons in Hnd as [Ha Hnd].
  destruct (IH (os_cow a o) Hnd) as [-> ->]. cbn [os_cow v_set_pte v_map v_ref v_refs v_maps].
  assert (Hs : sharers (os_cow a o) l p = sharers o l p).
  { unfold sharers. f_equal. apply list_fmap_ext. intros i b Hb%list_elem_of_lookup_2. unfold page_of.
    rewrite os_cow_pte, decide_False; [done|]. by intros ->. }
  rewrite Hs, !count_bump. unfold sharers. rewrite fmap_cons, occ_cons. lia.
Qed.

Lemma cows_entries l k v o :
  NoDup k → (∀ a, a ∈ l → a ∉ k) → cow_entry (cows k o) v <$> l = cow_entry o v <$> l ∧ cow_pages (cows k o) l = cow_pages o l.
Proof.
  intros Hnd Ha. assert (Hp : ∀ i b, l !! i = Some b → v_pte (cows k o) b = v_pte o b).
  { intros i b Hb%list_elem_of_lookup_2. rewrite cows_pte by done. rewrite decide_False; [done|by apply Ha]. }
  split; apply list_fmap_ext; intros i b Hb; specialize (Hp i b Hb).
  - unfold cow_entry, frame_of. by rewrite Hp.
  - unfold page_of. by rewrite Hp.
Qed.

(** ** All VMAs *)
Definition cow_table o (v : VmArea.t) (l : list Z) : CompactPageTable := mkCompactPageTable (cow_entry o v <$> l).
Definition shares (vs : list VmArea.t) (ls : list (list Z)) : list Z := concat (zip_with shared vs ls).

Lemma shared_sublist v l : sublist (shared v l) l.
Proof. unfold shared. destruct (may_write v); [done|apply sublist_nil_l]. Qed.

Lemma shares_sublist vs ls : sublist (shares vs ls) (concat ls).
Proof.
  revert vs. induction ls as [|l ls IH]; intros [|v vs]; cbn; [done|done|apply sublist_nil_l|].
  apply sublist_app; [apply shared_sublist|apply IH].
Qed.

Lemma cow_tables_stable k vs ls o :
  NoDup k → (∀ a, a ∈ k → a ∉ concat ls) → zip_with (cow_table (cows k o)) vs ls = zip_with (cow_table o) vs ls ∧
    cow_pages (cows k o) (shares vs ls) = cow_pages o (shares vs ls) ∧
    (Forall2 (page_addrs o) vs ls → Forall2 (page_addrs (cows k o)) vs ls).
Proof.
  intros Hnd Hd. split_and!.
  - revert vs. induction ls as [|l ls IH]; intros [|v vs]; cbn; [done..|]. rewrite IH.
    + f_equal. unfold cow_table. f_equal. apply cows_entries; [done|]. intros a Ha Hk. apply (Hd a Hk). cbn. apply elem_of_app. by left.
    + intros a Ha Hl. apply (Hd a Ha). cbn. apply elem_of_app. by right.
  - apply (cows_entries _ _ (VmArea.mk 0 0 0 0 0 0 0) _ Hnd). intros a Ha Hk. apply (Hd a Hk). eapply elem_of_sublist; [exact Ha|apply shares_sublist].
  - intros Hls. eapply Forall2_impl; [exact Hls|]. intros v l [Hs Hl]. split; [done|]. intros a. rewrite Hl. unfold is_mapped. by rewrite (proj1 (cows_frame k o)).
Qed.

Lemma generate_cow_ok p v l spt w :
  mm_inv w → (p, v) ∈ areas w → page_addrs (os w) v l →
  ∃ w', VMACOWPTGenerator_generate (shadow_of true (p, v)) (mkGenerator (mkShadowPageTable spt) CompactPageTable_default) w =
      Ret (mkGenerator (mkShadowPageTable (spt ++ cow_pages (os w) (shared v l))) (cow_table (os w) v l), w') ∧
    os w' = cows (shared v l) (os w) ∧ same_task w w'.
Proof.
  intros Hinv Hin Hl. destruct (area_walk w v _ l Hinv Hin Hl) as (k & Ek & Hk & Hnd & Hall).
  unfold VMACOWPTGenerator_generate, engine_walk. cbn [shadow_of vma_inner fst]. step (vm_area_read_ok w _ v Hinv Hin). step Ek.
  destruct (walk_cow_ok p v k (mkGenerator (mkShadowPageTable spt) CompactPageTable_default) w Hinv Hin Hnd Hall)
    as (w' & E & Hrest). exists w'. rewrite Hk in *. by rewrite E.
Qed.

Lemma generate_tables_cow_ok fuel w l1 l2 spt ts ls :
  mm_inv w → areas w = l1 ++ l2 → length ts = length l1 → Forall2 (page_addrs (os w)) l2.*2 ls → NoDup (concat ls) →
  length l2 < fuel →
  ∃ w', generate_tables fuel VMACOWPTGenerator_generate (head_ptr l2) (length l1) (shadow_of true <$> l1 ++ l2)
      (mkShadowPageTable spt) (ts ++ replicate (length l2) CompactPageTable_default) w =
      Ret ((mkShadowPageTable (spt ++ cow_pages (os w) (shares l2.*2 ls)), ts ++ zip_with (cow_table (os w)) l2.*2 ls), w') ∧
    os w' = cows (shares l2.*2 ls) (os w) ∧ same_task w w'.
Proof.
  revert w l1 spt ts ls fuel. induction l2 as [|[p v] l2 IH]; intros w l1 spt ts ls [|fuel] Hinv El Hts Hls Hnd Hf; try (cbn in Hf; lia).
  { cbn [generate_tables head_ptr]. step (VMAIter_next_end w). apply Forall2_nil_inv_l in Hls as ->. exists w. cbn. by rewrite !app_nil_r. }
  cbn in Hls. apply Forall2_cons_inv_l in Hls as (l & ls' & Hl & Hls & ->). cbn in Hnd. apply NoDup_app in Hnd as (Hndl & Hd & Hnd).
  assert (Hin : (p, v) ∈ areas w) by (rewrite El; apply elem_of_app; right; left).
  destruct (generate_cow_ok p v l spt w Hinv Hin Hl) as (w1 & E1 & Ho1 & Ht1). pose proof Ht1 as (Hl1 & _ & Hi1).
  cbn [head_ptr]. rewrite (generate_tables_step _ _ _ _ _ _ _ _ _ _ _ _ Hinv El Hts E1). cbn [gen_inner gen_flat].
  destruct (cow_tables_stable (shared v l) l2.*2 ls' (os w)) as (Hs1 & Hs2 & Hs3).
  { eapply sublist_NoDup; [exact Hndl|apply shared_sublist]. }
  { intros a Ha. apply Hd. eapply elem_of_sublist; [exact Ha|apply shared_sublist]. }
  rewrite <- Ho1 in Hs1, Hs2, Hs3.
  destruct (IH w1 (l1 ++ [(p, v)]) (spt ++ cow_pages (os w) (shared v l)) (ts ++ [cow_table (os w) v l]) ls' fuel)
    as (w' & E' & Ho' & Ht').
  - by apply Hi1.
  - by rewrite Hl1, El, <- app_assoc.
  - rewrite !length_app. cbn. lia.
  - by apply Hs3.
  - done.
  - cbn in Hf. lia.
  - exists w'. rewrite E', Hs1, Hs2. split_and!; [| |by etransitivity].
    + unfold shares, cow_pages. cbn. by rewrite fmap_app, <- !app_assoc.
    + rewrite Ho', Ho1. unfold cows, shares. cbn. by rewrite foldl_app.
Qed.

(** ** The snapshot *)
Lemma same_ptes o o' : v_ptes o' = v_ptes o →
  (∀ v l, cow_table o' v l = cow_table o v l) ∧ (∀ l, cow_pages o' l = cow_pages o l) ∧
  (∀ l p, sharers o' l p = sharers o l p) ∧ (∀ v l, page_addrs o v l → page_addrs o' v l).
Proof.
  intros E. unfold cow_table, cow_entry, cow_pages, sharers, page_addrs, is_mapped, page_of, frame_of, v_pte. by rewrite E.
Qed.

Lemma new_cow_ok fuel mi w ls :
  mm_inv w → length (areas w) < fuel → Forall2 (page_addrs (os w)) (areas w).*2 ls →
  let k := shares (areas w).*2 ls in
  NoDup k ∧ ∃ w', new_cow fuel mi w = Ret (mkShadowProcess
      (mkParentDescriptor (user_regs w) (zip_with (cow_table (os w)) (areas w).*2 ls) (area_desc <$> (areas w).*2) mi)
      (shadow_of true <$> areas w) None (Some (mkShadowPageTable (cow_pages (os w) k))), w') ∧
    os w' = cows k (os_files 1 (files_of true (areas w)) (os w)) ∧ same_task w w'.
Proof.
  intros Hinv Hf Hls k. pose proof (areas_ok w Hinv) as (_ & _ & Hord). pose proof (page_addrs_NoDup _ _ _ Hord Hls) as Hnd.
  split; [eapply sublist_NoDup; [exact Hnd|apply shares_sublist]|]. unfold new_cow, VMAIter_new. step (get_mmap_ok w Hinv).
  destruct (collect_vmas_ok fuel true w [] (areas w) [] [] [] Hinv eq_refl Hf) as (w1 & E1 & Ho1 & Ht1). step E1.
  pose proof Ht1 as (Hl1 & Hr1 & Hi1). step (get_mmap_ok w1 (Hi1 Hinv)). rewrite Hl1.
  destruct (os_files_frame 1 (files_of true (areas w)) (os w)) as (Hpt & _). rewrite <- Ho1 in Hpt.
  destruct (same_ptes _ _ Hpt) as (Ht & Hp & _ & Ha).
  destruct (generate_tables_cow_ok fuel w1 [] (areas w) [] [] ls) as (w2 & E2 & Ho2 & Ht2);
    [by apply Hi1|done|done|eapply Forall2_impl; [exact Hls|exact Ha]|done|done|].
  cbn [app length] in *. unfold ShadowPageTable_new. step E2.
  destruct (flush_tlb_mm_ok w2) as (w3 & E3 & Ho3 & Ht3). step E3. step (generate_reg_descriptor_ok w3).
  exists w3. rewrite Hp. assert (Et : zip_with (cow_table (os w1)) (areas w).*2 ls = zip_with (cow_table (os w)) (areas w).*2 ls).
  { apply zip_with_ext; [intros; apply Ht|done|done]. }
  rewrite Et. pose proof Ht2 as (_ & Hr2 & _). pose proof Ht3 as (_ & Hr3 & _). rewrite Hr3, Hr2, Hr1.
  split_and!; [done|by rewrite Ho3, Ho2, Ho1|by do 2 (etransitivity; [eassumption|])].
Qed.

Lemma resident_frame o a : resident o → is_mapped o a →
  is_u64 (frame_of o a) ∧ (8 | frame_of o a)%Z ∧ pmem_page_to_phy (page_of o a) = frame_of o a.
Proof.
  intros Hres Ha. destruct (Hres a Ha) as (p & Hp & _ & E). pose proof (page_to_phy_ok p Hp) as [Hb [j Hj]]. rewrite E in Hb, Hj.
  split; [unfold is_u64; lia|]. split; [exists (j * 512)%Z; lia|]. unfold page_of. by rewrite (pte_page_ok p).
Qed.

Lemma decode_cow_entry o v a : resident o → is_mapped o a →
  is_u64 (cow_entry o v a).2 ∧ PhysAddr_decode (cow_entry o v a).2 = frame_of o a ∧ (may_write v = true → PhysAddr_is_ro (PhysAddr_new (cow_entry o v a).2) = true).
Proof.
  intros Hres Ha. destruct (resident_frame o a Hres Ha) as (Hu & H8 & _). assert (Hf : is_u64 (flag_as_u64 FlagReadOnly)) by done.
  unfold cow_entry. cbn [snd]. split_and!.
  - destruct (may_write v || _); [by apply encode_u64|done].
  - destruct (may_write v || _); [by apply decode_encode|by apply decode_aligned].
  - intros ->. cbn [orb]. rewrite is_ro_testbit, encode_flag_testbit by (done || lia). done.
Qed.

Lemma cow_tables_snapshot o o' vs ls :
  resident o → v_data o' = v_data o → Forall2 (page_addrs o) vs ls →
  Forall2 (snapshot_table o o') vs (zip_with (cow_table o) vs ls).
Proof.
  intros Hres Hd. induction 1 as [|v l vs ls Hl Hls IH]; cbn; [constructor|]. constructor; [|exact IH].
  exists l. split; [done|]. cbn [cow_table inner_pg_table]. rewrite <- !list_fmap_compose. split; [done|].
  apply Forall2_fmap_r, Forall_Forall2_diag, Forall_forall. intros a Ha. unfold compose. rewrite Hd.
  apply Hl in Ha as (_ & _ & Ha). destruct (decode_cow_entry o v a Hres Ha) as (Hu & -> & _). done.
Qed.

(** C27: Taking a copy-on-write snapshot: it ends, the descriptor has the parent's
    registers and VMAs and, for each VMA, exactly its pages with their contents;
    no page is allocated or written.  Every page of a VMA that may be written is
    marked read-only in the descriptor, loses the write bit of its page-table
    entry, and has one more reference and one more mapping per entry; all other
    page-table entries, and all frames, stay. *)
Theorem new_cow_snapshot fuel mi w ls :
  mm_inv w → length (areas w) < fuel → resident (os w) → Forall2 (page_addrs (os w)) (areas w).*2 ls →
  let k := shares (areas w).*2 ls in
  ∃ sp w', new_cow fuel mi w = Ret (sp, w') ∧
    descriptor sp = mkParentDescriptor (user_regs w) (zip_with (cow_table (os w)) (areas w).*2 ls) (area_desc <$> (areas w).*2) mi ∧
    Forall2 (snapshot_table (os w) (os w')) (areas w).*2 (page_table (descriptor sp)) ∧
    (∀ v a, may_write v = true → is_mapped (os w) a → PhysAddr_is_ro (PhysAddr_new (cow_entry (os w) v a).2) = true) ∧
    (∀ a, a ∈ k → pte_write (v_pte (os w') a) = false ∧ pmem_page_to_phy (page_of (os w) a) = frame_of (os w) a) ∧
    (∀ a, (a ∉ k) → v_pte (os w') a = v_pte (os w) a) ∧ (∀ a, frame_of (os w') a = frame_of (os w) a) ∧
    (∀ p, count (v_refs (os w')) p = count (v_refs (os w)) p + sharers (os w) k p ∧
      count (v_maps (os w')) p = count (v_maps (os w)) p + sharers (os w) k p)%Z ∧
    v_data (os w') = v_data (os w) ∧ v_alloc (os w') = v_alloc (os w) ∧ same_task w w'.
Proof.
  intros Hinv Hf Hres Hls k. destruct (new_cow_ok fuel mi w ls Hinv Hf Hls) as (Hnd & w' & E & Ho & Ht). fold k in Hnd, E, Ho.
  destruct (os_files_frame 1 (files_of true (areas w)) (os w)) as (Hpt & Hrf & Hmp & Hda & Hal).
  set (o1 := os_files 1 _ (os w)) in *. destruct (same_ptes _ _ Hpt) as (_ & _ & Hsh & _).
  assert (Hv : ∀ a, v_pte o1 a = v_pte (os w) a) by (intros a; unfold v_pte; by rewrite Hpt).
  destruct (cows_frame k o1) as (Hfr & _ & Hd & Hc). rewrite <- Ho in Hfr, Hd, Hc.
  eexists _, w'. split; [exact E|]. cbn [descriptor page_table]. split_and!; [done| | | | | | |congruence|congruence|done].
  - apply cow_tables_snapshot; [done|congruence|done].
  - intros v a Hv' Ha. by apply decode_cow_entry.
  - intros a Ha. rewrite Ho, cows_pte, decide_True by done. split; [apply pte_clear_rw_ok|].
    apply resident_frame; [done|].
    eapply elem_of_sublist in Ha; [|apply shares_sublist]. apply elem_of_concat in Ha as (l & Ha & Hl).
    apply list_elem_of_lookup in Hl as [i Hi]. destruct (Forall2_lookup_r _ _ _ _ _ Hls Hi) as (v & _ & [_ Hl]). by apply Hl.
  - intros a Ha. rewrite Ho, cows_pte, decide_False by done. apply Hv.
  - intros a. rewrite Hfr. unfold frame_of. by rewrite Hv.
  - intros p. rewrite Ho. destruct (cows_count k o1 p Hnd) as [-> ->]. by rewrite Hsh, Hrf, Hmp.
Qed.

(** ** Giving the pages and files back *)
Lemma files_of_one p v : files_of true [(p, v)] = if (VmArea.vm_file v =? 0)%Z then [] else [VmArea.vm_file v].
Proof.
  unfold files_of. cbn [fmap list_fmap snd]. rewrite filter_cons. destruct (Z.eqb_spec (VmArea.vm_file v) 0) as [H|H].
  - by rewrite decide_False by (by intros []).
  - by rewrite decide_True.
Qed.

Lemma drop_shared_vmas l w :
  (∀ f, f ∈ files_of true l → (occ (files_of true l) f < count (v_files (os w)) f)%Z) →
  ∃ w', drop_all ShadowVMA_drop (shadow_of true <$> l) w = Ret ((), w') ∧
    os w' = os_files (-1) (files_of true l) (os w) ∧ same_task w w'.
Proof.
  revert w. induction l as [|[p v] l IH]; intros w Hf; [by exists w|]. rewrite fmap_cons. cbn [drop_all].
  assert (Hd : ∃ w1, ShadowVMA_drop (shadow_of true (p, v)) w = Ret ((), w1) ∧
    os w1 = os_files (-1) (files_of true [(p, v)]) (os w) ∧ same_task w w1).
  { unfold ShadowVMA_drop. cbn [shadow_of shadow_file is_cow snd]. rewrite andb_true_r. rewrite files_of_cons, files_of_one in Hf.
    rewrite files_of_one. destruct (Z.eqb_spec (VmArea.vm_file v) 0) as [H|H]; cbn [negb]; [by exists w|].
    cbn [app] in Hf. specialize (Hf _ ltac:(left)). rewrite occ_cons, decide_True in Hf by done.
    destruct (fput_ok (VmArea.vm_file v) w) as (w1 & E1 & Hw1); [|by exists w1].
    pose proof (occ_nonneg (files_of true l) (VmArea.vm_file v)). lia. }
  destruct Hd as (w1 & E1 & Ho1 & Ht1). step E1. destruct (IH w1) as (w' & E' & Ho' & Ht').
  - intros f Hin. rewrite Ho1, os_files_count.
    specialize (Hf f). rewrite files_of_cons in Hf. rewrite elem_of_app in Hf. specialize (Hf (or_intror Hin)).
    unfold occ in *. rewrite filter_app, length_app in Hf. lia.
  - exists w'. rewrite files_of_cons, os_files_app, <- Ho1. split_and!; [done|done|by etransitivity].
Qed.

Definition os_unshare (ps : list Z) o : osview PageData := foldl (λ o p, v_map (-1) p (v_ref (-1) p o)) o ps.

Lemma os_unshare_frame ps o :
  v_ptes (os_unshare ps o) = v_ptes o ∧ v_files (os_unshare ps o) = v_files o ∧ v_data (os_unshare ps o) = v_data o ∧
  v_alloc (os_unshare ps o) = v_alloc o ∧
  (∀ p, count (v_refs (os_unshare ps o)) p = count (v_refs o) p - occ ps p ∧ count (v_maps (os_unshare ps o)) p = count (v_maps o) p - occ ps p)%Z.
Proof.
  revert o. induction ps as [|q ps IH]; intros o; [split_and!; try done; intros p; unfold occ; cbn; lia|].
  destruct (IH (v_map (-1) q (v_ref (-1) q o))) as (E1 & E2 & E3 & E4 & E5). split_and!; [done..|].
  intros p. destruct (E5 p) as [E6 E7]. change (os_unshare (q :: ps) o) with (os_unshare ps (v_map (-1) q (v_ref (-1) q o))).
  rewrite E6, E7, occ_cons. cbn [v_map v_ref v_refs v_maps]. rewrite !count_bump. case_decide; lia.
Qed.

Lemma drop_shared_pages ps w :
  (∀ p, p ∈ ps → (occ ps p < count (v_refs (os w)) p)%Z) →
  ∃ w', drop_all COW4KPage_drop (mkCOW4KPage <$> ps) w = Ret ((), w') ∧ os w' = os_unshare ps (os w) ∧ same_task w w'.
Proof.
  revert w. induction ps as [|p ps IH]; intros w Hps; [by exists w|]. rewrite fmap_cons. cbn [drop_all].
  pose proof (Hps p ltac:(left)) as Hp. rewrite occ_cons, decide_True in Hp by done. pose proof (occ_nonneg ps p).
  destruct (put_page_ok p w) as (w1 & E1 & Ho1 & Ht1); [lia|]. destruct (mapcount_dec_ok p w1) as (w2 & E2 & Ho2 & Ht2).
  assert (Ed : COW4KPage_drop (mkCOW4KPage p) w = Ret ((), w2)).
  { unfold COW4KPage_drop, pmem_put_page, pmem_page_free_rmap. cbn [cow_inner]. by step E1. }
  step Ed. destruct (IH w2) as (w' & E' & Ho' & Ht').
  - intros q Hq. specialize (Hps q ltac:(by right)). rewrite Ho2, Ho1. cbn [v_map v_ref v_refs]. rewrite count_bump.
    rewrite occ_cons in Hps. case_decide; lia.
  - exists w'. split_and!; [done|by rewrite Ho', Ho2, Ho1|by do 2 (etransitivity; [eassumption|])].
Qed.

(** A shadow process taken copy-on-write and dropped again, while the process
    itself still holds its pages and files, leaves every reference count, map
    count and file count as it was, and no page is freed. *)
Theorem cow_drop_restores fuel mi w ls :
  mm_inv w → length (areas w) < fuel → Forall2 (page_addrs (os w)) (areas w).*2 ls →
  (∀ a, a ∈ concat ls → (1 ≤ count (v_refs (os w)) (page_of (os w) a))%Z) →
  (∀ x, x ∈ areas w → VmArea.vm_file x.2 ≠ 0%Z → (1 ≤ count (v_files (os w)) (VmArea.vm_file x.2))%Z) →
  ∃ sp w1 w2, new_cow fuel mi w = Ret (sp, w1) ∧ ShadowProcess_drop sp w1 = Ret ((), w2) ∧
    (∀ p, count (v_refs (os w2)) p = count (v_refs (os w)) p ∧ count (v_maps (os w2)) p = count (v_maps (os w)) p ∧
      count (v_files (os w2)) p = count (v_files (os w)) p) ∧
    v_ptes (os w2) = v_ptes (os w1) ∧ v_data (os w2) = v_data (os w) ∧ v_alloc (os w2) = v_alloc (os w) ∧ same_task w w2.
Proof.
  intros Hinv Hf Hls Hrefs Hfiles. destruct (new_cow_ok fuel mi w ls Hinv Hf Hls) as (Hnd & w1 & E1 & Ho1 & Ht1).
  set (k := shares (areas w).*2 ls) in *. set (fs := files_of true (areas w)) in *.
  destruct (os_files_frame 1 fs (os w)) as (Hpt & Hrf & Hmp & Hda & Hal).
  destruct (same_ptes _ _ Hpt) as (_ & _ & Hsh & _). destruct (cows_frame k (os_files 1 fs (os w))) as (_ & Hcf & Hcd & Hca).
  rewrite <- Ho1 in Hcf, Hcd, Hca.
  destruct (drop_shared_vmas (areas w) w1) as (w2 & E2 & Ho2 & Ht2).
  { fold fs. intros f Hin. rewrite Hcf, os_files_count. unfold fs, files_of in Hin. apply list_elem_of_filter in Hin as [H0 Hin].
    apply list_elem_of_fmap in Hin as (x & -> & Hx). specialize (Hfiles x Hx H0). lia. }
  fold fs in Ho2. destruct (os_files_frame (-1) fs (os w1)) as (Hpt2 & Hrf2 & Hmp2 & Hda2 & Hal2). rewrite <- Ho2 in *.
  destruct (drop_shared_pages (page_of (os w) <$> k) w2) as (w3 & E3 & Ho3 & Ht3).
  { intros p Hp. rewrite Hrf2, Ho1, (proj1 (cows_count _ _ p Hnd)), Hsh, Hrf. unfold sharers.
    apply list_elem_of_fmap in Hp as (a & -> & Ha). specialize (Hrefs a). unfold k in Ha.
    specialize (Hrefs (elem_of_sublist _ _ _ Ha (shares_sublist _ _))). lia. }
  destruct (os_unshare_frame (page_of (os w) <$> k) (os w2)) as (H1 & H2 & H3 & H4 & H5). rewrite <- Ho3 in *.
  eexists _, w1, w3. split; [exact E1|]. split_and!; [| |congruence|congruence|congruence|by do 2 (etransitivity; [eassumption|])].
  - unfold ShadowProcess_drop. cbn [shadow_vmas copy_shadow_pagetable cow_shadow_pagetable table]. step E2.
    rewrite (io_bind_run _ _ _ _ _ eq_refl). unfold cow_pages. by rewrite <- (list_fmap_compose (page_of (os w)) mkCOW4KPage) in E3.
  - intros p. destruct (H5 p) as [-> ->]. rewrite Hrf2, Hmp2, Ho1, H2, Ho2, os_files_count.
    destruct (cows_count k (os_files 1 fs (os w)) p Hnd) as [-> ->]. rewrite Hsh, Hrf, Hmp, Hcf, os_files_count. unfold sharers.
    split_and!; lia.
Qed.
End ShadowCow.

Lemma new_cow_snapshot_witness :
  ∃ sp w', new_cow (vc := linux_VmConsts) 2 (mkRDMADescriptor 0 1 (0, 0)%Z 0 0 0 0 0) example_process = Ret (sp, w') ∧
    inner_pg_table <$> page_table (descriptor sp) = [[(0, 4100); (8192, 8196)]]%Z ∧
    v_pte (os example_process) 4194304 = 4199%Z ∧ pte_write (v_pte (os w') 4194304) = false ∧
    count (v_refs (os w')) 64 = 2%Z.
Proof.
  destruct (new_cow_snapshot (vc := linux_VmConsts) 2 (mkRDMADescriptor 0 1 (0, 0)%Z 0 0 0 0 0) example_process [[4194304; 4202496]%Z])
    as (sp & w' & E & Hd & _ & _ & Hk & _ & _ & Hc & _).
  - exact example_process_inv.
  - cbn. lia.
  - exact example_process_resident.
  - exact example_process_pages.
  - exists sp, w'. split; [exact E|]. split_and!.
    + rewrite Hd. by vm_compute.
    + by vm_compute.
    + apply Hk. left.
    + rewrite (proj1 (Hc 64%Z)). by vm_compute.
Defined.

Lemma cow_drop_restores_witness :
  ∃ sp w1 w2, new_cow (vc := linux_VmConsts) 2 (mkRDMADescriptor 0 1 (0, 0)%Z 0 0 0 0 0) example_process = Ret (sp, w1) ∧
    ShadowProcess_drop sp w1 = Ret ((), w2) ∧ count (v_refs (os w2)) 64 = 1%Z ∧ count (v_files (os w2)) 500 = 1%Z.
Proof.
  destruct (cow_drop_restores (vc := linux_VmConsts) 2 (mkRDMADescriptor 0 1 (0, 0)%Z 0 0 0 0 0) example_process [[4194304; 4202496]%Z])
    as (sp & w1 & w2 & E1 & E2 & Hc & _).
  - exact example_process_inv.
  - cbn. lia.
  - exact example_process_pages.
  - intros a [-> | [-> | []%elem_of_nil]%elem_of_cons]%elem_of_cons; by vm_compute.
  - intros x [-> | []%elem_of_nil]%elem_of_cons _. by vm_compute.
  - exists sp, w1, w2. split_and!; [exact E1|exact E2|by rewrite (proj1 (Hc 64%Z))|].
    by rewrite (proj2 (proj2 (Hc 500%Z))).
Defined.
