(* ===== verification/RemoteFork.v ===== *)
(** * Remote fork, end to end

    A process takes a snapshot of itself, serializes its descriptor, and a child
    elsewhere reads it: what the child's page table says about each user page is
    put together here from the snapshot, the wire format and the page table. *)

From Stdlib Require Import Sorted.
From S2P Require Import Prelude PageStructures PageHeap RemotePageTable Bytes Descriptors ParentWire ChildWire Future Rdma Task RefTask Machine ShadowProcess ShadowSpec RefPages ShadowCopy ShadowCow.
Import PhysAddrFacts.

Lemma vpn_page_inj a b :
  (4096 | a)%Z → (4096 | b)%Z → (0 ≤ a < 2 ^ 47)%Z → (0 ≤ b < 2 ^ 47)%Z → vpn a = vpn b → a = b.
Proof.
  intros [i ->] [j ->] Ha Hb. unfold vpn. change (2 ^ 12)%Z with 4096%Z. rewrite !Z.div_mul by done.
  rewrite !Z.mod_small by lia. lia.
Qed.

Lemma ordered_disjoint l x y a :
  ordered l → x ∈ l → y ∈ l → (VmArea.vm_start x.2 ≤ a < VmArea.vm_end x.2)%Z → (VmArea.vm_start y.2 ≤ a < VmArea.vm_end y.2)%Z → x = y.
Proof.
  induction l as [|[p v] l IH]; [by intros _ ?%elem_of_nil|]. intros (_ & _ & Hlt & Ho) Hx Hy Ha Hb. rewrite Forall_forall in Hlt.
  apply elem_of_cons in Hx as [->|Hx], Hy as [->|Hy]; [done| | |by apply IH].
  - specialize (Hlt _ Hy). cbn in *. lia.
  - specialize (Hlt _ Hx). cbn in *. lia.
Qed.

Section Recorded.
Context {W : Type} {ta : TaskApi W} {tok : TaskOk W} {pa : PagesApi W} {kn : Kernel W}.
Context {kt : KTimerApi W} {kt_ok : KTimerOk W} {kr : KRdmaKit W} {nic : NicOk W} {kn_ok : KernelOk W}.
Context {pok : PagesOk W}.
Implicit Types o : osview PageData.

(** A VMA of the user half of the address space *)
Definition user_area (v : VmArea.t) : Prop := (0 ≤ VmArea.vm_start v ∧ VmArea.vm_end v ≤ 2 ^ 47)%Z.

(** A VMA whose offsets fit 32 bits *)
Definition small_area (v : VmArea.t) : Prop := (VmArea.vm_end v - VmArea.vm_start v ≤ 2 ^ 32)%Z.

(** [e] is a page-table entry for the page the process has at [a]. *)
Definition entry_for o o' (a e : Z) : Prop :=
  is_u64 e ∧ (0 < PhysAddr_decode e)%Z ∧ v_data o' !! PhysAddr_decode e = v_data o !! frame_of o a.

Lemma sorted_length l s e :
  StronglySorted Z.lt l → (∀ a, a ∈ l → s ≤ a < e)%Z → (s ≤ e)%Z → (Z.of_nat (length l) ≤ e - s)%Z.
Proof.
  intros Hs. revert s. induction Hs as [|x l Hs IH Hx]; intros s Hl Hse; [cbn; lia|].
  pose proof (Hl x ltac:(left)). specialize (IH (x + 1)%Z). rewrite Forall_forall in Hx. cbn [length].
  assert (Z.of_nat (length l) ≤ e - (x + 1))%Z; [|lia]. apply IH; [|lia]. intros a Ha. specialize (Hx a Ha). specialize (Hl a ltac:(by right)). lia.
Qed.

Lemma snapshot_entries o o' v t l :
  page_addrs o v l → snapshot_table o o' v t →
  Forall2 (λ a oe, oe.1 = as_u32 (a - VmArea.vm_start v) ∧ entry_for o o' a oe.2) l (inner_pg_table t).
Proof.
  intros Hl (l' & Hl' & Hoff & He). rewrite <- (page_addrs_unique _ _ _ _ Hl Hl') in *. clear Hl Hl'. revert l Hoff He.
  induction (inner_pg_table t) as [|[x e] es IH]; intros [|a l] Hoff He; try done. cbn in Hoff, He.
  apply Forall2_cons in He as [He Hes]. injection Hoff as -> Hoff. constructor; [done|by apply IH].
Qed.

(** What is recorded of a VMA, of whatever size, can be serialized and mapped. *)
Lemma snapshot_area_valid o o' v t l :
  user_area v → page_addrs o v l → snapshot_table o o' v t →
  CompactPageTable_valid t ∧ entries_mappable (VmArea.vm_start v) (inner_pg_table t) ∧ length (inner_pg_table t) = length l.
Proof.
  intros [Hv1 Hv2] Hl Ht. pose proof (snapshot_entries _ _ _ _ _ Hl Ht) as Hes.
  assert (Hlen : (12 * table_len t + 12 < 2 ^ 64)%Z).
  { unfold table_len. rewrite <- (Forall2_length _ _ _ Hes). destruct Hl as [Hs Hl].
    destruct (decide (VmArea.vm_start v ≤ VmArea.vm_end v)%Z).
    - pose proof (sorted_length l (VmArea.vm_start v) (VmArea.vm_end v) Hs). assert (Z.of_nat (length l) ≤ 2 ^ 47)%Z; [|lia].
      etransitivity; [apply H; [|lia]|lia]. intros a Ha. by apply Hl.
    - destruct l as [|a l]; [done|]. destruct (Hl a) as [Ha _]. specialize (Ha ltac:(left)). lia. }
  assert (Hok : Forall (λ oe, entry_ok oe ∧ (0 ≤ oe.1 + VmArea.vm_start v < 2 ^ 47 ∧ oe.2 ≠ 0)%Z) (inner_pg_table t)).
  { apply Forall_lookup. intros i [x e] Hi. destruct (Forall2_lookup_r _ _ _ _ _ Hes Hi) as (a & Ha & Hx & He). cbn in Hx, He |- *.
    apply list_elem_of_lookup_2, Hl in Ha as (_ & Hr & _). pose proof (as_u32_range (a - VmArea.vm_start v)) as Hu. rewrite <- Hx in Hu.
    pose proof Hu as Hu'. unfold is_u32 in Hu'.
    assert (x ≤ a - VmArea.vm_start v)%Z by (rewrite Hx; apply Z.mod_le; lia). split; [split; [done|apply He]|]. split; [lia|].
    intros ->. by destruct He as (_ & ? & _). }
  split_and!; [split; [eapply Forall_impl; [exact Hok|by intros ? []]|done]|eapply Forall_impl; [exact Hok|by intros ? []]|].
  symmetry. by eapply Forall2_length.
Qed.

Lemma snapshot_areas_valid o o' vs ts ls :
  Forall user_area vs → Forall2 (page_addrs o) vs ls → Forall2 (snapshot_table o o') vs ts →
  Forall CompactPageTable_valid ts ∧
  Forall2 (λ v pt, entries_mappable (get_start v) (inner_pg_table pt)) (area_desc <$> vs) ts ∧
  page_count ts = length (concat ls).
Proof.
  intros Hu Hls. revert ts. induction Hls as [|v l vs ls Hl Hls IH]; intros ts Hts.
  { apply Forall2_nil_inv_l in Hts as ->. cbn. split_and!; constructor. }
  apply Forall2_cons_inv_l in Hts as (t & ts' & Ht & Hts & ->). apply Forall_cons in Hu as [Hv Hvs].
  destruct (snapshot_area_valid o o' v t l Hv Hl Ht) as (H1 & H2 & H3). destruct (IH Hvs ts' Hts) as (I1 & I2 & I3).
  cbn [fmap list_fmap concat]. split_and!; [by constructor|by constructor|]. unfold page_count in *. cbn. rewrite I3, H3, length_app. done.
Qed.

Lemma recorded_area o o' v t l :
  user_area v → small_area v → page_addrs o v l → snapshot_table o o' v t →
  (recorded_vma (area_desc v) t).*1 = vpn <$> l ∧ Forall2 (entry_for o o') l (recorded_vma (area_desc v) t).*2.
Proof.
  intros [Hv1 Hv2] Hv3 Hl Ht. pose proof (snapshot_entries _ _ _ _ _ Hl Ht) as Hes. unfold small_area in Hv3.
  assert (Hin : ∀ a, a ∈ l → (as_u32 (a - VmArea.vm_start v) = a - VmArea.vm_start v)%Z).
  { intros a (_ & Ha & _)%Hl. apply as_u32_small; unfold is_u32; lia. }
  unfold recorded_vma. rewrite <- !list_fmap_compose. clear Ht Hl. revert Hes. generalize (inner_pg_table t) as es.
  induction l as [|a l IH]; intros [|[x e] es] Hes; inversion Hes as [|???? [Hx He] Hes']; subst; [done|].
  destruct (IH (λ b Hb, Hin b (list_elem_of_further _ _ _ Hb)) es Hes') as (H1 & H2).
  pose proof (Hin a ltac:(left)) as Ha1. cbn in Hx. rewrite Ha1 in Hx. subst x. cbn. rewrite Z.sub_add.
  split; [by f_equal|by constructor].
Qed.

Lemma recorded_areas o o' vs ts ls :
  Forall user_area vs → Forall small_area vs → Forall2 (page_addrs o) vs ls → Forall2 (snapshot_table o o') vs ts →
  (recorded_vmas (area_desc <$> vs) ts).*1 = vpn <$> concat ls ∧
  Forall2 (entry_for o o') (concat ls) (recorded_vmas (area_desc <$> vs) ts).*2.
Proof.
  intros Hu Hsm Hls. revert ts. induction Hls as [|v l vs ls Hl Hls IH]; intros ts Hts.
  { apply Forall2_nil_inv_l in Hts as ->. cbn. split; constructor. }
  apply Forall2_cons_inv_l in Hts as (t & ts' & Ht & Hts & ->). apply Forall_cons in Hsm as [Hv Hvs]. apply Forall_cons in Hu as [Hw Hws].
  destruct (recorded_area o o' v t l Hw Hv Hl Ht) as (H1 & H2).
  destruct (IH Hws Hvs ts' Hts) as (I1 & I2). cbn [fmap list_fmap recorded_vmas concat]. rewrite !fmap_app, H1, I1.
  split; [done|by apply Forall2_app].
Qed.

(** Every page of a VMA is found under its number, and nothing else is. *)
Lemma recorded_lookup o o' vs ts ls a :
  Forall user_area vs → Forall small_area vs → Forall2 (page_addrs o) vs ls → Forall2 (snapshot_table o o') vs ts → NoDup (concat ls) →
  (4096 | a)%Z → (0 ≤ a < 2 ^ 47)%Z →
  let pages := list_to_map (recorded_vmas (area_desc <$> vs) ts) : gmap Z Z in
  (a ∈ concat ls → ∃ e, pages !! vpn a = Some e ∧ entry_for o o' a e) ∧ ((a ∉ concat ls) → pages !! vpn a = None).
Proof.
  intros Hus Hsm Hls Hts Hnd Ha4 Ha pages. destruct (recorded_areas o o' vs ts ls Hus Hsm Hls Hts) as (H1 & H2).
  assert (Hin : ∀ b, b ∈ concat ls → (4096 | b)%Z ∧ (0 ≤ b < 2 ^ 47)%Z).
  { intros b (l & Hb & Hl)%elem_of_concat. apply list_elem_of_lookup in Hl as [i Hi].
    destruct (Forall2_lookup_r _ _ _ _ _ Hls Hi) as (v & Hv & [_ Hl]). apply Hl in Hb as (H4 & Hr & _). split; [done|].
    apply list_elem_of_lookup_2 in Hv. rewrite Forall_forall in Hus. destruct (Hus v Hv). lia. }
  assert (Hndv : NoDup (recorded_vmas (area_desc <$> vs) ts).*1).
  { rewrite H1. apply NoDup_fmap_2_strong; [|done]. intros b c Hb Hc. destruct (Hin b Hb), (Hin c Hc). by apply vpn_page_inj. }
  split.
  - intros Hal. apply list_elem_of_lookup in Hal as [i Hi]. destruct (Forall2_lookup_l _ _ _ _ _ H2 Hi) as (e & He & Hfor).
    exists e. split; [|done]. apply elem_of_list_to_map_1; [done|]. apply list_elem_of_lookup. exists i.
    apply (f_equal (λ l, l !! i)) in H1. rewrite !list_lookup_fmap, Hi in H1. rewrite list_lookup_fmap in He.
    destruct (recorded_vmas _ _ !! i) as [[n e']|]; [|done]. cbn in *. congruence.
  - intros Hal. apply not_elem_of_list_to_map_1. rewrite H1. intros (b & Hb & Hin')%list_elem_of_fmap.
    destruct (Hin b Hin'). by rewrite (vpn_page_inj a b) in Hal.
Qed.

Lemma concat_pages o (l : list (Z * VmArea.t)) ls a :
  Forall2 (page_addrs o) l.*2 ls → (4096 | a)%Z →
  a ∈ concat ls ↔ is_mapped o a ∧ Exists (λ x, VmArea.vm_start x.2 ≤ a < VmArea.vm_end x.2)%Z l.
Proof.
  intros Hls Ha. revert ls Hls. induction l as [|[p v] l IH]; intros ls Hls; cbn in Hls.
  { apply Forall2_nil_inv_l in Hls as ->. cbn. rewrite elem_of_nil, Exists_nil. tauto. }
  apply Forall2_cons_inv_l in Hls as (k & ks & [_ Hk] & Hls & ->). cbn. rewrite elem_of_app, Exists_cons, Hk, (IH _ Hls). cbn. tauto.
Qed.

(** Without the bound on VMAs, a page is recorded at its offset modulo 4 GiB. *)
Lemma recorded_keys o o' vs ts n :
  Forall2 (snapshot_table o o') vs ts → n ∈ (recorded_vmas (area_desc <$> vs) ts).*1 →
  ∃ v a, v ∈ vs ∧ (4096 | a)%Z ∧ (VmArea.vm_start v ≤ a < VmArea.vm_end v)%Z ∧
    n = vpn (as_u32 (a - VmArea.vm_start v) + VmArea.vm_start v).
Proof.
  induction 1 as [|v t vs ts Ht Hts IH]; cbn; [by intros ?%elem_of_nil|]. rewrite fmap_app. intros [Hn|Hn]%elem_of_app.
  - pose proof Ht as (l & Hl & _). pose proof (snapshot_entries _ _ _ _ _ Hl Ht) as Hes. unfold recorded_vma in Hn.
    rewrite <- list_fmap_compose in Hn. apply list_elem_of_fmap in Hn as (oe & -> & Hoe). apply list_elem_of_lookup in Hoe as [i Hi].
    destruct (Forall2_lookup_r _ _ _ _ _ Hes Hi) as (a & Ha & Hoe & _). apply list_elem_of_lookup_2, Hl in Ha as (H4 & Hr & _).
    exists v, a. cbn. rewrite Hoe. split_and!; [left|done|lia|lia|done].
  - destruct (IH Hn) as (u & a & Hu & Ha). exists u, a. split; [by right|done].
Qed.
End Recorded.

Section RemoteFork.
Context {W : Type} {ta : TaskApi W} {tok : TaskOk W} {pa : PagesApi W} {kn : Kernel W} {vc : VmConsts}.
Context {kt : KTimerApi W} {kt_ok : KTimerOk W} {kr : KRdmaKit W} {nic : NicOk W} {kn_ok : KernelOk W}.
Context {pok : PagesOk W}.
Context {vm : Vmalloc} {vm_ok : VmallocOk} {x86 : X86Crate} {x86_ok : X86CrateOk}.
Context {dl : DescriptorLayout} {dl_ok : DescriptorLayoutOk}.

(** The registers and VMAs of the process and the access information of its
    machine fit the types of the descriptor, and the VMAs lie in the user half. *)
Definition publishable (w : W) (mi : RDMADescriptor) : Prop :=
  valid (user_regs w) ∧ Forall valid (area_desc <$> (areas w).*2) ∧ valid mi ∧ Forall user_area (areas w).*2.

(** The size of the serialized descriptor of a process with pages [ls]. *)
Definition table_bytes (l : list Z) : Z :=
  let n := Z.of_nat (length l) in (8 + 12 * n + (if needs_pad n then 4 else 0))%Z.
Definition published_len (w : W) (mi : RDMADescriptor) (ls : list (list Z)) : Z :=
  (need (user_regs w) + 8 + (Z.of_nat (length (areas w)) * Z.of_nat (@size_of _ dl_vma) + foldr Z.add 0 (table_bytes <$> ls)) +
   need mi)%Z.

(** A child that reads the descriptor [d] from the buffer [b] finds every page
    of the process [w] with its contents in [w'], and no other page. *)
Definition child_reads (w w' : W) (d : ParentDescriptor) (m : mem) (h : heap) (b : BytesMut) : Prop :=
  ∃ child h', child_deserialize m h b = Ret (Some child, h', []) ∧
    c_regs child = user_regs w ∧ c_vma child = area_desc <$> (areas w).*2 ∧ c_machine_info child = machine_info d ∧
    ∀ a, (4096 | a)%Z → (0 ≤ a < 2 ^ 47)%Z →
      if decide (is_mapped (os w) a ∧ Exists (λ x, VmArea.vm_start x.2 ≤ a < VmArea.vm_end x.2)%Z (areas w))
      then ∃ e, lookup_pg_table h' child a = Ret (Some e) ∧ entry_for (os w) (os w') a e
      else lookup_pg_table h' child a = Ret None.

(** [d] is a snapshot of the process [w] whose contents are those of [w']. *)
Definition snapshot_of (w w' : W) (mi : RDMADescriptor) (d : ParentDescriptor) : Prop :=
  d = mkParentDescriptor (user_regs w) (page_table d) (area_desc <$> (areas w).*2) mi ∧
  Forall2 (snapshot_table (os w) (os w')) (areas w).*2 (page_table d).

Abbreviation encoded_len d := (Z.of_nat (length (ParentDescriptor_encode d))).

Lemma snapshot_sum_need o o' vs ls ts :
  Forall2 (page_addrs o) vs ls → Forall2 (snapshot_table o o') vs ts → sum_need ts = foldr Z.add 0%Z (table_bytes <$> ls).
Proof.
  intros Hls. revert ts. induction Hls as [|v l vs ls Hl Hls IH]; intros ts Hts.
  { by apply Forall2_nil_inv_l in Hts as ->. }
  apply Forall2_cons_inv_l in Hts as (t & ts' & Ht & Hts & ->). cbn [sum_need fmap list_fmap foldr]. rewrite (IH ts' Hts). f_equal.
  cbn [need CompactPageTable_Spec]. rewrite CompactPageTable_encode_length. unfold table_len, table_bytes.
  by rewrite <- (Forall2_length _ _ _ (snapshot_entries _ _ _ _ _ Hl Ht)).
Qed.

Lemma snapshot_valid w w' d mi ls :
  publishable w mi → Forall2 (page_addrs (os w)) (areas w).*2 ls → snapshot_of w w' mi d →
  (published_len w mi ls + 8 < 2 ^ 64)%Z → ParentDescriptor_valid d ∧ encoded_len d = published_len w mi ls.
Proof.
  intros (Hr & Hv & Hmi & Hus) Hls [Hd Hsn] Hsz. destruct (snapshot_areas_valid _ _ _ _ _ Hus Hls Hsn) as (Hpv & _).
  assert (Hvs : ∀ v : VMADescriptor, valid v → need v = Z.of_nat (@size_of _ dl_vma)) by done.
  assert (Hl : length (vma d) = length (page_table d)).
  { rewrite Hd. cbn [vma page_table]. by rewrite length_fmap, (Forall2_length _ _ _ Hsn). }
  assert (E : encoded_len d = published_len w mi ls).
  { rewrite (ParentDescriptor_encode_parts Hvs d); [|by rewrite Hd..|done|by rewrite Hd|done].
    rewrite (snapshot_sum_need _ _ _ _ _ Hls Hsn), Hd. cbn [vma regs machine_info]. by rewrite !length_fmap. }
  split; [|done]. split; [by rewrite Hd..|done|by rewrite Hd|done|by rewrite E].
Qed.

Lemma snapshot_child_reads w w' d mi ls m h b :
  mm_inv w → publishable w mi → Forall small_area (areas w).*2 → Forall2 (page_addrs (os w)) (areas w).*2 ls → snapshot_of w w' mi d →
  ParentDescriptor_valid d → (8 | bm_ptr b)%Z → at_mem m (bm_ptr b) (ParentDescriptor_encode d) →
  (encoded_len d ≤ bm_len b)%Z → pt_inv h → size h + 1 + 3 * length (concat ls) ≤ vm_capacity → child_reads w w' d m h b.
Proof.
  intros Hinv (Hr & Hv & Hmi & Hus) Hsm Hls [Hd Hsn] Hval Hb Hat Hle Hpt Hcap.
  destruct (snapshot_areas_valid _ _ _ _ _ Hus Hls Hsn) as (Hpv & Hmap & Hcnt).
  pose proof (areas_ok w Hinv) as (_ & _ & Hord). pose proof (page_addrs_NoDup _ _ _ Hord Hls) as Hnd.
  destruct (child_deserialize_ok m h b d Hval) as (child & h' & E' & H1 & H2 & H3 & Hinv' & Hok & _);
    [by rewrite Hd|done|by rewrite Hcnt|done|done|done|].
  exists child, h'. split_and!; [done|by rewrite H1, Hd|by rewrite H2, Hd|done|]. intros a Ha4 Ha.
  rewrite (lookup_pg_table_ok _ _ _ a Hinv' Hok) by done.
  destruct (recorded_lookup _ _ _ _ _ a Hus Hsm Hls Hsn Hnd Ha4 Ha) as [Hsome Hnone]. rewrite (concat_pages _ _ _ a Hls Ha4) in Hsome, Hnone.
  assert (Ep : parent_pages d = list_to_map (recorded_vmas (area_desc <$> (areas w).*2) (page_table d))) by (by rewrite Hd).
  rewrite Ep. case_decide as Hc; [|by rewrite Hnone]. destruct (Hsome Hc) as (e & -> & He). by exists e.
Qed.

(** What both ways to take a snapshot share. *)
Lemma snapshot_taken (cow : bool) fuel mi w ls :
  mm_inv w → length (areas w) < fuel → resident (os w) →
  Forall2 (page_addrs (os w)) (areas w).*2 ls → size (v_alloc (os w)) + length (concat ls) ≤ mem_pages →
  ∃ sp w', (if cow then new_cow fuel mi else new_copy fuel mi) w = Ret (sp, w') ∧
    snapshot_of w w' mi (descriptor sp).
Proof.
  intros Hinv Hf Hres Hls Hs. destruct cow.
  - destruct (new_cow_ok fuel mi w ls Hinv Hf Hls) as (_ & w' & E & Ho & _). eexists _, w'. split; [exact E|]. split; [done|].
    apply cow_tables_snapshot; [done| |done].
    destruct (cows_frame (shares (areas w).*2 ls) (os_files 1 (files_of true (areas w)) (os w))) as (_ & _ & Hd & _).
    rewrite Ho, Hd. apply os_files_frame.
  - destruct (new_copy_ok fuel mi w ls Hinv Hf Hls Hs) as (w' & pss & E & Hlen & Hnd & Hps & Ho & _). eexists _, w'. split; [exact E|].
    split; [done|]. by eapply new_copy_data.
Qed.

(** C16: What a parent process has is what the forked child gets, as long as none
    of its VMAs exceeds 4 GiB, the range of the recorded offsets: a snapshot, by
    copying or copy-on-write, is taken when there is memory for it, and a child
    that reads its descriptor from a buffer it was serialized into and that is
    large enough has the parent's registers and VMAs and finds, at every user
    page, an entry for a frame with the contents the parent's page had when the
    snapshot was taken, and no entry where the parent has no page. *)
Theorem remote_fork_pages (cow : bool) fuel mi w ls :
  mm_inv w → length (areas w) < fuel → resident (os w) → publishable w mi → Forall small_area (areas w).*2 →
  Forall2 (page_addrs (os w)) (areas w).*2 ls → size (v_alloc (os w)) + length (concat ls) ≤ mem_pages →
  (published_len w mi ls + 8 < 2 ^ 64)%Z →
  ∃ sp w', (if cow then new_cow fuel mi else new_copy fuel mi) w = Ret (sp, w') ∧
    ∀ m b h, buf_ok m b → (published_len w mi ls + 8 ≤ bm_len b)%Z → pt_inv h → size h + 1 + 3 * length (concat ls) ≤ vm_capacity →
      ∃ m', parent_serialize m (descriptor sp) b = Ret (true, m') ∧ child_reads w w' (descriptor sp) m' h b.
Proof.
  intros Hinv Hf Hres Hpub Hsm Hls Hs Hsz. destruct (snapshot_taken cow fuel mi w ls) as (sp & w' & E & Hsn); [done..|].
  exists sp, w'. split; [exact E|]. intros m b h Hb Hle Hpt Hcap. destruct (snapshot_valid _ _ _ _ _ Hpub Hls Hsn Hsz) as [Hval El]. rewrite <- El in Hle.
  assert (Hvs : ∀ v : VMADescriptor, valid v → need v = Z.of_nat (@size_of _ dl_vma)) by done.
  destruct (ParentDescriptor_serialize_ok Hvs m (descriptor sp) b Hval Hb Hle) as (m' & Es & Hat & _).
  exists m'. split; [exact Es|]. apply (snapshot_child_reads _ _ _ mi ls); try done; [apply Hb|lia].
Qed.

Lemma far_key_absent w w' d x a :
  mm_inv w → Forall2 (snapshot_table (os w) (os w')) (areas w).*2 (page_table d) → vma d = area_desc <$> (areas w).*2 →
  Forall (λ x, (4096 | VmArea.vm_start x.2)%Z ∧ (VmArea.vm_end x.2 ≤ 2 ^ 47)%Z) (areas w) →
  x ∈ areas w → (4096 | a)%Z → (VmArea.vm_start x.2 + 2 ^ 32 ≤ a < VmArea.vm_end x.2)%Z → parent_pages d !! vpn a = None.
Proof.
  intros Hinv Hsn Hv Hal Hx Ha4 Ha. apply not_elem_of_list_to_map_1. unfold recorded. rewrite Hv. intros Hn.
  destruct (recorded_keys _ _ _ _ _ Hsn Hn) as (v & b & Hvin & Hb4 & Hb & E). apply list_elem_of_fmap in Hvin as (y & -> & Hy).
  rewrite Forall_forall in Hal. destruct (Hal _ Hx) as [_ Hxe], (Hal _ Hy) as [Hys Hye].
  pose proof (areas_ok w Hinv) as (_ & _ & Hord). destruct x as [p u], y as [q v]. cbn [fst snd] in *.
  destruct (ordered_elem _ _ _ Hord Hx) as [? _], (ordered_elem _ _ _ Hord Hy) as [? _].
  assert (Hm : (0 ≤ as_u32 (b - VmArea.vm_start v) ≤ b - VmArea.vm_start v)%Z).
  { pose proof (as_u32_range (b - VmArea.vm_start v)). unfold is_u32 in *. split; [lia|]. apply Z.mod_le; lia. }
  assert (Hm' := as_u32_range (b - VmArea.vm_start v)). unfold is_u32 in Hm'.
  apply vpn_page_inj in E; [|done| |lia|lia].
  - assert (E2 : (p, u) = (q, v)) by (by apply (ordered_disjoint (areas w) _ _ a Hord Hx Hy); cbn; lia). injection E2 as -> ->. lia.
  - apply Z.divide_add_r; [|done]. unfold as_u32. destruct Hb4 as [i ->], Hys as [k ->].
    rewrite <- Z.mul_sub_distr_r. change (2 ^ 32)%Z with (1048576 * 4096)%Z. rewrite Z.mul_mod_distr_r by done. by exists ((i - k) `mod` 1048576)%Z.
Qed.

(** C34: Boundary of the descriptor: offsets are recorded in 32 bits, so a page that
    lies 4 GiB or more into its VMA is lost.  The snapshot is taken and serialized
    without an error, and in the table the child builds from it no address 4 GiB
    or more into a VMA has a page, although the parent may have one there; the
    child faults it in as if it had never been written. *)
Theorem far_pages_lost (cow : bool) fuel mi w ls :
  mm_inv w → length (areas w) < fuel → resident (os w) → publishable w mi →
  Forall2 (page_addrs (os w)) (areas w).*2 ls → size (v_alloc (os w)) + length (concat ls) ≤ mem_pages →
  (published_len w mi ls + 8 < 2 ^ 64)%Z → Forall (λ x, (4096 | VmArea.vm_start x.2)%Z) (areas w) →
  ∃ sp w', (if cow then new_cow fuel mi else new_copy fuel mi) w = Ret (sp, w') ∧
    ∀ m b h, buf_ok m b → (published_len w mi ls + 8 ≤ bm_len b)%Z → pt_inv h → size h + 1 + 3 * length (concat ls) ≤ vm_capacity →
      ∃ m' child h', parent_serialize m (descriptor sp) b = Ret (true, m') ∧
        child_deserialize m' h b = Ret (Some child, h', []) ∧
        ∀ x a, x ∈ areas w → (4096 | a)%Z → (VmArea.vm_start x.2 + 2 ^ 32 ≤ a < VmArea.vm_end x.2)%Z →
          lookup_pg_table h' child a = Ret None.
Proof.
  intros Hinv Hf Hres Hpub Hls Hs Hsz Hal. destruct (snapshot_taken cow fuel mi w ls) as (sp & w' & E & Hsn); [done..|].
  exists sp, w'. split; [exact E|]. intros m b h Hb Hle Hpt Hcap.
  destruct (snapshot_valid _ _ _ _ _ Hpub Hls Hsn Hsz) as [Hval El]. rewrite <- El in Hle.
  destruct Hpub as (_ & _ & _ & Hus), Hsn as [Hd Hsn]. destruct (snapshot_areas_valid _ _ _ _ _ Hus Hls Hsn) as (_ & Hmap & Hcnt).
  assert (Hvs : ∀ v : VMADescriptor, valid v → need v = Z.of_nat (@size_of _ dl_vma)) by done.
  destruct (ParentDescriptor_serialize_ok Hvs m (descriptor sp) b Hval Hb Hle) as (m' & Es & Hat & _).
  destruct (child_deserialize_ok m' h b (descriptor sp) Hval) as (child & h' & E' & _ & _ & _ & Hinv' & Hok & _);
    [by rewrite Hd|done|by rewrite Hcnt|apply Hb|done|lia|].
  exists m', child, h'. split_and!; [exact Es|exact E'|]. intros x a Hx Ha4 Ha. rewrite Forall_fmap, Forall_forall in Hus.
  destruct (Hus x Hx). rewrite (lookup_pg_table_ok _ _ _ a Hinv' Hok) by (cbn in *; lia).
  rewrite (far_key_absent w w' (descriptor sp) x a); try done; [by rewrite Hd|].
  rewrite Forall_forall in Hal. apply Forall_forall. intros y Hy. split; [by apply Hal|by destruct (Hus y Hy)].
Qed.
End RemoteFork.

Lemma all_u64 l : forallb (λ z, (0 <=? z) && (z <? 2 ^ 64))%Z l = true → Forall is_u64 l.
Proof.
  intros Hl. apply Forall_forall. intros z Hz. rewrite forallb_forall in Hl.
  apply list_elem_of_In in Hz. apply Hl in Hz. unfold is_u64. lia.
Qed.

Lemma example_publishable mi : Forall is_u64 (rdma_words mi) → publishable (dl := word_layout) example_process mi.
Proof.
  intros Hmi. split_and!; [by apply all_u64|apply Forall_singleton; by apply all_u64|done|apply Forall_singleton; split; by vm_compute].
Qed.

Lemma example_small : Forall small_area (areas example_process).*2.
Proof. apply Forall_singleton. by vm_compute. Qed.

Lemma remote_fork_pages_witness :
  ∃ sp w' m' child h' e, new_cow (vc := linux_VmConsts) 2 (mkRDMADescriptor 0 1 (0, 0)%Z 0 0 0 0 0) example_process = Ret (sp, w') ∧
    parent_serialize (dl := word_layout) (zeroed 512) (descriptor sp) (mkBytesMut 0 512) = Ret (true, m') ∧
    child_deserialize (vm := area32) (x86 := x86_reference) (dl := word_layout) m' ∅ (mkBytesMut 0 512) = Ret (Some child, h', []) ∧
    lookup_pg_table (x86 := x86_reference) h' child 4202496 = Ret (Some e) ∧ v_data (os w') !! PhysAddr_decode e = Some 22%Z ∧
    lookup_pg_table (x86 := x86_reference) h' child 4198400 = Ret None.
Proof.
  destruct (remote_fork_pages (vc := linux_VmConsts) (vm := area32) (vm_ok := area32_ok) (x86 := x86_reference)
    (dl := word_layout) (dl_ok := word_layout_ok) true 2 (mkRDMADescriptor 0 1 (0, 0)%Z 0 0 0 0 0) example_process [[4194304; 4202496]%Z])
    as (sp & w' & E & Hch).
  - exact example_process_inv.
  - cbn. lia.
  - exact example_process_resident.
  - apply example_publishable. repeat constructor; cbn; unfold is_u64; lia.
  - exact example_small.
  - exact example_process_pages.
  - apply (bool_decide_unpack _). vm_compute. done.
  - by vm_compute.
  - destruct (Hch (zeroed 512) (mkBytesMut 0 512) ∅) as (m' & E1 & child & h' & E2 & _ & _ & _ & Hl).
    + split_and!; [apply (zeroed_alloc 512)|by exists 0%Z|done].
    + by vm_compute.
    + apply pt_inv_empty.
    + vm_compute. lia.
    + pose proof (Hl 4202496%Z ltac:(by exists 1026%Z) ltac:(lia)) as H1. rewrite decide_True in H1.
      2: { split; [apply example_process_mapped; by right|]. left. cbn. lia. }
      pose proof (Hl 4198400%Z ltac:(by exists 1025%Z) ltac:(lia)) as H2. rewrite decide_False in H2.
      2: { intros [[?|?]%example_process_mapped _]; lia. }
      destruct H1 as (e & He & _ & _ & Hdata). exists sp, w', m', child, h', e. split_and!; [exact E|exact E1|exact E2|exact He| |exact H2].
      etransitivity; [exact Hdata|by vm_compute].
Defined.

(** ** A process with a VMA of more than 4 GiB and one page in its far part *)
Definition example_large_area : VmArea.t := VmArea.mk 4294967296 8589938688 0 3 37 0 0.

Definition example_large : ref_machine :=
  ref_set_tsk (mkRefTask [(1%Z, example_large_area)] (rt_regs ref_idle) 2)
    (ref_set_pages {[64%Z]}
      (ref_set_memory (mkRefMem {[8589934592%Z := 4199%Z]} {[64%Z := 1%Z]} {[64%Z := 1%Z]} ∅ {[4096%Z := 11%Z]}) ref_boot)).

Lemma example_large_mapped a : is_mapped (os example_large) a ↔ a = 8589934592%Z.
Proof.
  unfold is_mapped, frame_of, v_pte.
  cbn [v_ptes os ref_PagesOk ref_view ref_memory example_large ref_set_tsk ref_set_pages ref_set_memory rm_ptes]. split.
  - destruct (decide (a = 8589934592%Z)); [done|]. by rewrite lookup_singleton_ne by done.
  - intros ->. by vm_compute.
Qed.

Lemma example_large_publishable mi : Forall is_u64 (rdma_words mi) → publishable (dl := word_layout) example_large mi.
Proof.
  intros Hmi. split_and!; [by apply all_u64|apply Forall_singleton; by apply all_u64|done|apply Forall_singleton; split; by vm_compute].
Qed.

Definition example_mi : RDMADescriptor := mkRDMADescriptor 0 1 (0, 0)%Z 0 0 0 0 0.

Lemma far_pages_lost_witness :
  ∃ sp w' m' child h', new_copy 2 example_mi example_large = Ret (sp, w') ∧ is_mapped (os example_large) 8589934592 ∧
    parent_serialize (dl := word_layout) (zeroed 512) (descriptor sp) (mkBytesMut 0 512) = Ret (true, m') ∧
    child_deserialize (vm := area32) (x86 := x86_reference) (dl := word_layout) m' ∅ (mkBytesMut 0 512) = Ret (Some child, h', []) ∧
    lookup_pg_table (x86 := x86_reference) h' child 8589934592 = Ret None.
Proof.
  destruct (far_pages_lost (vc := linux_VmConsts) (vm := area32) (vm_ok := area32_ok) (x86 := x86_reference)
    (dl := word_layout) (dl_ok := word_layout_ok) false 2 example_mi example_large [[8589934592]%Z]) as (sp & w' & E & Hl).
  - split; cbn.
    + apply (bool_decide_unpack _). vm_compute. done.
    + split_and!; lia.
    + split; [lia|]. split; [lia|]. by split.
    + repeat constructor; cbn; lia.
    + lia.
  - cbn. lia.
  - intros a ->%example_large_mapped. exists 64%Z. split_and!; [|by apply (bool_decide_unpack _); vm_compute|by vm_compute].
    apply (list_elem_of_fmap_2 (λ k, 64 * Z.of_nat k)%Z (seq 1 1024) 1). apply elem_of_seq. lia.
  - apply example_large_publishable. repeat constructor; cbn; unfold is_u64; lia.
  - constructor; [|constructor]. split; [repeat constructor|]. intros a. rewrite example_large_mapped, list_elem_of_singleton.
    split; [|tauto]. intros ->. split; [by exists 2097152%Z|]. split; [cbn; lia|done].
  - apply (bool_decide_unpack _). vm_compute. done.
  - by vm_compute.
  - apply Forall_singleton. by exists 1048576%Z.
  - destruct (Hl (zeroed 512) (mkBytesMut 0 512) ∅) as (m' & child & h' & E1 & E2 & H).
    + split_and!; [apply (zeroed_alloc 512)|by exists 0%Z|done].
    + by vm_compute.
    + apply pt_inv_empty.
    + vm_compute. lia.
    + exists sp, w', m', child, h'. split_and!; [exact E|by apply example_large_mapped|exact E1|exact E2|].
      apply (H (1%Z, example_large_area)); [left|by exists 2097152%Z|cbn; lia].
Defined.
