(* ===== verification/Datagram.v ===== *)
(** * Datagrams ([os-network/src/datagram*], [rdma/payload/ud.rs])

    A [UDMsg] is a registered memory region with a byte view of it; a
    [UDDatagram] sends messages through an unreliable-datagram queue pair and a
    [UDReceiver] receives into the buffers posted to it.  The receiver keeps its
    buffers in a queue of its own, on the assumption that the card fills them in
    the order they were posted: [ReceiverInv] and its preservation say that the
    message a poll returns is the buffer the card filled. *)

From S2P Require Import Prelude Future Bytes Rdma Machine.

Section Datagram.
Context {W : Type} {kr : KRdmaKit W}.

(** ** [datagram/msg.rs] *)
Record UDMsg := mkUDMsg { msg_inner : MemoryRegion; msg_bytes : BytesMut; msg_imm : Z }.

Definition UDMsg_new (size imm : Z) (context : Context_t) : io W UDMsg :=
  r ← mr_new context size;
  mr ← lift (unwrap r);
  mret (mkUDMsg mr (from_raw (get_virt_addr mr) size) imm).

Definition UDMsg_new_from (mr : MemoryRegion) (imm : Z) : UDMsg :=
  mkUDMsg mr (from_raw (get_virt_addr mr) (capacity mr)) imm.

Definition UDMsg_get_bytes (self : UDMsg) : BytesMut := msg_bytes self.
Definition UDMsg_get_pa (self : UDMsg) : Z := get_rdma_addr (msg_inner self).
Definition UDMsg_len (self : UDMsg) : Z := BytesMut_len (msg_bytes self).
Definition UDMsg_set_imm (self : UDMsg) (imm : Z) : UDMsg := mkUDMsg (msg_inner self) (msg_bytes self) imm.
Definition UDMsg_get_inner (self : UDMsg) : MemoryRegion := msg_inner self.
Definition UDMsg_create (size imm : Z) (context : Context_t) : io W UDMsg := UDMsg_new size imm context.

(** ** [rdma/payload/ud.rs] *)
Record UDReqPayload := mkUDReqPayload {
  ud_mr : MemoryRegion;
  ud_range : Z * Z;
  ud_signaled : bool;
  ud_endpoint : DatagramEndpoint }.

(** ** [datagram/ud.rs] *)
Record UDDatagram := mkUDDatagram { ud : QueuePair; pending : Z }.

Definition UDDatagram_get_qp (self : UDDatagram) : QueuePair := ud self.
Definition UDDatagram_get_pending (self : UDDatagram) : Z := pending self.
Definition UDDatagram_clone (self : UDDatagram) : UDDatagram := mkUDDatagram (ud self) (pending self).

#[export] Instance UDDatagram_Future : Future W UDDatagram ib_wc DatapathError := λ self,
  ret ← poll_send_cq (ud self) 1;
  match ret with
  | Err e => mret (Err e, self)
  | Ok (wc :: _) => mret (Ok (Ready wc), mkUDDatagram (ud self) 0)
  | Ok [] => mret (Ok NotReady, self)
  end.

Definition UDDatagram_post (self : UDDatagram) (req : UDReqPayload) :
    io W (Result () DatapathError * UDDatagram) :=
  r ← post_datagram (ud self) (ud_endpoint req) (ud_mr req) (ud_range req)
        (get_virt_addr (ud_mr req)) (ud_signaled req);
  match r with
  | Err e => mret (Err e, self)
  | Ok _ => p ← lift (u64_add (pending self) 1); mret (Ok (), mkUDDatagram (ud self) p)
  end.

(** ** [datagram/ud_receiver.rs] *)
Record UDReceiver := mkUDReceiver {
  qd_hint : Z;
  recv_inner : UDDatagram;
  msg_queues : list UDMsg }.

Definition UDReceiver_new (ud : UDDatagram) (qd_hint : Z) : UDReceiver := mkUDReceiver qd_hint ud [].

Record UDReceiverFactory := mkUDReceiverFactory { f_qd_hint : Z }.
Definition UDReceiverFactory_new : UDReceiverFactory := mkUDReceiverFactory 0.
Definition UDReceiverFactory_set_qd_hint (self : UDReceiverFactory) (hint : Z) : UDReceiverFactory :=
  mkUDReceiverFactory hint.
Definition UDReceiverFactory_create (self : UDReceiverFactory) (ud : UDDatagram) : UDReceiver :=
  UDReceiver_new ud (f_qd_hint self).

Definition UDReceiver_HEADER : Z := 40.
Definition UDReceiver_MTU : Z := 4096.

Definition to_inner_datagram (self : UDReceiver) : UDDatagram := recv_inner self.
Definition to_inner_msg_queues (self : UDReceiver) : list UDMsg := msg_queues self.

Definition post_recv_buf (self : UDReceiver) (buf : UDMsg) : io W (Result () DatapathError * UDReceiver) :=
  r ← post_recv (ud (recv_inner self)) (UDMsg_get_inner buf) (0, UDMsg_len buf)%Z (UDMsg_get_pa buf);
  match r with
  | Err e => mret (Err e, self)
  | Ok _ => mret (Ok (), mkUDReceiver (qd_hint self) (recv_inner self) (msg_queues self ++ [buf]))
  end.

#[export] Instance UDReceiver_Future : Future W UDReceiver UDMsg DatapathError := λ self,
  ret ← poll_recv_cq (ud (recv_inner self)) 1;
  match ret with
  | Err e => mret (Err e, self)
  | Ok (_ :: _) =>
      match msg_queues self with
      | msg :: msgs => mret (Ok (Ready msg), mkUDReceiver (qd_hint self) (recv_inner self) msgs)
      | [] => panic
      end
  | Ok [] => mret (Ok NotReady, self)
  end.
End Datagram.
Arguments UDMsg W {kr}.
Arguments UDDatagram W {kr}.
Arguments UDReceiver W {kr}.
Arguments UDReqPayload W {kr}.

(** ** The receive queue of the card

    A receive queue pair fills the posted buffers in order, one per completion;
    posting fails or appends. *)
Class RecvOk (W : Type) {kr : KRdmaKit W} := {
  posted_recv : QueuePair → W → list MemoryRegion;
  post_recv_ok qp mr range addr w : ∃ r w', post_recv qp mr range addr w = Ret (r, w') ∧
    posted_recv qp w' = posted_recv qp w ++ match r with Ok _ => [mr] | Err _ => [] end;
  poll_recv_cq_ok qp w : ∃ r w', poll_recv_cq qp 1 w = Ret (r, w') ∧
    match r with
    | Err _ | Ok [] => posted_recv qp w' = posted_recv qp w
    | Ok [wc] => ∃ mr, posted_recv qp w = mr :: posted_recv qp w'
    | Ok _ => False
    end }.

Section ReceiverSpec.
Context {W : Type} {kr : KRdmaKit W} {recv_ok : RecvOk W}.

(** The receiver's queue lists the buffers the card has, in the card's order. *)
Definition ReceiverInv (self : UDReceiver W) (w : W) : Prop :=
  posted_recv (ud (recv_inner self)) w = UDMsg_get_inner <$> msg_queues self.

Lemma post_recv_buf_ok self buf w :
  ReceiverInv self w → ∃ r self' w', post_recv_buf self buf w = Ret ((r, self'), w') ∧
  ReceiverInv self' w' ∧
  msg_queues self' = msg_queues self ++ match r with Ok _ => [buf] | Err _ => [] end.
Proof.
  intros Hinv. unfold post_recv_buf, ReceiverInv in *.
  edestruct (post_recv_ok (ud (recv_inner self)) (UDMsg_get_inner buf)) as (r & w' & E & Hq).
  rewrite (io_bind_run _ _ _ _ _ E). rewrite Hinv in Hq. destruct r as [[]|e].
  - eexists (Ok ()), _, w'. split_and!; [done| |done]. cbn. by rewrite fmap_app.
  - eexists (Err e), _, w'. rewrite app_nil_r in *. done.
Qed.

Lemma UDReceiver_poll_ok (self : UDReceiver W) w :
  ReceiverInv self w → ∃ r self' w', poll self w = Ret ((r, self'), w') ∧ ReceiverInv self' w' ∧
  match r with
  | Ok (Ready msg) => msg_queues self = msg :: msg_queues self' ∧
      posted_recv (ud (recv_inner self)) w = UDMsg_get_inner msg :: posted_recv (ud (recv_inner self)) w'
  | _ => msg_queues self = msg_queues self'
  end.
Proof.
  intros Hinv. unfold poll, UDReceiver_Future. unfold ReceiverInv in *.
  destruct (poll_recv_cq_ok (ud (recv_inner self)) w) as (r & w' & E & Hq).
  rewrite (io_bind_run _ _ _ _ _ E). destruct r as [[|wc [|wc2 l]]|e].
  - exists (Ok NotReady), self, w'. rewrite Hq. done.
  - destruct Hq as (mr & Hq). destruct (msg_queues self) as [|msg msgs] eqn:Em; [by rewrite Hinv in Hq|].
    rewrite Hinv in Hq. cbn in Hq. injection Hq as <- Hq.
    eexists (Ok (Ready msg)), _, w'. split; [done|]. cbn. rewrite <- Hq, Hinv. done.
  - by destruct Hq.
  - exists (Err e), self, w'. rewrite Hq. done.
Qed.

(** A history of a receiver: buffers posted and polls, with the buffers that
    were accepted and the messages that came out. *)
Inductive recv_op := OpPost (buf : UDMsg W) | OpPoll.

Fixpoint run_recv (ops : list recv_op) (self : UDReceiver W) :
    io W (list (UDMsg W) * list (UDMsg W) * UDReceiver W) :=
  match ops with
  | [] => mret ([], [], self)
  | OpPost buf :: ops =>
      '(r, self) ← post_recv_buf self buf;
      '(posted, got, self) ← run_recv ops self;
      mret (match r with Ok _ => buf :: posted | Err _ => posted end, got, self)
  | OpPoll :: ops =>
      '(r, self) ← poll self;
      '(posted, got, self) ← run_recv ops self;
      mret (posted, match r with Ok (Ready msg) => msg :: got | _ => got end, self)
  end.

(** Messages come out in the order their buffers were posted, none lost, none
    twice: over any history of posts and polls of a fresh receiver, the messages
    received followed by the buffers still queued are the buffers accepted, and
    what is queued is what the card still holds.  In particular the queue is
    never empty when the card reports a message, so [poll] does not panic. *)
Theorem receiver_fifo (ops : list recv_op) (dg : UDDatagram W) (hint : Z) (w : W) :
  posted_recv (ud dg) w = [] →
  ∃ posted got self' w', run_recv ops (UDReceiver_new dg hint) w = Ret ((posted, got, self'), w') ∧
    posted = got ++ msg_queues self' ∧
    posted_recv (ud (recv_inner self')) w' = UDMsg_get_inner <$> msg_queues self'.
Proof.
  intros H0. assert (Hinv : ReceiverInv (UDReceiver_new dg hint) w) by done.
  change (∃ posted got self' w', run_recv ops (UDReceiver_new dg hint) w = Ret ((posted, got, self'), w') ∧
    msg_queues (UDReceiver_new dg hint) ++ posted = got ++ msg_queues self' ∧ ReceiverInv self' w').
  generalize dependent (UDReceiver_new dg hint). clear H0 dg hint. revert w.
  induction ops as [|[buf|] ops IH]; intros w self Hinv.
  - exists [], [], self, w. rewrite app_nil_r. done.
  - destruct (post_recv_buf_ok self buf w Hinv) as (r & self1 & w1 & E1 & Hinv1 & Hq).
    destruct (IH w1 self1 Hinv1) as (posted & got & self' & w' & E' & Hp & Hinv'). cbn [run_recv].
    rewrite (io_bind_run _ _ _ _ _ E1), (io_bind_run _ _ _ _ _ E'). do 4 eexists. split; [done|].
    split; [|done]. rewrite <- Hp, Hq. destruct r; [by rewrite <- app_assoc|by rewrite app_nil_r].
  - destruct (UDReceiver_poll_ok self w Hinv) as (r & self1 & w1 & E1 & Hinv1 & Hq).
    destruct (IH w1 self1 Hinv1) as (posted & got & self' & w' & E' & Hp & Hinv'). cbn [run_recv].
    rewrite (io_bind_run _ _ _ _ _ E1), (io_bind_run _ _ _ _ _ E'). do 4 eexists. split; [done|].
    split; [|done]. destruct r as [[msg|]|e]; [destruct Hq as [-> _]; cbn; by rewrite Hp|by rewrite Hq..].
Qed.
End ReceiverSpec.

#[export] Instance ref_RecvOk : RecvOk ref_machine.
Proof.
  refine {| posted_recv := λ qp w, ref_recv_queue w qp |}.
  - intros qp mr range addr w. eexists (Ok ()), _. split; [done|].
    unfold ref_recv_queue. cbn. by rewrite lookup_insert_eq.
  - intros qp w. cbn. unfold ref_poll_recv. destruct (ref_arrived w qp) as [|n]; [by exists (Ok []), w|].
    destruct (ref_recv_queue w qp) as [|mr q] eqn:E; [by exists (Ok []), w|].
    eexists (Ok [0%Z]), _. split; [done|]. exists mr. unfold ref_recv_queue at 1. cbn. by rewrite lookup_insert_eq.
Defined.

(** Three buffers posted, two messages in. *)
Definition recv_example : list (recv_op (W := ref_machine)) :=
  let buf n := UDMsg_new_from (kr := ref_KRdmaKit) (n, 4096)%Z 0 in
  [OpPost (buf 4096%Z); OpPost (buf 8192%Z); OpPoll; OpPost (buf 12288%Z); OpPoll; OpPoll].

Definition recv_start : ref_machine := ref_set_rq ∅ {[7%Z := 2]} ref_boot.
Definition recv_dg : UDDatagram ref_machine := mkUDDatagram (kr := ref_KRdmaKit) 7%Z 0.

Lemma receiver_fifo_witness :
  ∃ posted got self' w',
    run_recv recv_example (UDReceiver_new recv_dg 1) recv_start = Ret ((posted, got, self'), w') ∧
    posted = got ++ msg_queues self' ∧ length got = 2 ∧ length (msg_queues self') = 1.
Proof.
  destruct (receiver_fifo recv_example recv_dg 1 recv_start)
    as (posted & got & self' & w' & E & Hp & _); [by vm_compute|].
  exists posted, got, self', w'. split; [exact E|]. split; [exact Hp|].
  assert (H : match run_recv recv_example (UDReceiver_new recv_dg 1) recv_start with
    | Ret ((_, g, s), _) => (length g, length (msg_queues s)) | _ => (0, 0) end = (2, 1)) by (by vm_compute).
  rewrite E in H. by injection H as -> ->.
Defined.
