(* ===== verification/ShadowService.v ===== *)
(** * The service of prepared processes ([shadow_process_service.rs], [mem_pools.rs], [dc_pool.rs], [descriptors/rdma.rs])

    Preparing a fork registers a snapshot of the calling process under a key:
    the descriptor is serialized into a buffer of the memory pool, which remote
    children read with one-sided RDMA, and a DC target is bound to it.  The
    global variables of the module that this touches are the fields of [Sps]. *)

From S2P Require Import Prelude PageStructures PageHeap RemotePageTable Bytes Descriptors ParentWire ChildWire Future Rdma Task RefTask Machine Datagram ShadowProcess ShadowSpec RefPages ShadowCopy ShadowCow RemoteFork.

(** What the module uses of a DC target of KRdmaKit, and the largest buffer
    [kmalloc] gives. *)
Class DcTargets := {
  DCTarget : Type;
  target_port_num : DCTarget → Z;
  target_dc_key : DCTarget → Z;
  target_dct_num : DCTarget → Z;
  target_rkey : DCTarget → Z;  (** [target.ctx().rkey()] *)
  MAX_KMALLOC_SZ : Z }.

Section ShadowService.
Context {W : Type} {ta : TaskApi W} {pa : PagesApi W} {kn : Kernel W} {vc : VmConsts} {kr : KRdmaKit W}.
Context {dt : DcTargets} {dl : DescriptorLayout}.

(** ** [mem_pools.rs] *)
Record MemPool := mkMemPool { mp_pool : list (UDMsg W); mp_capacity : nat; mp_context : Context_t }.

Fixpoint fill_up (pool : list (UDMsg W)) (len : nat) (context : Context_t) : io W (list (UDMsg W)) :=
  match len with
  | 0 => mret pool
  | S len => m ← UDMsg_new MAX_KMALLOC_SZ 0 context; fill_up (pool ++ [m]) len context
  end.

Definition MemPool_new (pool_len : nat) (context : Context_t) : io W MemPool :=
  pool ← fill_up [] pool_len context; mret (mkMemPool pool pool_len context).

Definition MemPool_len (self : MemPool) : nat := length (mp_pool self).
Definition MemPool_is_empty (self : MemPool) : bool := MemPool_len self =? 0.

Definition MemPool_pop_one (self : MemPool) : io W (UDMsg W * MemPool) :=
  pool ← (if MemPool_is_empty self then fill_up (mp_pool self) (mp_capacity self) (mp_context self)
          else mret (mp_pool self));
  m ← lift (unwrap (last pool));
  mret (m, mkMemPool (take (length pool - 1) pool) (mp_capacity self) (mp_context self)).

(** ** [dc_pool.rs]: the targets of the parent side *)
Record DCTargetMeta := mkDCTargetMeta {
  tm_target : DCTarget;
  tm_nic_idx : Z;
  tm_rkey : Z;
  tm_lid : Z;
  tm_gid : Z * Z }.

Definition DCTargetPool : Type := list DCTargetMeta.

Definition DCTargetPool_pop_one (self : DCTargetPool) : option DCTargetMeta * DCTargetPool :=
  (last self, take (length self - 1) self).

(** ** [shadow_process_service.rs] *)
Record ProcessBundler := mkProcessBundler {
  pb_process : ShadowProcess;
  serialized_buf : UDMsg W;
  serialized_buf_len : Z;
  bound_dc_targets : list DCTarget }.

(** The global variables: kernel memory, the pools and the registered processes. *)
Record Sps := mkSps {
  g_mem : mem;
  g_mem_pool : MemPool;
  g_dc_targets : DCTargetPool;
  g_mac_id : Z;
  registered_processes : gmap Z ProcessBundler }.

(** [descriptors/rdma.rs]: [RDMADescriptor::new_from_dc_target_pool] *)
Definition target_descriptor (mac_id : Z) (m : DCTargetMeta) : RDMADescriptor :=
  mkRDMADescriptor 0 (target_port_num (tm_target m)) (tm_gid m) (tm_lid m) (tm_rkey m)
    (target_dc_key (tm_target m)) (target_dct_num (tm_target m)) mac_id.

Definition new_from_dc_target_pool (g : Sps) : outcome (DCTarget * RDMADescriptor * Sps) :=
  let '(m, rest) := DCTargetPool_pop_one (g_dc_targets g) in
  m ← unwrap m;
  Ret (tm_target m, target_descriptor (g_mac_id g) m,
       mkSps (g_mem g) (g_mem_pool g) rest (g_mac_id g) (registered_processes g)).

(** The result of [serialize] is not looked at. *)
Definition ProcessBundler_new (g : Sps) (process : ShadowProcess) (target : DCTarget) : io W (ProcessBundler * Sps) :=
  len ← lift (parent_buf_len (get_descriptor_ref process));
  '(buf, pool) ← MemPool_pop_one (g_mem_pool g);
  '(_, m) ← lift (parent_serialize (g_mem g) (get_descriptor_ref process) (UDMsg_get_bytes buf));
  mret (mkProcessBundler process buf len [target], mkSps m pool (g_dc_targets g) (g_mac_id g) (registered_processes g)).

Definition get_serialize_buf_sz (self : ProcessBundler) : Z := UDMsg_len (serialized_buf self).

Definition sps_insert (g : Sps) (key : Z) (b : ProcessBundler) : Sps :=
  mkSps (g_mem g) (g_mem_pool g) (g_dc_targets g) (g_mac_id g) (<[key := b]> (registered_processes g)).

(** [add_myself_copy] and [add_myself_cow]: the same but for the snapshot. *)
Definition add_myself (snapshot : RDMADescriptor → io W ShadowProcess) (g : Sps) (key : Z) : io W (option Z * Sps) :=
  if decide (is_Some (registered_processes g !! key)) then mret (None, g)
  else
    '(target, descriptor, g) ← lift (new_from_dc_target_pool g);
    process ← snapshot descriptor;
    '(bundler, g) ← ProcessBundler_new g process target;
    mret (Some (get_serialize_buf_sz bundler), sps_insert g key bundler).

Definition add_myself_copy (fuel : nat) (g : Sps) (key : Z) : io W (option Z * Sps) := add_myself (new_copy fuel) g key.
Definition add_myself_cow (fuel : nat) (g : Sps) (key : Z) : io W (option Z * Sps) := add_myself (new_cow fuel) g key.

Definition query_descriptor_buf (g : Sps) (key : Z) : option (UDMsg W * Z) :=
  (λ s, (serialized_buf s, serialized_buf_len s)) <$> registered_processes g !! key.

Definition query_descriptor (g : Sps) (key : Z) : option ParentDescriptor :=
  (λ s, get_descriptor_ref (pb_process s)) <$> registered_processes g !! key.

(** The removed process is dropped; its buffer and targets go back to KRdmaKit. *)
Definition unregister (g : Sps) (key : Z) : io W Sps :=
  match registered_processes g !! key with
  | None => mret g
  | Some b =>
      ShadowProcess_drop (pb_process b) ≫= λ _,
      mret (mkSps (g_mem g) (g_mem_pool g) (g_dc_targets g) (g_mac_id g) (delete key (registered_processes g)))
  end.
End ShadowService.
Arguments MemPool W {kr}.
Arguments ProcessBundler W {kr dt}.
Arguments Sps W {kr dt}.

(** ** Invariant of the registry *)
Section ServiceSpec.
Context {W : Type} {ta : TaskApi W} {tok : TaskOk W} {pa : PagesApi W} {kn : Kernel W} {vc : VmConsts}.
Context {kt : KTimerApi W} {kt_ok : KTimerOk W} {kr : KRdmaKit W} {nic : NicOk W} {kn_ok : KernelOk W}.
Context {pok : PagesOk W} {dt : DcTargets}.
Context {dl : DescriptorLayout} {dl_ok : DescriptorLayoutOk}.

Abbreviation encoded_len d := (Z.of_nat (length (ParentDescriptor_encode d))).

Definition apart (b1 b2 : BytesMut) : Prop :=
  (bm_ptr b1 + bm_len b1 ≤ bm_ptr b2 ∨ bm_ptr b2 + bm_len b2 ≤ bm_ptr b1)%Z.

Definition buf_of (b : ProcessBundler W) : BytesMut := msg_bytes (serialized_buf b).
Definition published (b : ProcessBundler W) : ParentDescriptor := descriptor (pb_process b).

(** The buffers of the pool and of the registered processes are allocated and do
    not overlap, and each registered buffer that is large enough holds the
    serialized descriptor of its process. *)
Record sps_inv (g : Sps W) : Prop := {
  si_pool x : x ∈ mp_pool (g_mem_pool g) → buf_ok (g_mem g) (msg_bytes x);
  si_pool_apart i j x y : mp_pool (g_mem_pool g) !! i = Some x → mp_pool (g_mem_pool g) !! j = Some y → i ≠ j →
    apart (msg_bytes x) (msg_bytes y);
  si_reg key b : registered_processes g !! key = Some b →
    buf_ok (g_mem g) (buf_of b) ∧ ParentDescriptor_valid (published b) ∧
    serialized_buf_len b = (encoded_len (published b) + 8)%Z ∧
    ((serialized_buf_len b ≤ bm_len (buf_of b))%Z →
      at_mem (g_mem g) (bm_ptr (buf_of b)) (ParentDescriptor_encode (published b)));
  si_reg_pool key b x : registered_processes g !! key = Some b → x ∈ mp_pool (g_mem_pool g) →
    apart (buf_of b) (msg_bytes x);
  si_reg_apart k k' b b' : registered_processes g !! k = Some b → registered_processes g !! k' = Some b' → k ≠ k' →
    apart (buf_of b) (buf_of b');
}.

(** *** The pool *)
Lemma pop_one_ok pool xs x w :
  mp_pool pool = xs ++ [x] → MemPool_pop_one pool w = Ret ((x, mkMemPool xs (mp_capacity pool) (mp_context pool)), w).
Proof.
  intros E. unfold MemPool_pop_one, MemPool_is_empty, MemPool_len. rewrite E, length_app, (proj2 (Nat.eqb_neq _ _)) by (cbn; lia).
  rewrite (io_bind_run _ _ _ _ _ eq_refl). rewrite (io_lift_run _ _ _ x) by (by rewrite last_snoc). cbv beta.
  by rewrite length_app, Nat.add_sub, take_app_length.
Qed.

Lemma new_from_dc_target_pool_ok g ts t :
  g_dc_targets g = ts ++ [t] →
  new_from_dc_target_pool g = Ret (tm_target t, target_descriptor (g_mac_id g) t,
    mkSps (g_mem g) (g_mem_pool g) ts (g_mac_id g) (registered_processes g)).
Proof.
  intros E. unfold new_from_dc_target_pool, DCTargetPool_pop_one. rewrite E, last_snoc, length_app, Nat.add_sub, take_app_length. done.
Qed.

(** *** Writing a descriptor into a buffer of the pool *)
Lemma serialize_any m d b :
  ParentDescriptor_valid d → buf_ok m b →
  ∃ r m', parent_serialize m d b = Ret (r, m') ∧ frame m m' (bm_ptr b) (bm_len b) ∧
    ((encoded_len d + 8 ≤ bm_len b)%Z → r = true ∧ at_mem m' (bm_ptr b) (ParentDescriptor_encode d)) ∧
    ((bm_len b < encoded_len d + 8)%Z → r = false ∧ m' = m).
Proof.
  intros Hv Hb. assert (Hvs : ∀ v : VMADescriptor, valid v → need v = Z.of_nat (@size_of _ dl_vma)) by done.
  destruct (decide (encoded_len d + 8 ≤ bm_len b)%Z) as [Hle|Hlt].
  - destruct (ParentDescriptor_serialize_ok Hvs m d b Hv Hb Hle) as (m' & E & Hat & Hf). exists true, m'.
    split_and!; [done|eapply frame_weaken; [exact Hf|lia|lia]|done|lia].
  - pose proof (ParentDescriptor_Ok (pod_vma := dl_vma) Hvs) as Hok. exists false, m. split_and!; [|apply frame_refl|lia|done].
    apply (@serialize_short _ _ _ Hok m d b Hv). apply Z.nle_gt. exact Hlt.
Qed.

(** The invariant after a descriptor has been written into the last buffer. *)
Lemma sps_inv_insert g xs x ts key sp m' len tgt :
  sps_inv g → mp_pool (g_mem_pool g) = xs ++ [x] → registered_processes g !! key = None →
  ParentDescriptor_valid (descriptor sp) → len = (encoded_len (descriptor sp) + 8)%Z →
  frame (g_mem g) m' (bm_ptr (msg_bytes x)) (bm_len (msg_bytes x)) →
  ((len ≤ bm_len (msg_bytes x))%Z → at_mem m' (bm_ptr (msg_bytes x)) (ParentDescriptor_encode (descriptor sp))) →
  sps_inv (mkSps m' (mkMemPool xs (mp_capacity (g_mem_pool g)) (mp_context (g_mem_pool g))) ts (g_mac_id g)
    (<[key := mkProcessBundler sp x len tgt]> (registered_processes g))).
Proof.
  intros Hinv Hp Hk Hv Hlen Hf Hat.
  assert (Hx : x ∈ mp_pool (g_mem_pool g)) by (rewrite Hp; apply elem_of_app; right; left).
  assert (Hxs : ∀ y, y ∈ xs → y ∈ mp_pool (g_mem_pool g)) by (intros y Hy; rewrite Hp; apply elem_of_app; by left).
  assert (Hxy : ∀ y, y ∈ xs → apart (msg_bytes x) (msg_bytes y)).
  { intros y Hy. apply list_elem_of_lookup in Hy as [i Hi]. pose proof (lookup_lt_Some _ _ _ Hi).
    apply (si_pool_apart g Hinv (length xs) i); [by rewrite Hp, list_lookup_middle|by rewrite Hp, lookup_app_l|lia]. }
  split; cbn [g_mem g_mem_pool mp_pool registered_processes].
  - intros y Hy. eapply buf_ok_frame; [exact Hf|]. by apply (si_pool g Hinv), Hxs.
  - intros i j y z Hi Hj. apply (si_pool_apart g Hinv i j); rewrite Hp, lookup_app_l; eauto using lookup_lt_Some.
  - intros k b. rewrite lookup_insert_Some. intros [[<- <-]|[Hne Hb]].
    + split_and!; [eapply buf_ok_frame; [exact Hf|by apply (si_pool g Hinv)]|done|done|done].
    + destruct (si_reg g Hinv k b Hb) as (H1 & H2 & H3 & H4). split_and!; [by eapply buf_ok_frame|done|done|].
      intros Hle. specialize (H4 Hle). eapply at_mem_frame; [exact Hf|exact H4|].
      destruct (si_reg_pool g Hinv k b x Hb Hx); rewrite H3 in Hle; unfold buf_of in *; lia.
  - intros k b y. rewrite lookup_insert_Some. intros [[<- <-]|[Hne Hb]] Hy; [by apply Hxy|].
    by apply (si_reg_pool g Hinv k), Hxs.
  - intros k k' b b'. rewrite !lookup_insert_Some. intros [[<- <-]|[Hne Hb]] [[<- <-]|[Hne' Hb']] Hkk; [done| | |].
    + pose proof (si_reg_pool g Hinv k' b' x Hb' Hx) as H. unfold apart, buf_of in *. cbn. lia.
    + by apply (si_reg_pool g Hinv k).
    + by apply (si_reg_apart g Hinv k k').
Qed.

Lemma sps_inv_delete g key m' : m' = g_mem g →
  sps_inv g → sps_inv (mkSps m' (g_mem_pool g) (g_dc_targets g) (g_mac_id g) (delete key (registered_processes g))).
Proof.
  intros -> [H1 H2 H3 H4 H5]. split; cbn; [done|done|..].
  - intros k b [_ Hb]%lookup_delete_Some. by apply (H3 k).
  - intros k b x [_ Hb]%lookup_delete_Some. by apply (H4 k).
  - intros k k' b b' [_ Hb]%lookup_delete_Some [_ Hb']%lookup_delete_Some. by apply H5.
Qed.

(** ** Preparing a process *)
Definition add_myself_as (cow : bool) (fuel : nat) (g : Sps W) (key : Z) : io W (option Z * Sps W) :=
  if cow then add_myself_cow fuel g key else add_myself_copy fuel g key.

(** The calling process can be described: its pages are [ls]. *)
Record prepare_ready (fuel : nat) (w : W) (mi : RDMADescriptor) (ls : list (list Z)) : Prop := {
  pr_mm : mm_inv w;
  pr_fuel : length (areas w) < fuel;
  pr_resident : resident (os w);
  pr_publishable : publishable w mi;
  pr_pages : Forall2 (page_addrs (os w)) (areas w).*2 ls;
  pr_memory : size (v_alloc (os w)) + length (concat ls) ≤ mem_pages;
  pr_size : (published_len w mi ls + 8 < 2 ^ 64)%Z;
}.

Lemma add_myself_taken snapshot g key w :
  is_Some (registered_processes g !! key) → add_myself snapshot g key w = Ret ((None, g), w).
Proof. intros H. unfold add_myself. by rewrite decide_True. Qed.

Lemma add_myself_ok (cow : bool) fuel g w key xs x ts t ls :
  sps_inv g → registered_processes g !! key = None → mp_pool (g_mem_pool g) = xs ++ [x] → g_dc_targets g = ts ++ [t] →
  let mi := target_descriptor (g_mac_id g) t in
  prepare_ready fuel w mi ls →
  ∃ sp g' w', add_myself_as cow fuel g key w = Ret ((Some (bm_len (msg_bytes x)), g'), w') ∧ sps_inv g' ∧
    snapshot_of w w' mi (descriptor sp) ∧ ParentDescriptor_valid (descriptor sp) ∧
    encoded_len (descriptor sp) = published_len w mi ls ∧ g_dc_targets g' = ts ∧
    registered_processes g' = <[key := mkProcessBundler sp x (published_len w mi ls + 8)%Z [tm_target t]]> (registered_processes g) ∧
    ((bm_len (msg_bytes x) < published_len w mi ls + 8)%Z → g_mem g' = g_mem g).
Proof.
  intros Hinv Hk Hp Ht mi [Hmm Hf Hres Hpub Hls Hmem Hsz].
  destruct (snapshot_taken cow fuel mi w ls Hmm Hf Hres Hls Hmem) as (sp & w' & E & Hsn).
  destruct (snapshot_valid _ _ _ _ _ Hpub Hls Hsn Hsz) as [Hval El].
  assert (Hvs : ∀ v : VMADescriptor, valid v → need v = Z.of_nat (@size_of _ dl_vma)) by done.
  assert (Hx : x ∈ mp_pool (g_mem_pool g)) by (rewrite Hp; apply elem_of_app; right; left).
  destruct (serialize_any (g_mem g) (descriptor sp) (msg_bytes x) Hval (si_pool g Hinv x Hx)) as (r & m' & Es & Hfr & Hfit & Hshort).
  assert (Eadd : add_myself_as cow fuel g key w = Ret ((Some (bm_len (msg_bytes x)),
    mkSps m' (mkMemPool xs (mp_capacity (g_mem_pool g)) (mp_context (g_mem_pool g))) ts (g_mac_id g)
      (<[key := mkProcessBundler sp x (published_len w mi ls + 8)%Z [tm_target t]]> (registered_processes g))), w')).
  { assert (Esn : (if cow then new_cow fuel else new_copy fuel) mi w = Ret (sp, w')) by (by destruct cow).
    assert (Eas : add_myself_as cow fuel g key w = add_myself (if cow then new_cow fuel else new_copy fuel) g key w) by (by destruct cow).
    rewrite Eas. unfold add_myself. rewrite decide_False by (rewrite Hk; by intros []).
    rewrite (io_lift_run _ _ _ _ (new_from_dc_target_pool_ok g ts t Ht)). cbv beta iota. fold mi. step Esn.
    assert (Eb : parent_buf_len (descriptor sp) = Ret (published_len w mi ls + 8)%Z)
      by (unfold parent_buf_len; by rewrite (ParentDescriptor_buf_len_ok Hvs _ Hval), El).
    erewrite io_bind_run; [|unfold ProcessBundler_new, get_descriptor_ref; cbn [g_mem g_mem_pool];
      rewrite (io_lift_run _ _ _ _ Eb); cbv beta; step (pop_one_ok (g_mem_pool g) xs x w' Hp);
      rewrite (io_lift_run _ _ _ _ Es); reflexivity].
    reflexivity. }
  exists sp. eexists _, w'. split; [exact Eadd|]. cbn [g_mem registered_processes g_dc_targets].
  split_and!; try done; [|intros Hlt; apply Hshort; by rewrite El].
  apply (sps_inv_insert g xs x ts key sp m'); try done; [by rewrite El|]. intros Hle. apply Hfit. by rewrite El.
Qed.

Context {vm : Vmalloc} {vm_ok : VmallocOk} {x86 : X86Crate} {x86_ok : X86CrateOk}.

(** [m'] holds at [b'] the bytes [m] holds at [b]: the effect of an RDMA read. *)
Definition copied_bytes (m m' : mem) (b b' : BytesMut) (n : Z) : Prop :=
  (8 | bm_ptr b')%Z ∧ (n ≤ bm_len b')%Z ∧ ∀ i, (0 ≤ i < n)%Z → m' !! (bm_ptr b' + i)%Z = m !! (bm_ptr b + i)%Z.

Lemma prepare_publishes_ok (cow : bool) fuel g w key xs x ts t ls :
  sps_inv g → registered_processes g !! key = None → mp_pool (g_mem_pool g) = xs ++ [x] → g_dc_targets g = ts ++ [t] →
  let mi := target_descriptor (g_mac_id g) t in
  let len := (published_len w mi ls + 8)%Z in
  prepare_ready fuel w mi ls → (len ≤ bm_len (msg_bytes x))%Z →
  ∃ d g' w', add_myself_as cow fuel g key w = Ret ((Some (bm_len (msg_bytes x)), g'), w') ∧ sps_inv g' ∧
    query_descriptor g' key = Some d ∧ query_descriptor_buf g' key = Some (x, len) ∧ machine_info d = mi ∧
    (∀ k, k ≠ key → registered_processes g' !! k = registered_processes g !! k) ∧
    (∀ m h b, Forall small_area (areas w).*2 → copied_bytes (g_mem g') m (msg_bytes x) b len → pt_inv h → size h + 1 + 3 * length (concat ls) ≤ vm_capacity →
      child_reads w w' d m h b).
Proof.
  intros Hinv Hk Hp Ht mi len Hr Hle.
  destruct (add_myself_ok cow fuel g w key xs x ts t ls Hinv Hk Hp Ht Hr) as (sp & g' & w' & E & Hinv' & Hsn & Hval & El & _ & Hreg & _).
  exists (descriptor sp), g', w'. unfold query_descriptor, query_descriptor_buf. rewrite Hreg, lookup_insert_eq. split_and!; try done.
  - by rewrite (proj1 Hsn).
  - intros k Hne. by rewrite lookup_insert_ne.
  - intros m h b Hsm (H8 & Hlen & Hcp) Hpt Hcap. destruct Hr as [Hmm _ _ Hpub Hls _ _].
    apply (snapshot_child_reads _ _ _ mi ls); try done; [|unfold len in Hlen; fold mi in El; lia].
    destruct (si_reg g' Hinv' key _ ltac:(by rewrite Hreg, lookup_insert_eq)) as (_ & _ & _ & Hat). specialize (Hat Hle).
    intros i y Hi. rewrite Hcp; [by apply Hat|]. apply lookup_lt_Some in Hi. unfold len. fold mi in El. lia.
Qed.

(** Preparing a process under a free key: it succeeds, keeps the registry
    consistent and leaves all other registrations alone; what is published under
    the key is the buffer and the announced length, and a child that has copied
    that buffer gets the registers, VMAs and pages of the process if no VMA of it
    is larger than 4 GiB. *)
Theorem prepare_publishes (cow : bool) fuel g w key xs x ts t ls :
  sps_inv g → registered_processes g !! key = None → mp_pool (g_mem_pool g) = xs ++ [x] → g_dc_targets g = ts ++ [t] →
  let mi := target_descriptor (g_mac_id g) t in
  let len := (published_len w mi ls + 8)%Z in
  prepare_ready fuel w mi ls → (len ≤ bm_len (msg_bytes x))%Z →
  ∃ d g' w', add_myself_as cow fuel g key w = Ret ((Some (bm_len (msg_bytes x)), g'), w') ∧ sps_inv g' ∧
    query_descriptor g' key = Some d ∧ query_descriptor_buf g' key = Some (x, len) ∧ machine_info d = mi ∧
    (∀ k, k ≠ key → registered_processes g' !! k = registered_processes g !! k) ∧
    (∀ m h b, Forall small_area (areas w).*2 → copied_bytes (g_mem g') m (msg_bytes x) b len → pt_inv h → size h + 1 + 3 * length (concat ls) ≤ vm_capacity →
      child_reads w w' d m h b).
Proof. apply prepare_publishes_ok. Qed.

(** A descriptor that does not fit the pool's buffers: nothing is written, and
    still the process is registered and reported as prepared; the length that is
    announced to children exceeds the buffer, so they read memory behind it. *)
Theorem oversized_descriptor_published (cow : bool) fuel g w key xs x ts t ls :
  sps_inv g → registered_processes g !! key = None → mp_pool (g_mem_pool g) = xs ++ [x] → g_dc_targets g = ts ++ [t] →
  let mi := target_descriptor (g_mac_id g) t in
  prepare_ready fuel w mi ls → (bm_len (msg_bytes x) < published_len w mi ls + 8)%Z →
  ∃ g' w' len, add_myself_as cow fuel g key w = Ret ((Some (bm_len (msg_bytes x)), g'), w') ∧
    g_mem g' = g_mem g ∧ query_descriptor_buf g' key = Some (x, len) ∧ (bm_len (UDMsg_get_bytes x) < len)%Z.
Proof.
  intros Hinv Hk Hp Ht mi Hr Hlt.
  destruct (add_myself_ok cow fuel g w key xs x ts t ls Hinv Hk Hp Ht Hr) as (sp & g' & w' & E & _ & _ & _ & _ & _ & Hreg & Hm).
  exists g', w', (published_len w mi ls + 8)%Z. unfold query_descriptor_buf. rewrite Hreg, lookup_insert_eq. split_and!; try done.
  by apply Hm.
Qed.

(** ** Histories of the service: processes prepare and exit, in any order, each in
    the world of its moment.  A process that prepares can be described
    ([prepare_ready]), and it finds a buffer in the pool: that [MemPool::pop_one]
    refills an empty pool is not part of a history, so that there are at most as
    many successful prepares in one as the pool had buffers. *)
Inductive history (g0 : Sps W) : Sps W → Prop :=
  | history_start : history g0 g0
  | history_prepare g cow fuel key w r g' w' ts t ls :
      history g0 g → mp_pool (g_mem_pool g) ≠ [] → g_dc_targets g = ts ++ [t] →
      prepare_ready fuel w (target_descriptor (g_mac_id g) t) ls →
      add_myself_as cow fuel g key w = Ret ((r, g'), w') → history g0 g'
  | history_unregister g key w g' w' : history g0 g → unregister g key w = Ret (g', w') → history g0 g'.

Lemma add_myself_as_taken cow fuel g key w :
  is_Some (registered_processes g !! key) → add_myself_as cow fuel g key w = Ret ((None, g), w).
Proof. intros H. destruct cow; by apply add_myself_taken. Qed.

Lemma unregister_result g key w g' w' : unregister g key w = Ret (g', w') →
  g' = mkSps (g_mem g) (g_mem_pool g) (g_dc_targets g) (g_mac_id g) (delete key (registered_processes g)).
Proof.
  unfold unregister. destruct (registered_processes g !! key) as [b|] eqn:Eb.
  - unfold mbind, io_bind. destruct (ShadowProcess_drop (pb_process b) w) as [[[] w1]| | |]; try done. by intros [= <- _].
  - intros [= <- _]. rewrite delete_id by done. by destruct g.
Qed.

Lemma history_inv g0 g : sps_inv g0 → history g0 g → sps_inv g.
Proof.
  intros H0. induction 1 as [|g cow fuel key w r g' w' ts t ls _ IH Hp Ht Hr E|g key w g' w' _ IH E]; [done| |].
  - destruct (registered_processes g !! key) as [b|] eqn:Eb.
    { rewrite add_myself_as_taken in E by (by rewrite Eb). by injection E as _ <- _. }
    destruct (exists_last Hp) as (xs & x & Hx).
    destruct (add_myself_ok cow fuel g w key xs x ts t ls IH Eb Hx Ht Hr) as (sp & g1 & w1 & E1 & Hinv & _).
    rewrite E1 in E. by injection E as _ <- _.
  - rewrite (unregister_result _ _ _ _ _ E). by apply sps_inv_delete.
Qed.

(** What is announced for a registered process can be read back. *)
Lemma registered_readable g key b : sps_inv g → registered_processes g !! key = Some b →
  parent_buf_len (published b) = Ret (serialized_buf_len b) ∧
  ((serialized_buf_len b ≤ UDMsg_len (serialized_buf b))%Z →
    parent_deserialize (g_mem g) (UDMsg_get_bytes (serialized_buf b)) = Ret (Some (published b))).
Proof.
  intros Hinv Eb. destruct (si_reg g Hinv key b Eb) as (Hb & Hv & Hlen & Hat).
  assert (Hvs : ∀ v : VMADescriptor, valid v → need v = Z.of_nat (@size_of _ dl_vma)) by done. split.
  - rewrite Hlen. apply (ParentDescriptor_buf_len_ok Hvs _ Hv).
  - intros Hle. specialize (Hat Hle). pose proof (ParentDescriptor_Ok (pod_vma := dl_vma) Hvs) as Hok.
    apply (@deserialize_ok _ _ _ Hok); [done|apply Hb|done|]. rewrite Hlen in Hle. unfold UDMsg_len, BytesMut_len in Hle.
    apply Z.le_trans with (encoded_len (published b)); [apply Z.le_refl|]. unfold published, UDMsg_get_bytes in *. lia.
Qed.

(** C28: What is published stays published.  After any history of prepares and exits
    in which each process that prepares can be described and finds the buffer
    pool non-empty (a refill of the pool is not covered), the length announced
    for a key is that of the descriptor registered under it, and if the
    descriptor fits the announced buffer, the buffer holds exactly the
    descriptor: no preparation of another process overwrites it. *)
Theorem published_descriptors_stay g0 g key d :
  sps_inv g0 → history g0 g → query_descriptor g key = Some d →
  ∃ buf len, query_descriptor_buf g key = Some (buf, len) ∧ parent_buf_len d = Ret len ∧
    ((len ≤ UDMsg_len buf)%Z → parent_deserialize (g_mem g) (UDMsg_get_bytes buf) = Ret (Some d)).
Proof.
  intros H0 Hh Hq. pose proof (history_inv g0 g H0 Hh) as Hinv. unfold query_descriptor, query_descriptor_buf in *.
  destruct (registered_processes g !! key) as [b|] eqn:Eb; [|done]. injection Hq as <-.
  exists (serialized_buf b), (serialized_buf_len b). split; [done|]. by apply (registered_readable g key b).
Qed.

(** ** DC targets are used up *)
Inductive prepared (g0 : Sps W) : nat → Sps W → Prop :=
  | prepared_none : prepared g0 0 g0
  | prepared_one n g cow fuel key w r g' w' :
      prepared g0 n g → add_myself_as cow fuel g key w = Ret ((Some r, g'), w') → prepared g0 (S n) g'
  | prepared_refused n g cow fuel key w g' w' :
      prepared g0 n g → add_myself_as cow fuel g key w = Ret ((None, g'), w') → prepared g0 n g'
  | prepared_exit n g key w g' w' : prepared g0 n g → unregister g key w = Ret (g', w') → prepared g0 n g'.

Lemma ProcessBundler_new_targets g sp t w b g' w' :
  ProcessBundler_new g sp t w = Ret ((b, g'), w') → g_dc_targets g' = g_dc_targets g.
Proof.
  unfold ProcessBundler_new. intros E. inv_io E. destruct a0 as [buf pool]. inv_io E. destruct a0 as [r m]. by injection E as _ <- _.
Qed.

Lemma add_myself_targets snapshot g key w r g' w' : add_myself snapshot g key w = Ret ((r, g'), w') →
  length (g_dc_targets g) = match r with Some _ => S (length (g_dc_targets g')) | None => length (g_dc_targets g') end.
Proof.
  unfold add_myself. case_decide; [by intros [= <- <- _]|].
  destruct (g_dc_targets g) as [|t ts _] eqn:Et using rev_ind; [unfold new_from_dc_target_pool; by rewrite Et|].
  rewrite (io_lift_run _ _ _ _ (new_from_dc_target_pool_ok g ts t Et)). intros E. inv_io E. destruct a0 as [b g1].
  injection E as <- <- _. apply ProcessBundler_new_targets in E1. rewrite length_app, Nat.add_1_r. cbn in *. by rewrite E1.
Qed.

(** C35: A DC target is bound to each prepared process and never returns to the pool,
    which is never refilled: after as many prepares as there were targets at
    start-up, whether or not the processes have exited since, the next prepare
    under a free key panics the kernel. *)
Theorem targets_used_up g0 n g :
  prepared g0 n g → length (g_dc_targets g) + n = length (g_dc_targets g0) ∧
  (n = length (g_dc_targets g0) → ∀ cow fuel key w, registered_processes g !! key = None →
    add_myself_as cow fuel g key w = Panic).
Proof.
  intros Hp. assert (Hl : length (g_dc_targets g) + n = length (g_dc_targets g0)).
  { induction Hp as [|n g cow fuel key w r g' w' _ IH E|n g cow fuel key w g' w' _ IH E|n g key w g' w' _ IH E]; [lia|..].
    - destruct cow; apply add_myself_targets in E; lia.
    - destruct cow; apply add_myself_targets in E; lia.
    - apply unregister_result in E as ->. done. }
  split; [done|]. intros -> cow fuel key w Hk. assert (Ht : g_dc_targets g = []) by (apply length_zero_iff_nil; lia).
  assert (Hgo : ∀ snapshot, add_myself snapshot g key w = Panic); [|by destruct cow; apply Hgo].
  intros snapshot. unfold add_myself. rewrite decide_False by (rewrite Hk; by intros []).
  unfold new_from_dc_target_pool, DCTargetPool_pop_one. by rewrite Ht.
Qed.
End ServiceSpec.

(** ** Examples *)
#[export] Instance ref_DcTargets : DcTargets := {|
  DCTarget := Z; target_port_num := λ _, 1%Z; target_dc_key := λ t, (t + 73)%Z; target_dct_num := λ t, t; target_rkey := λ _, 9%Z; MAX_KMALLOC_SZ := 512 |}.

Definition example_msg (p : Z) : UDMsg ref_machine := mkUDMsg (kr := ref_KRdmaKit) (p, 512)%Z (mkBytesMut p 512) 0.

Definition example_sps (len : Z) : Sps ref_machine :=
  mkSps (kr := ref_KRdmaKit) (zeroed 1024)
    (mkMemPool (kr := ref_KRdmaKit) [example_msg 0; mkUDMsg (kr := ref_KRdmaKit) (512, len)%Z (mkBytesMut 512 len) 0] 2 tt)
    [mkDCTargetMeta (dt := ref_DcTargets) 11%Z 0 7 3 (0, 0)%Z] 4 ∅.

Lemma example_sps_inv len : (0 ≤ len ≤ 512)%Z → sps_inv (dl := word_layout) (example_sps len).
Proof.
  intros Hlen. assert (Ha : ∀ p n, (0 ≤ p)%Z → (p + n ≤ 1024)%Z → alloc (zeroed 1024) p n).
  { intros p n Hp Hn. eapply alloc_sub; [apply zeroed_alloc|lia|cbn; lia]. }
  split; cbn [g_mem g_mem_pool mp_pool registered_processes example_sps].
  - intros x [-> | [-> | []%elem_of_nil]%elem_of_cons]%elem_of_cons; split_and!; cbn; try lia; [by apply Ha|by exists 0%Z|apply Ha; lia|by exists 64%Z].
  - intros [|[|i]] [|[|j]] x y; cbn; intros; simplify_eq; unfold apart; cbn; lia.
  - intros key b. by rewrite lookup_empty.
  - intros key b x. by rewrite lookup_empty.
  - intros k k' b b'. by rewrite lookup_empty.
Qed.

Lemma example_ready : prepare_ready (dl := word_layout) 2 example_process
  (target_descriptor (dt := ref_DcTargets) 4 (mkDCTargetMeta (dt := ref_DcTargets) 11%Z 0 7 3 (0, 0)%Z)) [[4194304; 4202496]%Z].
Proof.
  split; [exact example_process_inv|cbn; lia|exact example_process_resident| |exact example_process_pages| |by vm_compute].
  - apply example_publishable. repeat constructor; cbn; unfold is_u64; lia.
  - apply (bool_decide_unpack _). vm_compute. done.
Qed.

Lemma prepare_publishes_witness :
  ∃ d g' w', add_myself_as (dl := word_layout) (vc := linux_VmConsts) true 2 (example_sps 512) 5 example_process = Ret ((Some 512%Z, g'), w') ∧
    query_descriptor g' 5 = Some d ∧ option_map snd (query_descriptor_buf g' 5) = Some 344%Z ∧
    child_reads (dl := word_layout) (vm := area32) (x86 := x86_reference) example_process w' d (g_mem g') ∅ (mkBytesMut 512 512).
Proof.
  destruct (prepare_publishes (dl := word_layout) (dl_ok := word_layout_ok) (vc := linux_VmConsts) (vm := area32) (vm_ok := area32_ok)
    (x86 := x86_reference) true 2 (example_sps 512) example_process 5 [example_msg 0] (example_msg 512) []
    (mkDCTargetMeta (dt := ref_DcTargets) 11%Z 0 7 3 (0, 0)%Z) [[4194304; 4202496]%Z]) as (d & g' & w' & E & _ & Hd & Hb & _ & _ & Hc).
  - by apply example_sps_inv.
  - done.
  - done.
  - done.
  - exact example_ready.
  - by vm_compute.
  - exists d, g', w'. split; [exact E|]. split; [exact Hd|]. split.
    + rewrite Hb. by vm_compute.
    + apply Hc; [apply example_small| |apply pt_inv_empty|vm_compute; lia]. split; [by exists 64%Z|]. split; [by vm_compute|done].
Defined.

Lemma oversized_descriptor_published_witness :
  ∃ g' w' len, add_myself_as (dl := word_layout) (vc := linux_VmConsts) false 2 (example_sps 256) 5 example_process = Ret ((Some 256%Z, g'), w') ∧
    g_mem g' = zeroed 1024 ∧ option_map snd (query_descriptor_buf g' 5) = Some len ∧ (256 < len)%Z.
Proof.
  destruct (oversized_descriptor_published (dl := word_layout) (dl_ok := word_layout_ok) (vc := linux_VmConsts)
    false 2 (example_sps 256) example_process 5 [example_msg 0] (mkUDMsg (kr := ref_KRdmaKit) (512, 256)%Z (mkBytesMut 512 256) 0) []
    (mkDCTargetMeta (dt := ref_DcTargets) 11%Z 0 7 3 (0, 0)%Z) [[4194304; 4202496]%Z]) as (g' & w' & len & E & Hm & Hq & Hlen).
  - by apply example_sps_inv.
  - done.
  - done.
  - done.
  - exact example_ready.
  - by vm_compute.
  - exists g', w', len. split; [exact E|]. split; [exact Hm|]. split; [by rewrite Hq|exact Hlen].
Defined.

Lemma published_descriptors_stay_witness :
  ∃ g d buf len, history (dl := word_layout) (vc := linux_VmConsts) (example_sps 512) g ∧ query_descriptor g 5 = Some d ∧
    query_descriptor_buf g 5 = Some (buf, len) ∧ parent_deserialize (dl := word_layout) (g_mem g) (UDMsg_get_bytes buf) = Ret (Some d).
Proof.
  destruct (add_myself_ok (dl := word_layout) (dl_ok := word_layout_ok) (vc := linux_VmConsts) true 2 (example_sps 512) example_process 5
    [example_msg 0] (example_msg 512) [] (mkDCTargetMeta (dt := ref_DcTargets) 11%Z 0 7 3 (0, 0)%Z) [[4194304; 4202496]%Z])
    as (sp & g & w' & E & _ & _ & _ & _ & _ & Hreg & _); [by apply example_sps_inv|done|done|done|exact example_ready|].
  assert (Hh : history (dl := word_layout) (vc := linux_VmConsts) (example_sps 512) g).
  { eapply history_prepare; [apply history_start|done|exact (eq_refl : g_dc_targets (example_sps 512) = [] ++ [_])|exact example_ready|exact E]. }
  assert (Hd : query_descriptor g 5 = Some (descriptor sp)) by (unfold query_descriptor; by rewrite Hreg, lookup_insert_eq).
  destruct (published_descriptors_stay (dl := word_layout) (dl_ok := word_layout_ok) (vc := linux_VmConsts) (example_sps 512) g 5 (descriptor sp)
    (example_sps_inv 512 ltac:(lia)) Hh Hd) as (buf & len & Hb & Hlen & Hdes).
  exists g, (descriptor sp), buf, len. split_and!; [exact Hh|exact Hd|exact Hb|]. apply Hdes.
  unfold query_descriptor_buf in Hb. rewrite Hreg, lookup_insert_eq in Hb. cbn in Hb. injection Hb as <- <-. by vm_compute.
Defined.

Lemma targets_used_up_witness :
  ∃ g, prepared (dl := word_layout) (vc := linux_VmConsts) (example_sps 512) 1 g ∧ g_dc_targets g = [] ∧
    add_myself_as (dl := word_layout) (vc := linux_VmConsts) false 2 g 6 example_process = Panic.
Proof.
  destruct (add_myself_ok (dl := word_layout) (dl_ok := word_layout_ok) (vc := linux_VmConsts) true 2 (example_sps 512) example_process 5
    [example_msg 0] (example_msg 512) [] (mkDCTargetMeta (dt := ref_DcTargets) 11%Z 0 7 3 (0, 0)%Z) [[4194304; 4202496]%Z])
    as (sp & g & w' & E & _ & _ & _ & _ & Ht & Hreg & _); [by apply example_sps_inv|done|done|done|exact example_ready|].
  assert (Hp : prepared (dl := word_layout) (vc := linux_VmConsts) (example_sps 512) 1 g)
    by (eapply prepared_one; [apply prepared_none|exact E]).
  exists g. split_and!; [exact Hp|exact Ht|]. apply (targets_used_up (example_sps 512) 1 g Hp); [done|].
  by rewrite Hreg, lookup_insert_ne.
Defined.
