(* ===== verification/Rpc.v ===== *)
(** * Remote procedure calls ([os-network/src/rpc.rs], [rpc/])

    A caller writes a header and an argument into the buffer of a session and
    sends it as a datagram; the hook of the server parses the message, runs the
    registered callback on the session's reply buffer and sends that back.  The
    generic code is modelled at the types the module uses it with: sessions over
    [UDDatagram], receivers [UDReceiver] and end points made by [UDFactory]. *)

From S2P Require Import Prelude Future Bytes Rdma Machine Datagram.

(** ** [rpc/header.rs] *)
Record CallStub := mkCallStub { cs_session_id : Z; cs_rpc_id : Z }.
Record ConnectStub := mkConnectStub { cn_session_id : Z }.
Inductive ReplyStatus := ReplyOk | ReplyNotExist.
Inductive RPCMeta :=
| MetaRequest (s : CallStub)
| MetaReply (s : ReplyStatus)
| MetaConnect (s : ConnectStub)
| MetaNone.
Inductive ReqType := Illegal | Connect | Request | Reply | DisConnect.

#[export] Instance ReqType_eq_dec : EqDecision ReqType.
Proof. solve_decision. Defined.

Record MsgHeader := mkMsgHeader { marker : ReqType; payload : Z; meta : RPCMeta }.

Definition MsgHeader_default : MsgHeader := mkMsgHeader Illegal 0 MetaNone.

Definition gen_connect_stub (session_id payload : Z) : MsgHeader :=
  mkMsgHeader Connect payload (MetaConnect (mkConnectStub session_id)).
Definition gen_call_stub (session_id rpc_id payload : Z) : MsgHeader :=
  mkMsgHeader Request payload (MetaRequest (mkCallStub session_id rpc_id)).
Definition gen_reply_stub (status : ReplyStatus) (sz : Z) : MsgHeader :=
  mkMsgHeader Reply sz (MetaReply status).

Definition get_call_stub (h : MsgHeader) : option CallStub :=
  match meta h with MetaRequest s => Some s | _ => None end.
Definition get_connect_stub (h : MsgHeader) : option ConnectStub :=
  match meta h with MetaConnect s => Some s | _ => None end.
Definition get_reply_stub (h : MsgHeader) : option ReplyStatus :=
  match meta h with MetaReply s => Some s | _ => None end.
Definition is_connect (h : MsgHeader) : bool := bool_decide (marker h = Connect).
Definition is_request (h : MsgHeader) : bool := bool_decide (marker h = Request).
Definition is_reply (h : MsgHeader) : bool := bool_decide (marker h = Reply).
Definition is_disconnect (h : MsgHeader) : bool := bool_decide (marker h = DisConnect).

(** [datagram/ud.rs] *)
Record UDHyperMeta := mkUDHyperMeta { hm_gid : Z * Z; hm_service_id : Z; hm_qd_hint : Z; hm_local_port : Z }.

(** The layout of the structs on the wire is the compiler's choice; the fields
    are machine words. *)
Class RpcLayout := { header_Pod : Pod MsgHeader; hyper_Pod : Pod UDHyperMeta }.
#[export] Existing Instance header_Pod.
#[export] Existing Instance hyper_Pod.

Definition MsgHeader_valid (h : MsgHeader) : Prop :=
  is_u64 (payload h) ∧
  match meta h with
  | MetaRequest s => is_u64 (cs_session_id s) ∧ is_u64 (cs_rpc_id s)
  | MetaConnect s => is_u64 (cn_session_id s)
  | _ => True
  end.

Definition UDHyperMeta_valid (h : UDHyperMeta) : Prop :=
  is_u64 (hm_gid h).1 ∧ is_u64 (hm_gid h).2 ∧ is_u64 (hm_service_id h) ∧ is_u64 (hm_qd_hint h) ∧ is_u8 (hm_local_port h).

Class RpcLayoutOk {rl : RpcLayout} : Prop := {
  header_ok : @PodOk _ header_Pod MsgHeader_valid;
  hyper_ok : @PodOk _ hyper_Pod UDHyperMeta_valid;
  header_align : @align_of _ header_Pod = 8%Z;
  hyper_align : @align_of _ hyper_Pod = 8%Z }.

(** A layout of words. *)
Definition ReqType_word (t : ReqType) : Z :=
  match t with Illegal => 0 | Connect => 1 | Request => 2 | Reply => 3 | DisConnect => 4 end.

Definition header_words (h : MsgHeader) : list Z :=
  ReqType_word (marker h) :: payload h ::
  match meta h with
  | MetaRequest s => [0; cs_session_id s; cs_rpc_id s]%Z
  | MetaReply ReplyOk => [1; 0; 0]%Z
  | MetaReply ReplyNotExist => [1; 1; 0]%Z
  | MetaConnect s => [2; cn_session_id s; 0]%Z
  | MetaNone => [3; 0; 0]%Z
  end.

Definition of_header_words (ws : list Z) : option MsgHeader :=
  match ws with
  | [t; p; k; a; b] =>
      t ← [Illegal; Connect; Request; Reply; DisConnect] !! Z.to_nat t;
      k ← [MetaRequest (mkCallStub a b); MetaReply (if (a =? 0)%Z then ReplyOk else ReplyNotExist);
           MetaConnect (mkConnectStub a); MetaNone] !! Z.to_nat k;
      Some (mkMsgHeader t p k)
  | _ => None
  end.

Definition hyper_words (h : UDHyperMeta) : list Z :=
  [(hm_gid h).1; (hm_gid h).2; hm_service_id h; hm_qd_hint h; hm_local_port h].
Definition of_hyper_words (ws : list Z) : option UDHyperMeta :=
  match ws with [g1; g2; s; q; p] => Some (mkUDHyperMeta (g1, g2) s q p) | _ => None end.

Definition word_RpcLayout : RpcLayout := {|
  header_Pod := words_Pod 5 header_words of_header_words;
  hyper_Pod := words_Pod 5 hyper_words of_hyper_words |}.

Lemma word_RpcLayoutOk : RpcLayoutOk (rl := word_RpcLayout).
Proof.
  split; [| |done|done].
  - apply words_Pod_ok; [intros [t p []]; try done; by destruct s|].
    intros [t p k] [Hp Hk]. cbn in Hp, Hk. unfold is_u64 in *. split.
    + destruct t, k as [[a b]|[]|[a]|]; repeat constructor; cbn in *; unfold is_u64; try lia; naive_solver lia.
    + by destruct t, k as [[a b]|[]|[a]|].
  - apply words_Pod_ok; [done|]. intros [[g1 g2] s q p] (?&?&?&?&Hp). cbn in *. split; [|done].
    repeat first [apply Forall_cons_2|apply Forall_nil_2]; try done; unfold is_u8, is_u64 in *; cbn; lia.
Qed.

(** [rpc/analysis.rs] *)
Record RPCAnalysis := mkRPCAnalysis { ncalls : Z; session_counts : gmap Z Z }.
Definition RPCAnalysis_new : RPCAnalysis := mkRPCAnalysis 0 ∅.
Definition handle_one (self : RPCAnalysis) : outcome RPCAnalysis :=
  n ← u64_add (ncalls self) 1; Ret (mkRPCAnalysis n (session_counts self)).
Definition handle_session_call (self : RPCAnalysis) (id : Z) : outcome RPCAnalysis :=
  match session_counts self !! id with
  | Some c => c ← u64_add c 1; Ret (mkRPCAnalysis (ncalls self) (<[id := c]> (session_counts self)))
  | None => Ret (mkRPCAnalysis (ncalls self) (<[id := 1%Z]> (session_counts self)))
  end.

(** ** Errors *)
Inductive CallError (T : Type) := CallInner (err : T) | CallNoID | CallConnectError | CallFatal.
Arguments CallInner {T}.
Arguments CallNoID {T}.
Arguments CallConnectError {T}.
Arguments CallFatal {T}.

Inductive HookError (T : Type) :=
| HookInner (err : T)
| HookNoID
| HookNotConnected
| HookCorruptedHeader
| HookSessionCreationError
| HookInValidSz
| HookFatal.
Arguments HookInner {T}.
Arguments HookNoID {T}.
Arguments HookNotConnected {T}.
Arguments HookCorruptedHeader {T}.
Arguments HookSessionCreationError {T}.
Arguments HookInValidSz {T}.
Arguments HookFatal {T}.

(** Finding the end point behind a service id: KRdmaKit's explorer and querier. *)
Class UdCm (W : Type) {kr : KRdmaKit W} := {
  SaPath : Type;
  CMError : Type;
  ControlpathError : Type;
  DatagramEndpointQuerier : Type;
  resolve_inner : Context_t → Z → Z → Z * Z → io W (Result SaPath CMError);
  querier_create : Context_t → Z → io W (Result DatagramEndpointQuerier ControlpathError);
  querier_query : DatagramEndpointQuerier → Z → Z → SaPath → io W (Result DatagramEndpoint ControlpathError) }.

Section Rpc.
Context {W : Type} {kr : KRdmaKit W} {cm : UdCm W} {rl : RpcLayout}.

(** [datagram/ud.rs]: [create_meta] of [UDFactory] *)
Inductive UDMetaFactoryError := UDControlpathError (e : ControlpathError) | UDCMError (e : CMError).

Record UDFactory := mkUDFactory { rctx : Context_t }.
Definition UDFactory_get_context (self : UDFactory) : Context_t := rctx self.

Definition create_meta (self : UDFactory) (hyper : UDHyperMeta) : io W (Result DatagramEndpoint UDMetaFactoryError) :=
  path ← resolve_inner (UDFactory_get_context self) (hm_service_id hyper) (hm_local_port hyper) (hm_gid hyper);
  match path with
  | Err e => mret (Err (UDCMError e))
  | Ok path =>
      querier ← querier_create (UDFactory_get_context self) (hm_local_port hyper);
      match querier with
      | Err e => mret (Err (UDControlpathError e))
      | Ok querier =>
          endpoint ← querier_query querier (hm_service_id hyper) (hm_qd_hint hyper) path;
          match endpoint with
          | Err e => mret (Err (UDControlpathError e))
          | Ok endpoint => mret (Ok endpoint)
          end
      end
  end.

Abbreviation SZ_HEADER := (Z.of_nat (size_of MsgHeader)).

(** ** [rpc/header_factory.rs]: both writes must succeed, the sizes add up *)
Definition generate {T} `{Pod T} (h : MsgHeader) (arg : T) (m : mem) (msg : BytesMut) : outcome (option Z * mem) :=
  '(r, m) ← memcpy_serialize_at m msg 0 h;
  match r with
  | None => Ret (None, m)
  | Some n1 =>
      '(r, m) ← memcpy_serialize_at m msg SZ_HEADER arg;
      match r with
      | None => Ret (None, m)
      | Some n2 => n ← u64_add n1 n2; Ret (Some n, m)
      end
  end.

Definition ConnectStub_generate (id : Z) (hyper : UDHyperMeta) (m : mem) (msg : BytesMut) : outcome (option Z * mem) :=
  generate (gen_connect_stub id (Z.of_nat (size_of UDHyperMeta))) hyper m msg.

Definition CallStub_generate {T} `{Pod T} (session_id rpc_id : Z) (arg : T) (m : mem) (msg : BytesMut) : outcome (option Z * mem) :=
  generate (gen_call_stub session_id rpc_id (Z.of_nat (size_of T))) arg m msg.

Definition ReplyStub_generate (status : ReplyStatus) (sz : Z) (m : mem) (msg : BytesMut) : outcome (option Z * mem) :=
  memcpy_serialize_at m msg 0 (gen_reply_stub status sz).

(** ** [rpc/service.rs]: a callback reads its input, writes its output and
    returns the size of the reply *)
Definition Callback : Type := BytesMut → BytesMut → mem → io W (Z * mem).
Definition Service : Type := gmap Z Callback.

Definition Service_new : Service := ∅.
Definition Service_register (self : Service) (id : Z) (callback : Callback) : bool * Service :=
  match self !! id with
  | Some _ => (false, self)
  | None => (true, <[id := callback]> self)
  end.
Definition Service_execute (self : Service) (id : Z) (input output : BytesMut) (m : mem) : io W (option Z * mem) :=
  match (self !! id : option Callback) with
  | None => mret (None, m)
  | Some func => '(n, m) ← func input output m; mret (Some n, m)
  end.

(** ** [rpc/impls/ud.rs] *)
Record UDSession := mkUDSession { ss_meta : DatagramEndpoint; ss_inner : UDDatagram W }.

#[export] Instance UDSession_Future : Future W UDSession ib_wc DatapathError := λ self,
  '(r, inner) ← poll (ss_inner self); mret (r, mkUDSession (ss_meta self) inner).

Definition UDSession_post (self : UDSession) (req : UDMsg W) (sz : Z) (signaled : bool) :
    io W (Result () DatapathError * UDSession) :=
  '(r, inner) ← UDDatagram_post (ss_inner self)
    (mkUDReqPayload (UDMsg_get_inner req) (0, sz)%Z signaled (ss_meta self));
  mret (r, mkUDSession (ss_meta self) inner).

Definition get_pending_reqs (self : UDSession) : Z := UDDatagram_get_pending (ss_inner self).

Definition UDSession_create (self : UDDatagram W) (endpoint : DatagramEndpoint) : UDSession :=
  mkUDSession endpoint (UDDatagram_clone self).

(** ** [rpc.rs]: the caller *)
Record Caller := mkCaller { inner_receiver : UDReceiver W; caller_sessions : gmap Z (UDSession * UDMsg W) }.

Definition Caller_new (inner : UDReceiver W) : Caller := mkCaller inner ∅.

Definition caller_pending_reqs (self : Caller) (session_id : Z) : option Z :=
  (λ s, get_pending_reqs s.1) <$> caller_sessions self !! session_id.

Definition session_connected (self : Caller) (session_id : Z) : bool :=
  bool_decide (is_Some (caller_sessions self !! session_id)).

Definition get_ss (self : Caller) (session_id : Z) : option (UDSession * UDMsg W) := caller_sessions self !! session_id.

Definition register_recv_buf (self : Caller) (msg : UDMsg W) : io W (Result () DatapathError * Caller) :=
  '(r, receiver) ← post_recv_buf (inner_receiver self) msg; mret (r, mkCaller receiver (caller_sessions self)).

Definition set_session (self : Caller) (id : Z) (s : UDSession * UDMsg W) : Caller :=
  mkCaller (inner_receiver self) (<[id := s]> (caller_sessions self)).

Definition CALL_WINDOW : Z := 8.

Definition sync_call {Args} `{Pod Args} (fuel : nat) (m : mem) (self : Caller) (session_id my_session_id rpc_id : Z) (arg : Args) :
    io W (Result () DatapathError * Caller * mem) :=
  '(session, msg) ← lift (unwrap (caller_sessions self !! session_id));
  let signal_flag := (get_pending_reqs session =? 0)%Z in
  '(req_sz, m) ← lift (CallStub_generate my_session_id rpc_id arg m (UDMsg_get_bytes msg));
  req_sz ← lift (unwrap req_sz);
  '(r, session) ← UDSession_post session msg req_sz signal_flag;
  match r with
  | Err e => mret (Err e, set_session self session_id (session, msg), m)
  | Ok _ =>
      if (CALL_WINDOW <? get_pending_reqs session)%Z then
        '(res, session) ← block_on fuel session;
        match res with
        | Err _ => panic
        | Ok _ =>
            if (get_pending_reqs session =? 0)%Z then mret (Ok (), set_session self session_id (session, msg), m)
            else panic
        end
      else mret (Ok (), set_session self session_id (session, msg), m)
  end.

(** [UDReceiver::get_context] *)
Definition receiver_context (self : UDReceiver W) : Context_t := qp_ctx (UDDatagram_get_qp (recv_inner self)).

Definition Caller_connect (fuel : nat) (m : mem) (self : Caller) (session_id my_session_id : Z) (s : UDSession) (hyper : UDHyperMeta) :
    io W (Result () DatapathError * Caller * mem) :=
  msg_buf ← UDMsg_create UDReceiver_MTU 0 (receiver_context (inner_receiver self));
  '(req_sz, m) ← lift (ConnectStub_generate my_session_id hyper m (UDMsg_get_bytes msg_buf));
  req_sz ← lift (unwrap req_sz);
  '(r, s) ← UDSession_post s msg_buf req_sz true;
  match r with
  | Err e => mret (Err e, self, m)
  | Ok _ =>
      '(res, s) ← block_on fuel s;
      match res with
      | Ok _ => mret (Ok (), set_session self session_id (s, msg_buf), m)
      | Err _ => panic
      end
  end.

(** The header of a received message, after the header of the datagram; too
    short a message leaves the default header. *)
Definition read_header (m : mem) (bytes : BytesMut) : outcome MsgHeader :=
  r ← memcpy_deserialize MsgHeader m bytes;
  Ret (match r with Some (_, h) => h | None => MsgHeader_default end).

(** [poll] of the caller, in the memory [m] as the card has left it *)
Definition Caller_poll (m : mem) (self : Caller) :
    io W (Poll (UDMsg W * BytesMut) (CallError DatapathError) * Caller) :=
  '(r, receiver) ← poll (inner_receiver self);
  let self := mkCaller receiver (caller_sessions self) in
  match r with
  | Ok NotReady => mret (Ok NotReady, self)
  | Err e => mret (Err (CallInner e), self)
  | Ok (Ready msg) =>
      header_bytes ← lift (unwrap (truncate_header (UDMsg_get_bytes msg) UDReceiver_HEADER));
      h ← lift (read_header m header_bytes);
      if is_reply h then
        match get_reply_stub h with
        | Some ReplyOk =>
            body ← lift (unwrap (truncate_header header_bytes SZ_HEADER));
            body ← lift (unwrap (clone_and_resize body (payload h)));
            mret (Ok (Ready (msg, body)), self)
        | Some ReplyNotExist => mret (Err CallNoID, self)
        | None => mret (Err CallFatal, self)
        end
      else mret (Err CallFatal, self)
  end.

(** ** [rpc/hook.rs] *)
Record RPCHook := mkRPCHook {
  hk_service : Service;
  session_factory : UDDatagram W;
  meta_factory : UDFactory;
  transport : UDReceiver W;
  hook_sessions : gmap Z (UDSession * UDMsg W);
  analysis : RPCAnalysis }.

Definition RPCHook_new (meta_f : UDFactory) (factory : UDDatagram W) (transport : UDReceiver W) : RPCHook :=
  mkRPCHook Service_new factory meta_f transport ∅ RPCAnalysis_new.

Definition hook_set_transport (self : RPCHook) (t : UDReceiver W) : RPCHook :=
  mkRPCHook (hk_service self) (session_factory self) (meta_factory self) t (hook_sessions self) (analysis self).
Definition hook_set_session (self : RPCHook) (id : Z) (s : UDSession * UDMsg W) : RPCHook :=
  mkRPCHook (hk_service self) (session_factory self) (meta_factory self) (transport self) (<[id := s]> (hook_sessions self)) (analysis self).
Definition hook_set_analysis (self : RPCHook) (a : RPCAnalysis) : RPCHook :=
  mkRPCHook (hk_service self) (session_factory self) (meta_factory self) (transport self) (hook_sessions self) a.

Definition post_msg_buf (self : RPCHook) (msg : UDMsg W) : io W (Result () DatapathError * RPCHook) :=
  '(r, t) ← post_recv_buf (transport self) msg; mret (r, hook_set_transport self t).

Definition REPLY_WINDOW : Z := 4.

Definition send_reply (fuel : nat) (m : mem) (self : RPCHook) (session_id : Z) (status : ReplyStatus) (sz : Z) :
    io W (Result () (HookError DatapathError) * RPCHook * mem) :=
  match hook_sessions self !! session_id with
  | None => mret (Err HookSessionCreationError, self, m)
  | Some (session, buf) =>
      let signal := (get_pending_reqs session =? 0)%Z in
      '(n, m) ← lift (ReplyStub_generate status sz m (UDMsg_get_bytes buf));
      n ← lift (unwrap n);
      msg_sz ← lift (u64_add sz n);
      '(r, session) ← UDSession_post session buf msg_sz signal;
      let ret := match r with Ok _ => Ok () | Err _ => Err HookFatal end in
      if (REPLY_WINDOW <? get_pending_reqs session)%Z then
        '(res, session) ← block_on fuel session;
        let self := hook_set_session self session_id (session, buf) in
        match res with
        | Err _ => mret (Err HookFatal, self, m)
        | Ok _ => if (get_pending_reqs session =? 0)%Z then mret (ret, self, m) else panic
        end
      else mret (ret, hook_set_session self session_id (session, buf), m)
  end.

(** One message: [None] when it has been handled and its buffer is to be posted again. *)
Definition handle_connect (fuel : nat) (m : mem) (self : RPCHook) (h : MsgHeader) (rpc_args : BytesMut) :
    io W (option (HookError DatapathError) * RPCHook * mem) :=
  match get_connect_stub h with
  | None => mret (Some HookCorruptedHeader, self, m)
  | Some stub =>
      if decide (is_Some (hook_sessions self !! cn_session_id stub)) then mret (Some HookSessionCreationError, self, m)
      else
        r ← lift (memcpy_deserialize UDHyperMeta m rpc_args);
        match r with
        | None => mret (Some HookCorruptedHeader, self, m)
        | Some (_, session_meta) =>
            r ← create_meta (meta_factory self) session_meta;
            match r with
            | Err _ => mret (Some HookSessionCreationError, self, m)
            | Ok endpoint =>
                let session := UDSession_create (session_factory self) endpoint in
                session_buf ← UDMsg_create UDReceiver_MTU 0 (receiver_context (transport self));
                let self := hook_set_session self (cn_session_id stub) (session, session_buf) in
                '(r, self, m) ← send_reply fuel m self (cn_session_id stub) ReplyOk 0;
                mret (match r with Ok _ => None | Err e => Some e end, self, m)
            end
        end
  end.

Definition handle_request (fuel : nat) (m : mem) (self : RPCHook) (h : MsgHeader) (rpc_args : BytesMut) :
    io W (option (HookError DatapathError) * RPCHook * mem) :=
  match get_call_stub h with
  | None => mret (Some HookCorruptedHeader, self, m)
  | Some stub =>
      match hook_sessions self !! cs_session_id stub with
      | None => mret (Some HookNotConnected, self, m)
      | Some (_, buf) =>
          out_buf ← lift (unwrap (truncate_header (UDMsg_get_bytes buf) SZ_HEADER));
          '(reply_payload, m) ← Service_execute (hk_service self) (cs_rpc_id stub) rpc_args out_buf m;
          a ← lift (handle_one (analysis self));
          a ← lift (handle_session_call a (cs_session_id stub));
          let self := hook_set_analysis self a in
          '(r, self, m) ← (match reply_payload with
            | Some size => send_reply fuel m self (cs_session_id stub) ReplyOk size
            | None => send_reply fuel m self (cs_session_id stub) ReplyNotExist 0
            end);
          mret (match r with Ok _ => None | Err e => Some e end, self, m)
      end
  end.

Definition dispatch (fuel : nat) (m : mem) (self : RPCHook) (h : MsgHeader) (rpc_args : BytesMut) :
    io W (option (HookError DatapathError) * RPCHook * mem) :=
  match marker h with
  | Connect => handle_connect fuel m self h rpc_args
  | Request => handle_request fuel m self h rpc_args
  | DisConnect => panic
  | _ => mret (None, self, m)
  end.

Definition RPCHook_poll (fuel : nat) (m : mem) (self : RPCHook) :
    io W (Poll () (HookError DatapathError) * RPCHook * mem) :=
  '(r, t) ← poll (transport self);
  let self := hook_set_transport self t in
  match r with
  | Ok NotReady => mret (Ok NotReady, self, m)
  | Err e => mret (Err (HookInner e), self, m)
  | Ok (Ready msg) =>
      match truncate_header (UDMsg_get_bytes msg) UDReceiver_HEADER with
      | None => mret (Err HookCorruptedHeader, self, m)
      | Some header_bytes =>
          h ← lift (read_header m header_bytes);
          match truncate_header header_bytes SZ_HEADER ≫= λ b, clone_and_resize b (payload h) with
          | None => mret (Err HookCorruptedHeader, self, m)
          | Some rpc_args =>
              '(r, self, m) ← dispatch fuel m self h rpc_args;
              match r with
              | Some e => mret (Err e, self, m)
              | None =>
                  '(r, self) ← post_msg_buf self msg;
                  match r with
                  | Ok _ => mret (Ok (Ready ()), self, m)
                  | Err e => mret (Err (HookInner e), self, m)
                  end
              end
          end
      end
  end.
End Rpc.
Arguments UDSession W {kr}.
Arguments Service W : clear implicits.
Arguments Callback W : clear implicits.
Arguments Caller W {kr}.
Arguments UDFactory W {kr}.
Arguments RPCHook W {kr}.
