(* ===== verification/RpcSpec.v ===== *)
(** * Sessions share a queue pair, and what a call does

    Every session of a hook or a caller posts to the same queue pair and polls
    the same completion queue; a session asks for a completion only for the
    first of a group of messages and takes whatever completion comes first when
    the group is full.  [window_inv] says why that is enough: as many completions
    are due as there are sessions with messages in flight.  The last part follows
    a call through the buffers of client and server. *)

From S2P Require Import Prelude Future Bytes Rdma Machine Datagram Rpc.

(** ** What is relied on of the card *)
Section Laws.
Context {W : Type} {kt : KTimerApi W} {kt_ok : KTimerOk W} {kr : KRdmaKit W} {nic : NicOk W}.

Definition nsig (q : list (Wr W)) : nat := length (filter (λ u, wr_signaled u = true) q).

Record is_datagram (ep : DatagramEndpoint) (mr : MemoryRegion) (range : Z * Z) (sig : bool) (u : Wr W) : Prop := {
  dg_op : wr_op u = WRITE;
  dg_peer : wr_peer u = Some ep;
  dg_mr : wr_mr u = mr;
  dg_range : wr_range u = range;
  dg_sig : wr_signaled u = sig }.

(** A datagram that is accepted joins the queue of its queue pair. *)
Definition datagrams_queue : Prop := ∀ qp ep mr range id sig w, ∃ r w',
  post_datagram qp ep mr range id sig w = Ret (r, w') ∧
  match r with
  | Ok _ => ∃ u, is_datagram ep mr range sig u ∧ outstanding qp w' = outstanding qp w ++ [u]
  | Err _ => outstanding qp w' = outstanding qp w
  end.

(** A card that answers: in a [live] state polling does not fail, and while a
    completion is due it comes within [N] polls; what the module does to the
    card keeps it live, and receiving leaves the send queues alone. *)
Record LiveCard (live : W → Prop) (lag : W → nat) (N : nat) : Prop := {
  lc_lag w : live w → lag w ≤ N;
  lc_poll qp w r w' : live w → poll_send_cq qp 1 w = Ret (r, w') →
    live w' ∧ (∃ l, r = Ok l) ∧ (r = Ok [] → nsig (outstanding qp w) = 0 ∨ lag w' < lag w);
  lc_datagram qp ep mr range id sig w r w' : live w → post_datagram qp ep mr range id sig w = Ret (r, w') → live w';
  lc_post_recv qp mr range addr w r w' : live w → post_recv qp mr range addr w = Ret (r, w') →
    live w' ∧ ∀ qp', outstanding qp' w' = outstanding qp' w;
  lc_poll_recv qp w r w' : live w → poll_recv_cq qp 1 w = Ret (r, w') →
    live w' ∧ ∀ qp', outstanding qp' w' = outstanding qp' w }.

(** [sent qp w]: all the datagrams the card has been given on [qp], in order.
    Only an accepted datagram is added. *)
Record SentLog (sent : QueuePair → W → list (Wr W)) : Prop := {
  sl_datagram qp ep mr range id sig w r w' : post_datagram qp ep mr range id sig w = Ret (r, w') →
    match r with
    | Ok _ => ∃ u, is_datagram ep mr range sig u ∧ sent qp w' = sent qp w ++ [u]
    | Err _ => sent qp w' = sent qp w
    end;
  sl_poll qp n w r w' qp' : poll_send_cq qp n w = Ret (r, w') → sent qp' w' = sent qp' w;
  sl_post_recv qp mr range addr w r w' qp' : post_recv qp mr range addr w = Ret (r, w') → sent qp' w' = sent qp' w;
  sl_poll_recv qp n w r w' qp' : poll_recv_cq qp n w = Ret (r, w') → sent qp' w' = sent qp' w }.

Lemma nsig_app q1 q2 : nsig (q1 ++ q2) = nsig q1 + nsig q2.
Proof. unfold nsig. by rewrite filter_app, length_app. Qed.

Lemma nsig_one u : nsig [u] = Nat.b2n (wr_signaled u).
Proof. unfold nsig. rewrite filter_cons. by destruct (wr_signaled u). Qed.

Lemma nsig_none us : Forall (λ u : Wr W, wr_signaled u = false) us → nsig us = 0.
Proof.
  induction 1 as [|u us Hu _ IH]; [done|]. change (u :: us) with ([u] ++ us). by rewrite nsig_app, nsig_one, Hu, IH.
Qed.
End Laws.

Section Windows.
Context {W : Type} {kt : KTimerApi W} {kt_ok : KTimerOk W} {kr : KRdmaKit W} {nic : NicOk W}.
Context (Hdg : datagrams_queue (W := W)).
Context {live : W → Prop} {lag : W → nat} {N : nat} (Hlc : LiveCard live lag N).

Abbreviation sessions := (gmap Z (UDSession W * UDMsg W)).

(** ** One session *)
Definition ss_qp (s : UDSession W) : QueuePair := ud (ss_inner s).
Definition ss_set (s : UDSession W) (p : Z) : UDSession W := mkUDSession (ss_meta s) (mkUDDatagram (ss_qp s) p).

Lemma UDSession_post_ok s msg sz sig w :
  live w → (0 ≤ get_pending_reqs s < 2 ^ 32)%Z → ∃ r w',
    UDSession_post s msg sz sig w =
      Ret ((r, match r with Ok _ => ss_set s (get_pending_reqs s + 1) | Err _ => s end), w') ∧
    post_datagram (ss_qp s) (ss_meta s) (UDMsg_get_inner msg) (0, sz)%Z (get_virt_addr (UDMsg_get_inner msg)) sig w = Ret (r, w') ∧
    live w' ∧
    nsig (outstanding (ss_qp s) w') =
      nsig (outstanding (ss_qp s) w) + match r with Ok _ => Nat.b2n sig | Err _ => 0 end.
Proof.
  intros Hl Hp.
  destruct (Hdg (ss_qp s) (ss_meta s) (UDMsg_get_inner msg) (0, sz)%Z (get_virt_addr (UDMsg_get_inner msg)) sig w)
    as (r & w' & E & Hr).
  pose proof (lc_datagram _ _ _ Hlc _ _ _ _ _ _ _ _ _ Hl E) as Hl'. destruct s as [ep [qp p]].
  exists r, w'. split_and!; [|exact E|exact Hl'|].
  - unfold UDSession_post, UDDatagram_post. unfold mbind at 1, io_bind at 1. rewrite (io_bind_run _ _ _ _ _ E).
    destruct r as [[]|e]; [|done]. rewrite (io_lift_run _ _ _ (p + 1)%Z); [done|].
    apply u64_add_Ret. cbn in Hp. unfold is_u64. lia.
  - destruct r as [[]|e]; [|by rewrite Hr, Nat.add_0_r].
    destruct Hr as (u & Hu & ->). by rewrite nsig_app, nsig_one, (dg_sig _ _ _ _ _ Hu).
Qed.

Lemma UDSession_poll s w :
  ∃ r w', poll_send_cq (ss_qp s) 1 w = Ret (r, w') ∧
    poll s w = Ret (match r with
      | Ok (wc :: _) => (Ok (Ready wc), ss_set s 0)
      | Ok [] => (Ok NotReady, s)
      | Err e => (Err e, s)
      end, w') ∧
    match r with
    | Ok [wc] => nsig (outstanding (ss_qp s) w) = S (nsig (outstanding (ss_qp s) w'))
    | Ok (_ :: _ :: _) => False
    | _ => outstanding (ss_qp s) w' = outstanding (ss_qp s) w
    end.
Proof.
  destruct (poll_send_cq_ok (ss_qp s) w) as (r & w' & E & _ & Hr). exists r, w'. split; [done|]. split.
  - destruct s as [ep [qp p]]. unfold poll, UDSession_Future, poll, UDDatagram_Future.
    unfold mbind at 1, io_bind at 1. rewrite (io_bind_run _ _ _ _ _ E). by destruct r as [[|wc l]|e].
  - destruct r as [[|wc [|wc2 l]]|e]; [done| |done|done].
    destruct Hr as (_ & us & u & rest & -> & Hus & Hu & -> & _).
    change (u :: rest) with ([u] ++ rest). rewrite !nsig_app, nsig_one, Hu, nsig_none by done. done.
Qed.

(** While a completion is due, waiting for one ends, with one. *)
Lemma block_on_session fuel s w :
  live w → lag w < fuel → 0 < nsig (outstanding (ss_qp s) w) →
  ∃ wc w', block_on fuel s w = Ret ((Ok wc, ss_set s 0), w') ∧ live w' ∧
    nsig (outstanding (ss_qp s) w) = S (nsig (outstanding (ss_qp s) w')).
Proof.
  revert w. induction fuel as [|fuel IH]; intros w Hl Hf Hn; [lia|].
  destruct (UDSession_poll s w) as (r & w1 & E & Ep & Hr).
  destruct (lc_poll _ _ _ Hlc _ _ _ _ Hl E) as (Hl1 & [l ->] & Hlag).
  cbn [block_on]. rewrite (io_bind_run _ _ _ _ _ Ep). destruct l as [|wc [|wc2 l]]; [| |done].
  - destruct (Hlag eq_refl) as [H0|Hlt]; [lia|]. rewrite <- Hr in Hn |- *.
    apply IH; [done|lia|done].
  - exists wc, w1. done.
Qed.

(** ** The sessions of one queue pair *)
Definition busy (x : Z * (UDSession W * UDMsg W)) : Prop := (0 < get_pending_reqs x.2.1)%Z.

#[local] Instance busy_dec x : Decision (busy x).
Proof. apply _. Defined.

Record window_inv (K : Z) (qp : QueuePair) (ss : sessions) (w : W) : Prop := {
  wi_session id s msg : ss !! id = Some (s, msg) → ss_qp s = qp ∧ (0 ≤ get_pending_reqs s ≤ K)%Z;
  wi_due : nsig (outstanding qp w) = size (filter busy ss) }.

Lemma busy_insert (ss : sessions) id y :
  size (filter busy (<[id := y]> ss)) = size (filter busy (delete id ss)) + Nat.b2n (0 <? get_pending_reqs y.1)%Z.
Proof.
  rewrite <- (insert_delete_eq ss id y).
  assert (Hd : delete id ss !! id = None) by apply lookup_delete_eq.
  assert (Hfd : filter busy (delete id ss) !! id = None) by (apply map_lookup_filter_None; by left).
  rewrite map_filter_insert, (delete_id (delete id ss)) by done.
  destruct (Z.ltb_spec 0 (get_pending_reqs y.1)) as [Hp|Hp].
  - rewrite decide_True by exact Hp. rewrite map_size_insert_None by done. cbn. lia.
  - rewrite decide_False by (unfold busy; cbn [fst snd]; lia). cbn. lia.
Qed.

Lemma busy_lookup (ss : sessions) id x :
  ss !! id = Some x →
  size (filter busy ss) = size (filter busy (delete id ss)) + Nat.b2n (0 <? get_pending_reqs x.1)%Z.
Proof. intros Hx. by rewrite <- busy_insert, insert_id. Qed.

(** What the code does with a session: post, and when the window is over, wait. *)
Definition post_window (K : Z) (fuel : nat) (s : UDSession W) (msg : UDMsg W) (sz : Z) (r : Result () DatapathError)
    (s' : UDSession W) (w w' : W) : Prop :=
  ∃ s1 w1, UDSession_post s msg sz (get_pending_reqs s =? 0)%Z w = Ret ((r, s1), w1) ∧
    (if r is Err _ then get_pending_reqs s1 ≤ K else True)%Z ∧
    if (K <? get_pending_reqs s1)%Z then
      ∃ wc, block_on fuel s1 w1 = Ret ((Ok wc, s'), w') ∧ get_pending_reqs s' = 0%Z
    else s' = s1 ∧ w' = w1.

Lemma post_window_ok K fuel qp (ss : sessions) w id s msg sz :
  (0 < K < 2 ^ 32)%Z → window_inv K qp ss w → live w → N < fuel → ss !! id = Some (s, msg) →
  ∃ r s' w', post_window K fuel s msg sz r s' w w' ∧
    window_inv K qp (<[id := (s', msg)]> ss) w' ∧ live w' ∧ ss_meta s' = ss_meta s ∧
    ∃ w1, post_datagram qp (ss_meta s) (UDMsg_get_inner msg) (0, sz)%Z (get_virt_addr (UDMsg_get_inner msg))
      (get_pending_reqs s =? 0)%Z w = Ret (r, w1).
Proof.
  intros HK [Hs Hd] Hl Hf Hid. destruct (Hs _ _ _ Hid) as [Hqp Hp].
  destruct (UDSession_post_ok s msg sz (get_pending_reqs s =? 0)%Z w Hl) as (r & w1 & E & Ed & Hl1 & Hn); [lia|].
  rewrite Hqp in *. rewrite (busy_lookup ss id _ Hid) in Hd. cbn [fst] in Hd.
  assert (Hkeep : ∀ s' w', ss_qp s' = qp → (0 ≤ get_pending_reqs s' ≤ K)%Z →
    nsig (outstanding qp w') = size (filter busy (delete id ss)) + Nat.b2n (0 <? get_pending_reqs s')%Z →
    window_inv K qp (<[id := (s', msg)]> ss) w').
  { intros s' w' H1 H2 H3. split; [|by rewrite busy_insert]. intros id' s2 msg2 H.
    apply lookup_insert_Some in H as [[_ [= <- _]]|[_ H]]; eauto. }
  destruct r as [[]|e].
  - set (s1 := ss_set s (get_pending_reqs s + 1)) in *.
    assert (Hs1 : get_pending_reqs s1 = (get_pending_reqs s + 1)%Z) by done.
    assert (Hn1 : nsig (outstanding qp w1) = S (size (filter busy (delete id ss)))).
    { rewrite Hn, Hd. destruct (Z.eqb_spec (get_pending_reqs s) 0), (Z.ltb_spec 0 (get_pending_reqs s)); cbn; lia. }
    destruct (Z.ltb_spec K (get_pending_reqs s1)) as [Hk|Hk].
    + destruct (block_on_session fuel s1 w1 Hl1) as (wc & w2 & E2 & Hl2 & Hn2);
        [pose proof (lc_lag _ _ _ Hlc w1 Hl1); lia|change (ss_qp s1) with (ss_qp s); rewrite Hqp; lia|].
      change (ss_qp s1) with (ss_qp s) in Hn2. rewrite Hqp in Hn2.
      exists (Ok ()), (ss_set s1 0), w2. split_and!; [|apply Hkeep; [done|cbn; lia|cbn; lia]|done|done|eauto].
      exists s1, w1. split; [done|]. split; [done|]. rewrite (proj2 (Z.ltb_lt _ _)) by done. by exists wc.
    + exists (Ok ()), s1, w1. split_and!; [|apply Hkeep; [done|lia|]|done|done|eauto].
      * exists s1, w1. split; [done|]. split; [done|]. by rewrite (proj2 (Z.ltb_ge _ _)) by done.
      * rewrite (proj2 (Z.ltb_lt _ _)) by lia. cbn. lia.
  - exists (Err e), s, w1. split_and!; [|apply Hkeep; [done|lia|by rewrite Hn, Hd, Nat.add_0_r]|done|done|eauto].
    exists s, w1. split; [done|]. split; [lia|]. by rewrite (proj2 (Z.ltb_ge _ _)) by lia.
Qed.
End Windows.

(** ** Messages in buffers *)
Section Messages.
Context {W : Type} {rl : RpcLayout} {rl_ok : RpcLayoutOk}.

Abbreviation SZ_HEADER := (Z.of_nat (size_of MsgHeader)).

Lemma header_align_8 : (@align_of _ header_Pod | 8)%Z.
Proof. rewrite header_align. done. Qed.

Lemma header_sz_8 : (8 | SZ_HEADER)%Z.
Proof. rewrite <- header_align. apply (align_size (PodOk := header_ok)). Qed.

Lemma header_length (h : MsgHeader) : length (to_bytes h) = size_of MsgHeader.
Proof. apply (to_bytes_length (PodOk := header_ok)). Qed.

Lemma generate_ok {T} `{Pod T} {v} {ok : PodOk T v} (h : MsgHeader) (arg : T) m b :
  (align_of T | 8)%Z → buf_ok m b → (SZ_HEADER + Z.of_nat (size_of T) ≤ bm_len b < 2 ^ 64)%Z →
  ∃ m', generate h arg m b = Ret (Some (SZ_HEADER + Z.of_nat (size_of T))%Z, m') ∧
    at_mem m' (bm_ptr b) (to_bytes h ++ to_bytes arg) ∧
    frame m m' (bm_ptr b) (SZ_HEADER + Z.of_nat (size_of T)).
Proof.
  intros Ha Hb Hlen. pose proof Hb as (Hal & H8 & H0). unfold generate, memcpy_serialize_at. rewrite truncate_header_0 by done.
  destruct (memcpy_serialize_ok (pod_ok := header_ok) header_align_8 m b h Hal H8) as (m1 & E1 & Hat1 & Hf1); [lia|].
  rewrite E1. cbn [mbind outcome_bind].
  rewrite truncate_header_advance by lia.
  pose proof (buf_ok_advance m1 b SZ_HEADER) as (Hal2 & H82 & _); [by eapply buf_ok_frame|apply header_sz_8|lia|].
  destruct (memcpy_serialize_ok (pod_ok := ok) Ha m1 _ arg Hal2 H82) as (m2 & E2 & Hat2 & Hf2); [cbn; lia|].
  rewrite E2. cbn [mbind outcome_bind]. rewrite u64_add_Ret by (unfold is_u64; lia).
  exists m2. cbn [bm_ptr advance] in *. split_and!; [done| |].
  - apply at_mem_app. rewrite header_length. split; [|done].
    eapply at_mem_frame; [exact Hf2|exact Hat1|]. rewrite header_length. lia.
  - eapply frame_trans; eapply frame_weaken; [exact Hf1|lia|lia|exact Hf2|lia|lia].
Qed.

Lemma reply_generate_ok status sz m b :
  buf_ok m b → (SZ_HEADER ≤ bm_len b)%Z →
  ∃ m', ReplyStub_generate status sz m b = Ret (Some SZ_HEADER, m') ∧
    at_mem m' (bm_ptr b) (to_bytes (gen_reply_stub status sz)) ∧ frame m m' (bm_ptr b) SZ_HEADER.
Proof.
  intros (Hal & H8 & H0) Hlen. unfold ReplyStub_generate, memcpy_serialize_at. rewrite truncate_header_0 by done.
  by apply (memcpy_serialize_ok (pod_ok := header_ok) header_align_8).
Qed.

(** A message [h ++ body] received behind the header of the datagram. *)
Definition received (m : mem) (b : BytesMut) (h : MsgHeader) (body : list Z) : Prop :=
  at_mem m (bm_ptr b + UDReceiver_HEADER) (to_bytes h ++ body) ∧ (8 | bm_ptr b)%Z ∧
  (UDReceiver_HEADER + SZ_HEADER + Z.of_nat (length body) ≤ bm_len b)%Z.

Definition header_part (b : BytesMut) : BytesMut := advance b UDReceiver_HEADER.
Definition body_part (b : BytesMut) (n : Z) : BytesMut := mkBytesMut (bm_ptr b + UDReceiver_HEADER + SZ_HEADER) n.

Lemma received_parts m b h body :
  received m b h body → MsgHeader_valid h → payload h = Z.of_nat (length body) →
  truncate_header b UDReceiver_HEADER = Some (header_part b) ∧ read_header m (header_part b) = Ret h ∧
  (∃ rest, truncate_header (header_part b) SZ_HEADER = Some rest ∧
    clone_and_resize rest (payload h) = Some (body_part b (payload h))) ∧
  at_mem m (bm_ptr (body_part b (payload h))) body ∧ (8 | bm_ptr (body_part b (payload h)))%Z.
Proof.
  intros (Hat & H8 & Hlen) Hv Hp. apply at_mem_app in Hat as [Hh Hb]. rewrite header_length in Hb.
  assert (H40 : (8 | bm_ptr b + UDReceiver_HEADER)%Z) by (apply Z.divide_add_r; [done|by exists 5%Z]).
  unfold UDReceiver_HEADER in *. split_and!; [apply truncate_header_advance; lia| | |done|].
  - unfold read_header. rewrite (memcpy_deserialize_ok (pod_ok := header_ok) header_align_8 m _ h) by (first [done|cbn; unfold UDReceiver_HEADER; lia]). done.
  - eexists. split; [apply truncate_header_advance; cbn; unfold UDReceiver_HEADER; lia|]. unfold clone_and_resize. cbn [advance header_part bm_len bm_ptr].
    unfold UDReceiver_HEADER. by rewrite (proj2 (Z.leb_le _ _)) by lia.
  - apply Z.divide_add_r; [done|apply header_sz_8].
Qed.
End Messages.

(** ** Replies and calls through a window *)
Section Sending.
Context {W : Type} {kt : KTimerApi W} {kt_ok : KTimerOk W} {kr : KRdmaKit W} {nic : NicOk W}.
Context {rl : RpcLayout} {rl_ok : RpcLayoutOk}.
Context (Hdg : datagrams_queue (W := W)).
Context {live : W → Prop} {lag : W → nat} {N : nat} (Hlc : LiveCard live lag N).

Abbreviation SZ_HEADER := (Z.of_nat (size_of MsgHeader)).
Abbreviation sessions := (gmap Z (UDSession W * UDMsg W)).

(** The buffer of every session is usable and holds [n] bytes. *)
Definition bufs_ok (n : Z) (m : mem) (ss : sessions) : Prop :=
  map_Forall (λ _ x, buf_ok m (msg_bytes x.2) ∧ (n ≤ bm_len (msg_bytes x.2) < 2 ^ 64)%Z) ss.

Lemma bufs_ok_frame n m m' p k ss : frame m m' p k → bufs_ok n m ss → bufs_ok n m' ss.
Proof. intros Hf Hb id x Hx. destruct (Hb id x Hx). split; [by eapply buf_ok_frame|done]. Qed.

Lemma bufs_ok_insert n m (ss : sessions) id s s' msg :
  ss !! id = Some (s, msg) → bufs_ok n m ss → bufs_ok n m (<[id := (s', msg)]> ss).
Proof. intros Hid Hb. apply map_Forall_insert_2; [exact (Hb _ _ Hid)|done]. Qed.

Lemma send_reply_ok fuel qp m self w id s buf status sz :
  window_inv REPLY_WINDOW qp (hook_sessions self) w → live w → N < fuel →
  hook_sessions self !! id = Some (s, buf) → bufs_ok SZ_HEADER m (hook_sessions self) →
  (0 ≤ sz)%Z → (sz + SZ_HEADER < 2 ^ 64)%Z →
  ∃ r s' m' w' w1,
    send_reply fuel m self id status sz w =
      Ret ((match r with Ok _ => Ok () | Err _ => Err HookFatal end, hook_set_session self id (s', buf), m'), w') ∧
    post_datagram qp (ss_meta s) (UDMsg_get_inner buf) (0, sz + SZ_HEADER)%Z (get_virt_addr (UDMsg_get_inner buf))
      (get_pending_reqs s =? 0)%Z w = Ret (r, w1) ∧
    at_mem m' (bm_ptr (msg_bytes buf)) (to_bytes (gen_reply_stub status sz)) ∧
    frame m m' (bm_ptr (msg_bytes buf)) SZ_HEADER ∧ ss_meta s' = ss_meta s ∧
    window_inv REPLY_WINDOW qp (hook_sessions (hook_set_session self id (s', buf))) w' ∧ live w'.
Proof.
  intros Hw Hl Hf Hid Hbufs H0 Hsz. destruct (Hbufs _ _ Hid) as [Hb Hlen]. cbn [snd] in Hb, Hlen.
  destruct (reply_generate_ok status sz m (msg_bytes buf) Hb) as (m' & Eg & Hat & Hfr); [lia|].
  destruct (post_window_ok Hdg Hlc REPLY_WINDOW fuel qp (hook_sessions self) w id s buf (sz + SZ_HEADER)%Z) as
    (r & s' & w' & (s1 & w1 & Ep & Herr & Hwin) & Hw' & Hl' & Hm & w1' & Ed); [done..|].
  exists r, s', m', w', w1'. split_and!; try done.
  unfold send_reply. rewrite Hid. pure Eg. rewrite (io_lift_run (unwrap (Some _)) _ _ _ eq_refl).
  rewrite (io_lift_run _ _ _ (sz + SZ_HEADER)%Z) by (apply u64_add_Ret; unfold is_u64; lia).
  rewrite (io_bind_run _ _ _ _ _ Ep). cbv beta iota.
  destruct (Z.ltb_spec REPLY_WINDOW (get_pending_reqs s1)).
  - destruct Hwin as (wc & Eb & Hp). rewrite (io_bind_run _ _ _ _ _ Eb). cbv beta iota. rewrite Hp. done.
  - by destruct Hwin as [-> ->].
Qed.

Lemma sync_call_ok {Args} `{Pod Args} {v} {ok : PodOk Args v} fuel qp m self w id s buf my_id rpc_id (arg : Args) :
  (align_of Args | 8)%Z →
  window_inv CALL_WINDOW qp (caller_sessions self) w → live w → N < fuel →
  caller_sessions self !! id = Some (s, buf) →
  bufs_ok (SZ_HEADER + Z.of_nat (size_of Args)) m (caller_sessions self) →
  ∃ r s' m' w' w1,
    sync_call fuel m self id my_id rpc_id arg w = Ret ((r, set_session self id (s', buf), m'), w') ∧
    post_datagram qp (ss_meta s) (UDMsg_get_inner buf) (0, SZ_HEADER + Z.of_nat (size_of Args))%Z
      (get_virt_addr (UDMsg_get_inner buf)) (get_pending_reqs s =? 0)%Z w = Ret (r, w1) ∧
    at_mem m' (bm_ptr (msg_bytes buf))
      (to_bytes (gen_call_stub my_id rpc_id (Z.of_nat (size_of Args))) ++ to_bytes arg) ∧
    frame m m' (bm_ptr (msg_bytes buf)) (SZ_HEADER + Z.of_nat (size_of Args)) ∧ ss_meta s' = ss_meta s ∧
    window_inv CALL_WINDOW qp (caller_sessions (set_session self id (s', buf))) w' ∧ live w'.
Proof.
  intros Ha Hw Hl Hf Hid Hbufs. destruct (Hbufs _ _ Hid) as [Hb Hlen]. cbn [snd] in Hb, Hlen.
  destruct (generate_ok (gen_call_stub my_id rpc_id (Z.of_nat (size_of Args))) arg m (msg_bytes buf) Ha Hb Hlen)
    as (m' & Eg & Hat & Hfr).
  destruct (post_window_ok Hdg Hlc CALL_WINDOW fuel qp (caller_sessions self) w id s buf (SZ_HEADER + Z.of_nat (size_of Args))%Z) as
    (r & s' & w' & (s1 & w1 & Ep & Herr & Hwin) & Hw' & Hl' & Hm & w1' & Ed); [done..|].
  exists r, s', m', w', w1'. split_and!; try done.
  unfold sync_call. rewrite (io_lift_run _ _ _ (s, buf)) by (by rewrite Hid). cbv beta iota. pure Eg.
  rewrite (io_lift_run (unwrap (Some _)) _ _ _ eq_refl). rewrite (io_bind_run _ _ _ _ _ Ep). cbv beta iota.
  destruct r as [[]|e].
  - destruct (Z.ltb_spec CALL_WINDOW (get_pending_reqs s1)).
    + destruct Hwin as (wc & Eb & Hp). rewrite (io_bind_run _ _ _ _ _ Eb). cbv beta iota. by rewrite Hp.
    + by destruct Hwin as [-> ->].
  - rewrite (proj2 (Z.ltb_ge _ _)) in Hwin by done. by destruct Hwin as [-> ->].
Qed.
End Sending.
