(* ===== verification/RpcCall.v ===== *)
(** * Calls end to end

    A call through the buffers of both machines: what the caller writes is what
    the callback of the server gets, and what the callback writes is what the
    caller gets back.  The wire is the card's: a datagram arrives unchanged behind
    the forty bytes of its own header. *)

From S2P Require Import Prelude Future Bytes Rdma Machine Datagram ParentWire Rpc RpcSpec.

Section Calls.
Context {W : Type} {kt : KTimerApi W} {kt_ok : KTimerOk W} {kr : KRdmaKit W} {nic : NicOk W} {recv_ok : RecvOk W} {cm : UdCm W}.
Context {rl : RpcLayout} {rl_ok : RpcLayoutOk}.
Context (Hdg : datagrams_queue (W := W)).
Context {live : W → Prop} {lag : W → nat} {N : nat} (Hlc : LiveCard live lag N).

Abbreviation SZ_HEADER := (Z.of_nat (size_of MsgHeader)).

(** ** Histories of one end *)
Fixpoint run_replies (fuel : nat) (m : mem) (self : RPCHook W) (l : list (Z * ReplyStatus * Z)) :
    io W (list (Result () (HookError DatapathError)) * RPCHook W * mem) :=
  match l with
  | [] => mret ([], self, m)
  | (id, status, sz) :: l =>
      '(r, self, m) ← send_reply fuel m self id status sz;
      '(rs, self, m) ← run_replies fuel m self l;
      mret (r :: rs, self, m)
  end.

Fixpoint run_calls {Args} `{Pod Args} (fuel : nat) (m : mem) (self : Caller W) (l : list (Z * Z * Z * Args)) :
    io W (list (Result () DatapathError) * Caller W * mem) :=
  match l with
  | [] => mret ([], self, m)
  | (id, my_id, rpc_id, arg) :: l =>
      '(r, self, m) ← sync_call fuel m self id my_id rpc_id arg;
      '(rs, self, m) ← run_calls fuel m self l;
      mret (r :: rs, self, m)
  end.

(** However the replies to the sessions of a hook interleave, the hook never
    waits for a completion that is not due: with a card that answers within [N]
    polls, [N + 1] are enough, every reply is sent or reported, no assertion
    fails, and afterwards no session has more than four messages in flight. *)
Theorem replies_never_stall fuel qp m self w l :
  window_inv REPLY_WINDOW qp (hook_sessions self) w → live w → N < fuel →
  bufs_ok SZ_HEADER m (hook_sessions self) →
  Forall (λ x, 0 ≤ x.2 ∧ x.2 + SZ_HEADER < 2 ^ 64)%Z l →
  ∃ rs self' m' w', run_replies fuel m self l w = Ret ((rs, self', m'), w') ∧
    Forall2 (λ x r, hook_sessions self !! x.1.1 = None ↔ r = Err HookSessionCreationError) l rs ∧
    window_inv REPLY_WINDOW qp (hook_sessions self') w'.
Proof.
  intros Hw Hl Hf Hb Hsz. revert m self w Hw Hl Hb. induction Hsz as [|[[id status] sz] l [H0 H1] _ IH]; intros m self w Hw Hl Hb.
  - exists [], self, m, w. split_and!; [done|constructor|done].
  - cbn [run_replies]. destruct (hook_sessions self !! id) as [[s buf]|] eqn:Eid.
    + destruct (send_reply_ok Hdg Hlc fuel qp m self w id s buf status sz) as
        (r & s' & m1 & w1 & w0 & E & _ & _ & Hfr & _ & Hw1 & Hl1); [done..|].
      destruct (IH m1 _ w1 Hw1 Hl1) as (rs & self' & m' & w' & E' & Hrs & Hw').
      { eapply bufs_ok_insert; [done|]. by eapply bufs_ok_frame. }
      step E. step E'. eexists (_ :: rs), self', m', w'. split; [done|]. split; [|done].
      constructor; [cbn; rewrite Eid; by destruct r|]. eapply Forall2_impl; [exact Hrs|]. intros [[id' st'] sz'] r'. cbn.
      rewrite lookup_insert_None. intros <-. split; [intros Hn; split; [done|by intros ->; rewrite Eid in Hn]|by intros []].
    + destruct (IH m self w Hw Hl Hb) as (rs & self' & m' & w' & E' & Hrs & Hw').
      assert (E : send_reply fuel m self id status sz w = Ret ((Err HookSessionCreationError, self, m), w))
        by (unfold send_reply; by rewrite Eid).
      step E. step E'. eexists (_ :: rs), self', m', w'. split; [done|]. split; [|done]. by constructor.
Qed.

(** C30: However a caller's calls to its sessions interleave, the caller never waits
    for a completion that is not due: with a card that answers within [N] polls,
    [N + 1] are enough, every call returns, no assertion fails, and afterwards no
    session has more than eight requests in flight. *)
Theorem calls_never_stall {Args} `{Pod Args} {v} {ok : PodOk Args v} fuel qp m self w (l : list (Z * Z * Z * Args)) :
  (align_of Args | 8)%Z →
  window_inv CALL_WINDOW qp (caller_sessions self) w → live w → N < fuel →
  bufs_ok (SZ_HEADER + Z.of_nat (size_of Args)) m (caller_sessions self) →
  Forall (λ x, session_connected self x.1.1.1 = true) l →
  ∃ rs self' m' w', run_calls fuel m self l w = Ret ((rs, self', m'), w') ∧
    length rs = length l ∧ window_inv CALL_WINDOW qp (caller_sessions self') w'.
Proof.
  intros Ha Hw Hl Hf Hb Hc. revert m self w Hw Hl Hb Hc. induction l as [|[[[id my_id] rpc_id] arg] l IH]; intros m self w Hw Hl Hb Hc.
  - exists [], self, m, w. done.
  - apply Forall_cons in Hc as [Hid Hc]. apply bool_decide_eq_true in Hid as [[s buf] Hid]. cbn [fst] in Hid.
    destruct (sync_call_ok Hdg Hlc fuel qp m self w id s buf my_id rpc_id arg) as
      (r & s' & m1 & w1 & w0 & E & _ & _ & Hfr & _ & Hw1 & Hl1); [done..|].
    destruct (IH m1 _ w1 Hw1 Hl1) as (rs & self' & m' & w' & E' & Hrs & Hw').
    { eapply bufs_ok_insert; [done|]. by eapply bufs_ok_frame. }
    { eapply Forall_impl; [exact Hc|]. intros x Hx. apply bool_decide_eq_true in Hx. apply bool_decide_eq_true.
      cbn. apply lookup_insert_is_Some. destruct (decide (id = x.1.1.1)); auto. }
    cbn [run_calls]. step E. step E'. eexists (r :: rs), self', m', w'. split; [done|]. split; [cbn; by rewrite Hrs|done].
Qed.

(** ** One call *)

(** The [sz] bytes sent from [src] have arrived in the buffer [b]. *)
Definition wire (m : mem) (src sz : Z) (m' : mem) (b : BytesMut) : Prop :=
  ∃ bs, Z.of_nat (length bs) = sz ∧ at_mem m src bs ∧ at_mem m' (bm_ptr b + UDReceiver_HEADER) bs ∧
    (8 | bm_ptr b)%Z ∧ (UDReceiver_HEADER + sz ≤ bm_len b)%Z.

Definition answer_len (ans : option (list Z)) : Z := match ans with Some bs => Z.of_nat (length bs) | None => 0 end.

(** The service answers [args] with bytes [Q] allows, [None] when nothing is
    registered; it writes nothing but the output and sends nothing itself. *)
Definition answers (svc : Service W) (rpc_id : Z) (args : list Z) (Q : option (list Z) → Prop) : Prop :=
  ∀ input output m w, live w → at_mem m (bm_ptr input) args → bm_len input = Z.of_nat (length args) →
  (8 | bm_ptr input)%Z → buf_ok m output → (∀ ans, Q ans → answer_len ans ≤ bm_len output)%Z →
  ∃ ans m' w', Q ans ∧ Service_execute svc rpc_id input output m w = Ret ((Z.of_nat ∘ length <$> ans, m'), w') ∧
    frame m m' (bm_ptr output) (bm_len output) ∧ at_mem m' (bm_ptr output) (default [] ans) ∧
    live w' ∧ ∀ qp, outstanding qp w' = outstanding qp w.

(** A hook with a session [id] that can take one more call. *)
Record hook_ready (m : mem) (hook : RPCHook W) (w : W) (qp : QueuePair) (id : Z) (s : UDSession W) (buf : UDMsg W)
    (Q : option (list Z) → Prop) : Prop := {
  hr_window : window_inv REPLY_WINDOW qp (hook_sessions hook) w;
  hr_live : live w;
  hr_bufs : bufs_ok SZ_HEADER m (hook_sessions hook);
  hr_session : hook_sessions hook !! id = Some (s, buf);
  hr_room ans : Q ans → (SZ_HEADER + answer_len ans ≤ bm_len (msg_bytes buf))%Z;
  hr_count : (0 ≤ ncalls (analysis hook) < 2 ^ 64 - 1)%Z;
  hr_counts c : session_counts (analysis hook) !! id = Some c → (0 ≤ c < 2 ^ 64 - 1)%Z }.

Definition reply_header (ans : option (list Z)) : MsgHeader :=
  match ans with
  | Some bs => gen_reply_stub ReplyOk (Z.of_nat (length bs))
  | None => gen_reply_stub ReplyNotExist 0
  end.

Lemma count_call a id :
  (0 ≤ ncalls a < 2 ^ 64 - 1)%Z → (∀ c, session_counts a !! id = Some c → (0 ≤ c < 2 ^ 64 - 1)%Z) →
  ∃ a', (a ← handle_one a; handle_session_call a id) = Ret a' ∧ ncalls a' = (ncalls a + 1)%Z ∧
    session_counts a' = <[id := (default 0 (session_counts a !! id) + 1)%Z]> (session_counts a).
Proof.
  intros Hn Hc. unfold handle_one. rewrite u64_add_Ret by (unfold is_u64; lia). cbn [mbind outcome_bind].
  unfold handle_session_call. cbn [session_counts ncalls]. destruct (session_counts a !! id) as [c|].
  - specialize (Hc c eq_refl). rewrite u64_add_Ret by (unfold is_u64; lia). cbn. eauto.
  - eauto.
Qed.

(** ** What the card is given *)
Section Delivery.
Context {sent : QueuePair → W → list (Wr W)} (Hsent : SentLog sent).

Lemma UDSession_post_sent (s s' : UDSession W) msg sz sig w r w' :
  UDSession_post s msg sz sig w = Ret ((r, s'), w') →
  ss_qp s' = ss_qp s ∧
  match r with
  | Ok _ => ∃ u, is_datagram (ss_meta s) (UDMsg_get_inner msg) (0, sz)%Z sig u ∧ sent (ss_qp s) w' = sent (ss_qp s) w ++ [u]
  | Err _ => sent (ss_qp s) w' = sent (ss_qp s) w
  end.
Proof.
  unfold UDSession_post, UDDatagram_post. intros E. apply io_bind_Ret in E as ([r1 d1] & w1 & E & H). injection H as <- <- <-.
  apply io_bind_Ret in E as (r2 & w2 & E2 & E). pose proof (sl_datagram _ Hsent _ _ _ _ _ _ _ _ _ E2) as Hs.
  destruct r2 as [[]|e]; [|by injection E as <- <- <-]. apply io_bind_Ret in E as (p & w3 & Ep & E). injection E as <- <- <-.
  unfold lift in Ep. destruct (u64_add _ _); [|done..]. by injection Ep as _ <-.
Qed.

Lemma block_on_sent fuel (s : UDSession W) w x w' qp : block_on fuel s w = Ret (x, w') → sent qp w' = sent qp w.
Proof.
  revert s w. induction fuel as [|fuel IH]; intros s w; [done|]. cbn [block_on]. intros E.
  apply io_bind_Ret in E as ([r1 s1] & w1 & E1 & E).
  destruct (UDSession_poll s w) as (r & w2 & Ep & Es & _). rewrite E1 in Es. injection Es as _ <-.
  rewrite <- (sl_poll _ Hsent _ _ _ _ _ qp Ep). destruct r1 as [[|]|]; [by injection E as _ <-|by apply IH in E|by injection E as _ <-].
Qed.

Lemma sync_call_sent {Args} `{Pod Args} fuel m c id my_id rpc_id (arg : Args) s buf n m1 w r c' m' w' :
  caller_sessions c !! id = Some (s, buf) → CallStub_generate my_id rpc_id arg m (UDMsg_get_bytes buf) = Ret (Some n, m1) →
  sync_call fuel m c id my_id rpc_id arg w = Ret ((r, c', m'), w') →
  match r with
  | Ok _ => ∃ u sig, is_datagram (ss_meta s) (UDMsg_get_inner buf) (0, n)%Z sig u ∧ sent (ss_qp s) w' = sent (ss_qp s) w ++ [u]
  | Err _ => sent (ss_qp s) w' = sent (ss_qp s) w
  end.
Proof.
  intros Hs Hg E. unfold sync_call in E. rewrite Hs in E. rewrite (io_lift_run (unwrap (Some _)) _ _ _ eq_refl) in E.
  cbv beta iota zeta in E. rewrite (io_lift_run _ _ _ _ Hg) in E. cbv beta iota in E.
  rewrite (io_lift_run (unwrap (Some _)) _ _ _ eq_refl) in E. apply io_bind_Ret in E as ([r1 s1] & w1 & Ep & E).
  destruct (UDSession_post_sent _ _ _ _ _ _ _ _ Ep) as [Hqp Hp]. destruct r1 as [[]|e]; [|by injection E as <- _ _ <-].
  assert (Hw : r = Ok () ∧ sent (ss_qp s) w' = sent (ss_qp s) w1).
  { destruct (CALL_WINDOW <? _)%Z; [|by injection E as <- _ _ <-]. apply io_bind_Ret in E as ([r2 s2] & w2 & Eb & E).
    destruct r2; [|by unfold panic in E]. destruct (get_pending_reqs s2 =? 0)%Z; [|by unfold panic in E]. injection E as <- _ _ <-. by rewrite (block_on_sent _ _ _ _ _ _ Eb). }
  destruct Hw as [-> ->]. destruct Hp as (u & Hu & Hp). by exists u, (get_pending_reqs s =? 0)%Z.
Qed.

(** At most one datagram, which is the reply; none only with a fatal error. *)
Definition replied (qp : QueuePair) (s : UDSession W) (buf : UDMsg W) (sz : Z) (fatal : Prop) (w w' : W) : Prop :=
  (fatal ∧ sent qp w' = sent qp w) ∨
  ∃ u sig, is_datagram (ss_meta s) (UDMsg_get_inner buf) (0, sz)%Z sig u ∧ sent qp w' = sent qp w ++ [u].

Lemma send_reply_sent fuel m self id status sz s buf w r self' m' w' n m1 :
  hook_sessions self !! id = Some (s, buf) → ReplyStub_generate status sz m (UDMsg_get_bytes buf) = Ret (Some n, m1) →
  send_reply fuel m self id status sz w = Ret ((r, self', m'), w') →
  replied (ss_qp s) s buf (sz + n) (r = Err HookFatal) w w'.
Proof.
  intros Hs Hg E. unfold send_reply in E. rewrite Hs in E. cbv beta iota zeta in E. rewrite (io_lift_run _ _ _ _ Hg) in E. cbv beta iota in E.
  rewrite (io_lift_run (unwrap (Some _)) _ _ _ eq_refl) in E. apply io_bind_Ret in E as (tot & w0 & El & E).
  assert (tot = (sz + n)%Z ∧ w0 = w) as [-> ->].
  { unfold lift, u64_add, u64_checked in El. destruct (decide _); [|done]. by injection El as <- <-. }
  apply io_bind_Ret in E as ([r1 s1] & w1 & Ep & E). destruct (UDSession_post_sent _ _ _ _ _ _ _ _ Ep) as [_ Hp].
  assert (Hw : sent (ss_qp s) w' = sent (ss_qp s) w1 ∧ (∀ e, r1 = Err e → r = Err HookFatal)).
  { destruct (REPLY_WINDOW <? _)%Z; [|injection E as <- _ _ <-; split; [done|by intros ? ->]].
    apply io_bind_Ret in E as ([r2 s2] & w2 & Eb & E). destruct r2; [destruct (get_pending_reqs s2 =? 0)%Z; [|by unfold panic in E]|]; injection E as <- _ _ <-;
      (split; [by rewrite (block_on_sent _ _ _ _ _ _ Eb)|by intros ? ->]). }
  destruct Hw as [Hw Hr]. unfold replied. rewrite Hw. destruct r1 as [[]|e]; [right|left; split; [by eapply Hr|done]].
  destruct Hp as (u & Hu & Hp). by exists u, (get_pending_reqs s =? 0)%Z.
Qed.

(** The callback sends nothing itself. *)
Definition silent (svc : Service W) (rpc_id : Z) : Prop := ∀ input output m w x w' qp,
  Service_execute svc rpc_id input output m w = Ret (x, w') → sent qp w' = sent qp w.
End Delivery.
Arguments replied sent : clear implicits.
Arguments silent sent : clear implicits.

(** A request of a session: the answer is in the session's buffer behind its
    header and has been handed to the card for the session's end point. *)
Lemma handle_request_ok fuel qp m hook w id rpc_id args input Q s buf :
  hook_ready m hook w qp id s buf Q → N < fuel → answers (hk_service hook) rpc_id args Q →
  at_mem m (bm_ptr input) args → bm_len input = Z.of_nat (length args) → (8 | bm_ptr input)%Z →
  ∃ ans r s' a m' w', Q ans ∧ handle_request fuel m hook (gen_call_stub id rpc_id (Z.of_nat (length args))) input w =
      Ret ((match r with Ok _ => None | Err _ => Some HookFatal end,
            hook_set_session (hook_set_analysis hook a) id (s', buf), m'), w') ∧
    (∃ w1 w2, post_datagram qp (ss_meta s) (UDMsg_get_inner buf) (0, answer_len ans + SZ_HEADER)%Z
      (get_virt_addr (UDMsg_get_inner buf)) (get_pending_reqs s =? 0)%Z w1 = Ret (r, w2)) ∧
    at_mem m' (bm_ptr (msg_bytes buf)) (to_bytes (reply_header ans) ++ default [] ans) ∧
    window_inv REPLY_WINDOW qp (<[id := (s', buf)]> (hook_sessions hook)) w' ∧ live w' ∧
    ncalls a = (ncalls (analysis hook) + 1)%Z ∧
    ∀ sent, SentLog sent → silent sent (hk_service hook) rpc_id →
      replied sent qp s buf (answer_len ans + SZ_HEADER) (∃ e, r = Err e) w w'.
Proof.
  intros [Hw Hl Hb Hs Hroom Hn Hc] Hf Hans Hat Hlen H8.
  destruct (Hb _ _ Hs) as [Hbuf Hbl]. cbn [snd] in Hbuf, Hbl.
  pose proof (buf_ok_advance m (msg_bytes buf) SZ_HEADER Hbuf header_sz_8) as Hout.
  destruct (Hans input (advance (msg_bytes buf) SZ_HEADER) m w Hl Hat Hlen H8) as (ans & m1 & w1 & HQ & E1 & Hf1 & Hat1 & Hl1 & Hq1);
    [apply Hout; lia|intros ans HQ; specialize (Hroom ans HQ); cbn; lia|].
  assert (Hal : (0 ≤ answer_len ans)%Z) by (destruct ans; cbn; lia). specialize (Hroom ans HQ).
  destruct (count_call (analysis hook) id Hn Hc) as (a & Ea & Ha & _). apply bind_Ret in Ea as (a0 & Ea0 & Ea).
  destruct (send_reply_ok Hdg Hlc fuel qp m1 (hook_set_analysis hook a) w1 id s buf
    (match ans with Some _ => ReplyOk | None => ReplyNotExist end) (answer_len ans)) as
    (r & s' & m2 & w2 & w3 & E2 & Ed & Hat2 & Hf2 & _ & Hw2 & Hl2); [|done|done|done|by eapply bufs_ok_frame|done|lia|].
  { split; [apply Hw|]. rewrite Hq1. apply Hw. }
  exists ans, r, s', a, m2, w2. split_and!; [done| |eauto| |done|done|done|].
  - unfold handle_request. cbn [get_call_stub gen_call_stub meta cs_rpc_id cs_session_id]. rewrite Hs.
    rewrite (io_lift_run _ _ _ (advance (msg_bytes buf) SZ_HEADER)).
    2: { unfold UDMsg_get_bytes. by rewrite truncate_header_advance by lia. }
    step E1. pure Ea0. pure Ea.
    rewrite (io_bind_run _ _ _ (match r with Ok _ => Ok () | Err _ => Err HookFatal end,
      hook_set_session (hook_set_analysis hook a) id (s', buf), m2) w2); [by destruct r|].
    destruct ans; exact E2.
  - apply at_mem_app. rewrite header_length. split; [by destruct ans|].
    eapply at_mem_frame; [exact Hf2|exact Hat1|]. cbn [advance bm_ptr]. lia.
  - intros sent Hsent Hsil. destruct (wi_session _ _ _ _ Hw _ _ _ Hs) as [<- _].
    destruct (reply_generate_ok (match ans with Some _ => ReplyOk | None => ReplyNotExist end) (answer_len ans) m1 (msg_bytes buf))
      as (m3 & Eg & _); [by eapply buf_ok_frame|lia|].
    pose proof (send_reply_sent Hsent fuel m1 (hook_set_analysis hook a) id _ _ s buf w1 _ _ _ _ _ _ Hs Eg E2) as Hrep.
    unfold replied in *. rewrite (Hsil _ _ _ _ _ _ (ss_qp s) E1) in Hrep.
    destruct Hrep as [[Hr Hsame]|Hu]; [left; split; [|done]; destruct r; [done|eauto]|by right].
Qed.

Lemma received_of_wire m src (h : MsgHeader) body sz m' b :
  at_mem m src (to_bytes h ++ body) → sz = (SZ_HEADER + Z.of_nat (length body))%Z → wire m src sz m' b → received m' b h body.
Proof.
  intros Hat Hsz (bs & Hlen & Hsrc & Hdst & H8 & Hb).
  assert (bs = to_bytes h ++ body) as ->.
  { assert (Hl : length bs = length (to_bytes h ++ body)) by (rewrite length_app, header_length; lia).
    pose proof (load_at _ _ _ Hat) as E1. pose proof (load_at _ _ _ Hsrc) as E2. rewrite Hl in E2. congruence. }
  split_and!; [done|done|lia].
Qed.

Lemma receiver_poll_live (t : UDReceiver W) r t' w w' :
  live w → poll t w = Ret ((r, t'), w') → live w' ∧ ∀ qp, outstanding qp w' = outstanding qp w.
Proof.
  intros Hl E. unfold poll, UDReceiver_Future in E. apply io_bind_Ret in E as (a & w1 & E & H).
  destruct (lc_poll_recv _ _ _ Hlc _ _ _ _ Hl E). destruct a as [[|wc l]|e].
  - by injection H as _ _ <-.
  - destruct (msg_queues t); [done|]. by injection H as _ _ <-.
  - by injection H as _ _ <-.
Qed.

(** A message is parsed, dispatched and its buffer posted again. *)
Lemma RPCHook_poll_dispatch fuel qp m hook w req t w0 h body e hook1 m1 w1 :
  poll (transport hook) w = Ret ((Ok (Ready req), t), w0) →
  received m (msg_bytes req) h body → MsgHeader_valid h → payload h = Z.of_nat (length body) →
  dispatch fuel m (hook_set_transport hook t) h (body_part (msg_bytes req) (payload h)) w0 = Ret ((e, hook1, m1), w1) →
  live w1 → window_inv REPLY_WINDOW qp (hook_sessions hook1) w1 →
  ∃ res hook' w', RPCHook_poll fuel m hook w = Ret ((res, hook', m1), w') ∧
    hook_sessions hook' = hook_sessions hook1 ∧ analysis hook' = analysis hook1 ∧
    window_inv REPLY_WINDOW qp (hook_sessions hook') w' ∧ (res = Ok (Ready ()) → e = None) ∧ (∀ x, e = Some x → res = Err x) ∧
    ∀ sent qp', SentLog sent → sent qp' w0 = sent qp' w ∧ sent qp' w' = sent qp' w1.
Proof.
  intros Ep Hrec Hv Hp Ed Hl1 Hw1.
  assert (Hpoll : ∀ sent qp', SentLog sent → sent qp' w0 = sent qp' w).
  { intros sent qp' Hsent. pose proof Ep as E. unfold poll, UDReceiver_Future in E. apply io_bind_Ret in E as (a & w2 & E & H).
    rewrite <- (sl_poll_recv _ Hsent _ _ _ _ _ qp' E). destruct a as [[|wc l]|]; [done| |done].
    destruct (msg_queues (transport hook)); [done|]. by injection H as _ _ <-. }
  destruct (received_parts m (msg_bytes req) h body Hrec Hv Hp) as (Et & Eh & (rest & E1 & E2) & _).
  unfold RPCHook_poll. step Ep. unfold UDMsg_get_bytes. rewrite Et. pure Eh. rewrite E1. cbn [mbind option_bind].
  rewrite E2. step Ed. destruct e as [e|].
  - exists (Err e), hook1, w1. split_and!; try done; [by intros x [= ->]|]. intros sent qp' Hsent. split; [by apply Hpoll|done].
  - destruct (post_recv_ok (ud (recv_inner (transport hook1))) (UDMsg_get_inner req) (0, UDMsg_len req)%Z (UDMsg_get_pa req) w1)
      as (r & w2 & E3 & _). destruct (lc_post_recv _ _ _ Hlc _ _ _ _ _ _ _ Hl1 E3) as [_ Hq2].
    assert (Epost : ∃ h2, post_msg_buf hook1 req w1 = Ret ((r, h2), w2) ∧ hook_sessions h2 = hook_sessions hook1 ∧ analysis h2 = analysis hook1).
    { unfold post_msg_buf, post_recv_buf. unfold mbind at 1, io_bind at 1. rewrite (io_bind_run _ _ _ _ _ E3).
      destruct r as [[]|e]; cbn; eauto. }
    destruct Epost as (h2 & E4 & Hs2 & Ha2). step E4.
    exists (match r with Ok _ => Ok (Ready ()) | Err e => Err (HookInner e) end), h2, w2.
    split_and!; [by destruct r|done|done| |done|done|]; [rewrite Hs2; split; [apply Hw1|rewrite Hq2; apply Hw1]|].
    intros sent qp' Hsent. split; [by apply Hpoll|by apply (sl_post_recv _ Hsent _ _ _ _ _ _ _ _ E3)].
Qed.

Lemma RPCHook_poll_request fuel qp m hook w id rpc_id args req t' w0 Q s buf :
  hook_ready m hook w qp id s buf Q → N < fuel → answers (hk_service hook) rpc_id args Q →
  is_u64 id → is_u64 rpc_id → is_u64 (Z.of_nat (length args)) →
  poll (transport hook) w = Ret ((Ok (Ready req), t'), w0) →
  received m (msg_bytes req) (gen_call_stub id rpc_id (Z.of_nat (length args))) args →
  ∃ ans res hook' m' w', Q ans ∧ RPCHook_poll fuel m hook w = Ret ((res, hook', m'), w') ∧
    at_mem m' (bm_ptr (msg_bytes buf)) (to_bytes (reply_header ans) ++ default [] ans) ∧
    window_inv REPLY_WINDOW qp (hook_sessions hook') w' ∧ ncalls (analysis hook') = (ncalls (analysis hook) + 1)%Z ∧
    ∃ r w1 w2, post_datagram qp (ss_meta s) (UDMsg_get_inner buf) (0, answer_len ans + SZ_HEADER)%Z
      (get_virt_addr (UDMsg_get_inner buf)) (get_pending_reqs s =? 0)%Z w1 = Ret (r, w2) ∧
      (res = Ok (Ready ()) → r = Ok ()) ∧
      ∀ sent, SentLog sent → silent sent (hk_service hook) rpc_id →
        replied sent qp s buf (answer_len ans + SZ_HEADER) (res = Err HookFatal ∧ ∃ e, r = Err e) w w'.
Proof.
  intros Hr Hf Hans Hid Hrpc Hlen Ep Hrec.
  destruct (receiver_poll_live _ _ _ _ _ (hr_live _ _ _ _ _ _ _ _ Hr) Ep) as [Hl0 Hq0].
  destruct (received_parts m (msg_bytes req) _ args Hrec) as (_ & _ & _ & Hat & H8); [done|done|].
  assert (Hr0 : hook_ready m (hook_set_transport hook t') w0 qp id s buf Q).
  { destruct Hr as [Hw Hl ? ? ? ? ?]. split; try done. split; [apply Hw|]. rewrite Hq0. apply Hw. }
  destruct (handle_request_ok fuel qp m _ w0 id rpc_id args _ Q s buf Hr0 Hf Hans Hat eq_refl H8)
    as (ans & r & s' & a & m1 & w1 & HQ & Eq & (wa & wb & Ed) & Hat1 & Hw1 & Hl1 & Ha & Hrep).
  destruct (RPCHook_poll_dispatch fuel qp m hook w req t' w0 _ args _ _ m1 w1 Ep Hrec ltac:(done) eq_refl Eq Hl1 Hw1)
    as (res & hook' & w' & E & Hs' & Ha' & Hw' & Hres & Herr & Hsame).
  exists ans, res, hook', m1, w'. split_and!; [done|done|done|done|by rewrite Ha'|].
  exists r, wa, wb. split_and!; [done|intros H%Hres; by destruct r as [[]|]|]. intros sent Hsent Hsil.
  specialize (Hrep sent Hsent Hsil). unfold replied in *. destruct (Hsame sent qp Hsent) as [H1 ->]. rewrite H1 in Hrep.
  destruct Hrep as [[[e ->] Hq]|Hu]; [left; split; [split; [by apply Herr|eauto]|done]|by right].
Qed.

Lemma Caller_poll_reply m self rep t' w w' ans :
  poll (inner_receiver self) w = Ret ((Ok (Ready rep), t'), w') → is_u64 (answer_len ans) →
  received m (msg_bytes rep) (reply_header ans) (default [] ans) →
  Caller_poll m self w = Ret ((match ans with
    | Some bs => Ok (Ready (rep, body_part (msg_bytes rep) (Z.of_nat (length bs))))
    | None => Err CallNoID
    end, mkCaller t' (caller_sessions self)), w').
Proof.
  intros Ep Hu Hrec.
  destruct (received_parts m (msg_bytes rep) _ _ Hrec) as (Et & Eh & (rest & E1 & E2) & _);
    [by destruct ans|by destruct ans|].
  unfold Caller_poll. step Ep. unfold UDMsg_get_bytes. rewrite Et, (io_lift_run (unwrap (Some _)) _ _ _ eq_refl). cbv beta.
  pure Eh. destruct ans as [bs|]; [|done].
  change (is_reply (reply_header (Some bs))) with true. change (get_reply_stub (reply_header (Some bs))) with (Some ReplyOk).
  cbv iota. rewrite E1, (io_lift_run (unwrap (Some _)) _ _ _ eq_refl).
  rewrite E2, (io_lift_run (unwrap (Some _)) _ _ _ eq_refl). done.
Qed.

Lemma answer_u64 m hook w qp id s buf Q ans : hook_ready m hook w qp id s buf Q → Q ans → is_u64 (answer_len ans).
Proof.
  intros Hr HQ. pose proof (hr_room _ _ _ _ _ _ _ _ Hr ans HQ) as Hroom.
  destruct (hr_bufs _ _ _ _ _ _ _ _ Hr _ _ (hr_session _ _ _ _ _ _ _ _ Hr)) as [_ Hsl]. cbn [snd] in Hsl.
  destruct ans; cbn in *; unfold is_u64; lia.
Qed.

(** What a call promises: the server that receives the datagram of the call
    answers it, and the caller that receives the answer gets its bytes. *)
Definition call_served (fuel : nat) (m' : mem) (buf : UDMsg W) (my_id rpc_id : Z) (args : list Z) : Prop :=
  ∀ sqp ms hook ws req t ws0 ss sbuf Q,
    hook_ready ms hook ws sqp my_id ss sbuf Q → answers (hk_service hook) rpc_id args Q →
    poll (transport hook) ws = Ret ((Ok (Ready req), t), ws0) →
    wire m' (bm_ptr (msg_bytes buf)) (SZ_HEADER + Z.of_nat (length args)) ms (msg_bytes req) →
  ∃ ans res hook' ms' ws', Q ans ∧ RPCHook_poll fuel ms hook ws = Ret ((res, hook', ms'), ws') ∧
    window_inv REPLY_WINDOW sqp (hook_sessions hook') ws' ∧
    at_mem ms' (bm_ptr (msg_bytes sbuf)) (to_bytes (reply_header ans) ++ default [] ans) ∧
  ∀ m2 c2 w2 rep t2 w3,
    poll (inner_receiver c2) w2 = Ret ((Ok (Ready rep), t2), w3) →
    wire ms' (bm_ptr (msg_bytes sbuf)) (SZ_HEADER + answer_len ans) m2 (msg_bytes rep) →
    match ans with
    | Some bs => ∃ b, Caller_poll m2 c2 w2 = Ret ((Ok (Ready (rep, b)), mkCaller t2 (caller_sessions c2)), w3) ∧
        bm_len b = Z.of_nat (length bs) ∧ at_mem m2 (bm_ptr b) bs ∧ (8 | bm_ptr b)%Z
    | None => Caller_poll m2 c2 w2 = Ret ((Err CallNoID, mkCaller t2 (caller_sessions c2)), w3)
    end.

Lemma call_served_ok fuel m' buf my_id rpc_id args :
  N < fuel → is_u64 my_id → is_u64 rpc_id → is_u64 (Z.of_nat (length args)) →
  at_mem m' (bm_ptr (msg_bytes buf)) (to_bytes (gen_call_stub my_id rpc_id (Z.of_nat (length args))) ++ args) →
  call_served fuel m' buf my_id rpc_id args.
Proof.
  intros Hf Hmy Hrpc Hu Hat sqp ms hook ws req t ws0 ss sbuf Q Hr Hans Ep Hwire.
  destruct (RPCHook_poll_request fuel sqp ms hook ws my_id rpc_id args req t ws0 Q ss sbuf)
    as (ans & res & hook' & ms' & ws' & HQ & Es & Hats & Hws & _); [done..| |].
  { by eapply received_of_wire. }
  exists ans, res, hook', ms', ws'. split; [exact HQ|]. split; [exact Es|]. split; [exact Hws|]. split; [exact Hats|].
  intros m2 c2 w2 rep t2 w3 Ep2 Hwire2.
  assert (Hrec : received m2 (msg_bytes rep) (reply_header ans) (default [] ans)).
  { eapply received_of_wire; [exact Hats| |exact Hwire2]. by destruct ans. }
  pose proof (answer_u64 _ _ _ _ _ _ _ _ ans Hr HQ) as Hul.
  rewrite (Caller_poll_reply m2 c2 rep t2 w2 w3 ans Ep2 Hul Hrec).
  destruct ans as [bs|]; [|done]. eexists. split; [done|]. split; [done|].
  by destruct (received_parts m2 (msg_bytes rep) _ _ Hrec) as (_ & _ & _ & ? & ?).
Qed.

(** The datagram [u] of a machine with memory [m] has arrived in the buffer [b] of
    another: the bytes of the range of the region it was posted with. *)
Definition delivered (u : Wr W) (m m' : mem) (b : BytesMut) : Prop :=
  wire m (get_virt_addr (wr_mr u) + (wr_range u).1) ((wr_range u).2 - (wr_range u).1) m' b.

(** The byte view of a message is its registered region ([UDMsg::new]). *)
Definition placed (msg : UDMsg W) : Prop := get_virt_addr (UDMsg_get_inner msg) = bm_ptr (msg_bytes msg).

Lemma delivered_wire u ep msg sz sig m m' b :
  placed msg → is_datagram ep (UDMsg_get_inner msg) (0, sz)%Z sig u → delivered u m m' b →
  wire m (bm_ptr (msg_bytes msg)) sz m' b.
Proof. intros Hp [_ _ Hm Hr _]. unfold delivered. rewrite Hm, Hr, Hp. cbn. by rewrite Z.add_0_r, Z.sub_0_r. Qed.

Section RemoteCall.
Context {sent : QueuePair → W → list (Wr W)} (Hsent : SentLog sent).

(** What the datagram [u] of a call achieves when it arrives: the server runs the
    callback on the argument, and gives the card a datagram for the caller's end
    point unless the card refuses it; when that one arrives the caller has the
    callback's answer. *)
Definition request_served (fuel : nat) (m' : mem) (u : Wr W) (my_id rpc_id : Z) (args : list Z) : Prop :=
  ∀ sqp ms hook ws req t ws0 ss sbuf Q,
    hook_ready ms hook ws sqp my_id ss sbuf Q → placed sbuf →
    answers (hk_service hook) rpc_id args Q → silent sent (hk_service hook) rpc_id →
    poll (transport hook) ws = Ret ((Ok (Ready req), t), ws0) → delivered u m' ms (msg_bytes req) →
  ∃ ans res hook' ms' ws', Q ans ∧ RPCHook_poll fuel ms hook ws = Ret ((res, hook', ms'), ws') ∧
    window_inv REPLY_WINDOW sqp (hook_sessions hook') ws' ∧
    at_mem ms' (bm_ptr (msg_bytes sbuf)) (to_bytes (reply_header ans) ++ default [] ans) ∧
    ((∃ e id sig w1 w2, post_datagram sqp (ss_meta ss) (UDMsg_get_inner sbuf) (0, answer_len ans + SZ_HEADER)%Z id sig w1 = Ret (Err e, w2) ∧
        res = Err HookFatal ∧ sent sqp ws' = sent sqp ws) ∨
     ∃ u' sig, sent sqp ws' = sent sqp ws ++ [u'] ∧
     is_datagram (ss_meta ss) (UDMsg_get_inner sbuf) (0, answer_len ans + SZ_HEADER)%Z sig u' ∧
     ∀ m2 c2 w2 rep t2 w3,
       poll (inner_receiver c2) w2 = Ret ((Ok (Ready rep), t2), w3) → delivered u' ms' m2 (msg_bytes rep) →
       match ans with
       | Some bs => ∃ b, Caller_poll m2 c2 w2 = Ret ((Ok (Ready (rep, b)), mkCaller t2 (caller_sessions c2)), w3) ∧
           bm_len b = Z.of_nat (length bs) ∧ at_mem m2 (bm_ptr b) bs
       | None => Caller_poll m2 c2 w2 = Ret ((Err CallNoID, mkCaller t2 (caller_sessions c2)), w3)
       end).

Lemma request_served_ok fuel m' u ep buf sig my_id rpc_id args :
  N < fuel → is_u64 my_id → is_u64 rpc_id → is_u64 (Z.of_nat (length args)) →
  placed buf → is_datagram ep (UDMsg_get_inner buf) (0, SZ_HEADER + Z.of_nat (length args))%Z sig u →
  at_mem m' (bm_ptr (msg_bytes buf)) (to_bytes (gen_call_stub my_id rpc_id (Z.of_nat (length args))) ++ args) →
  request_served fuel m' u my_id rpc_id args.
Proof.
  intros Hf Hmy Hrpc Hlen Hpl Hu Hat sqp ms hook ws req t ws0 ss sbuf Q Hr Hpl2 Hans Hsil Ep Hdel.
  apply (delivered_wire _ _ _ _ _ _ _ _ Hpl Hu) in Hdel.
  destruct (RPCHook_poll_request fuel sqp ms hook ws my_id rpc_id args req t ws0 Q ss sbuf)
    as (ans & res & hook' & ms' & ws' & HQ & Es & Hats & Hws & _ & rr & wa & wb & Epost & _ & Hrep); [done..|by eapply received_of_wire|].
  exists ans, res, hook', ms', ws'. split; [exact HQ|]. split; [exact Es|]. split; [exact Hws|]. split; [exact Hats|].
  destruct (Hrep sent Hsent Hsil) as [[[Hfa [e ->]] Hq]|(u' & sig' & Hu' & Hq)]; [left; eauto 10|right]. exists u', sig'. split; [exact Hq|]. split; [exact Hu'|].
  intros m2 c2 w2 rep t2 w3 Ep2 Hdel2. apply (delivered_wire _ _ _ _ _ _ _ _ Hpl2 Hu') in Hdel2.
  assert (Hrec : received m2 (msg_bytes rep) (reply_header ans) (default [] ans)).
  { eapply received_of_wire; [exact Hats| |exact Hdel2]. destruct ans; cbn; lia. }
  pose proof (answer_u64 _ _ _ _ _ _ _ _ ans Hr HQ) as Hul.
  rewrite (Caller_poll_reply m2 c2 rep t2 w2 w3 ans Ep2 Hul Hrec).
  destruct ans as [bs|]; [|done]. eexists. split; [done|]. split; [done|].
  by destruct (received_parts m2 (msg_bytes rep) _ _ Hrec) as (_ & _ & _ & ? & ?).
Qed.

(** C5: A remote call, end to end.  [sync_call] gives the card exactly one datagram,
    for the end point of its session, or reports the card's error and sends
    nothing.  When that datagram arrives, a server with a session under [my_id]
    and room for the answer runs what is registered under [rpc_id], which sends
    nothing itself, on exactly the bytes of the argument; it gives its card one
    datagram for the end point of the caller, or ends with a fatal error if its
    card refuses it.  When that one arrives the caller gets exactly the bytes the
    callback wrote, or [NoID] when nothing is registered.  The calls return on
    cards that answer within [N] polls, and both ends keep their windows. *)
Theorem remote_call {Args} `{Pod Args} {v} {ok : PodOk Args v}
    fuel qp m c w id s buf my_id rpc_id (arg : Args) :
  (align_of Args | 8)%Z → is_u64 my_id → is_u64 rpc_id →
  window_inv CALL_WINDOW qp (caller_sessions c) w → live w → N < fuel →
  caller_sessions c !! id = Some (s, buf) → placed buf →
  bufs_ok (SZ_HEADER + Z.of_nat (size_of Args)) m (caller_sessions c) →
  ∃ r c' m' w', sync_call fuel m c id my_id rpc_id arg w = Ret ((r, c', m'), w') ∧
    window_inv CALL_WINDOW qp (caller_sessions c') w' ∧
    match r with
    | Ok _ => ∃ u sig, sent qp w' = sent qp w ++ [u] ∧
        is_datagram (ss_meta s) (UDMsg_get_inner buf) (0, SZ_HEADER + Z.of_nat (size_of Args))%Z sig u ∧
        request_served fuel m' u my_id rpc_id (to_bytes arg)
    | Err _ => sent qp w' = sent qp w
    end.
Proof.
  intros Ha Hmy Hrpc Hw Hl Hf Hid Hpl Hb. destruct (Hb _ _ Hid) as [Hbok Hbl]. cbn [snd] in Hbok, Hbl.
  destruct (sync_call_ok Hdg Hlc fuel qp m c w id s buf my_id rpc_id arg Ha Hw Hl Hf Hid Hb)
    as (r & s' & m' & w' & w1 & E & _ & Hat & _ & _ & Hw' & _).
  destruct (generate_ok (gen_call_stub my_id rpc_id (Z.of_nat (size_of Args))) arg m (msg_bytes buf) Ha Hbok Hbl) as (m1 & Eg & _).
  pose proof (sync_call_sent Hsent fuel m c id my_id rpc_id arg s buf _ m1 w _ _ _ _ Hid Eg E) as Hs.
  destruct (wi_session _ _ _ _ Hw _ _ _ Hid) as [Hqp _]. rewrite Hqp in Hs.
  exists r, (set_session c id (s', buf)), m', w'. split; [exact E|]. split; [exact Hw'|].
  destruct r as [[]|e]; [|exact Hs]. destruct Hs as (u & sig & Hu & Hs). exists u, sig. split; [done|]. split; [exact Hu|].
  rewrite <- (to_bytes_length arg) in Hat, Hbl, Hu. eapply request_served_ok; try done. unfold is_u64. lia.
Qed.
End RemoteCall.

(** ** Receive buffers of the hook *)
Lemma send_reply_transport fuel m self id status sz w r self' m' w' :
  send_reply fuel m self id status sz w = Ret ((r, self', m'), w') → transport self' = transport self.
Proof.
  unfold send_reply. destruct (hook_sessions self !! id) as [[s buf]|]; [|by intros [= _ <- _ _]]. intros E.
  apply io_bind_Ret in E as ([n m1] & w1 & _ & E). inv_io E. destruct a1 as [r2 s2].
  destruct (REPLY_WINDOW <? _)%Z; [|by injection E as _ <- _ _].
  apply io_bind_Ret in E as ([[] s3] & w5 & _ & E); [|by injection E as _ <- _ _].
  destruct (get_pending_reqs s3 =? 0)%Z; [by injection E as _ <- _ _|]. by unfold panic in E.
Qed.

Lemma handle_connect_transport fuel m self h b w r self' m' w' :
  handle_connect fuel m self h b w = Ret ((r, self', m'), w') → transport self' = transport self.
Proof.
  unfold handle_connect. destruct (get_connect_stub h) as [stub|]; [|by intros [= _ <- _ _]].
  case_decide; [by intros [= _ <- _ _]|]. intros E. apply io_bind_Ret in E as (o & w1 & _ & E).
  destruct o as [[? hyper]|]; [|by injection E as _ <- _ _]. apply io_bind_Ret in E as ([ep|] & w2 & _ & E); [|by injection E as _ <- _ _].
  apply io_bind_Ret in E as (sbuf & w3 & _ & E). apply io_bind_Ret in E as ([[r1 s1] m1] & w4 & E1 & E).
  injection E as _ <- _ _. by apply send_reply_transport in E1.
Qed.

Lemma handle_request_transport fuel m self h b w r self' m' w' :
  handle_request fuel m self h b w = Ret ((r, self', m'), w') → transport self' = transport self.
Proof.
  unfold handle_request. destruct (get_call_stub h) as [stub|]; [|by intros [= _ <- _ _]].
  destruct (hook_sessions self !! cs_session_id stub) as [[s buf]|]; [|by intros [= _ <- _ _]]. intros E.
  apply io_bind_Ret in E as (out & w1 & _ & E). apply io_bind_Ret in E as ([n m1] & w2 & _ & E). inv_io E.
  destruct a1 as [[r1 s1] m2]. injection E as _ <- _ _. destruct n as [n|]; by apply send_reply_transport in E2.
Qed.

(** The hook's receive buffers: a message that is handled goes back to the
    card, but any error while handling one loses its buffer, in the queue of the
    receiver and in that of the card alike.  A peer that sends as many bad
    messages as there are buffers has silenced the server. *)
Theorem hook_error_loses_buffer fuel m hook w msg t w0 rest res hook' m' w' :
  ReceiverInv (transport hook) w → msg_queues (transport hook) = rest →
  poll (transport hook) w = Ret ((Ok (Ready msg), t), w0) →
  RPCHook_poll fuel m hook w = Ret ((res, hook', m'), w') →
  ∃ later, rest = msg :: later ∧
    msg_queues (transport hook') = later ++ match res with Ok _ => [msg] | Err _ => [] end.
Proof.
  intros Hinv <- Ep E. destruct (UDReceiver_poll_ok _ _ Hinv) as (r & t1 & w1 & Ep1 & _ & Hq).
  rewrite Ep1 in Ep. simplify_eq. destruct Hq as [Hq _]. exists (msg_queues t). split; [done|].
  unfold RPCHook_poll in E. rewrite (io_bind_run _ _ _ _ _ Ep1) in E. cbv beta iota in E.
  destruct (truncate_header (UDMsg_get_bytes msg) UDReceiver_HEADER) as [hb|]; [|injection E as <- <- _ _; by rewrite app_nil_r].
  apply io_bind_Ret in E as (h & w2 & _ & E).
  destruct (truncate_header hb _ ≫= _) as [args|]; [|injection E as <- <- _ _; by rewrite app_nil_r].
  apply io_bind_Ret in E as ([[e s1] m1] & w3 & E1 & E).
  assert (Ht : transport s1 = t).
  { unfold dispatch in E1. destruct (marker h); [by injection E1 as _ <- _ _| | |by injection E1 as _ <- _ _|done].
    - by apply handle_connect_transport in E1.
    - by apply handle_request_transport in E1. }
  destruct e as [e|]; [injection E as <- <- _ _; by rewrite app_nil_r, Ht|].
  apply io_bind_Ret in E as ([r2 s2] & w4 & E2 & E). unfold post_msg_buf in E2. rewrite Ht in E2.
  apply io_bind_Ret in E2 as ([r3 t3] & w5 & E3 & E2). injection E2 as <- <- <-.
  unfold post_recv_buf in E3. apply io_bind_Ret in E3 as ([|] & w6 & _ & E3); injection E3 as <- <- <-;
    injection E as <- <- _ _; cbn; by rewrite ?app_nil_r.
Qed.

(** A request of a session that is not connected. *)
Lemma RPCHook_poll_not_connected fuel m hook w id rpc_id args req t w0 :
  hook_sessions hook !! id = None → is_u64 id → is_u64 rpc_id → is_u64 (Z.of_nat (length args)) →
  poll (transport hook) w = Ret ((Ok (Ready req), t), w0) →
  received m (msg_bytes req) (gen_call_stub id rpc_id (Z.of_nat (length args))) args →
  RPCHook_poll fuel m hook w = Ret ((Err HookNotConnected, hook_set_transport hook t, m), w0).
Proof.
  intros Hn Hid Hrpc Hlen Ep Hrec.
  destruct (received_parts m (msg_bytes req) _ args Hrec) as (Et & Eh & (rest & E1 & E2) & _); [done|done|]. cbn [payload gen_call_stub] in E2.
  unfold RPCHook_poll. step Ep. unfold UDMsg_get_bytes. rewrite Et. pure Eh. rewrite E1.
  cbn [mbind option_bind payload gen_call_stub marker]. rewrite E2.
  rewrite (io_bind_run _ _ _ (Some HookNotConnected, hook_set_transport hook t, m) w0); [done|].
  unfold dispatch, handle_request. cbn [get_call_stub meta gen_call_stub cs_session_id hook_sessions hook_set_transport]. by rewrite Hn.
Qed.
End Calls.

(** ** On the reference machine *)
Lemma ref_datagrams : datagrams_queue (W := ref_machine).
Proof.
  intros qp ep mr range id sig w. eexists (Ok ()), _. split; [done|]. exists (ref_Wr (WRITE, Some ep, mr, range, sig, (0, 0)%Z)).
  split; [done|]. cbn. unfold ref_outstanding. rewrite ref_queue_log, ref_queue_post, decide_True by done. by rewrite fmap_app.
Qed.

Lemma ref_retire_unsignaled q : ref_retire q = None → nsig (ref_Wr <$> q) = 0.
Proof.
  induction q as [|u q IH]; [done|]. cbn [ref_retire]. destruct (ref_signaled u) eqn:Eu; [done|].
  destruct (ref_retire q) as [[]|]; [done|]. intros _.
  change (ref_Wr <$> u :: q) with ([ref_Wr u] ++ (ref_Wr <$> q)). by rewrite nsig_app, nsig_one, ref_Wr_signaled, Eu, IH.
Qed.

Lemma ref_LiveCard : LiveCard (W := ref_machine) (λ w, ref_alive w = true) (λ _, 0) 0.
Proof.
  split; [done| |by intros qp ep mr range id sig w r w' Hl [= _ <-]|by intros qp mr range addr w r w' Hl [= _ <-]|].
  - intros qp w r w' Hl. cbn. unfold ref_poll. rewrite Hl. destruct (ref_retire (ref_queue w qp)) as [[retired rest]|] eqn:E.
    + intros [= <- <-]. split_and!; [done|eauto|done].
    + intros [= <- <-]. split_and!; [done|eauto|]. intros _. left. by apply ref_retire_unsignaled.
  - intros qp w r w' Hl. cbn. unfold ref_poll_recv. destruct (ref_arrived w qp); [by intros [= _ <-]|].
    destruct (ref_recv_queue w qp); by intros [= _ <-].
Qed.

#[export] Instance ref_UdCm : UdCm ref_machine := {|
  SaPath := Z; CMError := (); ControlpathError := (); DatagramEndpointQuerier := Z;
  resolve_inner := λ _ service port _ w, Ret (Ok (service + port)%Z, w);
  querier_create := λ _ port w, Ret (Ok port, w);
  querier_query := λ _ service qd _ w, Ret (Ok (service + qd)%Z, w) |}.

(** A buffer of 512 bytes, and a session with it to the end point [ep]. *)
Definition ref_buf (p : Z) : UDMsg ref_machine := mkUDMsg (kr := ref_KRdmaKit) (p, 512)%Z (mkBytesMut p 512) 0.
Definition ref_session (qp ep p : Z) : UDSession ref_machine * UDMsg ref_machine :=
  (mkUDSession (kr := ref_KRdmaKit) ep (mkUDDatagram (kr := ref_KRdmaKit) qp 0), ref_buf p).

(** A callback that reads a word and answers with the next one. *)
Definition next_word : Callback ref_machine := λ input output m,
  r ← lift (memcpy_deserialize Z (H := pod_u64) m input);
  '(_, v) ← lift (unwrap r);
  '(n, m) ← lift (memcpy_serialize (H := pod_u64) m output (v + 1)%Z);
  n ← lift (unwrap n);
  mret (n, m).

Definition ref_receiver (qp : Z) (bufs : list (UDMsg ref_machine)) : UDReceiver ref_machine :=
  mkUDReceiver (kr := ref_KRdmaKit) 1 (mkUDDatagram (kr := ref_KRdmaKit) qp 0) bufs.

Definition ref_hook : RPCHook ref_machine :=
  mkRPCHook (kr := ref_KRdmaKit) {[4%Z := next_word]} (mkUDDatagram (kr := ref_KRdmaKit) 7%Z 0)
    (mkUDFactory (kr := ref_KRdmaKit) tt) (ref_receiver 7 [ref_buf 1024])
    {[1%Z := ref_session 7 21 0; 2%Z := ref_session 7 22 512]} RPCAnalysis_new.

Definition ref_caller : Caller ref_machine :=
  mkCaller (kr := ref_KRdmaKit) (ref_receiver 5 [ref_buf 512]) {[8%Z := ref_session 5 31 0]}.

Lemma ref_window K qp ss : (0 < K)%Z →
  map_Forall (λ _ x, ss_qp (kr := ref_KRdmaKit) x.1 = qp ∧ get_pending_reqs x.1 = 0%Z) ss →
  window_inv (W := ref_machine) K qp ss ref_boot.
Proof.
  intros HK Hss. split.
  - intros id s msg Hs. destruct (Hss _ _ Hs) as [<- Hp]. cbn in Hp. rewrite Hp. split; [done|lia].
  - transitivity 0; [done|]. symmetry. apply map_size_empty_iff, map_empty. intros id. apply map_lookup_filter_None. right.
    intros x Hx. unfold busy. cbn. destruct (Hss _ _ Hx) as [_ ->]. lia.
Qed.

Lemma ref_buf_ok p m : alloc m 0 1536 → (8 | p)%Z → (0 ≤ p ≤ 1024)%Z → buf_ok m (msg_bytes (ref_buf p)).
Proof. intros Ha Hp Hr. split_and!; [|done|done]. cbn [ref_buf msg_bytes bm_ptr bm_len]. eapply alloc_sub; [exact Ha|lia|lia]. Qed.

Definition ref_memory0 : mem := zeroed 1536.

Lemma ref_memory0_alloc : alloc ref_memory0 0 1536.
Proof. apply (zeroed_alloc 1536). Qed.

Lemma ref_hook_bufs n m : alloc m 0 1536 → (n ≤ 512)%Z → bufs_ok n m (hook_sessions ref_hook).
Proof.
  intros Ha Hn. apply map_Forall_insert_2; [|apply map_Forall_singleton]; (split; [apply ref_buf_ok; [done| |lia]|cbn; lia]);
    [by exists 0%Z|by exists 64%Z].
Qed.

Lemma ref_hook_window : window_inv REPLY_WINDOW (7%Z : @QueuePair _ ref_KRdmaKit) (hook_sessions ref_hook) ref_boot.
Proof. apply ref_window; [done|]. apply map_Forall_insert_2; [done|]. by apply map_Forall_singleton. Qed.

Lemma replies_never_stall_witness :
  ∃ rs self' m' w', run_replies (rl := word_RpcLayout) 1 ref_memory0 ref_hook
      ((λ k, (Z.of_nat (k mod 3), ReplyOk, 64%Z)) <$> seq 0 20) ref_boot = Ret ((rs, self', m'), w') ∧
    window_inv REPLY_WINDOW (7%Z : @QueuePair _ ref_KRdmaKit) (hook_sessions self') w'.
Proof.
  destruct (replies_never_stall (rl_ok := word_RpcLayoutOk) ref_datagrams ref_LiveCard 1 7%Z ref_memory0 ref_hook ref_boot
    ((λ k, (Z.of_nat (k mod 3), ReplyOk, 64%Z)) <$> seq 0 20)) as (rs & self' & m' & w' & E & _ & Hw).
  - apply ref_hook_window.
  - done.
  - lia.
  - apply ref_hook_bufs; [apply ref_memory0_alloc|done].
  - apply Forall_fmap, Forall_true. cbn. lia.
  - exists rs, self', m', w'. split; [exact E|exact Hw].
Defined.

Lemma ref_caller_window : window_inv CALL_WINDOW (5%Z : @QueuePair _ ref_KRdmaKit) (caller_sessions ref_caller) ref_boot.
Proof. apply ref_window; [done|]. by apply map_Forall_singleton. Qed.

Lemma ref_caller_bufs n m : alloc m 0 1536 → (n ≤ 512)%Z → bufs_ok n m (caller_sessions ref_caller).
Proof. intros Ha Hn. apply map_Forall_singleton. split; [apply ref_buf_ok; [done|by exists 0%Z|lia]|cbn; lia]. Qed.

Lemma calls_never_stall_witness :
  ∃ rs self' m' w', run_calls (rl := word_RpcLayout) (H := pod_u64) 1 ref_memory0 ref_caller
      (replicate 20 (8, 6, 4, 41)%Z) ref_boot = Ret ((rs, self', m'), w') ∧ length rs = 20 ∧
    window_inv CALL_WINDOW (5%Z : @QueuePair _ ref_KRdmaKit) (caller_sessions self') w'.
Proof.
  destruct (calls_never_stall (rl_ok := word_RpcLayoutOk) ref_datagrams ref_LiveCard (ok := int_Pod_ok 8 (Nat.lt_0_succ 7)) 1 5%Z
    ref_memory0 ref_caller ref_boot (replicate 20 (8, 6, 4, 41)%Z)) as (rs & self' & m' & w' & E & Hl & Hw).
  - done.
  - apply ref_caller_window.
  - done.
  - lia.
  - apply ref_caller_bufs; [apply ref_memory0_alloc|done].
  - by apply Forall_replicate.
  - exists rs, self', m', w'. split; [exact E|]. split; [exact Hl|exact Hw].
Defined.

(** The bytes sent, put where the card would put them. *)
Definition ref_wire (m : mem) (src : Z) (n : nat) (m2 : mem) (b : BytesMut) : mem :=
  default m2 (load m src n ≫= store m2 (bm_ptr b + UDReceiver_HEADER)).

Lemma load_alloc m p n : alloc m p (Z.of_nat n) → ∃ bs, load m p n = Some bs ∧ length bs = n ∧ at_mem m p bs.
Proof.
  revert p. induction n as [|n IH]; intros p Ha; [exists []; by repeat split|].
  destruct (Ha p) as [b Hb]; [lia|]. destruct (IH (p + 1)%Z) as (bs & E & Hl & Hat).
  { intros q Hq. apply Ha. lia. }
  exists (b :: bs). cbn. rewrite Hb. cbn. rewrite E, Hl. split_and!; [done|done|].
  intros [|i] x Hi; cbn in Hi; [injection Hi as <-; by rewrite Z.add_0_r|].
  replace (p + Z.of_nat (S i))%Z with (p + 1 + Z.of_nat i)%Z by lia. by apply Hat.
Qed.

Lemma ref_wire_ok m src sz m2 b :
  (0 ≤ sz)%Z → alloc m src sz → alloc m2 (bm_ptr b) (bm_len b) → (8 | bm_ptr b)%Z → (UDReceiver_HEADER + sz ≤ bm_len b)%Z →
  wire m src sz (ref_wire m src (Z.to_nat sz) m2 b) b ∧
  frame m2 (ref_wire m src (Z.to_nat sz) m2 b) (bm_ptr b) (bm_len b).
Proof.
  intros H0 Ha Hb H8 Hlen. unfold ref_wire, UDReceiver_HEADER in *.
  destruct (load_alloc m src (Z.to_nat sz)) as (bs & E & Hl & Hat); [by rewrite Z2Nat.id|]. rewrite E. cbn [mbind option_bind].
  destruct (store_ok m2 (bm_ptr b + 40)%Z bs) as (m' & Es & Hat' & Hf); [eapply alloc_sub; [exact Hb|lia|lia]|].
  rewrite Es. cbn [default]. split; [|eapply frame_weaken; [exact Hf|lia|lia]]. exists bs. unfold UDReceiver_HEADER. split_and!; try done. lia.
Qed.

Lemma next_word_answers v :
  is_u64 (v + 1) → is_u64 v →
  answers (W := ref_machine) (live := λ w, ref_alive w = true) {[4%Z := next_word]} 4 (to_bytes (Pod := pod_u64) v)
    (λ ans, ans = Some (to_bytes (Pod := pod_u64) (v + 1)%Z)).
Proof.
  intros Hv1 Hv input output m w Hl Hat Hlen H8 Hb Hfit. specialize (Hfit _ eq_refl). cbn [answer_len] in Hfit.
  pose proof Hb as (Hal & Hb8 & _). pose proof (int_Pod_ok 8 (Nat.lt_0_succ 7)) as Hok.
  pose proof (memcpy_deserialize_ok (pod_ok := Hok) (Z.divide_refl 8) m input v Hv H8 Hat) as Ed.
  destruct (memcpy_serialize_ok (pod_ok := Hok) (Z.divide_refl 8) m output (v + 1)%Z Hal Hb8) as (m' & Es & Hat' & Hf).
  { by rewrite to_bytes_length in Hfit. }
  exists (Some (to_bytes (Pod := pod_u64) (v + 1)%Z)), m', w. split; [done|]. split.
  - unfold Service_execute. change (({[4%Z := next_word]} : Service ref_machine) !! 4%Z) with (Some next_word). cbv beta iota.
    rewrite (io_bind_run _ _ _ (8%Z, m') w); [done|].
    unfold next_word. rewrite (io_lift_run _ _ _ (Some (8%Z, v))); [|apply Ed; by rewrite Hlen].
    rewrite (io_lift_run (unwrap (Some _)) _ _ _ eq_refl). cbv beta iota. pure Es. done.
  - split_and!; [|done|done|done]. change (8 ≤ bm_len output)%Z in Hfit. eapply frame_weaken; [exact Hf|lia|cbn; lia].
Qed.

(** The hook of the example when the datagram of a call has come in. *)
Definition ref_called : ref_machine := ref_set_rq {[7%Z := [(1024, 512)]%Z]} {[7%Z := 1]} ref_boot.
Definition ref_replied : ref_machine := ref_set_rq {[5%Z := [(512, 512)]%Z]} {[5%Z := 1]} ref_boot.

Lemma ref_hook_ready m Q : alloc m 0 1536 → (∀ ans, Q ans → answer_len ans ≤ 472)%Z →
  hook_ready (rl := word_RpcLayout) (live := λ w, ref_alive w = true) m ref_hook ref_called (7%Z : @QueuePair _ ref_KRdmaKit)
    1 (ref_session 7 21 0).1 (ref_buf 0) Q.
Proof.
  intros Ha HQ. split; [| |by apply ref_hook_bufs| | |done|].
  - split; [apply ref_hook_window|apply (wi_due _ _ _ _ ref_hook_window)].
  - done.
  - apply lookup_insert_eq.
  - intros ans Hans. specialize (HQ ans Hans). cbn. lia.
  - by intros c Hc; vm_compute in Hc.
Qed.

Lemma at_mem_alloc m p bs n : at_mem m p bs → n = Z.of_nat (length bs) → alloc m p n.
Proof.
  intros Hat -> q Hq. destruct (lookup_lt_is_Some_2 bs (Z.to_nat (q - p))) as [b Hb]; [lia|].
  exists b. rewrite <- (Hat _ _ Hb). f_equal. lia.
Qed.

(** What the example's call leaves in the buffer of its session. *)
Lemma ref_call_sent rpc v r c' m' w' :
  sync_call (rl := word_RpcLayout) (H := pod_u64) 1 ref_memory0 ref_caller 8 1 rpc v ref_boot = Ret ((r, c', m'), w') →
  alloc m' 0 48.
Proof.
  intros E. destruct (sync_call_ok (rl_ok := word_RpcLayoutOk) ref_datagrams ref_LiveCard (ok := int_Pod_ok 8 (Nat.lt_0_succ 7)) 1 5%Z
    ref_memory0 ref_caller ref_boot 8 (ref_session 5 31 0).1 (ref_buf 0) 1 rpc v) as (r1 & s1 & m1 & w1 & w2 & E1 & _ & Hat & _);
    [done|apply ref_caller_window|done|lia|apply lookup_singleton_eq|apply ref_caller_bufs; [apply ref_memory0_alloc|done]|].
  pose proof (eq_trans (eq_sym E) E1) as H. injection H as _ _ -> _. eapply at_mem_alloc; [exact Hat|]. by vm_compute.
Qed.

Definition ref_sent_log (qp : @QueuePair _ ref_KRdmaKit) (w : ref_machine) : list (Wr ref_machine) :=
  ref_Wr <$> default [] (ref_sent w !! (qp : Z)).

Lemma ref_SentLog : SentLog ref_sent_log.
Proof.
  split.
  - intros qp ep mr range id sig w r w' [= <- <-]. eexists. split; [|unfold ref_sent_log; cbn; rewrite lookup_insert_eq; cbn; by rewrite fmap_app]. done.
  - intros qp n w r w' qp' E. cbn in E. unfold ref_poll in E. repeat case_match; by injection E as _ <-.
  - by intros qp mr range addr w r w' qp' [= _ <-].
  - intros qp n w r w' qp' E. cbn in E. unfold ref_poll_recv in E. repeat case_match; by injection E as _ <-.
Qed.

Lemma next_word_silent : silent (sent := ref_sent_log) {[4%Z := next_word]} 4.
Proof.
  intros input output m w x w' qp E. unfold Service_execute in E.
  change (({[4%Z := next_word]} : Service ref_machine) !! 4%Z) with (Some next_word) in E. cbv beta iota in E.
  apply io_bind_Ret in E as ([n m1] & w1 & E1 & E). injection E as _ <-. unfold next_word in E1. inv_io E1.
  destruct a0 as [? v]. apply io_bind_Ret in E1 as ([] & w3 & E2 & E1). inv_io E1. injection E1 as _ _ <-.
  unfold lift in *. repeat case_match; simplify_eq; done.
Qed.

Lemma ref_call_ok r c' m' w' :
  sync_call (rl := word_RpcLayout) (H := pod_u64) 1 ref_memory0 ref_caller 8 1 4 41%Z ref_boot = Ret ((r, c', m'), w') → r = Ok ().
Proof.
  intros E. assert (H : match sync_call (rl := word_RpcLayout) (H := pod_u64) 1 ref_memory0 ref_caller 8 1 4 41%Z ref_boot with
    | Ret ((Ok (), _, _), _) => True | _ => False end) by (vm_compute; exact I).
  rewrite E in H. clear E. by destruct r as [[]|].
Qed.

Lemma remote_call_witness :
  ∃ c' m' w' u sig, sync_call (rl := word_RpcLayout) (H := pod_u64) 1 ref_memory0 ref_caller 8 1 4 41%Z ref_boot = Ret ((Ok (), c', m'), w') ∧
    ref_sent_log 5%Z w' = [u] ∧ is_datagram (kr := ref_KRdmaKit) 31%Z (0, 512)%Z (0, 48)%Z sig u ∧
  ∃ res hook' ms' ws' u' sig', RPCHook_poll (rl := word_RpcLayout) 1
      (ref_wire m' 0 48 ref_memory0 (msg_bytes (ref_buf 1024))) ref_hook ref_called = Ret ((res, hook', ms'), ws') ∧
    ref_sent_log 7%Z ws' = [u'] ∧ is_datagram (kr := ref_KRdmaKit) 21%Z (0, 512)%Z (0, 48)%Z sig' u' ∧
  ∃ b c2 w3, Caller_poll (rl := word_RpcLayout) (ref_wire ms' 0 48 ref_memory0 (msg_bytes (ref_buf 512))) ref_caller ref_replied =
      Ret ((Ok (Ready (ref_buf 512, b)), c2), w3) ∧
    at_mem (ref_wire ms' 0 48 ref_memory0 (msg_bytes (ref_buf 512))) (bm_ptr b) (le_bytes 8 42).
Proof.
  destruct (remote_call (rl_ok := word_RpcLayoutOk) ref_datagrams ref_LiveCard ref_SentLog (ok := int_Pod_ok 8 (Nat.lt_0_succ 7)) 1 5%Z
    ref_memory0 ref_caller ref_boot 8 (ref_session 5 31 0).1 (ref_buf 0) 1 4 41%Z) as (r & c' & m' & w' & E & _ & Hr);
    [done|done|done|apply ref_caller_window|done|lia|apply lookup_singleton_eq|done|apply ref_caller_bufs; [apply ref_memory0_alloc|done]|].
  pose proof (ref_call_ok _ _ _ _ E) as ->. destruct Hr as (u & sig & Hs & Hu & Hcall).
  exists c', m', w', u, sig. split; [exact E|]. split; [exact Hs|]. split; [exact Hu|]. pose proof (ref_call_sent _ _ _ _ _ _ E) as Ha.
  destruct (ref_wire_ok m' 0 48 ref_memory0 (msg_bytes (ref_buf 1024))) as [Hwire Hf];
    [done|exact Ha|apply ref_buf_ok; [apply ref_memory0_alloc|by exists 128%Z|lia]|by exists 128%Z|done|].
  assert (Hv : is_u64 41 ∧ is_u64 42) by (unfold is_u64; lia). destruct Hv as [Hv Hv1].
  assert (HQ : ∀ ans, ans = Some (to_bytes (Pod := pod_u64) 42%Z) → (answer_len ans ≤ 472)%Z) by (by intros ans ->).
  destruct (Hcall 7%Z _ ref_hook ref_called (ref_buf 1024) (ref_receiver 7 []) (ref_set_rq {[7%Z := []]} {[7%Z := 0]} ref_boot)
    (ref_session 7 21 0).1 (ref_buf 0) _ (ref_hook_ready _ _ (frame_alloc_range _ _ _ _ _ _ Hf ref_memory0_alloc) HQ) eq_refl
    (next_word_answers 41 Hv1 Hv) next_word_silent eq_refl) as (ans & res & hook' & ms' & ws' & -> & Es & _ & Hat & Hrep).
  { unfold delivered. destruct Hu as [_ _ -> -> _]. exact Hwire. }
  destruct Hrep as [(e & id & sg & w1 & w2 & Ee & _)|(u' & sig' & Hs' & Hu' & Hrep)]; [discriminate Ee|].
  exists res, hook', ms', ws', u', sig'. split; [exact Es|]. split; [exact Hs'|]. split; [exact Hu'|].
  destruct (ref_wire_ok ms' 0 48 ref_memory0 (msg_bytes (ref_buf 512))) as [Hwire2 _];
    [done|eapply at_mem_alloc; [exact Hat|by vm_compute]|apply ref_buf_ok; [apply ref_memory0_alloc|by exists 64%Z|lia]|by exists 64%Z|done|].
  destruct (Hrep (ref_wire ms' 0 48 ref_memory0 (msg_bytes (ref_buf 512))) ref_caller ref_replied (ref_buf 512) (ref_receiver 5 [])
    (ref_set_rq {[5%Z := []]} {[5%Z := 0]} ref_boot) eq_refl) as (b & Ec & _ & Hb).
  { unfold delivered. destruct Hu' as [_ _ -> -> _]. exact Hwire2. }
  exists b. eexists _, _. split; [exact Ec|exact Hb].
Defined.

Lemma hook_error_loses_buffer_witness :
  ∃ m hook' w', RPCHook_poll (rl := word_RpcLayout) 1 m ref_hook ref_called = Ret ((Err HookNotConnected, hook', m), w') ∧
    msg_queues (transport ref_hook) = [ref_buf 1024] ∧ msg_queues (transport hook') = [].
Proof.
  destruct (store_ok ref_memory0 1064 (to_bytes (Pod := header_Pod (RpcLayout := word_RpcLayout)) (gen_call_stub 9 4 0) ++ []))
    as (m & _ & Hat & _); [eapply alloc_sub; [apply ref_memory0_alloc|done|done]|].
  assert (E : RPCHook_poll (rl := word_RpcLayout) 1 m ref_hook ref_called =
    Ret ((Err HookNotConnected, hook_set_transport ref_hook (ref_receiver 7 []), m), ref_set_rq {[7%Z := []]} {[7%Z := 0]} ref_boot)).
  { apply (RPCHook_poll_not_connected (rl_ok := word_RpcLayoutOk) 1 m ref_hook ref_called 9 4 [] (ref_buf 1024)); [done|done|done|done|done|].
    split_and!; [exact Hat|by exists 128%Z|done]. }
  exists m, (hook_set_transport ref_hook (ref_receiver 7 [])), (ref_set_rq {[7%Z := []]} {[7%Z := 0]} ref_boot). split; [exact E|]. split; [done|].
  assert (Hinv : ReceiverInv (transport ref_hook) ref_called) by (by vm_compute).
  destruct (hook_error_loses_buffer (rl := word_RpcLayout) 1 m ref_hook ref_called (ref_buf 1024) (ref_receiver 7 [])
    (ref_set_rq {[7%Z := []]} {[7%Z := 0]} ref_boot) [ref_buf 1024] _ _ _ _ Hinv eq_refl eq_refl E) as (later & H1 & H2).
  injection H1 as <-. exact H2.
Defined.
