(* ===== verification/RemotePaging.v ===== *)
(** * Reading remote pages ([mitosis/src/remote_paging.rs], [dc_pool.rs], [descriptors/child.rs])

    A page fault of a resumed process is served by one-sided reads: the core's
    queue pair is taken from the pool of DC connections, a read of the parent's
    physical page is posted, and its completion awaited under a timeout.  The
    theorems say when the data of the page that is handed out has arrived, what
    is left in flight when the read fails, and that no page is leaked. *)

From S2P Require Import Prelude Future Rdma Machine PageStructures PageHeap RemotePageTable Bytes Descriptors ParentWire ChildWire Datagram.

(** ** Connections and addresses *)
Section RemotePaging.
Context {W : Type} {kt : KTimerApi W} {kr : KRdmaKit W} {kn : Kernel W} {x86 : X86Crate}.

(** [dc_pool.rs]: the lock around a connection serializes the calls of one
    core, which are modelled in the order they take it. *)
Record DCPool := mkDCPool { dc_conns : list DCConn; nic_idxs : list Z }.

Definition get_dc_qp (self : DCPool) (idx : Z) : option DCConn := dc_conns self !! Z.to_nat idx.
Definition get_ctx_id (self : DCPool) (idx : Z) : option Z := nic_idxs self !! Z.to_nat idx.

(** [Vec::pop] and [Vec::push] *)
Definition pop_one_qp (self : DCPool) : option DCConn * DCPool :=
  (last (dc_conns self), mkDCPool (take (length (dc_conns self) - 1) (dc_conns self)) (nic_idxs self)).
Definition push_one_qp (self : DCPool) (qp : DCConn) : DCPool :=
  mkDCPool (dc_conns self ++ [qp]) (nic_idxs self).

(** [os-network/src/rdma/dc.rs] *)
Record DCFactory := mkDCFactory { rctx : Context_t }.

(** [lib.rs] *)
Definition random_select_dc_factory_on_core (dc_factories : list DCFactory) : io W (option DCFactory) :=
  pool_idx ← pmem_get_current_cpu;
  if decide (length dc_factories = 0) then panic
  else mret (dc_factories !! Z.to_nat (pool_idx mod Z.of_nat (length dc_factories))).

Record AccessInfo := mkAccessInfo { access_handler : DatagramEndpoint; ai_rkey : Z; ai_mac_id : Z }.

Definition AccessInfo_new_with_port (dc_factories : list DCFactory) (descriptor : RDMADescriptor)
    (local_port : Z) : io W (option AccessInfo) :=
  factory ← random_select_dc_factory_on_core dc_factories;
  match factory with
  | None => mret None
  | Some factory =>
      endpoint ← endpoint_new (rctx factory) local_port (lid descriptor) (gid descriptor) 0 0
        (dct_num descriptor) (dct_key descriptor);
      match endpoint with
      | None => mret None
      | Some endpoint => mret (Some (mkAccessInfo endpoint (Descriptors.rkey descriptor) (mac_id descriptor)))
      end
  end.

Definition AccessInfo_new (dc_factories : list DCFactory) (descriptor : RDMADescriptor) :
    io W (option AccessInfo) := AccessInfo_new_with_port dc_factories descriptor 1.

(** ** [RemotePagingService], build without [use_rc] *)
Definition TIMEOUT_USEC : Z := 1000000.

(** Waiting for a device under a timeout; [fuel] bounds the polls. *)
Definition remote_read (fuel : nat) (pool : DCPool) (dst src sz : Z) (access_info : AccessInfo) :
    io W (Result () RdmaErr) :=
  pool_idx ← pmem_get_current_cpu;
  dc_qp ← lift (unwrap (get_dc_qp pool pool_idx));
  let remote_device := mkDCRemoteDevice (DCConn_clone dc_qp) in
  r ← DCRemoteDevice_read remote_device (access_handler access_info) (PhysAddr_decode src)
        (mkMemoryKeys (ai_rkey access_info)) dst sz;
  match r with
  | Err e => mret (Err (EDatapath e))
  | Ok _ =>
      timeout_device ← Timeout_new remote_device TIMEOUT_USEC;
      '(r, _) ← block_on fuel timeout_device;
      match r with
      | Ok _ => mret (Ok ())
      | Err e =>
          if is_elapsed e then mret (Err (EDatapath TimeoutError))
          else e ← lift (unwrap (into_inner e)); mret (Err e)
      end
  end.

(** [rpc_handlers.rs]: the reply that locates a parent's descriptor *)
Record DescriptorLookupReply := mkDescriptorLookupReply {
  r_pa : Z;
  r_sz : Z;
  r_ready : bool;
  r_rkey : Z;
  r_lid : Z;
  r_gid : Z * Z;
  r_dct_num : Z;
  r_dc_key : Z }.

Definition remote_descriptor_fetch (fuel : nat) (pool : DCPool) (d : DescriptorLookupReply) :
    io W (Result (UDMsg W) RdmaErr) :=
  pool_idx ← pmem_get_current_cpu;
  dc_qp ← lift (unwrap (get_dc_qp pool pool_idx));
  descriptor_buf ← UDMsg_new (r_sz d) 0 (qp_ctx (dc dc_qp));
  point ← endpoint_new (qp_ctx (dc dc_qp)) 1 (r_lid d) (r_gid d) 0 0 (r_dct_num d) (r_dc_key d);
  point ← lift (unwrap point);
  let remote_device := mkDCRemoteDevice (DCConn_clone dc_qp) in
  r ← DCRemoteDevice_read remote_device point (r_pa d) (mkMemoryKeys (r_rkey d))
        (UDMsg_get_pa descriptor_buf) (r_sz d);
  match r with
  | Err e => mret (Err (EDatapath e))
  | Ok _ =>
      timeout_device ← Timeout_new remote_device (10 * TIMEOUT_USEC);
      '(r, _) ← block_on fuel timeout_device;
      match r with
      | Ok _ => mret (Ok descriptor_buf)
      | Err e =>
          if is_elapsed e then panic
          else e ← lift (unwrap (into_inner e)); mret (Err e)
      end
  end.

(** ** [ChildDescriptor::read_remote_page], build without [prefetch] *)
Definition read_remote_page (fuel : nat) (pool : DCPool) (h : heap) (self : ChildDescriptor)
    (remote_va : Z) (access_info : AccessInfo) : io W (option Z) :=
  remote_pa ← lift (lookup_pg_table h self remote_va);
  match remote_pa with
  | None => mret None
  | Some remote_pa =>
      new_page_p ← pmem_alloc_page PMEM_GFP_HIGHUSER;
      let new_page_pa := pmem_page_to_phy new_page_p in
      res ← remote_read fuel pool new_page_pa remote_pa 4096 access_info;
      match res with
      | Ok _ => mret (Some new_page_p)
      | Err _ => pmem_free_page new_page_p ≫= λ _, mret None
      end
  end.
End RemotePaging.
Arguments DCPool W {kr}.
Arguments AccessInfo W {kr}.
Arguments DCFactory W {kr}.

(** ** Lemmas *)
Section RemotePagingLemmas.
Context {W : Type} {kt : KTimerApi W} {kt_ok : KTimerOk W} {kr : KRdmaKit W} {nic : NicOk W}.
Context {kn : Kernel W} {kn_ok : KernelOk W}.

(** What the connections' devices have in common: [dev_qp] is the queue pair
    under the device. *)
Class CardDevice {D : Type} {fut : Future W D ib_wc RdmaErr} (dev_qp : D → QueuePair) : Prop := {
  card_poll (dev : D) w : all_signaled (outstanding (dev_qp dev) w) → ∃ r w', poll dev w = Ret ((r, dev), w') ∧
    (ticks w ≤ ticks w')%Z ∧ dev_polled (dev_qp dev) r w w';
  card_pages (dev : D) w r dev' w' : poll dev w = Ret ((r, dev'), w') → allocated w' = allocated w }.

Lemma poll_cq_pages {C} (qp : QueuePair) (conn conn' : C) w r w' :
  (ret ← poll_send_cq qp 1;
   match ret with
   | Err e => mret (Err e, conn)
   | Ok (wc :: _) => mret (Ok (Ready wc), conn)
   | Ok [] => mret (Ok NotReady, conn)
   end) w = Ret ((r, conn'), w') → allocated w' = allocated w.
Proof.
  intros E. apply io_bind_Ret in E as (a & w1 & E & H).
  apply poll_send_cq_pages in E. rewrite <- E. destruct a as [[|wc l]|e]; by injection H as _ _ <-.
Qed.

Lemma DCConn_poll_pages (conn : DCConn) w r conn' w' :
  poll conn w = Ret ((r, conn'), w') → allocated w' = allocated w.
Proof. apply poll_cq_pages. Qed.

Lemma device_poll_pages {C D} (mk : C → D) (pollc : io W (Poll ib_wc DatapathError * C)) w r dev' w' :
  (∀ r conn' w', pollc w = Ret ((r, conn'), w') → allocated w' = allocated w) →
  ('(res, conn) ← pollc;
   match res with
   | Ok (Ready res) =>
       if (wc_status res =? 0)%Z then mret (Ok (Ready res), mk conn)
       else s ← lift (WCStatus_from (wc_status res)); mret (Err (EWC s), mk conn)
   | Ok NotReady => mret (Ok NotReady, mk conn)
   | Err e => mret (Err (EDatapath e), mk conn)
   end) w = Ret ((r, dev'), w') → allocated w' = allocated w.
Proof.
  intros Hp E. apply io_bind_Ret in E as ([a c] & w1 & E & H).
  apply Hp in E. rewrite <- E. destruct a as [[wc|]|e].
  - destruct (wc_status wc =? 0)%Z; [by injection H as _ _ <-|].
    unfold mbind, io_bind, lift in H. destruct (WCStatus_from _); [by injection H as _ _ <-|done..].
  - by injection H as _ _ <-.
  - by injection H as _ _ <-.
Qed.

#[export] Instance DC_CardDevice : CardDevice (λ dev : DCRemoteDevice, dc (dev_dc dev)).
Proof.
  split; [apply DCRemoteDevice_poll_ok|]. intros dev w r dev' w'. apply device_poll_pages.
  intros ???. apply DCConn_poll_pages.
Qed.

#[export] Instance RC_CardDevice : CardDevice (λ dev : RCRemoteDevice, rc (dev_rc dev)).
Proof.
  split; [apply RCRemoteDevice_poll_ok|]. intros dev w r dev' w'. apply device_poll_pages.
  intros ???. apply poll_cq_pages.
Qed.

(** What becomes of the requests in flight on [qp] when a read [own] is posted
    and awaited with result [r]. *)
Definition read_result (qp : QueuePair) (own : Wr W) (r : Result () RdmaErr) (w w' : W) : Prop :=
  match r with
  | Ok _ => ∃ wr rest, outstanding qp w ++ [own] = wr :: rest ∧ outstanding qp w' = rest ∧ landed wr w'
  | Err (EWC s) => s ≠ IB_WC_SUCCESS ∧
      ∃ wr rest, outstanding qp w ++ [own] = wr :: rest ∧ outstanding qp w' = rest
  | Err (EDatapath _) =>
      outstanding qp w' = outstanding qp w ∨ outstanding qp w' = outstanding qp w ++ [own]
  end.

Section CardDevice.
Context {D : Type} {fut : Future W D ib_wc RdmaErr} {dev_qp : D → QueuePair} {cd : CardDevice dev_qp}.

(** A device can be polled as long as only signaled requests are in flight. *)
#[local] Instance dev_Pollable : Pollable (λ dev w, all_signaled (outstanding (dev_qp dev) w)).
Proof.
  split.
  - intros dev w Hs. destruct (card_poll dev w Hs) as (r & w' & E & Ht & Hp).
    exists r, dev, w'. split_and!; [done..|]. intros ->. cbn in Hp. by rewrite Hp.
  - intros dev t w p w' Hs E. by rewrite (nic_timer_read _ _ _ _ _ E).
  - intros dev w t w' Hs E. by rewrite (nic_timer_new _ _ _ _ E).
Qed.

Lemma waits_outstanding d dev w dev' w' :
  waits d dev w dev' w' → all_signaled (outstanding (dev_qp dev) w) →
  dev' = dev ∧ outstanding (dev_qp dev) w' = outstanding (dev_qp dev) w ∧ allocated w' = allocated w.
Proof.
  intros Hw. induction Hw as [|dev w dev1 w1 p w2 dev' w' E1 E2 _ _ IH]; intros Hs; [done|].
  destruct (card_poll dev w Hs) as (r & w1' & E & _ & Hp). rewrite E in E1. simplify_eq.
  cbn in Hp. pose proof (nic_timer_read _ _ _ _ (dev_qp dev1) E2) as Hq.
  destruct IH as (-> & Hq' & Ha'); [by rewrite Hq, Hp|]. split; [done|]. rewrite Hq', Hq, Hp. split; [done|].
  rewrite Ha', (timer_read_pages _ _ _ _ E2). by apply (card_pages _ _ _ _ _ E).
Qed.

(** Awaiting a device under a timeout, from a queue that ends with the request. *)
Lemma await_device_ok fuel dev t w :
  all_signaled (outstanding (dev_qp dev) w) → (Z.max 0 (ticks_per_usec * t) < Z.of_nat fuel)%Z →
  ∃ r to w', (Timeout_new dev t ≫= block_on fuel) w = Ret ((r, to), w') ∧ allocated w' = allocated w ∧
    match r with
    | Ok _ => ∃ wr rest, outstanding (dev_qp dev) w = wr :: rest ∧
        outstanding (dev_qp dev) w' = rest ∧ landed wr w'
    | Err (Inner (EWC s)) => s ≠ IB_WC_SUCCESS ∧ ∃ wr rest, outstanding (dev_qp dev) w = wr :: rest ∧
        outstanding (dev_qp dev) w' = rest
    | Err (Inner (EDatapath _)) | Err Elapsed =>
        outstanding (dev_qp dev) w' = outstanding (dev_qp dev) w
    end.
Proof.
  intros Hs Hf. destruct (KTimer_new_ok w) as (tm & w0 & E0 & Ht0).
  pose proof (nic_timer_new _ _ _ (dev_qp dev) E0) as Hq0.
  destruct (block_on_timeout_ok fuel (mkDelay tm t) dev w0) as (r & v' & d' & w' & E & f1 & w1 & w2 & Hw & Hr);
    [by rewrite Hq0|unfold ticks_left; cbn; lia|lia|].
  exists r, (mkTimeout v' d'), w'. split.
  { rewrite (io_bind_run _ _ w (mkTimeout dev (mkDelay tm t)) w0); [done|].
    unfold Timeout_new, Delay_new. rewrite (io_bind_run _ _ _ (mkDelay tm t) w0); [done|].
    by rewrite (io_bind_run _ _ _ _ _ E0). }
  destruct (waits_outstanding _ _ _ _ _ Hw) as (-> & Hq1 & Ha1); [by rewrite Hq0|].
  rewrite (timer_new_pages _ _ _ E0) in Ha1. rewrite Hq0 in Hq1.
  destruct (card_poll dev w1) as (rp & w1' & Ep & _ & Hp); [by rewrite Hq1|].
  unfold dev_polled in Hp. rewrite Hq1 in Hp. destruct r as [wc|[[e|s]|]].
  - rewrite Ep in Hr. simplify_eq. rewrite (card_pages _ _ _ _ _ Ep). done.
  - rewrite Ep in Hr. simplify_eq. rewrite (card_pages _ _ _ _ _ Ep). done.
  - rewrite Ep in Hr. simplify_eq. rewrite (card_pages _ _ _ _ _ Ep). done.
  - destruct Hr as (Er & p & E2 & _). rewrite Ep in Er. simplify_eq.
    rewrite (timer_read_pages _ _ _ _ E2), (card_pages _ _ _ _ _ Ep), (nic_timer_read _ _ _ _ _ E2).
    by rewrite Hp.
Qed.
End CardDevice.

(** Every core has a queue pair in the pool. *)
Definition pool_covers (pool : DCPool W) : Prop :=
  ∀ w c, pmem_get_current_cpu w = Ret (c, w) → ∃ conn, get_dc_qp pool c = Some conn.

(** The queue pairs of the pool carry signaled requests only. *)
Definition pool_signaled (pool : DCPool W) (w : W) : Prop :=
  ∀ conn, conn ∈ dc_conns pool → all_signaled (outstanding (dc conn) w).

Lemma remote_read_ok fuel pool dst src sz ai w :
  pool_covers pool → pool_signaled pool w → (ticks_per_usec * TIMEOUT_USEC < Z.of_nat fuel)%Z →
  ∃ conn mr r w', conn ∈ dc_conns pool ∧ remote_read fuel pool dst src sz ai w = Ret (r, w') ∧
    get_virt_addr mr = bd_phys_to_virt dst ∧ allocated w' = allocated w ∧
    read_result (dc conn)
      (mkWr _ _ READ (Some (access_handler ai)) mr (0, sz)%Z true (PhysAddr_decode src) (ai_rkey ai)) r w w'.
Proof.
  intros Hpool Hsig Hf. destruct (current_cpu_ok w) as (c & Ec & _).
  destruct (Hpool w c Ec) as (conn & Hconn). assert (Hin : conn ∈ dc_conns pool) by (by eapply list_elem_of_lookup_2).
  destruct (mr_new_from_raw_ok (qp_ctx (dc conn)) (bd_phys_to_virt dst) sz) as (mr & Emr & Hva).
  set (own := mkWr _ _ READ (Some (access_handler ai)) mr (0, sz)%Z true (PhysAddr_decode src) (ai_rkey ai)).
  destruct (post_dc_read_ok (dc conn) (access_handler ai) mr (0, sz)%Z true (PhysAddr_decode src) (ai_rkey ai) w)
    as (rp & w1 & Ep & _ & Hq & _).
  exists conn, mr. unfold remote_read. rewrite (io_bind_run _ _ _ _ _ Ec), Hconn.
  change ((lift (unwrap (Some conn)) ≫= ?f) w) with (f conn w). cbv beta zeta.
  assert (Er : DCRemoteDevice_read (mkDCRemoteDevice (DCConn_clone conn)) (access_handler ai) (PhysAddr_decode src)
    (mkMemoryKeys (ai_rkey ai)) dst sz w = Ret (rp, w1)).
  { unfold DCRemoteDevice_read. cbn [dev_dc DCConn_clone dc]. rewrite Emr. exact Ep. }
  rewrite (io_bind_run _ _ _ _ _ Er). destruct rp as [[]|e].
  - fold own in Hq. destruct (await_device_ok fuel (mkDCRemoteDevice (DCConn_clone conn)) TIMEOUT_USEC w1)
      as (r & to & w' & Ew & Ha & Hr).
    { cbn [dev_dc DCConn_clone dc]. rewrite Hq. apply Forall_app. split; [by apply Hsig|]. by apply Forall_singleton. }
    { unfold TIMEOUT_USEC in *. pose proof ticks_per_usec_pos. lia. }
    cbn [dev_dc DCConn_clone dc] in Hr. rewrite Hq in Hr. rewrite (post_dc_read_pages _ _ _ _ _ _ _ _ _ _ Ep) in Ha.
    apply io_bind_Ret in Ew as (to0 & w2 & E2 & E3). rewrite (io_bind_run _ _ _ _ _ E2), (io_bind_run _ _ _ _ _ E3).
    destruct r as [wc|[[e|s]|]].
    + by exists (Ok ()), w'.
    + exists (Err (EDatapath e)), w'. split_and!; [done..|]. by right.
    + by exists (Err (EWC s)), w'.
    + exists (Err (EDatapath TimeoutError)), w'. split_and!; [done..|]. by right.
  - exists (Err (EDatapath e)), w1. split_and!; [done|done|done|by eapply post_dc_read_pages|].
    left. by rewrite Hq, app_nil_r.
Qed.
End RemotePagingLemmas.

Section RemotePagingProperties.
Context {W : Type} {kt : KTimerApi W} {kt_ok : KTimerOk W} {kr : KRdmaKit W} {nic : NicOk W}.
Context {kn : Kernel W} {kn_ok : KernelOk W}.

(** The request a read of [sz] bytes at [src] into [mr] puts on the wire: the
    flag bits of the page-table entry are taken off the address. *)
Definition read_request (ai : AccessInfo W) (mr : MemoryRegion) (src sz : Z) : Wr W :=
  mkWr _ _ READ (Some (access_handler ai)) mr (0, sz)%Z true (PhysAddr_decode src) (ai_rkey ai).

Definition pool_idle (pool : DCPool W) (w : W) : Prop :=
  ∀ conn, conn ∈ dc_conns pool → outstanding (dc conn) w = [].

(** On idle queue pairs a remote read ends within its timeout, and it reports
    success only when its own data has landed, leaving the queue pair idle.  A
    bad completion also leaves it idle; a timeout or a failure of the datapath
    may leave the request in flight.  Pages are neither allocated nor freed. *)
Theorem remote_read_idle fuel pool dst src sz ai w :
  pool_covers pool → pool_idle pool w → (ticks_per_usec * TIMEOUT_USEC < Z.of_nat fuel)%Z →
  ∃ conn mr r w', conn ∈ dc_conns pool ∧ remote_read fuel pool dst src sz ai w = Ret (r, w') ∧
    get_virt_addr mr = bd_phys_to_virt dst ∧ allocated w' = allocated w ∧
    match r with
    | Ok _ => landed (read_request ai mr src sz) w' ∧ outstanding (dc conn) w' = []
    | Err (EWC s) => s ≠ IB_WC_SUCCESS ∧ outstanding (dc conn) w' = []
    | Err (EDatapath _) => outstanding (dc conn) w' ∈ [[]; [read_request ai mr src sz]]
    end.
Proof.
  intros Hc Hidle Hf. destruct (remote_read_ok fuel pool dst src sz ai w Hc) as
    (conn & mr & r & w' & Hin & E & Hva & Ha & Hr); [|done|].
  { intros conn Hin. rewrite (Hidle conn Hin). constructor. }
  exists conn, mr, r, w'. split_and!; [done..|]. unfold read_result in Hr. rewrite (Hidle conn Hin) in Hr.
  destruct r as [[]|[e|s]].
  - destruct Hr as (wr & rest & [= <- <-] & Hq & Hl). done.
  - destruct Hr as [Hr|Hr]; rewrite Hr; set_solver.
  - destruct Hr as (Hs & wr & rest & [= <- <-] & Hq). done.
Qed.

(** In a state [arrived w] the completion queue of [qp] holds a good completion:
    posting a read and starting a timer do not take it out, and polling gives it.
    The card accepts the reads. *)
Record completion_arrived (qp : QueuePair) (arrived : W → Prop) : Prop := {
  ca_post ep mr range sig raddr key w r w' :
    arrived w → post_send_dc_read qp ep mr range sig raddr key w = Ret (r, w') → r = Ok () ∧ arrived w';
  ca_timer w t w' : arrived w → KTimer_new w = Ret (t, w') → arrived w';
  ca_poll w : arrived w → ∃ wc w', poll_send_cq qp 1 w = Ret (Ok [wc], w') ∧ wc_status wc = 0%Z }.

Lemma device_poll_good (conn : DCConn) w wc w' :
  poll_send_cq (dc conn) 1 w = Ret (Ok [wc], w') → wc_status wc = 0%Z →
  poll (mkDCRemoteDevice conn) w = Ret ((Ok (Ready wc), mkDCRemoteDevice conn), w').
Proof.
  intros E Hs. unfold poll, DCRemoteDevice_Future. cbn [dev_dc].
  assert (Ec : poll conn w = Ret ((Ok (Ready wc), conn), w')) by (unfold poll, DCConn_Future; by rewrite (io_bind_run _ _ _ _ _ E)).
  by rewrite (io_bind_run _ _ _ _ _ Ec), Hs.
Qed.

Lemma Timeout_new_run {T} (dev : T) t w tm w' :
  KTimer_new w = Ret (tm, w') → Timeout_new dev t w = Ret (mkTimeout dev (mkDelay tm t), w').
Proof.
  intros E. unfold Timeout_new, Delay_new. rewrite (io_bind_run _ _ w (mkDelay tm t) w'); [done|]. by rewrite (io_bind_run _ _ _ _ _ E).
Qed.

Lemma first_poll_ready {T O E} {fut : Future W T O E} fuel (v v' : T) (d : Delay W) w o w' :
  poll v w = Ret ((Ok (Ready o), v'), w') → block_on (S fuel) (mkTimeout v d) w = Ret ((Ok o, mkTimeout v' d), w').
Proof.
  intros Ev. cbn [block_on]. rewrite (io_bind_run _ _ w (Ok (Ready o), mkTimeout v' d) w'); [done|].
  unfold poll at 1, Timeout_Future. cbn [value delay]. by rewrite (io_bind_run _ _ _ _ _ Ev).
Qed.

(** C40: A read that was given up leaves its request behind, and the next read on
    the queue pair takes that request's completion for its own.  If requests are
    in flight on the connection of the current core and the completion of the
    oldest one, [stale], has arrived with a good status, then a read that the
    card accepts does report success, on the first poll: the data of [stale] has
    landed, and the read's own request is still in flight. *)
Theorem remote_read_after_timeout fuel pool dst src sz ai w c conn stale rest arrived :
  pmem_get_current_cpu w = Ret (c, w) → get_dc_qp pool c = Some conn →
  outstanding (dc conn) w = stale :: rest → all_signaled (stale :: rest) →
  completion_arrived (dc conn) arrived → arrived w → 0 < fuel →
  ∃ mr w', remote_read fuel pool dst src sz ai w = Ret (Ok (), w') ∧ get_virt_addr mr = bd_phys_to_virt dst ∧
    landed stale w' ∧ outstanding (dc conn) w' = rest ++ [read_request ai mr src sz].
Proof.
  intros Ec Hconn Hq Hsig Harr Hw Hf. destruct fuel as [|fuel]; [lia|].
  destruct (mr_new_from_raw_ok (qp_ctx (dc conn)) (bd_phys_to_virt dst) sz) as (mr & Emr & Hva).
  destruct (post_dc_read_ok (dc conn) (access_handler ai) mr (0, sz)%Z true (PhysAddr_decode src) (ai_rkey ai) w)
    as (rp & w1 & Ep & _ & Hq1 & _).
  destruct (ca_post _ _ Harr _ _ _ _ _ _ _ _ _ Hw Ep) as [-> Hw1]. fold (read_request ai mr src sz) in Hq1. rewrite Hq in Hq1.
  destruct (KTimer_new_ok w1) as (tm & w2 & Et & _). pose proof (ca_timer _ _ Harr _ _ _ Hw1 Et) as Hw2.
  destruct (ca_poll _ _ Harr w2 Hw2) as (wc & w3 & Epoll & Hwc). pose proof (device_poll_good (DCConn_clone conn) w2 wc w3 Epoll Hwc) as Edev.
  exists mr, w3. split; [|split; [done|]].
  - unfold remote_read. rewrite (io_bind_run _ _ _ _ _ Ec), Hconn. change ((lift (unwrap (Some conn)) ≫= ?f) w) with (f conn w). cbv beta zeta.
    assert (Er : DCRemoteDevice_read (mkDCRemoteDevice (DCConn_clone conn)) (access_handler ai) (PhysAddr_decode src)
      (mkMemoryKeys (ai_rkey ai)) dst sz w = Ret (Ok (), w1)).
    { unfold DCRemoteDevice_read. cbn [dev_dc DCConn_clone dc]. rewrite Emr. exact Ep. }
    rewrite (io_bind_run _ _ _ _ _ Er). rewrite (io_bind_run _ _ _ _ _ (Timeout_new_run _ _ _ _ _ Et)).
    rewrite (io_bind_run _ _ _ _ _ (first_poll_ready fuel _ _ _ _ _ _ Edev)). done.
  - destruct (DCRemoteDevice_poll_ok (mkDCRemoteDevice (DCConn_clone conn)) w2) as (r & w4 & E4 & _ & Hp).
    { cbn [dev_dc DCConn_clone dc]. rewrite (nic_timer_new _ _ _ _ Et), Hq1. apply Forall_app. split; [done|by apply Forall_singleton]. }
    rewrite E4 in Edev. injection Edev as -> ->. destruct Hp as (wr & rest' & Eq & Hq3 & Hl). cbn [dev_dc DCConn_clone dc] in *.
    rewrite (nic_timer_new _ _ _ _ Et), Hq1 in Eq. injection Eq as <- <-. done.
Qed.

Context {x86 : X86Crate}.

Lemma read_remote_page_ok fuel pool h self va ai w pa :
  pool_covers pool → pool_idle pool w → (ticks_per_usec * TIMEOUT_USEC < Z.of_nat fuel)%Z →
  size (allocated w) < mem_pages → lookup_pg_table h self va = Ret pa →
  ∃ r w', read_remote_page fuel pool h self va ai w = Ret (r, w') ∧
    match pa, r with
    | None, r => r = None ∧ w' = w
    | Some pa, r => ∃ conn p mr, conn ∈ dc_conns pool ∧ (p ∉ allocated w) ∧
        get_virt_addr mr = bd_phys_to_virt (pmem_page_to_phy p) ∧
        match r with
        | Some p' => p' = p ∧ allocated w' = {[p]} ∪ allocated w ∧
            landed (read_request ai mr pa 4096) w' ∧ outstanding (dc conn) w' = []
        | None => allocated w' = allocated w ∧
            outstanding (dc conn) w' ∈ [[]; [read_request ai mr pa 4096]]
        end
    end.
Proof.
  intros Hc Hidle Hf Hfree Hpa. unfold read_remote_page. rewrite Hpa. unfold mbind at 1, io_bind at 1, lift.
  destruct pa as [pa|]; [|by exists None, w].
  destruct (alloc_page_ok PMEM_GFP_HIGHUSER w Hfree) as (p & w1 & E1 & Hp & Ha1 & _ & _ & _ & _ & Hq1).
  rewrite (io_bind_run _ _ _ _ _ E1). cbv zeta.
  destruct (remote_read_ok fuel pool (pmem_page_to_phy p) pa 4096 ai w1 Hc) as
    (conn & mr & r & w2 & Hin & E2 & Hva & Ha2 & Hr); [|done|].
  { intros conn Hin. rewrite Hq1, (Hidle conn Hin). constructor. }
  fold (read_request ai mr pa 4096) in Hr. unfold read_result in Hr. rewrite Hq1, (Hidle conn Hin) in Hr.
  rewrite (io_bind_run _ _ _ _ _ E2). destruct r as [[]|e].
  - destruct Hr as (wr & rest & [= <- <-] & Hq & Hl). exists (Some p), w2. split; [done|].
    exists conn, p, mr. rewrite Ha2, Ha1. done.
  - destruct (free_page_ok p w2) as (w3 & E3 & Ha3 & _ & Hq3); [rewrite Ha2, Ha1; set_solver|].
    exists None, w3. split; [by rewrite (io_bind_run _ _ _ _ _ E3)|]. exists conn, p, mr.
    split_and!; [done..|rewrite Ha3, Ha2, Ha1; set_solver|]. rewrite Hq3. destruct e as [e|s].
    + destruct Hr as [Hr|Hr]; rewrite Hr; set_solver.
    + destruct Hr as (_ & wr & rest & [= <- <-] & Hq). rewrite Hq. set_solver.
Qed.

(** C8: Serving a fault when no request is in flight on any connection of the pool
    (a read that was given up leaves one behind, and then this does not hold):
    an unmapped address costs nothing; for a mapped one a page
    is handed out only when the parent's page, read at the address recorded
    without its flag bits, has landed in it; otherwise the page is given back,
    and the kernel has as many pages as before.  The request may then still be
    in flight, aimed at the page that was given back. *)
Theorem read_remote_page_result fuel pool h self va ai w pa :
  pool_covers pool → pool_idle pool w → (ticks_per_usec * TIMEOUT_USEC < Z.of_nat fuel)%Z →
  size (allocated w) < mem_pages → lookup_pg_table h self va = Ret pa →
  ∃ r w', read_remote_page fuel pool h self va ai w = Ret (r, w') ∧
    match pa, r with
    | None, r => r = None ∧ w' = w
    | Some pa, r => ∃ conn p mr, conn ∈ dc_conns pool ∧ (p ∉ allocated w) ∧
        get_virt_addr mr = bd_phys_to_virt (pmem_page_to_phy p) ∧
        match r with
        | Some p' => p' = p ∧ allocated w' = {[p]} ∪ allocated w ∧
            landed (read_request ai mr pa 4096) w' ∧ outstanding (dc conn) w' = []
        | None => allocated w' = allocated w ∧
            outstanding (dc conn) w' ∈ [[]; [read_request ai mr pa 4096]]
        end
    end.
Proof. apply read_remote_page_ok. Qed.
End RemotePagingProperties.

(** The four cores of the concrete machine share queue pair 9. *)
Definition ref_conn : DCConn := mkDCConn (kr := ref_KRdmaKit) 9%Z 0.
Definition ref_pool : DCPool ref_machine := mkDCPool (replicate 4 ref_conn) [].
Definition ref_ai : AccessInfo ref_machine := mkAccessInfo (kr := ref_KRdmaKit) 3%Z 77 0.
Definition ref_fuel : nat := Z.to_nat 1000001.

Lemma ref_pool_covers : pool_covers ref_pool.
Proof.
  intros w c [= <-]. exists ref_conn. unfold get_dc_qp.
  apply lookup_replicate. split; [done|]. pose proof (Z.mod_pos_bound (ref_cpu w) 4). lia.
Qed.

Lemma ref_pool_conn (conn : DCConn (kr := ref_KRdmaKit)) : conn ∈ dc_conns ref_pool → dc conn = 9%Z.
Proof. intros Hin. by apply elem_of_replicate in Hin as [-> _]. Qed.

Lemma ref_fuel_ok : (ticks_per_usec * TIMEOUT_USEC < Z.of_nat ref_fuel)%Z.
Proof. unfold ref_fuel. rewrite Z2Nat.id by lia. unfold TIMEOUT_USEC. cbn. lia. Qed.

Lemma remote_read_idle_witness :
  ∃ conn mr r w', conn ∈ dc_conns ref_pool ∧ remote_read ref_fuel ref_pool 640 16388 4096 ref_ai ref_boot = Ret (r, w') ∧
    get_virt_addr mr = 640%Z ∧ r = Ok () ∧ landed (read_request ref_ai mr 16388 4096) w' ∧
    outstanding (dc conn) w' = [].
Proof.
  destruct (remote_read_idle ref_fuel ref_pool 640 16388 4096 ref_ai ref_boot ref_pool_covers)
    as (conn & mr & r & w' & Hin & E & Hva & _ & Hr);
    [intros conn Hin; by rewrite (ref_pool_conn conn Hin)|apply ref_fuel_ok|].
  assert (H : match remote_read ref_fuel ref_pool 640 16388 4096 ref_ai ref_boot with
    | Ret (r, _) => r | _ => Err (EDatapath tt) end = Ok ()) by reflexivity.
  rewrite E in H. exists conn, mr, r, w'. rewrite H in Hr. done.
Defined.

(** Queue pair 9 after a read that timed out. *)
Definition ref_stale : ref_machine :=
  ref_set_sq {[9%Z := [(READ, Some 3%Z, (4096, 4096), (0, 4096), true, (8192, 77))%Z]]} [] ref_boot.

Definition ref_arrived9 (w : ref_machine) : Prop :=
  ref_alive w = true ∧ ∃ u q, ref_queue w 9 = u :: q ∧ ref_signaled u = true.

Lemma ref_completion_arrived : completion_arrived (W := ref_machine) (9%Z : @QueuePair _ ref_KRdmaKit) ref_arrived9.
Proof.
  split.
  - intros ep mr range sig raddr key w r w' [Ha (u & q & Hq & Hs)] [= <- <-]. split; [done|]. split; [done|]. exists u. eexists. split; [|done].
    unfold ref_queue at 1. cbn [ref_sq ref_log ref_set_sq]. rewrite lookup_insert_eq. cbn [default from_option id]. by rewrite Hq.
  - by intros w t w' Hw [= _ <-].
  - intros w [Ha (u & q & Hq & Hs)]. cbn. unfold ref_poll. rewrite Ha, Hq. cbn. rewrite Hs. eauto.
Qed.

Lemma remote_read_after_timeout_witness :
  ∃ mr w', remote_read ref_fuel ref_pool 640 16388 4096 ref_ai ref_stale = Ret (Ok (), w') ∧ get_virt_addr mr = 640%Z ∧
    landed (ref_Wr (READ, Some 3, (4096, 4096), (0, 4096), true, (8192, 77))%Z) w' ∧
    outstanding (9%Z : @QueuePair _ ref_KRdmaKit) w' = [read_request ref_ai mr 16388 4096].
Proof.
  apply (remote_read_after_timeout ref_fuel ref_pool 640 16388 4096 ref_ai ref_stale 0%Z ref_conn _ [] ref_arrived9);
    [done|done|done|by apply Forall_singleton|exact ref_completion_arrived| |unfold ref_fuel; lia].
  split; [done|]. by eexists _, _.
Defined.

(** A child whose table maps two pages. *)
Definition ref_child : ChildDescriptor :=
  mkChildDescriptor (regs example_parent) two_pages.2 (vma example_parent) (machine_info example_parent).

Lemma read_remote_page_result_witness :
  ∃ r w', read_remote_page (x86 := x86_reference) ref_fuel ref_pool two_pages.1 ref_child 4096 ref_ai ref_boot
      = Ret (r, w') ∧
    ∃ conn p mr, conn ∈ dc_conns ref_pool ∧ (p ∉ allocated ref_boot) ∧
      get_virt_addr mr = bd_phys_to_virt (pmem_page_to_phy p) ∧
      match r with
      | Some p' => p' = p ∧ allocated w' = {[p]} ∪ allocated ref_boot ∧
          landed (read_request ref_ai mr 40960 4096) w' ∧ outstanding (dc conn) w' = []
      | None => allocated w' = allocated ref_boot ∧
          outstanding (dc conn) w' ∈ [[]; [read_request ref_ai mr 40960 4096]]
      end.
Proof.
  apply (read_remote_page_result (x86 := x86_reference) ref_fuel ref_pool two_pages.1 ref_child 4096 ref_ai
    ref_boot (Some 40960%Z) ref_pool_covers); [|apply ref_fuel_ok|vm_compute; lia|by vm_compute].
  intros conn Hin. by rewrite (ref_pool_conn conn Hin).
Defined.
