(* ===== verification/RpcHandlers.v ===== *)
(** * The callbacks of the module ([rpc_handlers.rs], [rpc_service.rs])

    The one that matters is the lookup a resuming child makes: where does the
    serialized descriptor of a prepared process lie, and through which target of
    the parent can it be read. *)

From S2P Require Import Prelude Future Bytes Rdma Machine Datagram ParentWire Task ShadowProcess ShadowService Rpc RpcSpec RpcCall RemotePaging.

(** The layout of the reply; every field fits a word. *)
Class ReplyLayout := { reply_Pod : Pod DescriptorLookupReply }.
#[export] Existing Instance reply_Pod.

Definition reply_words (d : DescriptorLookupReply) : list Z :=
  [r_pa d; r_sz d; if r_ready d then 1 else 0; r_rkey d; r_lid d; (r_gid d).1; (r_gid d).2; r_dct_num d; r_dc_key d]%Z.

Definition reply_valid (d : DescriptorLookupReply) : Prop := Forall is_u64 (reply_words d).

Class ReplyLayoutOk {rp : ReplyLayout} : Prop := {
  reply_ok : @PodOk _ reply_Pod reply_valid;
  reply_align : @align_of _ reply_Pod = 8%Z;
  reply_nonempty : (0 < @size_of _ reply_Pod)%nat }.

Section Handlers.
Context {W : Type} {kn : Kernel W} {kr : KRdmaKit W} {cm : UdCm W}.
Context {dt : DcTargets} {rl : RpcLayout} {rp : ReplyLayout}.

(** ** [rpc_handlers.rs] *)
Inductive RPCId := Nil | Echo | Query.
Definition RPCId_num (id : RPCId) : Z := match id with Nil => 1 | Echo => 2 | Query => 3 end.

Definition handle_nil : Callback W := λ _ output m, mret (64%Z, m).

Definition HELLO : list Z := [72; 101; 108; 108; 111; 32; 102; 114; 111; 109; 32; 77; 73; 84; 79; 83; 73; 83]%Z.

Definition handle_echo : Callback W := λ _ output m,
  '(ok, m) ← lift (write_str m output HELLO);
  lift (rust_assert ok) ≫= λ _, mret (64%Z, m).

(** The global variables [dc_target] and [dc_target_meta], the latter as
    [(lid, gid)]. *)
Definition handle_descriptor_addr_lookup (process_service : Sps W) (dc_target : list DCTarget) (dc_target_meta : list (Z * (Z * Z))) :
    Callback W := λ input output m,
  r ← lift (memcpy_deserialize Z (H := pod_u64) m input);
  let key := match r with Some (_, key) => key | None => 0%Z end in
  match query_descriptor_buf process_service key with
  | None => mret (0%Z, m)
  | Some (addr, len) =>
      cpu ← pmem_get_current_cpu;
      dc_target_idx ← lift (match dc_target with [] => Panic | _ => Ret (Z.to_nat cpu mod length dc_target) end);
      target ← lift (unwrap (dc_target !! dc_target_idx));
      '(lid, gid) ← lift (unwrap (dc_target_meta !! dc_target_idx));
      let reply := mkDescriptorLookupReply (UDMsg_get_pa addr) len true (target_rkey target) lid gid
        (target_dct_num target) (target_dc_key target) in
      '(_, m) ← lift (default_serialize m reply output);
      n ← lift (default_serialization_buf_len reply);
      mret (n, m)
  end.

(** ** [rpc_service.rs]: the set-up of a handler thread *)
Definition register_callbacks (hook : RPCHook W) (sps : Sps W) (targets : list DCTarget) (metas : list (Z * (Z * Z))) : RPCHook W :=
  let s := hk_service hook in
  let s := (Service_register s (RPCId_num Nil) handle_nil).2 in
  let s := (Service_register s (RPCId_num Echo) handle_echo).2 in
  let s := (Service_register s (RPCId_num Query) (handle_descriptor_addr_lookup sps targets metas)).2 in
  mkRPCHook s (session_factory hook) (meta_factory hook) (transport hook) (hook_sessions hook) (analysis hook).

(** The pre-posted receive buffers; a failed post is logged and the loop goes on. *)
Fixpoint post_buffers (n : nat) (ctx : Context_t) (hook : RPCHook W) : io W (RPCHook W) :=
  match n with
  | 0 => mret hook
  | S n => msg ← UDMsg_new 4096 0 ctx; '(_, hook) ← post_msg_buf hook msg; post_buffers n ctx hook
  end.

Definition QD_HINT_BASE : Z := 12.
Definition calculate_qd_hint (idx : Z) : outcome Z := u64_add QD_HINT_BASE idx.

(** [worker] up to its polling loop: [server_ud] is the queue pair it created. *)
Definition worker_hook (id : Z) (factory : UDFactory W) (server_ud : UDDatagram W) (sps : Sps W) (targets : list DCTarget)
    (metas : list (Z * (Z * Z))) : io W (RPCHook W) :=
  hint ← lift (calculate_qd_hint id);
  let temp_ud := UDDatagram_clone server_ud in
  let hook := RPCHook_new factory (UDDatagram_clone server_ud)
    (UDReceiverFactory_create (UDReceiverFactory_set_qd_hint UDReceiverFactory_new hint) temp_ud) in
  post_buffers 2048 (qp_ctx (UDDatagram_get_qp server_ud)) (register_callbacks hook sps targets metas).
End Handlers.

Section QuerySpec.
Context {W : Type} {kt : KTimerApi W} {kt_ok : KTimerOk W} {kr : KRdmaKit W} {nic : NicOk W} {recv_ok : RecvOk W} {cm : UdCm W}.
Context {kn : Kernel W} {kn_ok : KernelOk W} {dt : DcTargets}.
Context {rl : RpcLayout} {rl_ok : RpcLayoutOk} {rp : ReplyLayout} {rp_ok : ReplyLayoutOk}.
Context (Hdg : datagrams_queue (W := W)).
Context {live : W → Prop} {lag : W → nat} {N : nat} (Hlc : LiveCard live lag N).

Abbreviation SZ_HEADER := (Z.of_nat (size_of MsgHeader)).

(** What a lookup may find: nothing when the key is not registered, else the
    buffer of the process through one of the machine's targets. *)
Definition lookup_reply (g : Sps W) (targets : list DCTarget) (metas : list (Z * (Z * Z))) (key : Z)
    (o : option DescriptorLookupReply) : Prop :=
  match query_descriptor_buf g key with
  | None => o = None
  | Some (buf, len) => ∃ i t lid gid, targets !! i = Some t ∧ metas !! i = Some (lid, gid) ∧
      o = Some (mkDescriptorLookupReply (UDMsg_get_pa buf) len true (target_rkey t) lid gid (target_dct_num t) (target_dc_key t))
  end.

Definition reply_bytes (o : option DescriptorLookupReply) : list Z :=
  match o with Some d => to_bytes d | None => [] end.

Lemma reply_bytes_length o : (length (reply_bytes o) ≤ size_of DescriptorLookupReply)%nat.
Proof. destruct o; cbn; [|lia]. by rewrite (to_bytes_length (PodOk := reply_ok)). Qed.

Lemma query_answers g targets metas (svc : Service W) key :
  svc !! RPCId_num Query = Some (handle_descriptor_addr_lookup g targets metas) → is_u64 key →
  targets ≠ [] → length metas = length targets →
  answers (live := live) svc (RPCId_num Query) (to_bytes (Pod := pod_u64) key)
    (λ ans, ∃ o, lookup_reply g targets metas key o ∧ ans = Some (reply_bytes o)).
Proof.
  intros Hsvc Hkey Hne Hlen input output m w Hl Hat Hil H8 Hb Hfit.
  pose proof (int_Pod_ok 8 (Nat.lt_0_succ 7)) as Hok.
  pose proof (memcpy_deserialize_ok (pod_ok := Hok) (Z.divide_refl 8) m input key Hkey H8 Hat) as Ed.
  unfold Service_execute. rewrite Hsvc.
  assert (Ekey : memcpy_deserialize Z (H := pod_u64) m input = Ret (Some (8%Z, key))) by (apply Ed; by rewrite Hil).
  unfold lookup_reply in *. destruct (query_descriptor_buf g key) as [[buf len]|] eqn:Eq.
  - destruct (current_cpu_ok w) as (cpu & Ecpu & _). set (i := Z.to_nat cpu mod length targets).
    assert (Hi : i < length targets) by (apply Nat.mod_upper_bound; by destruct targets).
    destruct (lookup_lt_is_Some_2 targets i Hi) as [t Ht].
    destruct (lookup_lt_is_Some_2 metas i) as [[lid gid] Hm]; [lia|].
    set (d := mkDescriptorLookupReply (UDMsg_get_pa buf) len true (target_rkey t) lid gid (target_dct_num t) (target_dc_key t)).
    assert (HQ : ∃ o, (∃ i t lid gid, targets !! i = Some t ∧ metas !! i = Some (lid, gid) ∧
      o = Some (mkDescriptorLookupReply (UDMsg_get_pa buf) len true (target_rkey t) lid gid (target_dct_num t) (target_dc_key t)))
      ∧ Some (to_bytes d) = Some (reply_bytes o)) by (exists (Some d); split; [by exists i, t, lid, gid|done]).
    specialize (Hfit _ HQ). cbn [answer_len] in Hfit. rewrite (to_bytes_length (PodOk := reply_ok)) in Hfit.
    destruct Hb as (Hal & Hb8 & _).
    destruct (memcpy_serialize_ok (pod_ok := reply_ok) ltac:(by rewrite reply_align) m output d Hal Hb8 Hfit) as (m' & Es & Hat' & Hf).
    exists (Some (to_bytes d)), m', w. split; [exact HQ|]. split; [|split_and!; [|done|done|done]].
    2: { eapply frame_weaken; [exact Hf|lia|lia]. }
    rewrite (io_bind_run _ _ _ (Z.of_nat (size_of DescriptorLookupReply), m') w);
      [cbn; by rewrite (to_bytes_length (PodOk := reply_ok))|].
    unfold handle_descriptor_addr_lookup. pure Ekey. rewrite Eq. cbv beta iota zeta. step Ecpu.
    rewrite (io_lift_run _ _ _ i) by (by destruct targets). rewrite (io_lift_run _ _ _ t) by (by rewrite Ht).
    rewrite (io_lift_run _ _ _ (lid, gid)) by (by rewrite Hm). cbv beta iota zeta.
    rewrite (io_lift_run _ _ _ (true, m')) by (unfold default_serialize; fold d; by rewrite Es). done.
  - exists (Some []), m, w. split; [by exists None|]. split; [|split_and!; [apply frame_refl|apply at_mem_nil|done|done]].
    rewrite (io_bind_run _ _ _ (0%Z, m) w); [done|].
    unfold handle_descriptor_addr_lookup. pure Ekey. by rewrite Eq.
Qed.

Lemma hook_ready_weaken m (hook : RPCHook W) w qp id s buf (Q Q' : option (list Z) → Prop) :
  hook_ready (live := live) m hook w qp id s buf Q → (∀ ans, Q' ans → Q ans) → hook_ready (live := live) m hook w qp id s buf Q'.
Proof. intros [] HQ. split; auto. Qed.

Lemma register_callbacks_query hook0 g targets metas :
  hk_service hook0 = Service_new →
  (hk_service (register_callbacks hook0 g targets metas) : Service W) !! RPCId_num Query =
  Some (handle_descriptor_addr_lookup g targets metas).
Proof. intros E. unfold register_callbacks. cbn [hk_service]. by rewrite E. Qed.

(** Resuming asks the parent's machine where the descriptor of [key] lies.  The
    reply a child decodes is the buffer and length registered for [key], with one
    of the machine's DC targets to read it through; for a key that is not
    registered the reply is empty and decodes to nothing. *)
Theorem query_locates_descriptor fuel qp m c w id s buf my_id key :
  is_u64 my_id → is_u64 key →
  window_inv CALL_WINDOW qp (caller_sessions c) w → live w → N < fuel →
  caller_sessions c !! id = Some (s, buf) → bufs_ok (SZ_HEADER + 8) m (caller_sessions c) →
  ∃ r c' m' w', sync_call (H := pod_u64) fuel m c id my_id (RPCId_num Query) key w = Ret ((r, c', m'), w') ∧
  ∀ g targets metas hook0 sqp ms hook ws req t ws0 ss sbuf,
    targets ≠ [] → length metas = length targets →
    (∀ d, lookup_reply g targets metas key (Some d) → reply_valid d) →
    hk_service hook0 = Service_new → hk_service hook = hk_service (register_callbacks hook0 g targets metas) →
    hook_ready (live := live) ms hook ws sqp my_id ss sbuf (λ ans, answer_len ans ≤ Z.of_nat (size_of DescriptorLookupReply))%Z →
    poll (transport hook) ws = Ret ((Ok (Ready req), t), ws0) →
    wire m' (bm_ptr (msg_bytes buf)) (SZ_HEADER + 8) ms (msg_bytes req) →
  ∃ o res hook' ms' ws', lookup_reply g targets metas key o ∧ RPCHook_poll fuel ms hook ws = Ret ((res, hook', ms'), ws') ∧
    at_mem ms' (bm_ptr (msg_bytes sbuf)) (to_bytes (reply_header (Some (reply_bytes o))) ++ reply_bytes o) ∧
  ∀ m2 c2 w2 rep t2 w3,
    poll (inner_receiver c2) w2 = Ret ((Ok (Ready rep), t2), w3) →
    wire ms' (bm_ptr (msg_bytes sbuf)) (SZ_HEADER + Z.of_nat (length (reply_bytes o))) m2 (msg_bytes rep) →
    ∃ b, Caller_poll m2 c2 w2 = Ret ((Ok (Ready (rep, b)), mkCaller t2 (caller_sessions c2)), w3) ∧
      default_deserialize DescriptorLookupReply m2 b = Ret o.
Proof.
  intros Hmy Hkey Hw Hl Hf Hid Hb. pose proof (int_Pod_ok 8 (Nat.lt_0_succ 7)) as Hok.
  destruct (sync_call_ok Hdg Hlc (ok := Hok) fuel qp m c w id s buf my_id (RPCId_num Query) key (Z.divide_refl 8) Hw Hl Hf Hid Hb)
    as (r & s' & m' & w' & w1 & E & _ & Hat & _).
  exists r, (set_session c id (s', buf)), m', w'. split; [exact E|].
  intros g targets metas hook0 sqp ms hook ws req t ws0 ss sbuf Hne Hml Hrv H0 Hsvc Hr Ep Hwire.
  destruct (call_served_ok Hdg Hlc fuel m' buf my_id (RPCId_num Query) (to_bytes (Pod := pod_u64) key) Hf Hmy ltac:(done) ltac:(done) Hat
    sqp ms hook ws req t ws0 ss sbuf (λ ans, ∃ o, lookup_reply g targets metas key o ∧ ans = Some (reply_bytes o)))
    as (ans & res & hook' & ms' & ws' & (o & Ho & ->) & Es & _ & Hats & Hrep); [| |exact Ep|exact Hwire|].
  - eapply hook_ready_weaken; [exact Hr|]. intros ans (o & _ & ->). cbn. pose proof (reply_bytes_length o). lia.
  - apply query_answers; [rewrite Hsvc; by apply register_callbacks_query|done|done|done].
  - exists o, res, hook', ms', ws'. split_and!; [done|done|exact Hats|]. intros m2 c2 w2 rep t2 w3 Ep2 Hw2.
    destruct (Hrep m2 c2 w2 rep t2 w3 Ep2 Hw2) as (b & Ec & Hbl & Hbat & Hb8). exists b. split; [exact Ec|].
    unfold default_deserialize. destruct o as [d|]; cbn [reply_bytes] in *.
    + rewrite (memcpy_deserialize_ok (pod_ok := reply_ok) ltac:(by rewrite reply_align) m2 b d (Hrv d Ho) Hb8 Hbat); [done|].
      by rewrite Hbl, (to_bytes_length (PodOk := reply_ok)).
    + unfold memcpy_deserialize, BytesMut_len. rewrite Hbl, (proj2 (Z.leb_gt _ _)); [done|]. pose proof reply_nonempty. cbn. lia.
Qed.
End QuerySpec.

(** ** On the reference machine *)
Definition of_reply_words (ws : list Z) : option DescriptorLookupReply :=
  match ws with
  | [pa; sz; ready; rkey; lid; g1; g2; num; key] =>
      Some (mkDescriptorLookupReply pa sz (ready =? 1)%Z rkey lid (g1, g2) num key)
  | _ => None
  end.

Definition word_ReplyLayout : ReplyLayout := {| reply_Pod := words_Pod 9 reply_words of_reply_words |}.

Lemma word_ReplyLayoutOk : ReplyLayoutOk (rp := word_ReplyLayout).
Proof.
  split; [|done|cbn; lia]. apply words_Pod_ok; [done|]. intros [pa sz ready rkey lid [g1 g2] num key] Hv. split; [exact Hv|].
  by destruct ready.
Qed.

Definition ref_sps : Sps ref_machine :=
  mkSps (kr := ref_KRdmaKit) (dt := ref_DcTargets) ref_memory0 (mkMemPool (kr := ref_KRdmaKit) [] 0 tt) [] 4
    {[5%Z := mkProcessBundler (kr := ref_KRdmaKit) (dt := ref_DcTargets) (mkShadowProcess example_parent [] None None) (ref_buf 8192) 424 [11%Z]]}.

Definition ref_query_hook : RPCHook ref_machine :=
  register_callbacks (rp := word_ReplyLayout)
    (mkRPCHook (kr := ref_KRdmaKit) Service_new (session_factory ref_hook) (meta_factory ref_hook) (transport ref_hook)
      (hook_sessions ref_hook) RPCAnalysis_new) ref_sps [11%Z] [(3, (0, 0))%Z].

Lemma ref_query_ready m Q : alloc m 0 1536 → (∀ ans, Q ans → answer_len ans ≤ 472)%Z →
  hook_ready (rl := word_RpcLayout) (live := λ w, ref_alive w = true) m ref_query_hook ref_called (7%Z : @QueuePair _ ref_KRdmaKit)
    1 (ref_session 7 21 0).1 (ref_buf 0) Q.
Proof. intros Ha HQ. by destruct (ref_hook_ready m Q Ha HQ) as []. Qed.

Definition ref_found : DescriptorLookupReply := mkDescriptorLookupReply 8192 424 true 9 3 (0, 0)%Z 11 84.

Lemma ref_lookup o : lookup_reply ref_sps [11%Z] [(3, (0, 0))%Z] 5 o → o = Some ref_found.
Proof.
  intros (i & t & lid & gid & Ht & Hm & ->). destruct i as [|i]; [|done].
  injection Ht as <-. injection Hm as <- <-. done.
Qed.

Lemma ref_found_valid : reply_valid ref_found.
Proof. repeat constructor; cbn; lia. Qed.

Lemma query_locates_descriptor_witness :
  ∃ r c' m' w', sync_call (rl := word_RpcLayout) (H := pod_u64) 1 ref_memory0 ref_caller 8 1 3 5%Z ref_boot = Ret ((r, c', m'), w') ∧
  ∃ res hook' ms' ws', RPCHook_poll (rl := word_RpcLayout) 1
      (ref_wire m' 0 48 ref_memory0 (msg_bytes (ref_buf 1024))) ref_query_hook ref_called = Ret ((res, hook', ms'), ws') ∧
  ∃ b c2 w3, Caller_poll (rl := word_RpcLayout) (ref_wire ms' 0 112 ref_memory0 (msg_bytes (ref_buf 512))) ref_caller ref_replied =
      Ret ((Ok (Ready (ref_buf 512, b)), c2), w3) ∧
    default_deserialize DescriptorLookupReply (H := reply_Pod (ReplyLayout := word_ReplyLayout))
      (ref_wire ms' 0 112 ref_memory0 (msg_bytes (ref_buf 512))) b =
    Ret (Some ref_found).
Proof.
  destruct (query_locates_descriptor (rl_ok := word_RpcLayoutOk) (rp_ok := word_ReplyLayoutOk) ref_datagrams ref_LiveCard 1 5%Z
    ref_memory0 ref_caller ref_boot 8 (ref_session 5 31 0).1 (ref_buf 0) 1 5%Z) as (r & c' & m' & w' & E & Hcall);
    [done|done|apply ref_caller_window|done|lia|apply lookup_singleton_eq|apply ref_caller_bufs; [apply ref_memory0_alloc|done]|].
  exists r, c', m', w'. split; [exact E|]. pose proof (ref_call_sent _ _ _ _ _ _ E) as Ha.
  destruct (ref_wire_ok m' 0 48 ref_memory0 (msg_bytes (ref_buf 1024))) as [Hwire Hf];
    [done|exact Ha|apply ref_buf_ok; [apply ref_memory0_alloc|by exists 128%Z|lia]|by exists 128%Z|done|].
  pose proof ref_lookup as Hd.
  destruct (Hcall ref_sps [11%Z] [(3, (0, 0))%Z] (mkRPCHook (kr := ref_KRdmaKit) Service_new (session_factory ref_hook)
    (meta_factory ref_hook) (transport ref_hook) (hook_sessions ref_hook) RPCAnalysis_new) 7%Z (ref_wire m' 0 48 ref_memory0 (msg_bytes (ref_buf 1024))) ref_query_hook ref_called (ref_buf 1024)
    (ref_receiver 7 []) (ref_set_rq {[7%Z := []]} {[7%Z := 0]} ref_boot) (ref_session 7 21 0).1 (ref_buf 0))
    as (o & res & hook' & ms' & ws' & Ho & Es & Hat & Hrep); [done|done| |done|done| |done|exact Hwire|].
  { intros d H%Hd. injection H as ->. apply ref_found_valid. }
  { apply ref_query_ready; [exact (frame_alloc_range _ _ _ _ _ _ Hf ref_memory0_alloc)|]. intros ans Hans. cbn in Hans. lia. }
  apply Hd in Ho as ->. exists res, hook', ms', ws'. split; [exact Es|].
  destruct (ref_wire_ok ms' 0 112 ref_memory0 (msg_bytes (ref_buf 512))) as [Hwire2 _];
    [done|eapply at_mem_alloc; [exact Hat|by vm_compute]|apply ref_buf_ok; [apply ref_memory0_alloc|by exists 64%Z|lia]|by exists 64%Z|done|].
  destruct (Hrep (ref_wire ms' 0 112 ref_memory0 (msg_bytes (ref_buf 512))) ref_caller ref_replied (ref_buf 512) (ref_receiver 5 [])
    (ref_set_rq {[5%Z := []]} {[5%Z := 0]} ref_boot) eq_refl Hwire2) as (b & Ec & Hb).
  exists b. eexists _, _. split; [exact Ec|exact Hb].
Defined.
