(* ===== verification/CallerPool.v ===== *)
(** * The pool of callers and the opening of sessions ([rpc_caller_pool.rs], [startup.rs])

    Each core has a caller of its own; probing a remote machine opens one session
    from every caller to a handler of that machine.  Sessions are named by
    numbers computed from the machine and the core. *)

From S2P Require Import Prelude Future Bytes Rdma Machine Datagram ParentWire Rpc RpcSpec RpcCall RpcHandlers.

(** ** [startup.rs] *)
Definition calculate_session_id (mac_id thread_id max_callers : Z) : outcome Z :=
  base ← u64_mul mac_id max_callers; u64_add base thread_id.

(** KRdmaKit: the address of a port, the port of a queue pair, parsing a GID *)
Class PortApi (W : Type) {kr : KRdmaKit W} := {
  query_gid : Context_t → Z → Z → io W (option (Z * Z));
  qp_port_num : QueuePair → Z;
  string_to_gid : list Z → option (Z * Z) }.

(** [rpc_service.rs] *)
Record HandlerConnectInfo := mkHandlerConnectInfo { ci_gid : list Z; ci_service_id : Z; ci_qd_hint : Z; ci_local_port : Z }.

Definition SERVICE_ID_BASE : Z := 73.

(** [max_nics_used] is a global variable; the remainder by zero panics. *)
Definition HandlerConnectInfo_create_with_port (max_nics_used : Z) (gid : list Z) (nic_idx tid port_num : Z) : outcome HandlerConnectInfo :=
  nic ← (if (max_nics_used =? 0)%Z then Panic else Ret (nic_idx mod max_nics_used)%Z);
  service_id ← u64_add SERVICE_ID_BASE nic;
  qd_hint ← calculate_qd_hint tid;
  Ret (mkHandlerConnectInfo gid service_id qd_hint port_num).

Definition HandlerConnectInfo_create (max_nics_used : Z) (gid : list Z) (nic_idx tid : Z) : outcome HandlerConnectInfo :=
  HandlerConnectInfo_create_with_port max_nics_used gid nic_idx tid 1.

Section CallerPool.
Context {W : Type} {kr : KRdmaKit W} {cm : UdCm W} {po : PortApi W} {rl : RpcLayout}.

Record CallerPool := mkCallerPool {
  cp_pool : list (Caller W);
  cp_factories : list (UDFactory W);
  cp_contexts : list Context_t;
  cp_metas : list (Z * Z) }.

Definition CallerPool_len (self : CallerPool) : Z := Z.of_nat (length (cp_pool self)).
Definition get_caller (self : CallerPool) (idx : nat) : option (Caller W) := cp_pool self !! idx.
Definition get_caller_context (self : CallerPool) (idx : nat) : option Context_t := cp_contexts self !! idx.

Definition create_meta_at (self : CallerPool) (idx : nat) (hyper : UDHyperMeta) : io W (option DatagramEndpoint) :=
  factory ← lift (unwrap (cp_factories self !! idx));
  r ← create_meta factory hyper;
  mret (match r with Ok endpoint => Some endpoint | Err _ => None end).

(** A caller as a future, in the memory as it is when it is polled. *)
Definition Caller_Future (m : mem) : Future W (Caller W) (UDMsg W * BytesMut) (CallError DatapathError) := Caller_poll m.

(** [dma] is what the card does to memory until the reply is there. *)
Definition connect_session_at (fuel : nat) (dma : mem → mem) (m : mem) (self : CallerPool) (idx : nat) (session_id my_session_id : Z)
    (hyper : UDHyperMeta) : io W (option () * CallerPool * mem) :=
  endpoint ← create_meta_at self idx hyper;
  match endpoint with
  | None => mret (None, self, m)
  | Some endpoint =>
      ctx ← lift (unwrap (cp_contexts self !! idx));
      my_gid ← query_gid ctx 1 0;
      my_gid ← lift (unwrap my_gid);
      '(hint, service_id) ← lift (unwrap (cp_metas self !! idx));
      match get_caller self idx with
      | None => mret (None, self, m)
      | Some caller =>
          if session_connected caller session_id then mret (None, self, m)
          else
            let client_session := UDSession_create (recv_inner (inner_receiver caller)) endpoint in
            let local_port_num := qp_port_num (UDDatagram_get_qp (ss_inner client_session)) in
            '(r, caller, m) ← Caller_connect fuel m caller session_id my_session_id client_session
              (mkUDHyperMeta my_gid service_id hint local_port_num);
            match r with
            | Err _ => panic
            | Ok _ =>
                let m := dma m in
                '(r, caller) ← block_on (fut := Caller_Future m) fuel caller;
                match r with
                | Err _ => panic
                | Ok (msg, _reply) =>
                    '(r, caller) ← register_recv_buf caller msg;
                    match r with
                    | Err _ => panic
                    | Ok _ => mret (Some (), mkCallerPool (<[idx := caller]> (cp_pool self)) (cp_factories self)
                                (cp_contexts self) (cp_metas self), m)
                    end
                end
            end
      end
  end.

(** [probe_remote_rpc_end]: one session per caller, the first failure ends it. *)
Fixpoint probe_loop (fuel : nat) (dma : mem → mem) (m : mem) (self : CallerPool) (mac_id remote_machine_id : Z)
    (info : HandlerConnectInfo) (i n : nat) : io W (option () * CallerPool * mem) :=
  match n with
  | 0 => mret (Some (), self, m)
  | S n =>
      session_id ← lift (calculate_session_id remote_machine_id (Z.of_nat i) (CallerPool_len self));
      my_session_id ← lift (calculate_session_id mac_id (Z.of_nat i) (CallerPool_len self));
      match string_to_gid (ci_gid info) with
      | None => mret (None, self, m)
      | Some gid =>
          '(r, self, m) ← connect_session_at fuel dma m self i session_id my_session_id
            (mkUDHyperMeta gid (ci_service_id info) (ci_qd_hint info) (ci_local_port info));
          match r with
          | None => mret (None, self, m)
          | Some _ => probe_loop fuel dma m self mac_id remote_machine_id info (S i) n
          end
      end
  end.

Definition probe_remote_rpc_end (fuel : nat) (dma : mem → mem) (m : mem) (self : CallerPool) (mac_id remote_machine_id : Z)
    (info : HandlerConnectInfo) : io W (option () * CallerPool * mem) :=
  probe_loop fuel dma m self mac_id remote_machine_id info 0 (length (cp_pool self)).
End CallerPool.
Arguments CallerPool W {kr}.

(** Session numbers are unique: two callers of a cluster whose machines have the
    same number of cores never get the same number, and a number that does not
    fit in 64 bits panics instead of wrapping round to another's. *)
Theorem session_ids_unique mac mac' i i' n k :
  (0 ≤ i < n)%Z → (0 ≤ i' < n)%Z →
  calculate_session_id mac i n = Ret k → calculate_session_id mac' i' n = Ret k → mac = mac' ∧ i = i'.
Proof.
  intros Hi Hi' E E'. unfold calculate_session_id, u64_mul, u64_add, u64_checked in *.
  repeat (case_match; cbn in *; try done). simplify_eq.
  assert (mac = mac') as -> by (destruct (Z.lt_trichotomy mac mac') as [?|[?|?]]; [nia|done|nia]). lia.
Qed.

Lemma session_ids_unique_witness :
  ∃ k, calculate_session_id 3 5 12 = Ret k ∧ (∀ mac' i', (0 ≤ i' < 12)%Z → calculate_session_id mac' i' 12 = Ret k → (mac', i') = (3, 5)%Z).
Proof.
  exists 41%Z. split; [done|]. intros mac' i' Hi' E.
  destruct (session_ids_unique mac' 3 i' 5 12 41 Hi' ltac:(lia) E eq_refl) as [-> ->]. done.
Defined.

(** ** Opening a session *)
Section Connect.
Context {W : Type} {kt : KTimerApi W} {kt_ok : KTimerOk W} {kr : KRdmaKit W} {nic : NicOk W} {recv_ok : RecvOk W} {cm : UdCm W}.
Context {rl : RpcLayout} {rl_ok : RpcLayoutOk}.
Context (Hdg : datagrams_queue (W := W)).
Context {live : W → Prop} {lag : W → nat} {N : nat} (Hlc : LiveCard live lag N).

Abbreviation SZ_HEADER := (Z.of_nat (size_of MsgHeader)).
Abbreviation SZ_HYPER := (Z.of_nat (size_of UDHyperMeta)).

(** A step of the machine that leaves the card as it is. *)
Definition calm (w w' : W) : Prop := live w → live w' ∧ ∀ qp, outstanding qp w' = outstanding qp w.

(** A buffer for a session can be had. *)
Definition gets_buf (m : mem) (ctx : Context_t) (buf : UDMsg W) (w w' : W) : Prop :=
  UDMsg_create UDReceiver_MTU 0 ctx w = Ret (buf, w') ∧ calm w w' ∧ buf_ok m (msg_bytes buf) ∧
  (SZ_HEADER + SZ_HYPER ≤ bm_len (msg_bytes buf) < 2 ^ 64)%Z.

(** A fresh session of a window, its message sent and completed. *)
Lemma window_insert K qp (ss : gmap Z (UDSession W * UDMsg W)) w id s msg :
  window_inv K qp ss w → (0 ≤ K)%Z → ss !! id = None → ss_qp s = qp → get_pending_reqs s = 0%Z →
  window_inv K qp (<[id := (s, msg)]> ss) w.
Proof.
  intros [Hs Hd] HK Hid Hqp Hp. split.
  - intros id' s' msg' [[_ [= <- _]]|[_ H]]%lookup_insert_Some; [split; [done|lia]|eauto].
  - rewrite busy_insert, delete_id, Hd by done. cbn. rewrite Hp. cbn. lia.
Qed.

Lemma Caller_connect_ok fuel qp m c w id my_id s hyper buf w0 :
  window_inv CALL_WINDOW qp (caller_sessions c) w → live w → N < fuel → caller_sessions c !! id = None →
  ss_qp s = qp → get_pending_reqs s = 0%Z → gets_buf m (receiver_context (inner_receiver c)) buf w w0 →
  ∃ r c' m' w', Caller_connect fuel m c id my_id s hyper w = Ret ((r, c', m'), w') ∧
    window_inv CALL_WINDOW qp (caller_sessions c') w' ∧ live w' ∧
    at_mem m' (bm_ptr (msg_bytes buf)) (to_bytes (gen_connect_stub my_id SZ_HYPER) ++ to_bytes hyper) ∧
    (r = Ok () → ∃ s', caller_sessions c' !! id = Some (s', buf) ∧ ss_meta s' = ss_meta s).
Proof.
  intros Hw Hl Hf Hid Hqp Hp (Eb & Hcalm & Hb & Hlen). destruct (Hcalm Hl) as [Hl0 Hq0].
  assert (Hha : (@align_of _ hyper_Pod | 8)%Z) by (by rewrite hyper_align).
  destruct (generate_ok (ok := hyper_ok) (gen_connect_stub my_id SZ_HYPER) hyper m (msg_bytes buf) Hha Hb Hlen)
    as (m' & Eg & Hat & _).
  destruct (UDSession_post_ok Hdg Hlc s buf (SZ_HEADER + SZ_HYPER)%Z true w0 Hl0) as (r & w1 & E1 & _ & Hl1 & Hn1); [lia|].
  rewrite Hqp in Hn1. unfold Caller_connect. step Eb. pure Eg.
  rewrite (io_lift_run (unwrap (Some _)) _ _ _ eq_refl). step E1. destruct r as [[]|e].
  - set (s1 := ss_set s (get_pending_reqs s + 1)). change (ss_qp s) with (ss_qp s1) in Hqp.
    destruct (block_on_session Hlc fuel s1 w1 Hl1) as (wc & w2 & E2 & Hl2 & Hn2);
      [pose proof (lc_lag _ _ _ Hlc w1 Hl1); lia|rewrite Hqp; cbn in Hn1; lia|]. step E2. rewrite Hqp in Hn2.
    eexists (Ok ()), _, m', w2. split; [done|]. split_and!; [|done|done|].
    + apply window_insert; [|done|done|done|done]. split; [apply Hw|]. rewrite <- (wi_due _ _ _ _ Hw), <- Hq0. cbn in Hn1. lia.
    + intros _. eexists. split; [apply lookup_insert_eq|done].
  - exists (Err e), c, m', w1. split_and!; [done| |done|done|done].
    split; [apply Hw|]. by rewrite Hn1, Nat.add_0_r, Hq0, (wi_due _ _ _ _ Hw).
Qed.

(** A hook that can open the session [id] to the end point [ep]. *)
Record can_open (m : mem) (hook : RPCHook W) (w : W) (qp : QueuePair) (id : Z) (hyper : UDHyperMeta)
    (ep : DatagramEndpoint) (buf : UDMsg W) : Prop := {
  co_window : window_inv REPLY_WINDOW qp (hook_sessions hook) w;
  co_live : live w;
  co_bufs : bufs_ok SZ_HEADER m (hook_sessions hook);
  co_new : hook_sessions hook !! id = None;
  co_factory : session_factory hook = mkUDDatagram qp 0;
  co_endpoint : ∃ w1 w2, create_meta (meta_factory hook) hyper w = Ret (Ok ep, w1) ∧ calm w w1 ∧
    gets_buf m (receiver_context (transport hook)) buf w1 w2 }.

Lemma handle_connect_ok fuel qp m hook w id hyper ep buf input :
  can_open m hook w qp id hyper ep buf → N < fuel → UDHyperMeta_valid hyper →
  at_mem m (bm_ptr input) (to_bytes hyper) → bm_len input = SZ_HYPER → (8 | bm_ptr input)%Z →
  ∃ r s m' w', handle_connect fuel m hook (gen_connect_stub id SZ_HYPER) input w =
      Ret ((match r with Ok _ => None | Err _ => Some HookFatal end : option (HookError DatapathError),
            hook_set_session (hook_set_session hook id (UDSession_create (session_factory hook) ep, buf)) id (s, buf), m'), w') ∧
    (∃ w1 w2, post_datagram qp ep (UDMsg_get_inner buf) (0, 0 + SZ_HEADER)%Z (get_virt_addr (UDMsg_get_inner buf)) true w1 = Ret (r, w2)) ∧
    at_mem m' (bm_ptr (msg_bytes buf)) (to_bytes (reply_header (Some []))) ∧ ss_meta s = ep ∧
    window_inv REPLY_WINDOW qp (<[id := (s, buf)]> (hook_sessions hook)) w' ∧ live w' ∧
    bufs_ok SZ_HEADER m' (<[id := (s, buf)]> (hook_sessions hook)).
Proof.
  intros [Hw Hl Hbs Hnew Hfac (w1 & w2 & Ecm & Hc1 & Eb & Hc2 & Hb & Hlen)] Hf Hv Hat Hil H8.
  destruct (Hc1 Hl) as [Hl1 Hq1]. destruct (Hc2 Hl1) as [Hl2 Hq2].
  set (s0 := UDSession_create (session_factory hook) ep). set (hook1 := hook_set_session hook id (s0, buf)).
  assert (Hw2 : window_inv REPLY_WINDOW qp (hook_sessions hook) w2) by (split; [apply Hw|rewrite Hq2, Hq1; apply Hw]).
  assert (Hp0 : get_pending_reqs s0 = 0%Z) by (unfold s0, UDSession_create, get_pending_reqs; cbn; by rewrite Hfac).
  assert (Hw1 : window_inv REPLY_WINDOW qp (hook_sessions hook1) w2).
  { apply window_insert; [done|done|done| |done]. unfold ss_qp, s0, UDSession_create. cbn. by rewrite Hfac. }
  assert (Hbs1 : bufs_ok SZ_HEADER m (hook_sessions hook1)) by (apply map_Forall_insert_2; [split; [done|cbn; lia]|done]).
  destruct (send_reply_ok Hdg Hlc fuel qp m hook1 w2 id s0 buf ReplyOk 0) as
    (r & s' & m' & w' & w3 & Es & Ed & Hat' & Hfr & Hm & Hw' & Hl');
    [done|done|done|apply lookup_insert_eq|done|done|lia|].
  exists r, s', m', w'. split_and!; try done.
  - unfold handle_connect. cbn [get_connect_stub meta gen_connect_stub cn_session_id]. rewrite decide_False.
    2: { intros [x Hx]. by rewrite Hnew in Hx. }
    assert (Hha : (@align_of _ hyper_Pod | 8)%Z) by (by rewrite hyper_align).
    rewrite (io_lift_run _ _ _ (Some (SZ_HYPER, hyper))).
    2: { by rewrite (memcpy_deserialize_ok (pod_ok := hyper_ok) Hha m input hyper Hv H8 Hat) by lia. }
    cbv beta iota. step Ecm. step Eb. fold s0. fold hook1. step Es. by destruct r.
  - exists w2, w3. by rewrite Hp0 in Ed.
  - cbn in Hw'. by rewrite insert_insert_eq in Hw'.
  - eapply bufs_ok_frame; [exact Hfr|]. apply map_Forall_insert_2; [split; [done|cbn; lia]|done].
Qed.

(** The handshake.  [connect] sends its own address; a hook that receives that
    datagram looks the address up, opens the session under the caller's number and
    answers; the caller that receives the answer finds it empty and good.  Both
    ends then have the session, each to the other's end point and within its
    window, so that calls can follow. *)
Theorem connect_opens_session fuel qp m c w id my_id s hyper buf w0 :
  window_inv CALL_WINDOW qp (caller_sessions c) w → live w → N < fuel → caller_sessions c !! id = None →
  ss_qp s = qp → get_pending_reqs s = 0%Z → is_u64 my_id → UDHyperMeta_valid hyper →
  gets_buf m (receiver_context (inner_receiver c)) buf w w0 →
  ∃ r c' m' w', Caller_connect fuel m c id my_id s hyper w = Ret ((r, c', m'), w') ∧
    window_inv CALL_WINDOW qp (caller_sessions c') w' ∧
    (r = Ok () → ∃ s', caller_sessions c' !! id = Some (s', buf) ∧ ss_meta s' = ss_meta s) ∧
  ∀ sqp ms hook ws req t ws0 ep sbuf,
    poll (transport hook) ws = Ret ((Ok (Ready req), t), ws0) →
    can_open ms (hook_set_transport hook t) ws0 sqp my_id hyper ep sbuf →
    wire m' (bm_ptr (msg_bytes buf)) (SZ_HEADER + SZ_HYPER) ms (msg_bytes req) →
  ∃ res hook' ms' ws', RPCHook_poll fuel ms hook ws = Ret ((res, hook', ms'), ws') ∧
    window_inv REPLY_WINDOW sqp (hook_sessions hook') ws' ∧
    (∃ s', hook_sessions hook' !! my_id = Some (s', sbuf) ∧ ss_meta s' = ep) ∧
    at_mem ms' (bm_ptr (msg_bytes sbuf)) (to_bytes (reply_header (Some []))) ∧
  ∀ m2 c2 w2 rep t2 w3,
    poll (inner_receiver c2) w2 = Ret ((Ok (Ready rep), t2), w3) →
    wire ms' (bm_ptr (msg_bytes sbuf)) SZ_HEADER m2 (msg_bytes rep) →
    ∃ b, Caller_poll m2 c2 w2 = Ret ((Ok (Ready (rep, b)), mkCaller t2 (caller_sessions c2)), w3) ∧ bm_len b = 0%Z.
Proof.
  intros Hw Hl Hf Hid Hqp Hp Hmy Hv Hb. pose proof Hb as (_ & _ & _ & Hblen).
  destruct (Caller_connect_ok fuel qp m c w id my_id s hyper buf w0 Hw Hl Hf Hid Hqp Hp Hb) as (r & c' & m' & w' & E & Hw' & _ & Hat & Hr).
  exists r, c', m', w'. split; [exact E|]. split; [exact Hw'|]. split; [exact Hr|].
  intros sqp ms hook ws req t ws0 ep sbuf Ep Hopen Hwire. pose proof (to_bytes_length (PodOk := hyper_ok) hyper) as Hhl.
  assert (Hrec : received ms (msg_bytes req) (gen_connect_stub my_id SZ_HYPER) (to_bytes hyper))
    by (eapply received_of_wire; [exact Hat|by rewrite Hhl|exact Hwire]).
  assert (Hhv : MsgHeader_valid (gen_connect_stub my_id SZ_HYPER)) by (split; [unfold is_u64; cbn; lia|done]).
  destruct (received_parts ms (msg_bytes req) _ _ Hrec Hhv) as (_ & _ & _ & Hbat & H8); [by rewrite Hhl|].
  destruct (handle_connect_ok fuel sqp ms _ ws0 my_id hyper ep sbuf _ Hopen Hf Hv Hbat eq_refl H8)
    as (r1 & s1 & ms1 & ws1 & Ec & _ & Hat1 & Hm1 & Hw1 & Hl1 & _).
  assert (Hpl : payload (gen_connect_stub my_id SZ_HYPER) = Z.of_nat (length (to_bytes hyper))) by (by rewrite Hhl).
  rewrite <- (insert_insert_eq _ my_id (s1, sbuf) (UDSession_create (session_factory hook) ep, sbuf)) in Hw1.
  destruct (RPCHook_poll_dispatch Hlc fuel sqp ms hook ws req t ws0 _ _ _ _ ms1 ws1 Ep Hrec Hhv Hpl Ec Hl1 Hw1)
    as (res & hook' & ws' & Es & Hs & _ & Hws & _).
  exists res, hook', ms1, ws'. split; [exact Es|]. split; [exact Hws|]. split; [exists s1; rewrite Hs; split; [apply lookup_insert_eq|done]|]. split; [exact Hat1|].
  intros m2 c2 w2 rep t2 w3 Ep2 Hwire2. eexists.
  rewrite (Caller_poll_reply m2 c2 rep t2 w2 w3 (Some []) Ep2); [done|done|].
  eapply (received_of_wire _ _ (reply_header (Some [])) []); [rewrite app_nil_r; exact Hat1| |exact Hwire2]. cbn. lia.
Qed.
End Connect.

(** ** On the reference machine *)
#[export] Instance ref_PortApi : PortApi ref_machine := {|
  query_gid := λ _ _ _ w, Ret (Some (0, 4)%Z, w);
  qp_port_num := λ _, 1%Z;
  string_to_gid := λ s, if decide (length s = 39) then Some (0, 2)%Z else None |}.

Definition ref_memory1 : mem := zeroed (Z.to_nat 8192).

Lemma ref_memory1_alloc : alloc ref_memory1 0 8192.
Proof. pose proof (zeroed_alloc (Z.to_nat 8192)) as H. by rewrite Z2Nat.id in H. Qed.

(** The buffer the machine hands out next. *)
Definition ref_next_buf : UDMsg ref_machine := mkUDMsg (kr := ref_KRdmaKit) (4096, 4096)%Z (mkBytesMut 4096 4096) 0.

Definition ref_after_mr (w : ref_machine) : ref_machine :=
  mkRef (ref_clock w) (ref_alive w) (ref_sq w) (ref_landed w) (ref_rq w) (ref_inbox w)
    (ref_pages w) (ref_next_mr w + 4096) (ref_cpu w) (ref_tsk w) (ref_memory w) (ref_hints w) (ref_sent w) (ref_devs w) (ref_rounds w).

Lemma ref_gets_buf m w : alloc m 0 8192 → ref_next_mr w = 4096%Z →
  gets_buf (rl := word_RpcLayout) (live := λ w, ref_alive w = true) m (tt : @Context_t _ ref_KRdmaKit) ref_next_buf w (ref_after_mr w).
Proof.
  intros Ha Hn. split_and!; [|done| |done|done].
  - unfold UDMsg_create, UDMsg_new, UDReceiver_MTU. rewrite (io_bind_run _ _ _ (Some (4096, 4096)%Z) (ref_after_mr w)); [done|].
    destruct w. cbn in Hn. by subst.
  - split_and!; [|by exists 512%Z|done]. cbn. eapply alloc_sub; [exact Ha|lia|lia].
Qed.

Definition ref_hyper : UDHyperMeta := mkUDHyperMeta (1, 2)%Z 73 12 1.

(** A hook without sessions that has received a datagram. *)
Definition ref_fresh_hook : RPCHook ref_machine :=
  mkRPCHook (kr := ref_KRdmaKit) Service_new (mkUDDatagram (kr := ref_KRdmaKit) 7%Z 0)
    (mkUDFactory (kr := ref_KRdmaKit) tt) (ref_receiver 7 [ref_buf 1024]) ∅ RPCAnalysis_new.

Definition ref_drained (qp : Z) : ref_machine := ref_set_rq {[qp := []]} {[qp := 0]} ref_boot.

Lemma ref_can_open m : alloc m 0 8192 →
  can_open (rl := word_RpcLayout) (live := λ w, ref_alive w = true) m (hook_set_transport ref_fresh_hook (ref_receiver 7 [])) (ref_drained 7)
    (7%Z : @QueuePair _ ref_KRdmaKit) 6 ref_hyper (85%Z : @DatagramEndpoint _ ref_KRdmaKit) ref_next_buf.
Proof.
  intros Ha. split; [|done|apply map_Forall_empty|done|done|].
  - split; [|done]. intros id s msg H. cbn in H. by rewrite lookup_empty in H.
  - exists (ref_drained 7), (ref_after_mr (ref_drained 7)). split_and!; [done|done|]. by apply ref_gets_buf.
Qed.

Lemma connect_opens_session_witness :
  ∃ r c' m' w', Caller_connect (rl := word_RpcLayout) 1 ref_memory1 (mkCaller (kr := ref_KRdmaKit) (ref_receiver 5 [ref_buf 512]) ∅)
      8 6 (ref_session 5 31 0).1 ref_hyper ref_boot = Ret ((r, c', m'), w') ∧
  ∀ ms, wire m' 4096 80 ms (msg_bytes (ref_buf 1024)) → alloc ms 0 8192 →
  ∃ res hook' ms' ws', RPCHook_poll (rl := word_RpcLayout) 1 ms ref_fresh_hook ref_called = Ret ((res, hook', ms'), ws') ∧
    ∃ s', hook_sessions hook' !! 6%Z = Some (s', ref_next_buf) ∧ ss_meta s' = 85%Z.
Proof.
  destruct (connect_opens_session (rl_ok := word_RpcLayoutOk) ref_datagrams ref_LiveCard 1 5%Z ref_memory1
    (mkCaller (kr := ref_KRdmaKit) (ref_receiver 5 [ref_buf 512]) ∅) ref_boot 8 6 (ref_session 5 31 0).1 ref_hyper ref_next_buf
    (ref_after_mr ref_boot)) as (r & c' & m' & w' & E & _ & _ & Hserve).
  - apply ref_window; [done|]. apply map_Forall_empty.
  - done.
  - lia.
  - done.
  - done.
  - done.
  - done.
  - by repeat split.
  - apply ref_gets_buf; [apply ref_memory1_alloc|done].
  - exists r, c', m', w'. split; [exact E|]. intros ms Hwire Ha.
    destruct (Hserve 7%Z ms ref_fresh_hook ref_called (ref_buf 1024) (ref_receiver 7 []) (ref_drained 7) 85%Z ref_next_buf eq_refl
      (ref_can_open ms Ha) Hwire) as (res & hook' & ms' & ws' & Es & _ & Hs & _).
    exists res, hook', ms', ws'. split; [exact Es|exact Hs].
Defined.
