(* ===== verification/RcPool.v ===== *)
(** * Reliable connections ([rc_conn_pool.rs], [rdma/rc.rs], [remote_paging.rs] with [use_rc])

    Built with [use_rc], the module reads the parent's memory over reliable
    connections instead of DC queue pairs: each core has a pool of connections
    keyed by session, filled when a machine is connected.  The theorems say what
    connecting leaves in the pools, that a later read finds its connection, and
    that an interrupted connect cannot be repeated. *)

From S2P Require Import Prelude Future Rdma Machine PageStructures PageHeap RemotePageTable Bytes Descriptors ParentWire ChildWire Datagram ShadowService Rpc RpcSpec RpcCall RemotePaging RpcHandlers CallerPool.

(** KRdmaKit: a reliable queue pair is built, then connected to a service. *)
Class RcKit (W : Type) {kr : KRdmaKit W} {cm : UdCm W} := {
  PreparedQP : Type;
  build_rc : Context_t → Z → io W (Result PreparedQP ControlpathError);
  handshake : PreparedQP → Z → SaPath → io W (Result QueuePair ControlpathError);
  RcServer : Type;
  rc_server_rkey : RcServer → Z;  (** [rc_server.ctx().rkey()] *) }.

Definition RC_SERVICE_ID_BASE : Z := 33.

(** ** [rc_conn_pool.rs]: the address of a peer *)
Record RCConnectInfo := mkRCConnectInfo { rci_gid : list Z; rci_service_id : Z; rci_local_port : Z }.

Definition RCConnectInfo_create_with_port (max_nics_used : Z) (gid : list Z) (nic_idx port_num : Z) : outcome RCConnectInfo :=
  nic ← (if (max_nics_used =? 0)%Z then Panic else Ret (nic_idx mod max_nics_used)%Z);
  service_id ← u64_add RC_SERVICE_ID_BASE nic;
  Ret (mkRCConnectInfo gid service_id port_num).

Definition RCConnectInfo_create (max_nics_used : Z) (gid : list Z) (nic_idx : Z) : outcome RCConnectInfo :=
  RCConnectInfo_create_with_port max_nics_used gid nic_idx 1.

Section RcPool.
Context {W : Type} {kt : KTimerApi W} {kr : KRdmaKit W} {kn : Kernel W} {cm : UdCm W} {po : PortApi W} {rk : RcKit W} {x86 : X86Crate}.
Context {dt : DcTargets}.

(** ** [rdma/rc.rs] *)
Record RCFactory := mkRCFactory { rcf_ctx : Context_t }.
Record ConnMeta := mkConnMeta { cmt_gid : Z * Z; cmt_service_id : Z; cmt_port : Z }.
Inductive RCFactoryError := RCControlpathError (e : ControlpathError) | RCCMError (e : CMError).

Definition RCFactory_create (self : RCFactory) (meta : ConnMeta) : io W (Result RCConn RCFactoryError) :=
  client_qp ← build_rc (rcf_ctx self) (cmt_port meta);
  match client_qp with
  | Err e => mret (Err (RCControlpathError e))
  | Ok client_qp =>
      path ← resolve_inner (rcf_ctx self) (cmt_service_id meta) (cmt_port meta) (cmt_gid meta);
      match path with
      | Err e => mret (Err (RCCMError e))
      | Ok path =>
          qp ← handshake client_qp (cmt_service_id meta) path;
          match qp with
          | Err e => mret (Err (RCControlpathError e))
          | Ok qp => mret (Ok (mkRCConn qp))
          end
      end
  end.

(** ** [RCPool]

    The mutex is held or not; taking a held one blocks for good, since the
    holder is the caller itself. *)
Record RCPool := mkRCPool { rcp_pool : gmap Z RCConn; rcp_held : bool }.

Definition RCPool_new : option RCPool := Some (mkRCPool ∅ false).
Definition rcp_lock (self : RCPool) : outcome RCPool := if rcp_held self then NoFuel else Ret (mkRCPool (rcp_pool self) true).
Definition rcp_unlock (self : RCPool) : RCPool := mkRCPool (rcp_pool self) false.

Definition get_rc_conn (self : RCPool) (session_id : Z) : outcome (option RCConn * RCPool) :=
  self ← rcp_lock self;
  let ret := rcp_pool self !! session_id in
  Ret (ret, rcp_unlock self).

(** The global variables it reads. *)
Record RcGlobals := mkRcGlobals { rg_max_caller_num : Z; rg_max_nics_used : Z; rg_factories : list RCFactory }.

Definition create_rc_connection (rg : RcGlobals) (self : RCPool) (idx machine_id : Z) (info : RCConnectInfo) : io W (option () * RCPool) :=
  session_id ← lift (calculate_session_id machine_id idx (rg_max_caller_num rg));
  i ← lift (if (rg_max_nics_used rg =? 0)%Z then Panic else Ret (idx mod rg_max_nics_used rg)%Z);
  rc_factory ← lift (unwrap (rg_factories rg !! Z.to_nat i));
  gid ← lift (unwrap (string_to_gid (rci_gid info)));
  self ← lift (rcp_lock self);
  if decide (is_Some (rcp_pool self !! session_id)) then mret (None, rcp_unlock self)
  else
    r ← RCFactory_create rc_factory (mkConnMeta gid (rci_service_id info) 1);
    match r with
    | Ok rcconn => mret (Some (), rcp_unlock (mkRCPool (<[session_id := rcconn]> (rcp_pool self)) (rcp_held self)))
    | Err _ => mret (None, rcp_unlock self)
    end.

(** ** [core_syscall_handler.rs]: [syscall_connect_rc]; [rc_pool] is a global with a pool per core. *)
Fixpoint connect_rc_loop (rg : RcGlobals) (rc_pool : list RCPool) (machine_id : Z) (info : RCConnectInfo) (i n : nat) :
    io W (Z * list RCPool) :=
  match n with
  | 0 => mret (0%Z, rc_pool)
  | S n =>
      p ← lift (unwrap (rc_pool !! i));
      '(r, p) ← create_rc_connection rg p (Z.of_nat i) machine_id info;
      let rc_pool := <[i := p]> rc_pool in
      match r with
      | Some _ => connect_rc_loop rg rc_pool machine_id info (S i) n
      | None => mret ((-1)%Z, rc_pool)
      end
  end.

Definition syscall_connect_rc (rg : RcGlobals) (rc_pool : list RCPool) (machine_id : Z) (gid : list Z) (nic_idx : Z) :
    io W (Z * list RCPool) :=
  info ← lift (RCConnectInfo_create (rg_max_nics_used rg) gid nic_idx);
  connect_rc_loop rg rc_pool machine_id info 0 (Z.to_nat (rg_max_caller_num rg)).

(** ** [remote_paging.rs] with [use_rc]: the connection of the calling core *)
Definition rc_of_core (rg : RcGlobals) (rc_pool : list RCPool) (machine_id : Z) : io W RCConn :=
  cpu_id ← pmem_get_current_cpu;
  session_id ← lift (calculate_session_id machine_id cpu_id (rg_max_caller_num rg));
  p ← lift (unwrap (rc_pool !! Z.to_nat cpu_id));
  '(conn, _) ← lift (get_rc_conn p session_id);
  conn ← lift (unwrap conn);
  mret (RCConn_clone conn).

Definition remote_read_rc (fuel : nat) (rg : RcGlobals) (rc_pool : list RCPool) (dst src sz : Z) (access_info : AccessInfo W) :
    io W (Result () RdmaErr) :=
  rc ← rc_of_core rg rc_pool (ai_mac_id access_info);
  let remote_device := mkRCRemoteDevice rc in
  r ← RCRemoteDevice_read remote_device (PhysAddr_decode src) (mkMemoryKeys (ai_rkey access_info)) dst sz;
  match r with
  | Err e => mret (Err (EDatapath e))
  | Ok _ =>
      timeout_device ← Timeout_new remote_device TIMEOUT_USEC;
      '(r, _) ← block_on fuel timeout_device;
      match r with
      | Ok _ => mret (Ok ())
      | Err e =>
          if is_elapsed e then mret (Err (EDatapath TimeoutError))
          else e ← lift (unwrap (into_inner e)); mret (Err e)
      end
  end.

(** The lookup's reply has one more field in this build. *)
Record RcLookupReply := mkRcLookupReply { rr_base : DescriptorLookupReply; rr_rc_rkey : Z }.

Definition remote_descriptor_fetch_rc (fuel : nat) (rg : RcGlobals) (rc_pool : list RCPool) (d : RcLookupReply) (machine_id : Z) :
    io W (Result (UDMsg W) RdmaErr) :=
  conn ← rc_of_core rg rc_pool machine_id;
  descriptor_buf ← UDMsg_new (r_sz (rr_base d)) 0 (qp_ctx (rc conn));
  let remote_device := mkRCRemoteDevice conn in
  r ← RCRemoteDevice_read remote_device (r_pa (rr_base d)) (mkMemoryKeys (rr_rc_rkey d)) (UDMsg_get_pa descriptor_buf) (r_sz (rr_base d));
  match r with
  | Err e => mret (Err (EDatapath e))
  | Ok _ =>
      timeout_device ← Timeout_new remote_device (10 * TIMEOUT_USEC);
      '(r, _) ← block_on fuel timeout_device;
      match r with
      | Ok _ => mret (Ok descriptor_buf)
      | Err e => e ← lift (unwrap (into_inner e)); mret (Err e)
      end
  end.

(** ** [rpc_handlers.rs] with [use_rc]; only the number of [rc_cm_service] matters. *)
Definition handle_descriptor_addr_lookup_rc {C} `{Pod RcLookupReply} (process_service : Sps W) (dc_target : list DCTarget)
    (dc_target_meta : list (Z * (Z * Z))) (rc_cm_service : list C) (rc_service : list RcServer) : Callback W := λ input output m,
  r ← lift (memcpy_deserialize Z (H := pod_u64) m input);
  let key := match r with Some (_, key) => key | None => 0%Z end in
  match query_descriptor_buf process_service key with
  | None => mret (0%Z, m)
  | Some (addr, len) =>
      cpu ← pmem_get_current_cpu;
      dc_target_idx ← lift (match dc_target with [] => Panic | _ => Ret (Z.to_nat cpu mod length dc_target) end);
      target ← lift (unwrap (dc_target !! dc_target_idx));
      '(lid, gid) ← lift (unwrap (dc_target_meta !! dc_target_idx));
      cpu ← pmem_get_current_cpu;
      rc_server_idx ← lift (match rc_cm_service with [] => Panic | _ => Ret (Z.to_nat cpu mod length rc_cm_service) end);
      rc_server ← lift (unwrap (rc_service !! rc_server_idx));
      let reply := mkRcLookupReply (mkDescriptorLookupReply (UDMsg_get_pa addr) len true (target_rkey target) lid gid
        (target_dct_num target) (target_dc_key target)) (rc_server_rkey rc_server) in
      '(_, m) ← lift (default_serialize m reply output);
      n ← lift (default_serialization_buf_len reply);
      mret (n, m)
  end.
End RcPool.
Arguments RCPool W {kr}.
Arguments RCFactory W {kr}.
Arguments RcGlobals W {kr}.

(** ** Connecting *)
Section Connecting.
Context {W : Type} {kr : KRdmaKit W} {cm : UdCm W} {po : PortApi W} {rk : RcKit W}.

Abbreviation pools := (list (RCPool W)).

(** A configuration in which connecting does not panic: there is a factory per
    card, the session numbers fit, the gid can be parsed, and the kit returns. *)
Record rc_config (rg : RcGlobals W) (machine_id : Z) (gid : list Z) : Prop := {
  rcc_callers : (0 ≤ rg_max_caller_num rg)%Z;
  rcc_nics : (0 < rg_max_nics_used rg < 2 ^ 63)%Z;
  rcc_factories : (rg_max_nics_used rg ≤ Z.of_nat (length (rg_factories rg)))%Z;
  rcc_fit : (0 ≤ machine_id)%Z ∧ (machine_id * rg_max_caller_num rg + rg_max_caller_num rg < 2 ^ 64)%Z;
  rcc_gid : is_Some (string_to_gid gid);
  rcc_returns f meta (w : W) : ∃ r w', RCFactory_create f meta w = Ret (r, w') }.

Definition rc_session (rg : RcGlobals W) (machine_id : Z) (i : nat) : Z := (machine_id * rg_max_caller_num rg + Z.of_nat i)%Z.

Definition unheld (ps : pools) : Prop := ∀ i p, ps !! i = Some p → rcp_held p = false.

(** What a connect leaves: the cores from [i] up to [k] have a new connection,
    nothing else has changed. *)
Definition connected_upto (rg : RcGlobals W) (machine_id : Z) (ps : pools) (i k : nat) (ps' : pools) : Prop :=
  length ps' = length ps ∧ ∀ j p, ps !! j = Some p →
    (i ≤ j < k → rcp_pool p !! rc_session rg machine_id j = None ∧
      ∃ conn, ps' !! j = Some (mkRCPool (<[rc_session rg machine_id j := conn]> (rcp_pool p)) false)) ∧
    (¬ (i ≤ j < k) → ps' !! j = Some p).

Lemma rc_session_ok rg mac gid i :
  rc_config rg mac gid → (Z.of_nat i < rg_max_caller_num rg)%Z →
  calculate_session_id mac (Z.of_nat i) (rg_max_caller_num rg) = Ret (rc_session rg mac i).
Proof.
  intros [Hc _ _ [H0 Hf] _ _] Hi. unfold calculate_session_id, rc_session.
  assert (0 ≤ mac * rg_max_caller_num rg)%Z by nia.
  unfold u64_mul. rewrite u64_checked_Ret by (unfold is_u64; lia). cbn [mbind outcome_bind].
  apply u64_add_Ret. unfold is_u64. lia.
Qed.

Lemma create_rc_connection_ok rg mac info p i w :
  rc_config rg mac (rci_gid info) → (Z.of_nat i < rg_max_caller_num rg)%Z → rcp_held p = false →
  ∃ r p' w', create_rc_connection rg p (Z.of_nat i) mac info w = Ret ((r, p'), w') ∧
    match r with
    | Some _ => rcp_pool p !! rc_session rg mac i = None ∧
        ∃ conn, p' = mkRCPool (<[rc_session rg mac i := conn]> (rcp_pool p)) false
    | None => p' = p
    end ∧ (is_Some (rcp_pool p !! rc_session rg mac i) → r = None ∧ w' = w).
Proof.
  intros Hc Hi Hh. unfold create_rc_connection. pure (rc_session_ok rg mac _ i Hc Hi).
  destruct (Z.eqb_spec (rg_max_nics_used rg) 0) as [E0|_]; [destruct Hc; lia|]. pure (eq_refl (Ret (Z.of_nat i mod rg_max_nics_used rg)%Z)).
  destruct (rg_factories rg !! Z.to_nat (Z.of_nat i mod rg_max_nics_used rg)) as [f|] eqn:Ef.
  2: { apply lookup_ge_None in Ef. destruct Hc. pose proof (Z.mod_pos_bound (Z.of_nat i) (rg_max_nics_used rg)). lia. }
  pure (eq_refl (Ret f)). destruct (rcc_gid _ _ _ Hc) as [g Eg]. rewrite Eg. pure (eq_refl (Ret g)).
  destruct p as [m held]. cbn in Hh. subst held. pure (eq_refl (Ret (mkRCPool m true))). cbn [rcp_pool rcp_unlock rcp_held].
  destruct (decide (is_Some (m !! rc_session rg mac i))) as [Hs|Hn]; [by exists None, (mkRCPool m false), w|].
  destruct (rcc_returns _ _ _ Hc f (mkConnMeta g (rci_service_id info) 1) w) as (r & w' & E). step E.
  apply eq_None_not_Some in Hn. rewrite Hn. destruct r as [conn|e].
  - eexists (Some ()), _, w'. split_and!; [done|done|by exists conn|by intros []].
  - exists None, (mkRCPool m false), w'. split_and!; [done|done|by intros []].
Qed.

Lemma connected_step rg mac ps i k p p' ps' :
  ps !! i = Some p → rcp_pool p !! rc_session rg mac i = None →
  (∃ conn, p' = mkRCPool (<[rc_session rg mac i := conn]> (rcp_pool p)) false) → i < k →
  connected_upto rg mac (<[i := p']> ps) (S i) k ps' → connected_upto rg mac ps i k ps'.
Proof.
  intros Hp Hn [conn ->] Hik [Hlen Hps]. rewrite length_insert in Hlen. split; [done|]. intros j q Hq.
  destruct (decide (j = i)) as [->|Hne].
  - rewrite Hp in Hq. injection Hq as <-. split; [|lia]. intros _. split; [done|]. exists conn.
    refine (proj2 (Hps i _ (list_lookup_insert_eq _ _ _ (lookup_lt_Some _ _ _ Hp))) _). lia.
  - destruct (Hps j q) as [H1 H2]; [by rewrite list_lookup_insert_ne|]. split; intros Hj; [apply H1|apply H2]; lia.
Qed.

Lemma connect_rc_loop_ok rg mac info n i ps w :
  rc_config rg mac (rci_gid info) → (Z.of_nat (i + n) ≤ rg_max_caller_num rg)%Z → i + n ≤ length ps → unheld ps →
  ∃ r ps' w' k, connect_rc_loop rg ps mac info i n w = Ret ((r, ps'), w') ∧ i ≤ k ≤ i + n ∧
    r = (if decide (k = i + n) then 0%Z else (-1)%Z) ∧ connected_upto rg mac ps i k ps'.
Proof.
  intros Hc. revert i ps w. induction n as [|n IH]; intros i ps w Hi Hlen Hu.
  - exists 0%Z, ps, w, i. rewrite Nat.add_0_r, decide_True by done. split_and!; [done|lia|lia|done|]. split; [done|].
    intros j p Hj. split; [lia|done].
  - cbn [connect_rc_loop]. destruct (lookup_lt_is_Some_2 ps i) as [p Hp]; [lia|]. rewrite Hp. pure (eq_refl (Ret p)).
    destruct (create_rc_connection_ok rg mac info p i w Hc) as (r & p' & w1 & E & Hr & _); [lia|by eapply Hu|].
    step E. destruct r as [[]|].
    + destruct Hr as [Hn Hp']. destruct (IH (S i) (<[i := p']> ps) w1) as (r & ps' & w' & k & E' & Hk & -> & Hps); [lia|rewrite length_insert; lia| |].
      { intros j q. rewrite list_lookup_insert_Some. intros [(_ & -> & _)|[_ Hq]]; [by destruct Hp' as [conn ->]|by eapply Hu]. }
      exists (if decide (k = S i + n) then 0%Z else (-1)%Z), ps', w', k. rewrite Nat.add_succ_comm in *.
      split_and!; [done|lia|lia|done|]. eapply connected_step; eauto; lia.
    + subst p'. rewrite list_insert_id by done. exists (-1)%Z, ps, w1, i. rewrite decide_False by lia.
      split_and!; [done|lia|lia|done|]. split; [done|]. intros j q Hj. split; [lia|done].
Qed.

Lemma connect_info_ok rg mac gid nic : rc_config rg mac gid →
  RCConnectInfo_create (rg_max_nics_used rg) gid nic =
    Ret (mkRCConnectInfo gid (RC_SERVICE_ID_BASE + nic mod rg_max_nics_used rg) 1).
Proof.
  intros [_ Hn _ _ _ _]. unfold RCConnectInfo_create, RCConnectInfo_create_with_port.
  destruct (Z.eqb_spec (rg_max_nics_used rg) 0); [lia|]. cbn [mbind outcome_bind].
  pose proof (Z.mod_pos_bound nic (rg_max_nics_used rg)).
  rewrite u64_add_Ret by (unfold is_u64, RC_SERVICE_ID_BASE; lia). done.
Qed.

Lemma connected_unheld rg mac ps k ps' : unheld ps → connected_upto rg mac ps 0 k ps' → unheld ps'.
Proof.
  intros Hu [Hlen Hps] i q Hq. destruct (lookup_lt_is_Some_2 ps i) as [p Hp]; [rewrite <- Hlen; by eapply lookup_lt_Some|].
  destruct (Hps i p Hp) as [H1 H2]. destruct (decide (0 ≤ i < k)) as [Hi|Hi].
  - destruct (H1 Hi) as (_ & conn & E). rewrite E in Hq. by injection Hq as <-.
  - rewrite (H2 Hi) in Hq. injection Hq as <-. by eapply Hu.
Qed.

Lemma connect_rc_result_ok rg ps mac gid nic w :
  rc_config rg mac gid → length ps = Z.to_nat (rg_max_caller_num rg) → unheld ps →
  ∃ r ps' w' k, syscall_connect_rc rg ps mac gid nic w = Ret ((r, ps'), w') ∧ k ≤ length ps ∧
    r = (if decide (k = length ps) then 0%Z else (-1)%Z) ∧ connected_upto rg mac ps 0 k ps' ∧ unheld ps'.
Proof.
  intros Hc Hlen Hu. unfold syscall_connect_rc. pure (connect_info_ok rg mac gid nic Hc).
  destruct (connect_rc_loop_ok rg mac (mkRCConnectInfo gid (RC_SERVICE_ID_BASE + nic mod rg_max_nics_used rg) 1)
    (Z.to_nat (rg_max_caller_num rg)) 0 ps w Hc) as (r & ps' & w' & k & E & Hk & Hr & Hps); [destruct Hc; lia|lia|done|].
  exists r, ps', w', k. rewrite Hlen. split_and!; [done|lia|done|exact Hps|by eapply connected_unheld].
Qed.

(** Connecting to a machine over reliable connections: the call returns, gives
    every core up to some [k] a connection under its own session of the machine,
    reports success exactly when [k] is the number of cores, and changes nothing
    else; no mutex stays held. *)
Theorem connect_rc_result rg ps mac gid nic w :
  rc_config rg mac gid → length ps = Z.to_nat (rg_max_caller_num rg) → unheld ps →
  ∃ r ps' w' k, syscall_connect_rc rg ps mac gid nic w = Ret ((r, ps'), w') ∧ k ≤ length ps ∧
    r = (if decide (k = length ps) then 0%Z else (-1)%Z) ∧ connected_upto rg mac ps 0 k ps' ∧ unheld ps'.
Proof. apply connect_rc_result_ok. Qed.

(** A connect that reached the first core, whether it went through or stopped
    half way, cannot be repeated: every later attempt for the same machine fails
    at once and changes nothing, so the cores it had not reached stay without a
    connection. *)
Theorem connect_rc_not_repeatable rg ps mac gid nic w r ps' w' gid2 nic2 w2 :
  rc_config rg mac gid → rc_config rg mac gid2 → length ps = Z.to_nat (rg_max_caller_num rg) → unheld ps →
  syscall_connect_rc rg ps mac gid nic w = Ret ((r, ps'), w') → ps' ≠ ps →
  syscall_connect_rc rg ps' mac gid2 nic2 w2 = Ret (((-1)%Z, ps'), w2).
Proof.
  intros Hc Hc2 Hlen Hu E Hne.
  destruct (connect_rc_result_ok rg ps mac gid nic w Hc Hlen Hu) as (r1 & ps1 & w1 & k & E1 & Hk & _ & Hps & Hu').
  rewrite E in E1. injection E1 as <- <- <-. destruct (decide (k = 0)) as [->|Hk0].
  { destruct Hne. apply list_eq. intros i. destruct Hps as [Hl Hps]. destruct (ps !! i) as [p|] eqn:Ep.
    - apply (Hps i p Ep). lia.
    - apply lookup_ge_None. apply lookup_ge_None in Ep. lia. }
  destruct (lookup_lt_is_Some_2 ps 0) as [p Hp]; [lia|].
  destruct (proj2 Hps 0 p Hp) as [H0 _]. destruct H0 as (_ & conn & Hp'); [lia|].
  unfold syscall_connect_rc. pure (connect_info_ok rg mac gid2 nic2 Hc2).
  destruct (Z.to_nat (rg_max_caller_num rg)) as [|n] eqn:En; [lia|]. cbn [connect_rc_loop]. rewrite Hp'.
  pure (eq_refl (Ret (mkRCPool (<[rc_session rg mac 0 := conn]> (rcp_pool p)) false))).
  destruct (create_rc_connection_ok rg mac (mkRCConnectInfo gid2 (RC_SERVICE_ID_BASE + nic2 mod rg_max_nics_used rg) 1)
    (mkRCPool (<[rc_session rg mac 0 := conn]> (rcp_pool p)) false) 0 w2 Hc2) as (r2 & p2 & w3 & E2 & Hr2 & Hs); [lia|done|].
  destruct Hs as [-> ->]; [cbn; rewrite lookup_insert_eq; by eexists|]. subst p2. step E2. by rewrite list_insert_id.
Qed.
End Connecting.

(** ** Reading *)
Section RcReading.
Context {W : Type} {kt : KTimerApi W} {kt_ok : KTimerOk W} {kr : KRdmaKit W} {nic : NicOk W}.
Context {kn : Kernel W} {kn_ok : KernelOk W} {cm : UdCm W} {po : PortApi W} {rk : RcKit W}.

Definition rc_request (ai : AccessInfo W) (mr : MemoryRegion) (src sz : Z) : Wr W :=
  mkWr _ _ READ None mr (0, sz)%Z true (PhysAddr_decode src) (ai_rkey ai).

Lemma rc_of_core_ok (rg : RcGlobals W) (ps : list (RCPool W)) mac gid c p conn (w : W) :
  rc_config rg mac gid → pmem_get_current_cpu w = Ret (c, w) → (0 ≤ c < rg_max_caller_num rg)%Z →
  ps !! Z.to_nat c = Some p → rcp_held p = false → rcp_pool p !! rc_session rg mac (Z.to_nat c) = Some conn →
  rc_of_core rg ps mac w = Ret (RCConn_clone conn, w).
Proof.
  intros Hc Ec Hcc Hp Hh Hconn. unfold rc_of_core. step Ec.
  pose proof (rc_session_ok rg mac gid (Z.to_nat c) Hc) as Hs. rewrite Z2Nat.id in Hs by lia.
  pure (Hs ltac:(lia)). rewrite Hp. pure (eq_refl (Ret p)).
  unfold get_rc_conn, rcp_lock. rewrite Hh. cbn [mbind outcome_bind rcp_pool]. rewrite Hconn. done.
Qed.

Lemma remote_read_rc_ok fuel rg ps dst src sz ai conn w :
  rc_of_core rg ps (ai_mac_id ai) w = Ret (conn, w) → all_signaled (outstanding (rc conn) w) →
  (ticks_per_usec * TIMEOUT_USEC < Z.of_nat fuel)%Z →
  ∃ mr r w', remote_read_rc fuel rg ps dst src sz ai w = Ret (r, w') ∧
    get_virt_addr mr = bd_phys_to_virt dst ∧ allocated w' = allocated w ∧
    read_result (rc conn) (rc_request ai mr src sz) r w w'.
Proof.
  intros Ec Hsig Hf. destruct (mr_new_from_raw_ok (qp_ctx (rc conn)) (bd_phys_to_virt dst) sz) as (mr & Emr & Hva).
  destruct (post_read_ok (rc conn) mr (0, sz)%Z true (PhysAddr_decode src) (ai_rkey ai) (get_virt_addr mr) w) as (rp & w1 & Ep & _ & Hq).
  exists mr. unfold remote_read_rc. step Ec.
  assert (Er : RCRemoteDevice_read (mkRCRemoteDevice conn) (PhysAddr_decode src) (mkMemoryKeys (ai_rkey ai)) dst sz w = Ret (rp, w1))
    by (unfold RCRemoteDevice_read; cbn [dev_rc]; rewrite Emr; exact Ep).
  step Er. destruct rp as [[]|e].
  - fold (rc_request ai mr src sz) in Hq.
    destruct (await_device_ok (D := RCRemoteDevice) fuel (mkRCRemoteDevice conn) TIMEOUT_USEC w1) as (r & to & w' & Ew & Ha & Hr).
    { cbn [dev_rc]. rewrite Hq. apply Forall_app. split; [done|]. by apply Forall_singleton. }
    { unfold TIMEOUT_USEC in *. pose proof ticks_per_usec_pos. lia. }
    cbn [dev_rc] in Hr. rewrite Hq in Hr. rewrite (post_read_pages _ _ _ _ _ _ _ _ _ _ Ep) in Ha.
    apply io_bind_Ret in Ew as (to0 & w2 & E2 & E3). step E2. step E3.
    destruct r as [wc|[[e|s]|]].
    + by exists (Ok ()), w'.
    + exists (Err (EDatapath e)), w'. split_and!; [done..|]. by right.
    + by exists (Err (EWC s)), w'.
    + exists (Err (EDatapath TimeoutError)), w'. split_and!; [done..|]. by right.
  - exists (Err (EDatapath e)), w1. split_and!; [done|done|by eapply post_read_pages|]. left. by rewrite Hq, app_nil_r.
Qed.

(** C29: Once a machine is connected every core can read from it, while no request is
    in flight on any connection of the pools (a read that timed out leaves one):
    the read finds the core's connection, ends within its timeout, and reports
    success only when its own data has landed, with the connection idle again. *)
Theorem rc_read_after_connect rg ps mac gid nicx w ps' w' fuel dst src sz ai c w2 :
  rc_config rg mac gid → length ps = Z.to_nat (rg_max_caller_num rg) → unheld ps →
  syscall_connect_rc rg ps mac gid nicx w = Ret ((0%Z, ps'), w') →
  ai_mac_id ai = mac → pmem_get_current_cpu w2 = Ret (c, w2) → (0 ≤ c < rg_max_caller_num rg)%Z →
  (∀ i p id conn, ps' !! i = Some p → rcp_pool p !! id = Some conn → outstanding (rc conn) w2 = []) →
  (ticks_per_usec * TIMEOUT_USEC < Z.of_nat fuel)%Z →
  ∃ p conn mr r w3, ps' !! Z.to_nat c = Some p ∧ rcp_pool p !! rc_session rg mac (Z.to_nat c) = Some conn ∧
    remote_read_rc fuel rg ps' dst src sz ai w2 = Ret (r, w3) ∧
    get_virt_addr mr = bd_phys_to_virt dst ∧ allocated w3 = allocated w2 ∧
    match r with
    | Ok _ => landed (rc_request ai mr src sz) w3 ∧ outstanding (rc conn) w3 = []
    | Err (EWC s) => s ≠ IB_WC_SUCCESS ∧ outstanding (rc conn) w3 = []
    | Err (EDatapath _) => outstanding (rc conn) w3 ∈ [[]; [rc_request ai mr src sz]]
    end.
Proof.
  intros Hc Hlen Hu E Hai Ec Hcc Hidle Hf.
  destruct (connect_rc_result_ok rg ps mac gid nicx w Hc Hlen Hu) as (r1 & ps1 & w1 & k & E1 & Hk & Hr & Hps & Hu').
  rewrite E in E1. injection E1 as Er <- <-. rewrite <- Er in Hr. destruct (decide (k = length ps)) as [->|]; [|done].
  destruct (lookup_lt_is_Some_2 ps (Z.to_nat c)) as [p Hp]; [lia|].
  destruct (proj2 Hps _ _ Hp) as [H0 _]. destruct H0 as (_ & conn & Hp'); [pose proof (lookup_lt_Some _ _ _ Hp); lia|].
  assert (Hcn : (<[rc_session rg mac (Z.to_nat c) := conn]> (rcp_pool p)) !! rc_session rg mac (Z.to_nat c) = Some conn) by apply lookup_insert_eq.
  pose proof (rc_of_core_ok rg ps' mac gid c _ conn w2 Hc Ec Hcc Hp' eq_refl Hcn) as Eo. rewrite <- Hai in Eo.
  pose proof (Hidle _ _ _ _ Hp' Hcn) as Hq.
  destruct (remote_read_rc_ok fuel rg ps' dst src sz ai (RCConn_clone conn) w2 Eo) as (mr & r & w3 & Ew & Hva & Ha & Hres); [|done|].
  { unfold RCConn_clone. cbn [rc]. rewrite Hq. constructor. }
  eexists _, conn, mr, r, w3. split_and!; [exact Hp'|exact Hcn|done..|]. unfold read_result, RCConn_clone in Hres. cbn [rc] in Hres. rewrite Hq in Hres.
  destruct r as [[]|[e|s]].
  - by destruct Hres as (wr & rest & [= <- <-] & ? & ?).
  - destruct Hres as [Hr'|Hr']; rewrite Hr'; set_solver.
  - by destruct Hres as (Hs & wr & rest & [= <- <-] & ?).
Qed.
End RcReading.

(** ** On the reference machine

    A kit that connects [n] times and then refuses. *)
Definition limited_RcKit (n : Z) : RcKit ref_machine := {|
  PreparedQP := Z;
  build_rc := λ _ port w, if (ref_clock w <? n)%Z then Ret (Ok (100 + ref_clock w)%Z, ref_tick w) else Ret (Err tt, w);
  handshake := λ qp _ _ w, Ret (Ok qp, w);
  RcServer := ();
  rc_server_rkey := λ _, 9%Z |}.

Definition ref_rg : RcGlobals ref_machine := mkRcGlobals (kr := ref_KRdmaKit) 2 1 [mkRCFactory (kr := ref_KRdmaKit) tt].
Definition ref_gid : list Z := replicate 39 48%Z.
Definition ref_rc_pools : list (RCPool ref_machine) := replicate 2 (mkRCPool (kr := ref_KRdmaKit) ∅ false).

Lemma ref_rc_config n : rc_config (rk := limited_RcKit n) ref_rg 3 ref_gid.
Proof.
  split; [done|done|done|done|by eexists|]. intros [[]] meta w. unfold RCFactory_create.
  cbn [build_rc limited_RcKit]. unfold mbind at 1, io_bind at 1. destruct (ref_clock w <? n)%Z; [|by do 2 eexists].
  by do 2 eexists.
Qed.

Lemma ref_rc_unheld : unheld ref_rc_pools.
Proof. intros i p H. apply lookup_replicate in H as [-> _]. done. Qed.

Lemma connect_rc_result_witness : ∃ r ps' w' k,
  syscall_connect_rc (rk := limited_RcKit 5) ref_rg ref_rc_pools 3 ref_gid 0 ref_boot = Ret ((r, ps'), w') ∧
  connected_upto ref_rg 3 ref_rc_pools 0 k ps' ∧ r = 0%Z.
Proof.
  destruct (connect_rc_result (rk := limited_RcKit 5) ref_rg ref_rc_pools 3 ref_gid 0 ref_boot (ref_rc_config 5) eq_refl ref_rc_unheld)
    as (r & ps' & w' & k & E & _ & _ & Hps & _).
  exists r, ps', w', k. split; [exact E|]. split; [exact Hps|].
  assert (H : match syscall_connect_rc (rk := limited_RcKit 5) ref_rg ref_rc_pools 3 ref_gid 0 ref_boot with
    | Ret ((r, _), _) => r | _ => 1%Z end = 0%Z) by (vm_compute; exact eq_refl).
  by rewrite E in H.
Defined.

(** The second core is refused; the repetition fails although the first core is connected. *)
Lemma connect_rc_not_repeatable_witness : ∃ ps' w',
  syscall_connect_rc (rk := limited_RcKit 1) ref_rg ref_rc_pools 3 ref_gid 0 ref_boot = Ret (((-1)%Z, ps'), w') ∧
  syscall_connect_rc (rk := limited_RcKit 1) ref_rg ps' 3 ref_gid 0 ref_boot = Ret (((-1)%Z, ps'), ref_boot).
Proof.
  destruct (connect_rc_result_ok (rk := limited_RcKit 1) ref_rg ref_rc_pools 3 ref_gid 0 ref_boot (ref_rc_config 1) eq_refl ref_rc_unheld)
    as (r & ps' & w' & k & E & _).
  assert (H : match syscall_connect_rc (rk := limited_RcKit 1) ref_rg ref_rc_pools 3 ref_gid 0 ref_boot with
    | Ret ((r, ps), _) => (r, (λ p, size (rcp_pool p)) <$> ps) | _ => (1%Z, []) end = ((-1)%Z, [1; 0])) by (vm_compute; exact eq_refl).
  rewrite E in H. injection H as -> Hsz.
  exists ps', w'. split; [exact E|].
  apply (connect_rc_not_repeatable (rk := limited_RcKit 1) ref_rg ref_rc_pools 3 ref_gid 0 ref_boot (-1) ps' w' ref_gid 0 ref_boot
    (ref_rc_config 1) (ref_rc_config 1) eq_refl ref_rc_unheld E). by intros ->.
Defined.

Lemma rc_read_after_connect_witness : ∃ ps' w' conn mr r w3,
  syscall_connect_rc (rk := limited_RcKit 5) ref_rg ref_rc_pools 3 ref_gid 0 ref_boot = Ret ((0%Z, ps'), w') ∧
  remote_read_rc ref_fuel ref_rg ps' 8192 4096 4096 (mkAccessInfo (kr := ref_KRdmaKit) 3%Z 77 3) ref_boot = Ret (r, w3) ∧
  (r = Ok () → landed (rc_request (mkAccessInfo (kr := ref_KRdmaKit) 3%Z 77 3) mr 4096 4096) w3 ∧ outstanding (rc conn) w3 = []).
Proof.
  destruct (connect_rc_result_ok (rk := limited_RcKit 5) ref_rg ref_rc_pools 3 ref_gid 0 ref_boot (ref_rc_config 5) eq_refl ref_rc_unheld)
    as (r & ps' & w' & k & E & _).
  assert (H : match syscall_connect_rc (rk := limited_RcKit 5) ref_rg ref_rc_pools 3 ref_gid 0 ref_boot with
    | Ret ((r, _), _) => r | _ => 1%Z end = 0%Z) by (vm_compute; exact eq_refl).
  rewrite E in H. subst r.
  assert (Ec : pmem_get_current_cpu ref_boot = Ret (0%Z, ref_boot)) by (by vm_compute).
  destruct (rc_read_after_connect (rk := limited_RcKit 5) ref_rg ref_rc_pools 3 ref_gid 0 ref_boot ps' w' ref_fuel 8192 4096 4096
    (mkAccessInfo (kr := ref_KRdmaKit) 3%Z 77 3) 0 ref_boot (ref_rc_config 5) eq_refl ref_rc_unheld E eq_refl Ec)
    as (p & conn & mr & r & w3 & _ & _ & E3 & _ & _ & Hr); [done|done|by apply ref_fuel_ok|].
  exists ps', w', conn, mr, r, w3. split; [exact E|]. split; [exact E3|]. intros ->. exact Hr.
Defined.
