(* ===== verification/AddressSpace.v ===== *)
(** * Becoming the parent ([descriptors/child.rs], [apply_to])

    The child drops its own address space, maps the parent's VMAs over the
    device file and takes over the parent's registers (build without
    [eager-resume]). *)

From S2P Require Import Prelude Future Rdma Descriptors Task RefTask Machine PageStructures PageHeap RemotePageTable ChildWire RemotePaging.

Section ApplyTo.
Context {W : Type} {ta : TaskApi W} {kr : KRdmaKit W} {kn : Kernel W} {vc : VmConsts}.

(** [fuel] bounds the number of VMAs of the child. *)
Definition apply_to (fuel : nat) (dc_factories : list (DCFactory W)) (self : ChildDescriptor) (file : Z) : io W () :=
  unmap_self fuel ≫= λ _,
  access_info ← AccessInfo_new dc_factories (c_machine_info self);
  lift (unwrap access_info) ≫= λ _,
  map_regions file (c_vma self) ≫= λ _,
  set_mm_reg_states (c_regs self).
End ApplyTo.

Section ApplyToSpec.
Context {W : Type} {ta : TaskApi W} {ok : TaskOk W} {vc : VmConsts}.
Context {kt : KTimerApi W} {kt_ok : KTimerOk W} {kr : KRdmaKit W} {nic : NicOk W} {kn : Kernel W} {kn_ok : KernelOk W}.

(** An address handle for the parent can be made, whatever the state, and
    making one does not touch the task. *)
Definition reachable_parent (mi : RDMADescriptor) : Prop := ∀ ctx w, ∃ ep w',
  endpoint_new ctx 1 (lid mi) (gid mi) 0 0 (dct_num mi) (dct_key mi) w = Ret (Some ep, w') ∧
  areas w' = areas w ∧ user_regs w' = user_regs w ∧ (mm_inv w → mm_inv w').

Lemma AccessInfo_new_ok (dcf : list (DCFactory W)) mi w :
  dcf ≠ [] → reachable_parent mi →
  ∃ ai w', AccessInfo_new dcf mi w = Ret (Some ai, w') ∧ ai_rkey ai = Descriptors.rkey mi ∧
    areas w' = areas w ∧ user_regs w' = user_regs w ∧ (mm_inv w → mm_inv w').
Proof.
  intros Hne Hr. unfold AccessInfo_new, AccessInfo_new_with_port, random_select_dc_factory_on_core.
  destruct (current_cpu_ok w) as (c & Ec & Hc).
  assert (Hlen : length dcf ≠ 0) by (by destruct dcf).
  destruct (lookup_lt_is_Some_2 dcf (Z.to_nat (c mod Z.of_nat (length dcf)))) as [f Hf].
  { pose proof (Z.mod_pos_bound c (Z.of_nat (length dcf))). lia. }
  erewrite io_bind_run; [|rewrite (io_bind_run _ _ _ _ _ Ec), decide_False by done; by rewrite Hf].
  destruct (Hr (rctx f) w) as (ep & w' & E & Hw). rewrite (io_bind_run _ _ _ _ _ E). by eexists _, w'.
Qed.

Lemma apply_to_ok fuel (dcf : list (DCFactory W)) self file w :
  mm_inv w → length (areas w) < fuel → dcf ≠ [] → reachable_parent (c_machine_info self) →
  Forall vma_ok (with_next (c_vma self)) → (0 ≤ fs (c_regs self) < max_addr)%Z → (0 ≤ gs (c_regs self) < max_addr)%Z →
  ∃ w', apply_to fuel dcf self file w = Ret ((), w') ∧ mm_inv w' ∧
    Forall2 (mapped_as file) (with_next (c_vma self)) (areas w') ∧ user_regs w' = c_regs self.
Proof.
  intros Hinv Hf Hne Hr Hv Hfs Hgs. unfold apply_to.
  destruct (unmap_loop_ok fuel w Hinv Hf) as (w1 & E1 & Hinv1 & Hl1 & _).
  erewrite io_bind_run; [|unfold unmap_self, VMAIter_new; by rewrite (io_bind_run _ _ _ _ _ (get_mmap_ok w Hinv))].
  destruct (AccessInfo_new_ok dcf (c_machine_info self) w1 Hne Hr) as (ai & w2 & E2 & _ & Hl2 & _ & Hi2).
  rewrite (io_bind_run _ _ _ _ _ E2), (io_lift_run _ _ _ ai eq_refl).
  destruct (map_regions_ok file (c_vma self) w2 (Hi2 Hinv1) Hv) as (l & l2 & w3 & E3 & Hinv3 & Hl3 & Hb3 & Hm3 & _).
  { rewrite Hl2, Hl1. destruct (c_vma self); [done|constructor]. }
  rewrite (io_bind_run _ _ _ _ _ E3). rewrite Hl2, Hl1 in Hb3. apply fmap_nil_inv in Hb3 as ->.
  destruct (set_mm_reg_states_ok (c_regs self) w3 Hinv3 Hfs Hgs) as (w4 & E4 & Hr4 & Hl4 & Hinv4).
  exists w4. rewrite Hl4, Hl3. done.
Qed.

(** C18: [apply_to] rebuilds the parent's address space.  Whatever the child had
    mapped is gone; there is exactly one area for each VMA of the parent, in
    order, over the device file, that starts where the parent's VMA starts and
    covers it.  Anonymous areas grow into the gap above them by a gigabyte at
    most and never into the next VMA.  The registers are the parent's.  No
    [vm_area_struct] is read after the kernel has freed it. *)
Theorem apply_to_rebuilds fuel (dcf : list (DCFactory W)) self file w :
  mm_inv w → length (areas w) < fuel → dcf ≠ [] → reachable_parent (c_machine_info self) →
  Forall vma_ok (with_next (c_vma self)) → (0 ≤ fs (c_regs self) < max_addr)%Z → (0 ≤ gs (c_regs self) < max_addr)%Z →
  ∃ w', apply_to fuel dcf self file w = Ret ((), w') ∧ mm_inv w' ∧
    Forall2 (mapped_as file) (with_next (c_vma self)) (areas w') ∧ user_regs w' = c_regs self.
Proof. apply apply_to_ok. Qed.
End ApplyToSpec.

(** A child with two areas of its own takes over a parent with code, heap and stack. *)
Definition example_vmas : list VMADescriptor :=
  [mkVMADescriptor (4194304, 4202496) 5 0 false; mkVMADescriptor (8388608, 8392704) 3 0 true;
   mkVMADescriptor (140737488216064, 140737488224256) 259 0 true]%Z.

Definition example_child : ChildDescriptor :=
  mkChildDescriptor (mkRegDescriptor (mkStackRegisters 15 14 13 12 0 0 11 10 9 8 0 0 0 0 0 0 4194304 0 0 140737488220160 0) 4096 8192)
    root_rpt example_vmas (mkRDMADescriptor 0 1 (0, 0) 5 6 7 8 9)%Z.

Definition example_task : ref_task :=
  mkRefTask (relink [(1, VmArea.mk 65536 69632 0 1 1 1 5); (2, VmArea.mk 131072 139264 0 1 1 1 5)])%Z
    (rt_regs ref_idle) 3.

Lemma example_task_inv : rt_inv example_task.
Proof.
  split; cbn.
  - apply (bool_decide_unpack _). vm_compute. done.
  - split_and!; lia.
  - split; [lia|]. split; [lia|]. split; [constructor; [cbn; lia|constructor]|]. split; [lia|]. split; [lia|]. by split.
  - repeat constructor; cbn; lia.
  - lia.
Qed.

Lemma apply_to_rebuilds_witness :
  ∃ w', apply_to (vc := linux_VmConsts) 3 [mkDCFactory (kr := ref_KRdmaKit) tt] example_child 77
      (ref_set_tsk example_task ref_boot) = Ret ((), w') ∧
    (λ x, (VmArea.vm_start x.2, VmArea.vm_end x.2)) <$> areas w' =
      [(4194304, 4202496); (8388608, 1082134528); (140737488216064, 140737488224256)]%Z.
Proof.
  destruct (apply_to_rebuilds (vc := linux_VmConsts) 3 [mkDCFactory (kr := ref_KRdmaKit) tt] example_child 77
    (ref_set_tsk example_task ref_boot)) as (w' & E & _ & Hm & _).
  - exact example_task_inv.
  - cbn. lia.
  - done.
  - intros ctx w. by eexists _, w.
  - assert (Hd : ∀ k, (4096 | k * 4096)%Z) by (intros k; by exists k).
    repeat constructor; cbn; try lia.
    + apply (Hd 1024%Z).
    + apply (Hd 1026%Z).
    + apply (Hd 2048%Z).
    + apply (Hd 2048%Z).
    + apply (Hd 2049%Z).
    + apply (Hd 34359738334%Z).
    + apply (Hd 34359738334%Z).
    + apply (Hd 34359738336%Z).
  - cbn. lia.
  - cbn. lia.
  - exists w'. split; [exact E|]. revert Hm. generalize (areas w'). intros l Hm. cbn in Hm.
    apply Forall2_cons_inv_l in Hm as ([p1 v1] & l1 & (S1 & E1 & _) & Hm & ->).
    apply Forall2_cons_inv_l in Hm as ([p2 v2] & l2 & (S2 & E2 & _) & Hm & ->).
    apply Forall2_cons_inv_l in Hm as ([p3 v3] & l3 & (S3 & E3 & _) & Hm & ->).
    apply Forall2_nil_inv_l in Hm as ->. cbn in *. by rewrite S1, S2, S3, E1, E2, E3.
Defined.
