(* ===== verification/PageFault.v ===== *)
(** * Page faults of a resumed process ([core_syscall_handler.rs], [kern_wrappers/page.rs], [remote_pt_cache.rs])

    The fault handler looks the address up in the child's page table, reads the
    parent's page and hands it to the kernel; an address without a page is served
    by a fresh page if its area is anonymous.  With the feature [page-cache] a
    page that was read is kept and its table entry turned into a local one, and
    the tables of children that have exited are kept for the next ones. *)

From S2P Require Import Prelude Future Rdma Machine PageStructures PageHeap RemotePageTable PageIter PageCopy PageDrop Bytes Descriptors ParentWire ChildWire Task RefTask ShadowProcess ShadowSpec RefPages RemotePaging.
Import PhysAddrFacts.

(** [FaultFlags::SIGSEGV] is the kernel's [VM_FAULT_SIGSEGV]; [memcpy] of
    [rust_kernel_linux_util]. *)
Class FaultApi (W : Type) := { PMEM_VM_FAULT_SIGSEGV : Z; memcpy : Z → Z → Z → io W () }.

Section PageFault.
Context {W : Type} {kt : KTimerApi W} {kr : KRdmaKit W} {kn : Kernel W} {pa : PagesApi W} {fa : FaultApi W}.
Context {vm : Vmalloc} {x86 : X86Crate}.

(** ** State of a caller of the module *)
Record ResumeDataStruct := mkResumeDataStruct {
  handler_id : Z;
  remote_mac_id : Z;
  rd_descriptor : ChildDescriptor;
  rd_access_info : AccessInfo W }.

Definition pg_table_entry_cnt (self : ResumeDataStruct) : Z := RemotePageTable_len (c_page_table (rd_descriptor self)).

Record CallerData := mkCallerData {
  ping_img : bool;
  prepared_key : option Z;
  fault_page_cnt : Z;
  resume_related : option ResumeDataStruct }.

Definition CallerData_default : CallerData := mkCallerData false None 0 None.

(** [struct vm_fault]: the faulting address and its area, which the kernel keeps
    locked while the fault is served. *)
Record vm_fault := mkVmFault { address : Z; vf_vma : VmArea.t }.

(** ** [kern_wrappers/page.rs] *)
Record Page := mkPage { page_p : Z; raw : bool }.
Definition Page_new_from_raw (inner : Z) : Page := mkPage inner true.
Definition Page_get_phy (self : Page) : Z := pmem_page_to_phy (page_p self).
Definition Page_get_inner (self : Page) : Z := page_p self.
Definition increase_ref_count (self : Page) : io W () :=
  pmem_get_page (page_p self) ≫= λ _, pmem_page_dup_rmap (page_p self).
Definition get_kernel_virt (self : Page) : Z := pmem_phys_to_virt (Page_get_phy self).
Definition Page_drop (self : Page) : io W () := if raw self then mret () else pmem_free_page (page_p self).

Definition Page_new_from_upage (user_page_va : Z) : io W (option Page) :=
  new_page_p ← pmem_alloc_page GFP_KERNEL;
  if (new_page_p =? 0)%Z then mret None
  else
    let new_virt := pmem_phys_to_virt (pmem_page_to_phy new_page_p) in
    res ← read_user user_page_va 4096 new_virt;
    match res with
    | Err _ => Page_drop (mkPage new_page_p false) ≫= λ _, mret None
    | Ok _ => mret (Some (mkPage new_page_p false))
    end.

Definition copy_page_content_4k (dst src : Z) : io W () :=
  let dst_va := pmem_page_to_virt dst in
  let src_va := pmem_page_to_virt src in
  memcpy dst_va src_va 4096.

(** ** The fault handler *)

(** The loop over the descriptor's areas: the code to return and the page put
    into the fault, if any. *)
Fixpoint anonymous_fault (start : Z) (vmas : list VMADescriptor) : io W (Z * option Z) :=
  match vmas with
  | [] => mret (PMEM_VM_FAULT_SIGSEGV, None)
  | vd :: vmas =>
      if (is_anonymous vd && (start =? get_start vd)%Z)%bool then
        new_page_p ← pmem_alloc_page PMEM_GFP_HIGHUSER;
        mret (0%Z, Some new_page_p)
      else anonymous_fault start vmas
  end.

(** Build without [page-cache] and [prefetch] *)
Definition handle_page_fault (fuel : nat) (pool : DCPool W) (h : heap) (self : CallerData) (vmf : vm_fault) : io W (Z * option Z) :=
  let fault_addr := address vmf in
  rr ← lift (unwrap (resume_related self));
  phy_addr ← lift (lookup_pg_table h (rd_descriptor rr) fault_addr);
  new_page ← (match phy_addr with
    | None => mret None
    | Some _ => read_remote_page fuel pool h (rd_descriptor rr) fault_addr (rd_access_info rr)
    end);
  match new_page with
  | Some new_page_p => mret (0%Z, Some new_page_p)
  | None => anonymous_fault (VmArea.vm_start (vf_vma vmf)) (c_vma (rd_descriptor rr))
  end.

(** Build with [page-cache] *)
Definition set_page_table (self : CallerData) (rr : ResumeDataStruct) (pt : RemotePageTable) : CallerData :=
  let d := rd_descriptor rr in
  mkCallerData (ping_img self) (prepared_key self) (fault_page_cnt self)
    (Some (mkResumeDataStruct (handler_id rr) (remote_mac_id rr)
      (mkChildDescriptor (c_regs d) pt (c_vma d) (c_machine_info d)) (rd_access_info rr))).

Definition handle_page_fault_cached (fuel : nat) (pool : DCPool W) (h : heap) (self : CallerData) (vmf : vm_fault) :
    io W (Z * option Z * CallerData * heap) :=
  let fault_addr := address vmf in
  rr ← lift (unwrap (resume_related self));
  phy_addr ← lift (lookup_pg_table h (rd_descriptor rr) fault_addr);
  '(new_page, miss_page_cache) ← (match phy_addr with
    | None => mret (None, false)
    | Some phy_addr =>
        let phys_addr := PhysAddr_new phy_addr in
        if PhysAddr_is_cache phys_addr then
          let page := Page_new_from_raw (PhysAddr_convert_to_page phys_addr) in
          if PhysAddr_is_ro phys_addr then
            increase_ref_count page ≫= λ _, mret (Some (Page_get_inner page), false)
          else
            new_page_p ← pmem_alloc_page PMEM_GFP_HIGHUSER;
            copy_page_content_4k new_page_p (Page_get_inner page) ≫= λ _,
            mret (Some new_page_p, false)
        else
          p ← read_remote_page fuel pool h (rd_descriptor rr) fault_addr (rd_access_info rr);
          mret (p, true)
    end);
  match new_page with
  | Some new_page_p =>
      if (miss_page_cache && bool_decide (is_Some phy_addr))%bool then
        increase_ref_count (Page_new_from_raw new_page_p) ≫= λ _,
        let kernel_va := PhysAddr_encode new_page_p (flag_as_u64 FlagCache) in
        va ← lift (virt_new fault_addr);
        '(pt, h) ← lift (RemotePageTable_force_map h (c_page_table (rd_descriptor rr)) va (PhysAddr_new kernel_va));
        mret (0%Z, Some new_page_p, set_page_table self rr pt, h)
      else mret (0%Z, Some new_page_p, self, h)
  | None =>
      '(code, p) ← anonymous_fault (VmArea.vm_start (vf_vma vmf)) (c_vma (rd_descriptor rr));
      mret (code, p, self, h)
  end.

(** ** [remote_pt_cache.rs] *)
Definition RemotePageTableCache : Type := gmap Z RemotePageTable.
Definition gen_cache_key (_remote_mac_id handler_id : Z) : Z := handler_id.
Definition cache_lookup (self : RemotePageTableCache) (remote_mac_id handler_id : Z) : option RemotePageTable :=
  self !! gen_cache_key remote_mac_id handler_id.
Definition cache_insert (self : RemotePageTableCache) (remote_mac_id handler_id : Z) (value : RemotePageTable) : RemotePageTableCache :=
  <[gen_cache_key remote_mac_id handler_id := value]> self.
Definition cache_num (self : RemotePageTableCache) : nat := size self.

(** [cache_my_pt], called when the process exits.  A table that is replaced in
    the cache is dropped; the list is the pages that gives back. *)
Definition cache_my_pt (h : heap) (cache : RemotePageTableCache) (self : CallerData) :
    outcome (RemotePageTableCache * heap * list Z) :=
  match resume_related self with
  | None => Ret (cache, h, [])
  | Some rr =>
      '(pg_table, h) ← RemotePageTable_copy h (c_page_table (rd_descriptor rr));
      '(h, freed) ← (match cache_lookup cache (remote_mac_id rr) (handler_id rr) with
        | Some old => RemotePageTable_drop h old
        | None => Ret (h, [])
        end);
      Ret (cache_insert cache (remote_mac_id rr) (handler_id rr) pg_table, h, freed)
  end.
End PageFault.
Arguments ResumeDataStruct W {kr}.
Arguments CallerData W {kr}.

Section PageFaultSpec.
Context {W : Type} {kt : KTimerApi W} {kt_ok : KTimerOk W} {kr : KRdmaKit W} {nic : NicOk W}.
Context {kn : Kernel W} {kn_ok : KernelOk W} {fa : FaultApi W} {x86 : X86Crate}.

(** An area of the descriptor that is anonymous and starts where the fault's does. *)
Definition anonymous_at (d : ChildDescriptor) (vmf : vm_fault) : Prop :=
  ∃ vd, vd ∈ c_vma d ∧ is_anonymous vd = true ∧ get_start vd = VmArea.vm_start (vf_vma vmf).

Lemma anonymous_fault_ok start vmas w :
  size (allocated w) < mem_pages →
  ((∃ vd, vd ∈ vmas ∧ is_anonymous vd = true ∧ get_start vd = start) ∧
   ∃ p w', anonymous_fault start vmas w = Ret ((0%Z, Some p), w') ∧ (p ∉ allocated w) ∧ allocated w' = {[p]} ∪ allocated w ∧
     ∀ qp, outstanding qp w' = outstanding qp w) ∨
  ((¬ ∃ vd, vd ∈ vmas ∧ is_anonymous vd = true ∧ get_start vd = start) ∧
   anonymous_fault start vmas w = Ret ((PMEM_VM_FAULT_SIGSEGV, None), w)).
Proof.
  intros Hm. induction vmas as [|vd vmas IH]; cbn [anonymous_fault].
  - right. split; [|done]. by intros (vd & ?%elem_of_nil & _).
  - destruct (is_anonymous vd && (start =? get_start vd)%Z)%bool eqn:E.
    + apply andb_true_iff in E as [Ea Es%Z.eqb_eq]. left. split; [exists vd; split; [apply list_elem_of_here|done]|].
      destruct (alloc_page_ok PMEM_GFP_HIGHUSER w Hm) as (p & w' & Ep & Hp & Ha & _ & _ & _ & _ & Hq).
      exists p, w'. by step Ep.
    + apply andb_false_iff in E. destruct IH as [[(vd' & Hin & Hvd) IH]|[Hno IH]].
      * left. split; [exists vd'; split; [by apply list_elem_of_further|done]|done].
      * right. split; [|done]. intros (vd' & Hin & Ha & Hs). apply elem_of_cons in Hin as [->|Hin]; [|naive_solver].
        destruct E as [E|E]; [congruence|]. apply Z.eqb_neq in E. congruence.
Qed.

(** The page is blank, or there is none and the process gets a signal. *)
Definition blank_or_segv (d : ChildDescriptor) (vmf : vm_fault) (w : W) (code : Z) (page : option Z) (w' : W) : Prop :=
  (anonymous_at d vmf ∧ code = 0%Z ∧ ∃ p, page = Some p ∧ (p ∉ allocated w) ∧ allocated w' = {[p]} ∪ allocated w) ∨
  (¬ anonymous_at d vmf ∧ code = PMEM_VM_FAULT_SIGSEGV ∧ page = None ∧ allocated w' = allocated w).

Lemma anonymous_fault_blank d vmf w :
  size (allocated w) < mem_pages → ∃ code page w',
  anonymous_fault (VmArea.vm_start (vf_vma vmf)) (c_vma d) w = Ret ((code, page), w') ∧ blank_or_segv d vmf w code page w'.
Proof.
  intros Hm. destruct (anonymous_fault_ok (VmArea.vm_start (vf_vma vmf)) (c_vma d) w Hm) as [[Ha (p & w' & E & Hp & Hw & _)]|[Ha E]].
  - exists 0%Z, (Some p), w'. split; [done|]. left. split_and!; [done|done|by exists p].
  - exists PMEM_VM_FAULT_SIGSEGV, None, w. split; [done|]. by right.
Qed.

(** C21: Serving a fault of a resumed process, when no request is in flight on the
    pool's connections and a page is free.  The handler returns.  For a recorded
    page either a new page is handed out in which the parent's data has landed,
    or the read of it failed.  An address without a recorded page, and also one
    whose page could not be read, gets a blank page if its area is anonymous and
    a signal otherwise.  At most the page handed out is allocated. *)
Theorem page_fault_served fuel pool h self vmf rr w pa :
  resume_related self = Some rr → lookup_pg_table h (rd_descriptor rr) (address vmf) = Ret pa →
  pool_covers pool → pool_idle pool w → (ticks_per_usec * TIMEOUT_USEC < Z.of_nat fuel)%Z →
  size (allocated w) < mem_pages →
  ∃ code page w', handle_page_fault fuel pool h self vmf w = Ret ((code, page), w') ∧
    match pa with
    | None => blank_or_segv (rd_descriptor rr) vmf w code page w'
    | Some pa =>
        (code = 0%Z ∧ ∃ p mr, page = Some p ∧ (p ∉ allocated w) ∧ allocated w' = {[p]} ∪ allocated w ∧
           get_virt_addr mr = bd_phys_to_virt (pmem_page_to_phy p) ∧
           landed (read_request (rd_access_info rr) mr pa 4096) w') ∨
        (∃ w1, read_remote_page fuel pool h (rd_descriptor rr) (address vmf) (rd_access_info rr) w = Ret (None, w1) ∧
           blank_or_segv (rd_descriptor rr) vmf w code page w')
    end.
Proof.
  intros Hrr Hpa Hc Hidle Hf Hm. unfold handle_page_fault.
  rewrite (io_lift_run _ _ _ rr) by (by rewrite Hrr). pure Hpa. destruct pa as [pa|].
  - destruct (read_remote_page_ok fuel pool h (rd_descriptor rr) (address vmf) (rd_access_info rr) w (Some pa) Hc Hidle Hf Hm Hpa)
      as (r & w1 & E & conn & p & mr & _ & Hp & Hva & Hr). step E. destruct r as [p'|].
    + destruct Hr as (-> & Ha & Hl & _). exists 0%Z, (Some p), w1. split; [done|]. left. split; [done|]. by exists p, mr.
    + destruct Hr as [Ha _]. destruct (anonymous_fault_blank (rd_descriptor rr) vmf w1) as (code & page & w' & Eb & Hb); [by rewrite Ha|].
      exists code, page, w'. split; [exact Eb|]. right. exists w1. split; [done|]. unfold blank_or_segv in *. by rewrite Ha in Hb.
  - rewrite (io_bind_run _ _ _ None w); [|done]. by apply anonymous_fault_blank.
Qed.

(** C36: A read that fails is hidden from the process when the area is anonymous: the
    fault succeeds with a page allocated after the read was given up, into which
    nothing is read, although the parent recorded data for the address. *)
Theorem failed_read_hidden fuel pool h self vmf rr w pa w1 :
  resume_related self = Some rr → lookup_pg_table h (rd_descriptor rr) (address vmf) = Ret (Some pa) →
  read_remote_page fuel pool h (rd_descriptor rr) (address vmf) (rd_access_info rr) w = Ret (None, w1) →
  anonymous_at (rd_descriptor rr) vmf → size (allocated w1) < mem_pages →
  ∃ p w', handle_page_fault fuel pool h self vmf w = Ret ((0%Z, Some p), w') ∧ (p ∉ allocated w1) ∧
    ∀ qp, outstanding qp w' = outstanding qp w1.
Proof.
  intros Hrr Hpa Er Ha Hm. unfold handle_page_fault.
  rewrite (io_lift_run _ _ _ rr) by (by rewrite Hrr). pure Hpa. step Er.
  destruct (anonymous_fault_ok (VmArea.vm_start (vf_vma vmf)) (c_vma (rd_descriptor rr)) w1 Hm) as [[_ (p & w' & E & Hp & _ & Hq)]|[Hn _]];
    [|done]. exists p, w'. done.
Qed.
End PageFaultSpec.

(** ** On the reference machine *)
#[export] Instance ref_FaultApi : FaultApi ref_machine := {|
  PMEM_VM_FAULT_SIGSEGV := 64;
  memcpy := λ dst src _, ref_modify (v_copy dst src) |}.

Definition ref_fault (a start : Z) : vm_fault := mkVmFault a (VmArea.mk start (start + 8192) 0 0 0 0 0).
Definition ref_resumed (d : ChildDescriptor) : CallerData ref_machine :=
  mkCallerData (kr := ref_KRdmaKit) false None 0 (Some (mkResumeDataStruct (kr := ref_KRdmaKit) 5 2 d ref_ai)).

Lemma ref_pool_idle w : ref_queue w 9 = [] → pool_idle ref_pool w.
Proof. intros Hq conn Hin. rewrite (ref_pool_conn conn Hin). cbn. unfold ref_outstanding. by rewrite Hq. Qed.

Lemma page_fault_served_witness :
  ∃ code page w', handle_page_fault (x86 := x86_reference) ref_fuel ref_pool two_pages.1 (ref_resumed ref_child)
      (ref_fault 4096 4096) ref_boot = Ret ((code, page), w').
Proof.
  destruct (page_fault_served (x86 := x86_reference) ref_fuel ref_pool two_pages.1 (ref_resumed ref_child) (ref_fault 4096 4096)
    (mkResumeDataStruct (kr := ref_KRdmaKit) 5 2 ref_child ref_ai) ref_boot (Some 40960%Z)) as (code & page & w' & E & _).
  - done.
  - by vm_compute.
  - apply ref_pool_covers.
  - by apply ref_pool_idle.
  - apply ref_fuel_ok.
  - vm_compute. lia.
  - exists code, page, w'. exact E.
Defined.

(** A card that does not answer lands nothing. *)
Definition deaf {A} (m : io ref_machine A) : Prop := ∀ w a w',
  ref_alive w = false → m w = Ret (a, w') → ref_alive w' = false ∧ ref_landed w' = ref_landed w.

Lemma deaf_bind {A B} (m : io ref_machine A) (f : A → io ref_machine B) : deaf m → (∀ a, deaf (f a)) → deaf (m ≫= f).
Proof.
  intros Hm Hf w b w' Hw E. apply io_bind_Ret in E as (a & w1 & E1 & E2). destruct (Hm _ _ _ Hw E1) as [Hw1 <-].
  exact (Hf a _ _ _ Hw1 E2).
Qed.
Lemma deaf_ret {A} (a : A) : deaf (mret a).
Proof. by intros w b w' Hw [= _ <-]. Qed.
Lemma deaf_lift {A} (m : outcome A) : deaf (lift m).
Proof. intros w b w' Hw E. unfold lift in E. destruct m; try done. by injection E as _ <-. Qed.
Lemma deaf_panic {A} : deaf (panic : io ref_machine A).
Proof. done. Qed.
Lemma deaf_poll qp n : deaf (poll_send_cq (W := ref_machine) qp n).
Proof. intros w a w' Hw E. cbn in E. unfold ref_poll in E. rewrite Hw in E. by injection E as _ <-. Qed.
Lemma deaf_block {F O E} {fut : Future ref_machine F O E} fuel f : (∀ f, deaf (poll f)) → deaf (block_on fuel f).
Proof.
  intros Hp. revert f. induction fuel as [|fuel IH]; intros f; cbn [block_on]; [done|].
  apply deaf_bind; [done|]. intros [[[v|]|e] f']; [apply deaf_ret|apply IH|apply deaf_ret].
Qed.

Lemma deaf_dc_poll (conn : DCConn (kr := ref_KRdmaKit)) : deaf (poll conn).
Proof. apply deaf_bind; [apply deaf_poll|]. intros [[|wc l]|e]; apply deaf_ret. Qed.

Lemma deaf_dev_poll (dev : DCRemoteDevice (kr := ref_KRdmaKit)) : deaf (poll dev).
Proof.
  apply deaf_bind; [apply deaf_dc_poll|]. intros [[[wc|]|e] c]; [|apply deaf_ret..].
  destruct (_ =? 0)%Z; [apply deaf_ret|]. apply deaf_bind; [apply deaf_lift|]. intros ?. apply deaf_ret.
Qed.

Lemma deaf_delay (d : Delay ref_machine) : deaf (poll d).
Proof. apply deaf_bind; [by intros w a w' Hw [= _ <-]|]. intros p. destruct (_ <=? _)%Z; apply deaf_ret. Qed.

Lemma deaf_timeout (t : Timeout ref_machine (DCRemoteDevice (kr := ref_KRdmaKit))) : deaf (poll t).
Proof.
  apply deaf_bind; [apply deaf_dev_poll|]. intros [[[v|]|e] c]; [apply deaf_ret| |apply deaf_ret].
  apply deaf_bind; [apply deaf_delay|]. intros [[[v|]|e] d]; [apply deaf_ret|apply deaf_ret|apply deaf_panic].
Qed.

Lemma deaf_read (fuel : nat) dst src sz ai : deaf (remote_read (W := ref_machine) fuel ref_pool dst src sz ai).
Proof.
  apply deaf_bind; [by intros w a w' Hw [= _ <-]|]. intros idx. apply deaf_bind; [apply deaf_lift|]. intros qp.
  apply deaf_bind. { apply deaf_bind; [apply deaf_lift|]. intros mr. by intros w a w' Hw [= _ <-]. }
  intros [[]|e]; [|apply deaf_ret].
  apply deaf_bind. { apply deaf_bind; [|intros d; apply deaf_ret]. apply deaf_bind; [by intros w a w' Hw [= _ <-]|]. intros t. apply deaf_ret. }
  intros t. apply deaf_bind; [apply deaf_block, deaf_timeout|]. intros [[v|e] t']; [apply deaf_ret|].
  destruct (is_elapsed e); [apply deaf_ret|]. apply deaf_bind; [apply deaf_lift|]. intros ?. apply deaf_ret.
Qed.

Lemma deaf_read_page (fuel : nat) h d va : deaf (read_remote_page (W := ref_machine) (x86 := x86_reference) fuel ref_pool h d va ref_ai).
Proof.
  apply deaf_bind; [apply deaf_lift|]. intros [pa|]; [|apply deaf_ret].
  apply deaf_bind; [by intros w a w' Hw [= _ <-]|]. intros p. apply deaf_bind; [apply deaf_read|].
  intros [[]|e]; [apply deaf_ret|]. apply deaf_bind; [by intros w a w' Hw [= _ <-]|]. intros []. apply deaf_ret.
Qed.

Definition ref_dead : ref_machine := mkRef 0 false ∅ [] ∅ ∅ ∅ 4096 0 ref_idle ref_no_mem ∅ ∅ ∅ 6.

(** The page at 4096 in an anonymous area. *)
Definition ref_anon_child : ChildDescriptor :=
  mkChildDescriptor (regs example_parent) two_pages.2 [mkVMADescriptor (4096, 12288)%Z 0 0 true] (machine_info example_parent).

Lemma ref_dead_read : ∃ w1,
  read_remote_page (x86 := x86_reference) ref_fuel ref_pool two_pages.1 ref_anon_child 4096 ref_ai ref_dead = Ret (None, w1) ∧
  allocated w1 = ∅.
Proof.
  destruct (read_remote_page_ok (x86 := x86_reference) ref_fuel ref_pool two_pages.1 ref_anon_child 4096 ref_ai ref_dead (Some 40960%Z)
    ref_pool_covers) as (r & w1 & E & conn & p & mr & _ & _ & _ & Hr);
    [by apply ref_pool_idle|apply ref_fuel_ok|vm_compute; lia|by vm_compute|].
  exists w1. destruct r as [p'|].
  - destruct Hr as (_ & _ & Hl & _). destruct (deaf_read_page _ _ _ _ ref_dead _ _ eq_refl E) as [_ Hn].
    change (read_request ref_ai mr 40960 4096 ∈ ref_Wr <$> ref_landed w1) in Hl. rewrite Hn in Hl. clear E. exfalso. exact (not_elem_of_nil _ Hl).
  - destruct Hr as [Ha _]. split; [exact E|exact Ha].
Qed.

Lemma failed_read_hidden_witness :
  ∃ p w', handle_page_fault (x86 := x86_reference) ref_fuel ref_pool two_pages.1 (ref_resumed ref_anon_child)
      (ref_fault 4096 4096) ref_dead = Ret ((0%Z, Some p), w').
Proof.
  destruct ref_dead_read as (w1 & E & Ha).
  destruct (failed_read_hidden (x86 := x86_reference) ref_fuel ref_pool two_pages.1 (ref_resumed ref_anon_child) (ref_fault 4096 4096)
    (mkResumeDataStruct (kr := ref_KRdmaKit) 5 2 ref_anon_child ref_ai) ref_dead 40960%Z w1) as (p & w' & Eh & _).
  - done.
  - by vm_compute.
  - exact E.
  - exists (mkVMADescriptor (4096, 12288)%Z 0 0 true). split; [apply list_elem_of_here|split; reflexivity].
  - rewrite Ha. clear E. vm_compute. lia.
  - exists p, w'. exact Eh.
Defined.
