(* ===== verification/PageCache.v ===== *)
(** * The page cache

    With the feature [page-cache] a page read by one child serves the next child
    of the same handler: from the first fault through the exit of the first child
    to the fault of the second. *)

From S2P Require Import Prelude Future Rdma Machine PageStructures PageHeap RemotePageTable PageIter PageCopy PageDrop Bytes Descriptors ParentWire ChildWire Task RefTask ShadowProcess ShadowSpec RefPages RemotePaging PageFault.
Import PhysAddrFacts.

(** [memcpy] of a page copies its contents and does nothing else. *)
Class FaultOk (W : Type) {ta : TaskApi W} {tok : TaskOk W} {pgs : PagesApi W} {kn : Kernel W} {kt : KTimerApi W} {kt_ok : KTimerOk W}
    {kr : KRdmaKit W} {nic : NicOk W} {kn_ok : KernelOk W} {pok : PagesOk W} {fa : FaultApi W} : Prop := {
  memcpy_ok p q w : is_page p → is_page q → ∃ w', memcpy (pmem_page_to_virt p) (pmem_page_to_virt q) 4096 w = Ret ((), w') ∧
    os w' = v_copy (pmem_page_to_phy p) (pmem_page_to_phy q) (os w) ∧ ∀ qp, outstanding qp w' = outstanding qp w }.

Section PageCache.
Context {W : Type} {ta : TaskApi W} {tok : TaskOk W} {pgs : PagesApi W} {kn : Kernel W}.
Context {kt : KTimerApi W} {kt_ok : KTimerOk W} {kr : KRdmaKit W} {nic : NicOk W} {kn_ok : KernelOk W}.
Context {pok : PagesOk W} {fa : FaultApi W} {fok : FaultOk W}.
Context {vm : Vmalloc} {vm_ok : VmallocOk} {x86 : X86Crate} {x86_ok : X86CrateOk}.

Definition cache_entry (p : Z) : Z := PhysAddr_encode p (flag_as_u64 FlagCache).

(** A page the kernel has handed out can be named by a table entry. *)
Definition nameable (p : Z) : Prop := is_page p ∧ is_u64 p ∧ (8 | p)%Z.

Lemma read_page_nameable fuel pool h d va ai w p w1 :
  read_remote_page fuel pool h d va ai w = Ret (Some p, w1) → size (allocated w) < mem_pages → nameable p.
Proof.
  intros E Hm. unfold read_remote_page in E. apply io_bind_Ret in E as ([x|] & w2 & E1 & E); [|done].
  apply io_bind_Ret in E as (q & w3 & E2 & E). apply io_bind_Ret in E as (r & w4 & _ & E).
  assert (q = p) as ->.
  { destruct r as [[]|e]; [by injection E as -> _|]. by apply io_bind_Ret in E as ([] & w5 & _ & E). }
  assert (w2 = w) as ->. { unfold lift in E1. destruct (lookup_pg_table h d va); [by injection E1 as _ <-|done..]. }
  destruct (alloc_page_ok PMEM_GFP_HIGHUSER w Hm) as (q & w5 & E5 & _ & _ & Hu & Hn & H8 & _).
  rewrite E2 in E5. injection E5 as <- <-. destruct (alloc_page_os _ _ _ _ E2 Hn) as (_ & _ & Hp). done.
Qed.

Lemma cache_entry_facts p : nameable p →
  cache_entry p ≠ 0%Z ∧ PhysAddr_is_cache (PhysAddr_new (cache_entry p)) = true ∧
  PhysAddr_is_ro (PhysAddr_new (cache_entry p)) = false ∧ PhysAddr_convert_to_page (PhysAddr_new (cache_entry p)) = p.
Proof.
  intros (_ & Hu & H8). assert (Hf : is_u64 (flag_as_u64 FlagCache)) by (unfold is_u64; cbn; lia).
  assert (Hc : Z.testbit (cache_entry p) 1 = true) by (unfold cache_entry; by rewrite encode_flag_testbit by (done || lia)).
  split_and!.
  - intros H. rewrite H in Hc. by rewrite Z.bits_0 in Hc.
  - by rewrite is_cache_testbit.
  - rewrite is_ro_testbit. unfold cache_entry. by rewrite encode_flag_testbit by (done || lia).
  - by apply decode_encode.
Qed.

(** A first fault keeps the page it has read. *)
Lemma fault_miss fuel pool h self vmf rr w m pa p w1 :
  resume_related self = Some rr → pt_inv h → rpt_ok h (c_page_table (rd_descriptor rr)) m → (0 ≤ address vmf < 2 ^ 47)%Z →
  m !! vpn (address vmf) = Some pa → PhysAddr_is_cache (PhysAddr_new pa) = false → nameable p →
  read_remote_page fuel pool h (rd_descriptor rr) (address vmf) (rd_access_info rr) w = Ret (Some p, w1) →
  size h + 3 ≤ vm_capacity →
  ∃ pt' h' w2, handle_page_fault_cached fuel pool h self vmf w = Ret ((0%Z, Some p, set_page_table self rr pt', h'), w2) ∧
    pt_inv h' ∧ rpt_ok h' pt' (<[vpn (address vmf) := cache_entry p]> m) ∧
    count (v_refs (os w2)) p = (count (v_refs (os w1)) p + 1)%Z.
Proof.
  intros Hrr Hinv Hok Hva Hm Hnc Hp Er Hcap. destruct (cache_entry_facts p Hp) as (Hne & _).
  destruct (get_page_ok p w1) as (w2 & E2 & Ho2 & _). destruct (mapcount_inc_ok p w2) as (w3 & E3 & Ho3 & _).
  destruct (RemotePageTable_force_map_ok h (c_page_table (rd_descriptor rr)) m (address vmf) (PhysAddr_new (cache_entry p)))
    as (pt' & h' & Ef & Hinv' & _ & Hok' & _); [done|done|unfold is_u64; lia|done|done|].
  exists pt', h', w3. split_and!; [|done|done|].
  - unfold handle_page_fault_cached. rewrite (io_lift_run _ _ _ rr) by (by rewrite Hrr).
    rewrite (io_lift_run _ _ _ (Some pa)) by (rewrite (lookup_pg_table_ok h _ m) by done; by rewrite Hm).
    rewrite (io_bind_run _ _ _ (Some p, true) w1) by (rewrite Hnc; by step Er).
    cbv beta iota. cbn [andb]. rewrite bool_decide_true by eauto.
    rewrite (io_bind_run _ _ _ () w3) by (unfold increase_ref_count, pmem_get_page, pmem_page_dup_rmap; cbn [page_p Page_new_from_raw]; by step E2).
    rewrite (io_lift_run _ _ _ (address vmf)) by (by apply virt_new_low).
    rewrite (io_lift_run _ _ _ (pt', h')) by exact Ef. done.
  - rewrite Ho3, Ho2. cbn. rewrite count_bump, decide_True by done. done.
Qed.

(** A fault on a kept page copies it and asks nothing of the network. *)
Lemma fault_hit fuel pool h self vmf rr w m p :
  resume_related self = Some rr → pt_inv h → rpt_ok h (c_page_table (rd_descriptor rr)) m → (0 ≤ address vmf < 2 ^ 47)%Z →
  m !! vpn (address vmf) = Some (cache_entry p) → nameable p → size (allocated w) < mem_pages →
  ∃ p2 w2, handle_page_fault_cached fuel pool h self vmf w = Ret ((0%Z, Some p2, self, h), w2) ∧ (p2 ∉ allocated w) ∧
    v_data (os w2) !! pmem_page_to_phy p2 = v_data (os w) !! pmem_page_to_phy p ∧
    ∀ qp, outstanding qp w2 = outstanding qp w.
Proof.
  intros Hrr Hinv Hok Hva Hm Hp Hmem. destruct (cache_entry_facts p Hp) as (Hne & Hc & Hro & Hconv).
  destruct (alloc_page_ok PMEM_GFP_HIGHUSER w Hmem) as (p2 & w1 & E1 & Hp2 & _ & _ & Hn2 & _ & _ & Hq1).
  destruct (alloc_page_os _ _ _ _ E1 Hn2) as (Ho1 & _ & Hpage2).
  destruct (memcpy_ok p2 p w1 Hpage2 (proj1 Hp)) as (w2 & E2 & Ho2 & Hq2).
  exists p2, w2. split_and!; [|done| |intros qp; by rewrite Hq2, Hq1].
  - unfold handle_page_fault_cached. rewrite (io_lift_run _ _ _ rr) by (by rewrite Hrr).
    rewrite (io_lift_run _ _ _ (Some (cache_entry p))) by (rewrite (lookup_pg_table_ok h _ m) by done; by rewrite Hm).
    rewrite (io_bind_run _ _ _ (Some p2, false) w2); [done|]. rewrite Hc, Hro. step E1.
    unfold copy_page_content_4k, Page_get_inner, Page_new_from_raw. cbn [page_p]. rewrite Hconv. by step E2.
  - rewrite Ho2, Ho1. cbn. by rewrite lookup_partial_alter_eq.
Qed.

(** C33: A page read once serves the next child of the same handler locally.  The
    first fault keeps the page, with a reference of its own, under an entry that
    is marked cached; at exit the table goes into the cache; a later child of the
    handler, whatever machine it names, gets a copy of the table, and its fault on
    the same page is answered with a fresh page holding the kept page's contents
    at that time, without a request to the network. *)
Theorem cache_serves_next_child fuel pool h self vmf rr w m pa p w1 cache :
  resume_related self = Some rr → pt_inv h → rpt_ok h (c_page_table (rd_descriptor rr)) m → (0 ≤ address vmf < 2 ^ 47)%Z →
  m !! vpn (address vmf) = Some pa → PhysAddr_is_cache (PhysAddr_new pa) = false →
  read_remote_page fuel pool h (rd_descriptor rr) (address vmf) (rd_access_info rr) w = Ret (Some p, w1) →
  size (allocated w) < mem_pages → size h + 3 ≤ vm_capacity → cache_lookup cache (remote_mac_id rr) (handler_id rr) = None →
  ∃ self' rr' h' w2, handle_page_fault_cached fuel pool h self vmf w = Ret ((0%Z, Some p, self', h'), w2) ∧
    resume_related self' = Some rr' ∧ count (v_refs (os w2)) p = (count (v_refs (os w1)) p + 1)%Z ∧
  (size h' + table_count 4 h' (l4_page_table (c_page_table (rd_descriptor rr'))) ≤ vm_capacity →
  ∃ cache' h2, cache_my_pt h' cache self' = Ret (cache', h2, []) ∧
  ∀ mac, ∃ t, cache_lookup cache' mac (handler_id rr) = Some t ∧
  (size h2 + table_count 4 h2 (l4_page_table t) ≤ vm_capacity →
  ∃ t3 h3, RemotePageTable_copy h2 t = Ret (t3, h3) ∧
  ∀ next rr3 vmf3 w3, resume_related next = Some rr3 → c_page_table (rd_descriptor rr3) = t3 →
    (0 ≤ address vmf3 < 2 ^ 47)%Z → vpn (address vmf3) = vpn (address vmf) → size (allocated w3) < mem_pages →
  ∃ p2 w4, handle_page_fault_cached fuel pool h3 next vmf3 w3 = Ret ((0%Z, Some p2, next, h3), w4) ∧ (p2 ∉ allocated w3) ∧
    v_data (os w4) !! pmem_page_to_phy p2 = v_data (os w3) !! pmem_page_to_phy p ∧
    ∀ qp, outstanding qp w4 = outstanding qp w3)).
Proof.
  intros Hrr Hinv Hok Hva Hm Hnc Er Hmem Hcap Hcl. pose proof (read_page_nameable _ _ _ _ _ _ _ _ _ Er Hmem) as Hp.
  destruct (fault_miss fuel pool h self vmf rr w m pa p w1 Hrr Hinv Hok Hva Hm Hnc Hp Er Hcap) as (pt' & h' & w2 & E & Hinv' & Hok' & Hc).
  eexists _, _, h', w2. split; [exact E|]. split; [done|]. split; [exact Hc|]. cbn [c_page_table rd_descriptor]. intros Hcap2.
  destruct (RemotePageTable_copy_ok h' pt' _ Hinv' Hok' Hcap2) as (t & h2 & Et & Hinv2 & _ & _ & Hok2 & _).
  eexists _, h2. split.
  { unfold cache_my_pt. cbn [resume_related set_page_table c_page_table rd_descriptor remote_mac_id handler_id].
    rewrite Et. cbn [mbind outcome_bind]. rewrite Hcl. done. }
  intros mac. exists t. split; [apply lookup_insert_eq|]. intros Hcap3.
  destruct (RemotePageTable_copy_ok h2 t _ Hinv2 Hok2 Hcap3) as (t3 & h3 & Et3 & Hinv3 & _ & _ & Hok3 & _).
  exists t3, h3. split; [exact Et3|]. intros next rr3 vmf3 w3 Hn Ht3 Hva3 Hvpn Hmem3.
  eapply (fault_hit fuel pool h3 next vmf3 rr3 w3); [done|done|by rewrite Ht3|done| |done|done].
  rewrite Hvpn. apply lookup_insert_eq.
Qed.
End PageCache.

#[export] Instance ref_FaultOk : FaultOk ref_machine.
Proof. split. intros p q w _ _. exists (ref_put (v_copy (p * 64) (q * 64) (ref_view w)) w). split_and!; [done|by rewrite ref_view_put|done]. Qed.

Lemma ref_live_read : ∃ p w1,
  read_remote_page (x86 := x86_reference) ref_fuel ref_pool two_pages.1 ref_child 4096 ref_ai ref_boot = Ret (Some p, w1).
Proof. eexists _, _. vm_compute. reflexivity. Qed.

Definition ref_first_fault := handle_page_fault_cached (vm := area32) (x86 := x86_reference) ref_fuel ref_pool two_pages.1
  (ref_resumed ref_child) (ref_fault 4096 4096) ref_boot.

(** The blocks the tables of the example take at each step. *)
Definition ref_blocks : nat * nat :=
  match ref_first_fault with
  | Ret ((_, _, self', h'), _) =>
      match resume_related self', cache_my_pt (vm := area32) h' ∅ self' with
      | Some rr', Ret (cache', h2, _) =>
          (size h' + table_count 4 h' (l4_page_table (c_page_table (rd_descriptor rr'))),
           match cache_lookup cache' 9 5 with Some t => size h2 + table_count 4 h2 (l4_page_table t) | None => 99 end)
      | _, _ => (99, 99)
      end
  | _ => (99, 99)
  end.

Lemma ref_blocks_ok : ref_blocks = (14, 21).
Proof. by vm_compute. Qed.

Lemma cache_serves_next_child_witness :
  ∃ p self' h' w2 cache' h2 t t3 h3, ref_first_fault = Ret ((0%Z, Some p, self', h'), w2) ∧
    cache_my_pt (vm := area32) h' ∅ self' = Ret (cache', h2, []) ∧ cache_lookup cache' 9 5 = Some t ∧
    RemotePageTable_copy (vm := area32) h2 t = Ret (t3, h3) ∧
    ∃ p2 w4, handle_page_fault_cached (vm := area32) (x86 := x86_reference) ref_fuel ref_pool h3
        (ref_resumed (mkChildDescriptor (regs example_parent) t3 (vma example_parent) (machine_info example_parent)))
        (ref_fault 4100 4096) ref_dead = Ret ((0%Z, Some p2,
          ref_resumed (mkChildDescriptor (regs example_parent) t3 (vma example_parent) (machine_info example_parent)), h3), w4).
Proof.
  destruct two_pages_ok as [Hinv Hok]. destruct ref_live_read as (p & w1 & Er). pose proof ref_blocks_ok as Hb.
  destruct (cache_serves_next_child (vm := area32) (vm_ok := area32_ok) (x86 := x86_reference) ref_fuel ref_pool two_pages.1
    (ref_resumed ref_child) (ref_fault 4096 4096) (mkResumeDataStruct (kr := ref_KRdmaKit) 5 2 ref_child ref_ai) ref_boot
    (<[(2 ^ 28)%Z := 8192%Z]> (<[1%Z := 40960%Z]> ∅)) 40960 p w1 ∅ eq_refl Hinv Hok ltac:(cbn; lia) ltac:(by vm_compute)
    ltac:(by vm_compute) Er ltac:(clear; vm_compute; lia) ltac:(clear; vm_compute; lia) ltac:(clear; reflexivity))
    as (self' & rr' & h' & w2 & E & Hrr & _ & Hexit).
  unfold ref_blocks, ref_first_fault in Hb. rewrite E in Hb. cbv beta iota in Hb. rewrite Hrr in Hb.
  change (@vm_capacity area32) with 32 in Hexit. destruct (cache_my_pt h' ∅ self') as [[[cache' h2] freed]| | |] eqn:Ec; [|discriminate Hb..].
  apply pair_equal_spec in Hb as [Hb1 Hb2]. destruct Hexit as (cache1 & h21 & Ec1 & Hnext); [rewrite Hb1; lia|]. injection Ec1 as <- <- ->.
  destruct (Hnext 9%Z) as (t & Ht & Hcopy). change (handler_id _) with 5%Z in Ht. rewrite Ht in Hb2.
  destruct Hcopy as (t3 & h3 & Et3 & Hhit); [rewrite Hb2; lia|].
  destruct (Hhit (ref_resumed (mkChildDescriptor (regs example_parent) t3 (vma example_parent) (machine_info example_parent)))
    (mkResumeDataStruct (kr := ref_KRdmaKit) 5 2 (mkChildDescriptor (regs example_parent) t3 (vma example_parent) (machine_info example_parent)) ref_ai)
    (ref_fault 4100 4096) ref_dead eq_refl eq_refl ltac:(cbn; lia) eq_refl ltac:(clear; vm_compute; lia)) as (p2 & w4 & E4 & _).
  exists p, self', h', w2, cache', h2, t, t3, h3. split; [exact E|]. split; [exact Ec|]. split; [exact Ht|]. split; [exact Et3|].
  exists p2, w4. exact E4.
Defined.
