(* ===== verification/SysCalls.v ===== *)
(** * The system calls ([core_syscall_handler.rs])

    A process talks to the module through a file: [ioctl] prepares a fork,
    resumes one or connects to a machine, page faults of the resumed process
    come back through the area's operations, and closing the file takes the
    preparation back.  Build without [prefetch], [eager-resume] and [use_rc]; [cow] and
    [page-cache] are chosen by [Features]. *)

From S2P Require Import Prelude Future Rdma Machine PageStructures PageHeap RemotePageTable PageCopy PageDrop Bytes Descriptors ParentWire ChildWire Task RefTask ShadowProcess ShadowSpec RefPages Datagram ShadowService ShadowCopy ShadowCow RemoteFork Rpc RpcSpec RpcCall RemotePaging RpcHandlers CallerPool AddressSpace PageFault.

(** Cargo features *)
Class Features := { feature_cow : bool; feature_page_cache : bool }.

(** [_copy_from_user(to, from, n)]: what the buffer, which held the first
    argument, holds afterwards.  The number of bytes not copied is ignored by
    the callers. *)
Class UserApi (W : Type) := { copy_from_user : list Z → Z → Z → io W (list Z) }.

(** [core::str::from_utf8]: whether the bytes are UTF-8 *)
Definition byte_in (lo hi b : Z) : bool := ((lo <=? b) && (b <=? hi))%Z%bool.

Fixpoint utf8 (bs : list Z) : bool :=
  match bs with
  | [] => true
  | b :: r =>
      if byte_in 0 127 b then utf8 r
      else match r with
      | [] => false
      | c :: r =>
          if byte_in 0xC2 0xDF b then (byte_in 0x80 0xBF c && utf8 r)%bool
          else match r with
          | [] => false
          | d :: r =>
              if byte_in 0xE0 0xEF b then
                (byte_in (if b =? 0xE0 then 0xA0 else 0x80)%Z (if b =? 0xED then 0x9F else 0xBF)%Z c &&
                 byte_in 0x80 0xBF d && utf8 r)%bool
              else match r with
              | [] => false
              | e :: r =>
                  (byte_in 0xF0 0xF4 b &&
                   byte_in (if b =? 0xF0 then 0x90 else 0x80)%Z (if b =? 0xF4 then 0x8F else 0xBF)%Z c &&
                   byte_in 0x80 0xBF d && byte_in 0x80 0xBF e && utf8 r)%bool
              end
          end
      end
  end.

Definition from_utf8 (bs : list Z) : option (list Z) := if utf8 bs then Some bs else None.

(** [common.h]: the commands, and the requests as they lie in user memory *)
Module LibMITOSISCmd.
Definition Nil : Z := 0.
Definition Connect : Z := 3.
Definition Prepare : Z := 4.
Definition ResumeLocal : Z := 5.
Definition ResumeRemote : Z := 6.
Definition PreparePing : Z := 7.
Definition NilRPC : Z := 8.
End LibMITOSISCmd.

Record connect_req_t := mkConnectReq { cr_machine_id : Z; cr_nic_id : Z; cr_gid : Z }.
Record resume_remote_req_t := mkResumeReq { rq_machine_id : Z; rq_handler_id : Z }.

Definition connect_req_of (bs : list Z) : connect_req_t :=
  mkConnectReq (of_le (take 4 bs)) (of_le (take 4 (drop 4 bs))) (of_le (take 8 (drop 8 bs))).
Definition resume_req_of (bs : list Z) : resume_remote_req_t :=
  mkResumeReq (of_le (take 4 bs)) (of_le (take 4 (drop 4 bs))).

Section SysCalls.
Context {W : Type} {kt : KTimerApi W} {kr : KRdmaKit W} {kn : Kernel W} {ta : TaskApi W} {vc : VmConsts} {pa : PagesApi W}.
Context {fa : FaultApi W} {cm : UdCm W} {po : PortApi W} {us : UserApi W}.
Context {vm : Vmalloc} {x86 : X86Crate} {dt : DcTargets} {dl : DescriptorLayout} {rl : RpcLayout} {rp : ReplyLayout}.
Context {ft : Features}.

(** The global variables of the module.  Kernel memory is [g_mem] of [g_sps]. *)
Record Globals := mkGlobals {
  g_sps : Sps W;
  g_heap : heap;
  g_callers : CallerPool W;
  g_dc_pool : DCPool W;
  g_dc_factories : list (DCFactory W);
  g_pt_cache : RemotePageTableCache;
  g_max_caller_num : Z;
  g_max_nics_used : Z }.

Definition kmem (g : Globals) : mem := g_mem (g_sps g).

Definition set_sps (g : Globals) (s : Sps W) : Globals :=
  mkGlobals s (g_heap g) (g_callers g) (g_dc_pool g) (g_dc_factories g) (g_pt_cache g) (g_max_caller_num g) (g_max_nics_used g).
Definition set_heap (g : Globals) (h : heap) : Globals :=
  mkGlobals (g_sps g) h (g_callers g) (g_dc_pool g) (g_dc_factories g) (g_pt_cache g) (g_max_caller_num g) (g_max_nics_used g).
Definition set_callers (g : Globals) (c : CallerPool W) : Globals :=
  mkGlobals (g_sps g) (g_heap g) c (g_dc_pool g) (g_dc_factories g) (g_pt_cache g) (g_max_caller_num g) (g_max_nics_used g).
Definition set_pt_cache (g : Globals) (c : RemotePageTableCache) : Globals :=
  mkGlobals (g_sps g) (g_heap g) (g_callers g) (g_dc_pool g) (g_dc_factories g) c (g_max_caller_num g) (g_max_nics_used g).
Definition set_kmem (g : Globals) (m : mem) : Globals :=
  let s := g_sps g in set_sps g (mkSps m (g_mem_pool s) (g_dc_targets s) (g_mac_id s) (registered_processes s)).
Definition put_caller (g : Globals) (idx : nat) (c : Caller W) : Globals :=
  let p := g_callers g in set_callers g (mkCallerPool (<[idx := c]> (cp_pool p)) (cp_factories p) (cp_contexts p) (cp_metas p)).

(** The pages a dropped page table gives back *)
Definition free_pages (ps : list Z) : io W () := foldr (λ p k, pmem_free_page p ≫= λ _, k) (mret ()) ps.
Definition drop_page_table (h : heap) (pt : RemotePageTable) : io W heap :=
  '(h, freed) ← lift (RemotePageTable_drop h pt); free_pages freed ≫= λ _, mret h.

Record MitosisSysCallHandler := mkHandler { caller_status : CallerData W; my_file : Z; resume_counter : Z }.

(** The handler that [open] returns.  Two more things [open] does are left out: it
    fills in the table of VM operations with constants, and it walks the address
    space of the caller once ([FlatDump.generate_mm], which leaves the process as
    it was) and drops the result. *)
Definition handler_open (file : Z) : MitosisSysCallHandler := mkHandler CallerData_default file 0.

Definition set_status (self : MitosisSysCallHandler) (s : CallerData W) : MitosisSysCallHandler :=
  mkHandler s (my_file self) (resume_counter self).

(** ** Preparing *)
Definition syscall_prepare (fuel : nat) (g : Globals) (self : MitosisSysCallHandler) (key : Z) (ping : bool) :
    io W (Z * MitosisSysCallHandler * Globals) :=
  let s := caller_status self in
  match prepared_key s with
  | Some _ => mret ((-1)%Z, self, g)
  | None =>
      let s := mkCallerData ping (prepared_key s) (fault_page_cnt s) (resume_related s) in
      '(res, sps) ← (if feature_cow then add_myself_cow fuel (g_sps g) key else add_myself_copy fuel (g_sps g) key);
      let g := set_sps g sps in
      match res with
      | None => mret ((-1)%Z, set_status self s, g)
      | Some _ => mret (0%Z, set_status self (mkCallerData ping (Some key) (fault_page_cnt s) (resume_related s)), g)
      end
  end.

(** ** Calling the parent's machine

    The first part of [syscall_resume_w_rpc] and of [syscall_nil_rpc]: a call
    through the caller of this core, and its reply, unless an error is to be
    returned.  [dma] is what the card does to memory until the reply is there. *)
Definition call_remote (fuel : nat) (dma : mem → mem) (g : Globals) (rpc_id : RPCId) (machine_id handler_id : Z) :
    io W (option BytesMut * Globals) :=
  cpu_id ← pmem_get_current_cpu;
  if (g_max_caller_num g <=? cpu_id)%Z then panic else
  remote_session_id ← lift (calculate_session_id machine_id cpu_id (g_max_caller_num g));
  my_session_id ← lift (calculate_session_id (g_mac_id (g_sps g)) cpu_id (g_max_caller_num g));
  let idx := Z.to_nat cpu_id in
  caller ← lift (unwrap (get_caller (g_callers g) idx));
  '(res, caller, m) ← sync_call (H := pod_u64) fuel (kmem g) caller remote_session_id my_session_id (RPCId_num rpc_id) handler_id;
  let g := set_kmem (put_caller g idx caller) m in
  match res with
  | Err _ => mret (None, g)
  | Ok _ =>
      timeout_caller ← TimeoutWRef_new caller (10 * TIMEOUT_USEC);
      let g := set_kmem g (dma (kmem g)) in
      '(r, t) ← block_on (fut := TimeoutWRef_Future (fut := Caller_Future (kmem g))) fuel timeout_caller;
      let caller := tr_value t in
      match r with
      | Err _ => mret (None, put_caller g idx caller)
      | Ok (msg, reply) =>
          '(r, caller) ← register_recv_buf caller msg;
          match r with
          | Err _ => panic
          | Ok _ => mret (Some reply, put_caller g idx caller)
          end
      end
  end.

(** ** Resuming; [dma_read] is what the read of the descriptor into the given
    buffer does to memory. *)
Definition resumed_from (self : MitosisSysCallHandler) (machine_id handler_id : Z) (des : ChildDescriptor)
    (access_info : AccessInfo W) : MitosisSysCallHandler :=
  let s := caller_status self in
  set_status self (mkCallerData (ping_img s) (prepared_key s) (fault_page_cnt s)
    (Some (mkResumeDataStruct handler_id machine_id des access_info))).

(** With [page-cache] the table of an earlier child replaces the fetched one. *)
Definition cached_table (g : Globals) (machine_id handler_id : Z) (des : ChildDescriptor) : io W (ChildDescriptor * Globals) :=
  match (if feature_page_cache then cache_lookup (g_pt_cache g) machine_id handler_id else None) with
  | None => mret (des, g)
  | Some cached_pg_table =>
      '(pt, h) ← lift (RemotePageTable_copy (g_heap g) cached_pg_table);
      h ← drop_page_table h (c_page_table des);
      mret (mkChildDescriptor (c_regs des) pt (c_vma des) (c_machine_info des), set_heap g h)
  end.

Definition syscall_resume_w_rpc (fuel : nat) (dma : mem → mem) (dma_read : UDMsg W → mem → mem) (g : Globals)
    (self : MitosisSysCallHandler) (machine_id handler_id : Z) : io W (Z * MitosisSysCallHandler * Globals) :=
  match resume_related (caller_status self) with
  | Some _ => mret ((-1)%Z, self, g)
  | None =>
      '(reply, g) ← call_remote fuel dma g Query machine_id handler_id;
      match reply with
      | None => mret ((-1)%Z, self, g)
      | Some reply =>
          d ← lift (default_deserialize DescriptorLookupReply (H := reply_Pod) (kmem g) reply);
          match d with
          | None => mret ((-1)%Z, self, g)
          | Some d =>
              if negb (r_ready d) then mret ((-1)%Z, self, g) else
              desc_buf ← remote_descriptor_fetch fuel (g_dc_pool g) d;
              match desc_buf with
              | Err _ => mret ((-1)%Z, self, g)
              | Ok desc_buf =>
                  let g := set_kmem g (dma_read desc_buf (kmem g)) in
                  '(des, h, freed) ← lift (child_deserialize (kmem g) (g_heap g) (UDMsg_get_bytes desc_buf));
                  free_pages freed ≫= λ _,
                  let g := set_heap g h in
                  match des with
                  | None => mret ((-1)%Z, self, g)
                  | Some des =>
                      access_info ← AccessInfo_new (g_dc_factories g) (c_machine_info des);
                      match access_info with
                      | None =>
                          h ← drop_page_table (g_heap g) (c_page_table des);
                          mret ((-1)%Z, self, set_heap g h)
                      | Some access_info =>
                          apply_to fuel (g_dc_factories g) des (my_file self) ≫= λ _,
                          '(des, g) ← cached_table g machine_id handler_id des;
                          mret (0%Z, resumed_from self machine_id handler_id des access_info, g)
                      end
                  end
              end
          end
      end
  end.

(** ** The other calls *)
Definition syscall_connect_session (fuel : nat) (dma : mem → mem) (g : Globals) (machine_id : Z) (gid : list Z) (nic_idx : Z) :
    io W (Z * Globals) :=
  info ← lift (HandlerConnectInfo_create (g_max_nics_used g) gid nic_idx nic_idx);
  '(r, pool, m) ← probe_remote_rpc_end fuel dma (kmem g) (g_callers g) (g_mac_id (g_sps g)) machine_id info;
  let g := set_kmem (set_callers g pool) m in
  match r with Some _ => mret (0%Z, g) | None => mret ((-1)%Z, g) end.

Definition syscall_nil_rpc (fuel : nat) (dma : mem → mem) (g : Globals) (machine_id handler_id : Z) : io W (Z * Globals) :=
  '(reply, g) ← call_remote fuel dma g RpcHandlers.Nil machine_id handler_id;
  match reply with Some _ => mret (0%Z, g) | None => mret ((-1)%Z, g) end.

Definition read_resume_req (arg : Z) : io W resume_remote_req_t :=
  bs ← copy_from_user (replicate 8 0%Z) arg 8; mret (resume_req_of bs).

Definition ioctrl (fuel : nat) (dma : mem → mem) (dma_read : UDMsg W → mem → mem) (g : Globals) (self : MitosisSysCallHandler)
    (cmd arg : Z) : io W (Z * MitosisSysCallHandler * Globals) :=
  if (cmd =? LibMITOSISCmd.Nil)%Z then mret (0%Z, self, g)
  else if (cmd =? LibMITOSISCmd.Prepare)%Z then syscall_prepare fuel g self arg false
  else if (cmd =? LibMITOSISCmd.ResumeLocal)%Z then panic
  else if (cmd =? LibMITOSISCmd.ResumeRemote)%Z then
    req ← read_resume_req arg;
    syscall_resume_w_rpc fuel dma dma_read g self (rq_machine_id req) (rq_handler_id req)
  else if (cmd =? LibMITOSISCmd.Connect)%Z then
    bs ← copy_from_user (replicate 16 0%Z) arg 16;
    let req := connect_req_of bs in
    addr_buf ← copy_from_user (replicate 39 0%Z) (cr_gid req) 39;
    addr ← lift (unwrap (from_utf8 addr_buf));
    '(r, g) ← syscall_connect_session fuel dma g (cr_machine_id req) addr (cr_nic_id req);
    mret (r, self, g)
  else if (cmd =? LibMITOSISCmd.PreparePing)%Z then syscall_prepare fuel g self arg true
  else if (cmd =? LibMITOSISCmd.NilRPC)%Z then
    req ← read_resume_req arg;
    '(r, g) ← syscall_nil_rpc fuel dma g (rq_machine_id req) (rq_handler_id req);
    mret (r, self, g)
  else mret ((-1)%Z, self, g).

(** [page_fault_handler]: the area's private data is the handler of its file. *)
Definition page_fault_handler (fuel : nat) (g : Globals) (self : MitosisSysCallHandler) (vmf : vm_fault) :
    io W (Z * option Z * MitosisSysCallHandler * Globals) :=
  if feature_page_cache then
    '(code, page, s, h) ← handle_page_fault_cached fuel (g_dc_pool g) (g_heap g) (caller_status self) vmf;
    mret (code, page, set_status self s, set_heap g h)
  else
    '(code, page) ← handle_page_fault fuel (g_dc_pool g) (g_heap g) (caller_status self) vmf;
    mret (code, page, self, g).

(** [Drop]: the table goes to the cache, the preparation is taken back unless
    the image was to stay; then the fields are dropped. *)
Definition handler_drop (g : Globals) (self : MitosisSysCallHandler) : io W Globals :=
  let s := caller_status self in
  g ← (if feature_page_cache then
         '(cache, h, freed) ← lift (cache_my_pt (g_heap g) (g_pt_cache g) s);
         free_pages freed ≫= λ _, mret (set_heap (set_pt_cache g cache) h)
       else mret g);
  g ← (match prepared_key s with
       | Some k => if ping_img s then mret g else sps ← unregister (g_sps g) k; mret (set_sps g sps)
       | None => mret g
       end);
  match resume_related s with
  | None => mret g
  | Some rr => h ← drop_page_table (g_heap g) (c_page_table (rd_descriptor rr)); mret (set_heap g h)
  end.
End SysCalls.
Arguments Globals W {kr dt}.
Arguments MitosisSysCallHandler W {kr}.

(** [walk E] follows a run [E : m w = Ret _] through binds and case distinctions. *)
Ltac walk E :=
  repeat first
    [ progress inv_io E
    | match type of E with
      | context [match ?x with _ => _ end] => is_var x; destruct x
      | (match ?x with _ => _ end) _ = Ret _ => destruct x eqn:?
      | panic _ = Ret _ => discriminate E
      end ].

(** ** Who owns a registered process *)
Section Ownership.
Context {W : Type} {kt : KTimerApi W} {kr : KRdmaKit W} {kn : Kernel W} {ta : TaskApi W} {vc : VmConsts} {pa : PagesApi W}.
Context {fa : FaultApi W} {cm : UdCm W} {po : PortApi W} {us : UserApi W}.
Context {vm : Vmalloc} {x86 : X86Crate} {dt : DcTargets} {dl : DescriptorLayout} {rl : RpcLayout} {rp : ReplyLayout}.
Context {ft : Features}.

Abbreviation registry := (λ g : Globals W, registered_processes (g_sps g)).
Abbreviation key_of := (λ self : MitosisSysCallHandler W, prepared_key (caller_status self)).
Abbreviation pinged := (λ self : MitosisSysCallHandler W, ping_img (caller_status self)).

Lemma call_remote_registry fuel dma g id mac key w a g' w' :
  call_remote fuel dma g id mac key w = Ret ((a, g'), w') → registry g' = registry g.
Proof. unfold call_remote. intros E. walk E; by injection E as _ <- _. Qed.

Lemma cached_table_registry g mac key des w des' g' w' :
  cached_table g mac key des w = Ret ((des', g'), w') → registry g' = registry g.
Proof. unfold cached_table. intros E. walk E; by injection E as _ <- _. Qed.

Lemma resume_registry fuel dma dma_read g self mac key w r self' g' w' :
  syscall_resume_w_rpc fuel dma dma_read g self mac key w = Ret ((r, self', g'), w') →
  registry g' = registry g ∧ key_of self' = key_of self ∧ pinged self' = pinged self.
Proof.
  unfold syscall_resume_w_rpc. intros E. walk E;
    repeat match goal with
    | H : call_remote _ _ _ _ _ _ _ = _ |- _ => apply call_remote_registry in H
    | H : cached_table _ _ _ _ _ = _ |- _ => apply cached_table_registry in H
    end; injection E as <- <- <- <-; cbn in *; split_and!; congruence.
Qed.

Lemma add_myself_registry snapshot (g : Sps W) key w r g' w' :
  add_myself snapshot g key w = Ret ((r, g'), w') →
  match r with
  | None => registered_processes g' = registered_processes g
  | Some _ => registered_processes g !! key = None ∧ ∃ b, registered_processes g' = <[key := b]> (registered_processes g)
  end.
Proof.
  unfold add_myself. case_decide as Hk; [by intros [= <- <- _]|]. apply eq_None_not_Some in Hk.
  intros E. apply io_bind_Ret in E as ([[t d] g1] & w1 & E1 & E). inv_io E.
  destruct a0 as [b g2]. injection E as <- <- _. split; [done|]. exists b.
  unfold new_from_dc_target_pool, lift in E1. cbn in E1. destruct (last _) as [m|]; [|done]. injection E1 as _ _ <- _.
  unfold ProcessBundler_new in E2. walk E2. by injection E2 as _ <- _.
Qed.

Lemma prepare_run fuel g self key ping w n sps w' :
  key_of self = None →
  (if feature_cow then add_myself_cow fuel (g_sps g) key else add_myself_copy fuel (g_sps g) key) w = Ret ((Some n, sps), w') →
  syscall_prepare fuel g self key ping w = Ret ((0%Z, set_status self (mkCallerData ping (Some key) (fault_page_cnt (caller_status self))
    (resume_related (caller_status self))), set_sps g sps), w').
Proof. intros Hk E. unfold syscall_prepare. rewrite Hk. by rewrite (io_bind_run _ _ _ _ _ E). Qed.

Lemma prepare_registry fuel g self key ping w r self' g' w' :
  syscall_prepare fuel g self key ping w = Ret ((r, self', g'), w') →
  if decide (r = 0)%Z then key_of self = None ∧ registry g !! key = None ∧ (∃ b, registry g' = <[key := b]> (registry g)) ∧
    key_of self' = Some key ∧ pinged self' = ping
  else registry g' = registry g ∧ key_of self' = key_of self ∧ (is_Some (key_of self) → pinged self' = pinged self).
Proof.
  unfold syscall_prepare. destruct (prepared_key (caller_status self)) as [k|] eqn:Ek.
  { intros [= <- <- <- _]. by rewrite Ek. }
  intros E. apply io_bind_Ret in E as ([res sps] & w1 & E1 & E).
  assert (Hadd := add_myself_registry (if feature_cow then new_cow fuel else new_copy fuel) (g_sps g) key w res sps w1).
  specialize (Hadd ltac:(by destruct feature_cow)).
  destruct res as [n|]; injection E as <- <- <- _; cbn; [by destruct Hadd|]. split_and!; [done|done|by intros []].
Qed.

Lemma ioctrl_registry fuel dma dma_read g self cmd arg w r self' g' w' :
  ioctrl fuel dma dma_read g self cmd arg w = Ret ((r, self', g'), w') →
  if decide ((cmd = LibMITOSISCmd.Prepare ∨ cmd = LibMITOSISCmd.PreparePing) ∧ r = 0)%Z then
    key_of self = None ∧ registry g !! arg = None ∧ (∃ b, registry g' = <[arg := b]> (registry g)) ∧
    key_of self' = Some arg ∧ pinged self' = (cmd =? LibMITOSISCmd.PreparePing)%Z
  else registry g' = registry g ∧ key_of self' = key_of self ∧ (is_Some (key_of self) → pinged self' = pinged self).
Proof.
  unfold ioctrl. intros E.
  destruct (Z.eqb_spec cmd LibMITOSISCmd.Nil) as [->|N0].
  { rewrite decide_False by (by intros [[|] _]). injection E as <- <- <- _. done. }
  destruct (Z.eqb_spec cmd LibMITOSISCmd.Prepare) as [->|N4].
  { apply prepare_registry in E. repeat case_decide; naive_solver. }
  destruct (Z.eqb_spec cmd LibMITOSISCmd.ResumeLocal) as [->|N5]; [done|].
  destruct (Z.eqb_spec cmd LibMITOSISCmd.ResumeRemote) as [->|N6].
  { inv_io E. apply resume_registry in E as (E1 & E2 & E3). by rewrite decide_False by (by intros [[|] _]). }
  destruct (Z.eqb_spec cmd LibMITOSISCmd.Connect) as [->|N3].
  { rewrite decide_False by (by intros [[|] _]). inv_io E. walk E. injection E as _ <- <- _.
    unfold syscall_connect_session in E3. walk E3; by injection E3 as _ <- _. }
  destruct (Z.eqb_spec cmd LibMITOSISCmd.PreparePing) as [->|N7].
  { apply prepare_registry in E. repeat case_decide; naive_solver. }
  rewrite decide_False by (by intros [[|] _]).
  destruct (Z.eqb_spec cmd LibMITOSISCmd.NilRPC) as [->|N8]; [|by injection E as <- <- <- _].
  inv_io E. walk E. injection E as _ <- <- _. unfold syscall_nil_rpc in E1.
  walk E1; injection E1 as _ <- _; match goal with H : call_remote _ _ _ _ _ _ _ = _ |- _ => by apply call_remote_registry in H end.
Qed.

Lemma fault_registry fuel g self vmf w code page self' g' w' :
  page_fault_handler fuel g self vmf w = Ret ((code, page, self', g'), w') →
  registry g' = registry g ∧ key_of self' = key_of self ∧ pinged self' = pinged self.
Proof.
  unfold page_fault_handler. destruct feature_page_cache; intros E; [|by walk E; injection E as _ _ <- <- _].
  apply io_bind_Ret in E as ([[[c p] s] h] & w1 & E1 & E). injection E as _ _ <- <- _. split; [done|]. cbn [caller_status set_status].
  unfold handle_page_fault_cached in E1. walk E1; injection E1 as _ _ <- _ _; done.
Qed.

Lemma drop_registry g self w g' w' : handler_drop g self w = Ret (g', w') →
  registry g' = match key_of self with
    | Some k => if pinged self then registry g else delete k (registry g)
    | None => registry g
    end.
Proof.
  unfold handler_drop. intros E. apply io_bind_Ret in E as (g1 & w1 & E1 & E). apply io_bind_Ret in E as (g2 & w2 & E2 & E).
  assert (H1 : registry g1 = registry g) by (destruct feature_page_cache; walk E1; by injection E1 as <- _).
  assert (H3 : registry g' = registry g2) by (walk E; by injection E as <- _).
  rewrite H3, <- H1. clear E H3 E1 H1. destruct (prepared_key (caller_status self)) as [k|]; [|by injection E2 as <- _].
  destruct (ping_img (caller_status self)); [by injection E2 as <- _|]. walk E2. injection E2 as <- _.
  by apply unregister_result in E as ->.
Qed.

(** Files that are open, and the keys that were prepared to stay. *)
Record sys := mkSys { files : gmap Z (MitosisSysCallHandler W); globals : Globals W; kept : gset Z }.

(** Processes use the module in any order, each call in the world of its moment. *)
Inductive sys_step : sys → sys → Prop :=
  | step_open fs g ks fd file : fs !! fd = None → sys_step (mkSys fs g ks) (mkSys (<[fd := handler_open file]> fs) g ks)
  | step_ioctl fs g ks fd self fuel dma dma_read cmd arg w r self' g' w' :
      fs !! fd = Some self → ioctrl fuel dma dma_read g self cmd arg w = Ret ((r, self', g'), w') →
      sys_step (mkSys fs g ks)
        (mkSys (<[fd := self']> fs) g' (if decide (cmd = LibMITOSISCmd.PreparePing ∧ r = 0%Z) then {[arg]} ∪ ks else ks))
  | step_fault fs g ks fd self fuel vmf w code page self' g' w' :
      fs !! fd = Some self → page_fault_handler fuel g self vmf w = Ret ((code, page, self', g'), w') →
      sys_step (mkSys fs g ks) (mkSys (<[fd := self']> fs) g' ks)
  | step_close fs g ks fd self w g' w' :
      fs !! fd = Some self → handler_drop g self w = Ret (g', w') → sys_step (mkSys fs g ks) (mkSys (delete fd fs) g' ks).

Record owned (s : sys) : Prop := {
  ow_kept k : k ∈ kept s → is_Some (registry (globals s) !! k);
  ow_open fd self k : files s !! fd = Some self → key_of self = Some k →
    is_Some (registry (globals s) !! k) ∧ (pinged self = true ↔ k ∈ kept s);
  ow_once fd fd' self self' k : files s !! fd = Some self → files s !! fd' = Some self' →
    key_of self = Some k → key_of self' = Some k → fd = fd';
  ow_all k : is_Some (registry (globals s) !! k) →
    k ∈ kept s ∨ ∃ fd self, files s !! fd = Some self ∧ key_of self = Some k ∧ pinged self = false;
}.

(** A file whose key and flag do not change, in an unchanged registry. *)
Lemma owned_same fs g ks fd self self' g' :
  owned (mkSys fs g ks) → fs !! fd = Some self → registry g' = registry g → key_of self' = key_of self →
  (is_Some (key_of self) → pinged self' = pinged self) → owned (mkSys (<[fd := self']> fs) g' ks).
Proof.
  intros [H1 H2 H3 H4] Hfd Hg Hk Hp. cbn in *.
  assert (Hback : ∀ fd1 s1 k, <[fd := self']> fs !! fd1 = Some s1 → key_of s1 = Some k →
    ∃ s, fs !! fd1 = Some s ∧ key_of s = Some k ∧ pinged s = pinged s1).
  { intros fd1 s1 k [[-> ->]|[Hne Hs]]%lookup_insert_Some Hk1; [|by exists s1].
    exists self. rewrite <- Hk. split_and!; [done|done|]. symmetry. apply Hp. by rewrite <- Hk, Hk1. }
  split; cbn; rewrite ?Hg.
  - done.
  - intros fd1 s1 k Hs1 Hk1. destruct (Hback _ _ _ Hs1 Hk1) as (s & Hs & Hks & <-). by apply (H2 fd1).
  - intros fd1 fd2 s1 s2 k Hs1 Hs2 Hk1 Hk2. destruct (Hback _ _ _ Hs1 Hk1) as (t1 & ? & ? & _).
    destruct (Hback _ _ _ Hs2 Hk2) as (t2 & ? & ? & _). by apply (H3 fd1 fd2 t1 t2 k).
  - intros k Hr. destruct (H4 k Hr) as [|(fd1 & s & Hs & Hks & Hps)]; [by left|]. right.
    destruct (decide (fd1 = fd)) as [->|Hne]; [|exists fd1, s; by rewrite lookup_insert_ne].
    exists fd, self'. rewrite lookup_insert_eq. simplify_eq. rewrite Hk, Hp by (by rewrite Hks). done.
Qed.

(** A file prepares a key that was free. *)
Lemma owned_prepared fs g ks fd self self' g' key b (ping : bool) :
  owned (mkSys fs g ks) → fs !! fd = Some self → key_of self = None → registry g !! key = None →
  registry g' = <[key := b]> (registry g) → key_of self' = Some key → pinged self' = ping →
  owned (mkSys (<[fd := self']> fs) g' (if ping then {[key]} ∪ ks else ks)).
Proof.
  intros [H1 H2 H3 H4] Hfd Hk Hfree Hg Hk' <-. cbn in *. set (ks' := if ping_img _ then _ else _).
  assert (Hnew : key ∉ ks) by (intros Hin; apply H1 in Hin; rewrite Hfree in Hin; by destruct Hin).
  assert (Hks : ∀ k, k ≠ key → k ∈ ks' ↔ k ∈ ks) by (unfold ks'; case_match; set_solver).
  assert (Hother : ∀ fd1 s, fs !! fd1 = Some s → key_of s ≠ Some key).
  { intros fd1 s Hs Hks1. destruct (H2 fd1 s key Hs Hks1) as [Hreg _]. rewrite Hfree in Hreg. by destruct Hreg. }
  split; cbn; rewrite ?Hg.
  - intros k Hin. destruct (decide (k = key)) as [->|Hne]; [by rewrite lookup_insert_eq|].
    rewrite lookup_insert_ne by done. apply H1. by apply Hks.
  - intros fd1 s1 k [[-> ->]|[Hne Hs]]%lookup_insert_Some Hk1.
    + rewrite Hk' in Hk1. injection Hk1 as <-. rewrite lookup_insert_eq. split; [done|]. unfold ks'. case_match; set_solver.
    + assert (k ≠ key) by (intros ->; by apply (Hother fd1 s1 Hs)). rewrite lookup_insert_ne, Hks by done. by apply (H2 fd1).
  - intros fd1 fd2 s1 s2 k [[-> ->]|[Hne1 Hs1]]%lookup_insert_Some [[-> ->]|[Hne2 Hs2]]%lookup_insert_Some Hk1 Hk2; [done| | |].
    + exfalso. apply (Hother fd2 s2 Hs2). congruence.
    + exfalso. apply (Hother fd1 s1 Hs1). congruence.
    + by apply (H3 fd1 fd2 s1 s2 k).
  - intros k Hr. destruct (decide (k = key)) as [->|Hne].
    + destruct (ping_img (caller_status self')) eqn:Ep; [left; unfold ks'; set_solver|].
      right. exists fd, self'. by rewrite lookup_insert_eq.
    + rewrite lookup_insert_ne in Hr by done. rewrite Hks by done.
      destruct (H4 k Hr) as [|(fd1 & s & Hs & Hks1 & Hps)]; [by left|right]. exists fd1, s. rewrite lookup_insert_ne; [done|].
      intros <-. simplify_eq.
Qed.

(** A file is closed. *)
Lemma owned_closed fs g ks fd self g' :
  owned (mkSys fs g ks) → fs !! fd = Some self →
  registry g' = match key_of self with Some k => if pinged self then registry g else delete k (registry g) | None => registry g end →
  owned (mkSys (delete fd fs) g' ks).
Proof.
  intros [H1 H2 H3 H4] Hfd Hg. cbn in *.
  assert (Hkeep : ∀ k, (key_of self = Some k → pinged self = true) → registry g' !! k = registry g !! k).
  { intros k Hk. rewrite Hg. destruct (prepared_key (caller_status self)) as [k0|] eqn:E0; [|done].
    destruct (ping_img (caller_status self)) eqn:Ep; [done|]. apply lookup_delete_ne. intros ->. by specialize (Hk eq_refl). }
  split; cbn.
  - intros k Hin. rewrite Hkeep; [by apply H1|]. intros Hk. by apply (H2 fd self k Hfd Hk).
  - intros fd1 s k [Hne Hs]%lookup_delete_Some Hk. rewrite Hkeep; [by apply (H2 fd1)|].
    intros Hk'. by destruct (Hne (H3 fd fd1 self s k Hfd Hs Hk' Hk)).
  - intros fd1 fd2 s1 s2 k [_ Hs1]%lookup_delete_Some [_ Hs2]%lookup_delete_Some. by apply H3.
  - intros k Hr. assert (Hr0 : is_Some (registry g !! k) ∧ (key_of self = Some k → pinged self = true)).
    { rewrite Hg in Hr. destruct (prepared_key (caller_status self)) as [k0|] eqn:E0; [|done].
      destruct (ping_img (caller_status self)) eqn:Ep; [done|]. destruct (decide (k0 = k)) as [->|Hne].
      - rewrite lookup_delete_eq in Hr. by destruct Hr.
      - rewrite lookup_delete_ne in Hr by done. split; [done|]. congruence. }
    destruct Hr0 as [Hr0 Hp]. destruct (H4 k Hr0) as [|(fd1 & s & Hs & Hks & Hps)]; [by left|right]. exists fd1, s.
    rewrite lookup_delete_ne; [done|]. intros <-. simplify_eq. by rewrite Hp in Hps.
Qed.

Lemma sys_step_owned s s' : sys_step s s' → owned s → owned s'.
Proof.
  destruct 1 as [fs g ks fd file Hfd|fs g ks fd self fuel dma dma_read cmd arg w r self' g' w' Hfd E
    |fs g ks fd self fuel vmf w code page self' g' w' Hfd E|fs g ks fd self w g' w' Hfd E]; intros Ho.
  - destruct Ho as [H1 H2 H3 H4]. cbn in *. split; cbn; [done|..].
    + intros fd1 s k [[_ <-]|[_ Hs]]%lookup_insert_Some; [done|by apply (H2 fd1)].
    + intros fd1 fd2 s1 s2 k [[_ <-]|[_ Hs1]]%lookup_insert_Some [[_ <-]|[_ Hs2]]%lookup_insert_Some; [done..|by apply H3].
    + intros k Hr. destruct (H4 k Hr) as [|(fd1 & s & Hs & ?)]; [by left|right]. exists fd1, s.
      rewrite lookup_insert_ne; [done|]. intros <-. by rewrite Hs in Hfd.
  - apply ioctrl_registry in E. case_decide as Hc.
    + destruct Hc as [Hc ->], E as (Hk & Hfree & (b & Hg) & Hk' & Hp).
      pose proof (owned_prepared fs g ks fd self self' g' arg b _ Ho Hfd Hk Hfree Hg Hk' Hp) as H.
      destruct (Z.eqb_spec cmd LibMITOSISCmd.PreparePing); case_decide; naive_solver.
    + destruct E as (Hg & Hk & Hp). rewrite decide_False by naive_solver. by apply (owned_same fs g ks fd self).
  - apply fault_registry in E as (Hg & Hk & Hp). by apply (owned_same fs g ks fd self).
  - apply drop_registry in E. by apply (owned_closed fs g ks fd self).
Qed.

(** C6: Every registered process has exactly one owner.  Whatever processes open,
    call, fault on and close the module's files, in whatever order, each call
    running to its end before the next (for prepares that overlap see the file
    Prepares): a key is
    registered if and only if it was prepared to stay or an open file holds it,
    and no two open files hold the same key.  Closing a file therefore never
    removes the image of another process, and an image that was not prepared to
    stay disappears with its file. *)
Theorem registered_iff_owned s0 s :
  files s0 = ∅ → kept s0 = dom (registry (globals s0)) → rtc sys_step s0 s →
  (∀ k, is_Some (registry (globals s) !! k) ↔
    k ∈ kept s ∨ ∃ fd self, files s !! fd = Some self ∧ key_of self = Some k ∧ pinged self = false) ∧
  (∀ fd fd' self self' k, files s !! fd = Some self → files s !! fd' = Some self' →
    key_of self = Some k → key_of self' = Some k → fd = fd').
Proof.
  intros Hf Hk Hs. assert (Ho : owned s).
  { assert (H0 : owned s0).
    { split; rewrite ?Hf; try done; rewrite Hk; [intros k; by rewrite elem_of_dom|]. intros k Hr. left. by apply elem_of_dom. }
    clear Hf Hk. induction Hs as [|s0 s1 s2 Hstep _ IH]; [done|]. apply IH. by eapply sys_step_owned. }
  destruct Ho as [H1 H2 H3 H4]. split; [|exact H3]. intros k. split; [apply H4|].
  intros [Hin|(fd & self & Hfd & Hks & _)]; [by apply H1|by apply (H2 fd self)].
Qed.
End Ownership.

(** ** On the reference machine *)
#[export] Instance ref_UserApi : UserApi ref_machine := {| copy_from_user := λ buf _ _ w, Ret (buf, w) |}.
#[export] Instance ref_Features : Features := {| feature_cow := true; feature_page_cache := true |}.

Definition example_globals : Globals ref_machine :=
  mkGlobals (kr := ref_KRdmaKit) (example_sps 512) ∅ (mkCallerPool (kr := ref_KRdmaKit) [] [] [] []) ref_pool [mkDCFactory tt] ∅ 4 1.

(** A process opens the module and prepares itself under the key 5. *)
Lemma registered_iff_owned_witness :
  ∃ s, rtc (sys_step (vc := linux_VmConsts) (vm := area32) (x86 := x86_reference) (dl := word_layout) (rl := word_RpcLayout)
      (rp := word_ReplyLayout)) (mkSys ∅ example_globals ∅) s ∧
    ∀ k, is_Some (registered_processes (g_sps (globals s)) !! k) ↔ k = 5%Z.
Proof.
  destruct (add_myself_ok (dl := word_layout) (dl_ok := word_layout_ok) (vc := linux_VmConsts) true 2 (example_sps 512) example_process
    5 [example_msg 0] (example_msg 512) [] (mkDCTargetMeta (dt := ref_DcTargets) 11%Z 0 7 3 (0, 0)%Z) [[4194304; 4202496]%Z])
    as (sp & g' & w' & E & _); [by apply example_sps_inv|done|done|done|exact example_ready|].
  set (self' := mkHandler (kr := ref_KRdmaKit) (mkCallerData (kr := ref_KRdmaKit) false (Some 5%Z) 0 None) 3 0).
  assert (Hs : rtc (sys_step (vc := linux_VmConsts) (vm := area32) (x86 := x86_reference) (dl := word_layout) (rl := word_RpcLayout)
      (rp := word_ReplyLayout)) (mkSys ∅ example_globals ∅) (mkSys (<[7%Z := self']> {[7%Z := handler_open 3]}) (set_sps example_globals g') ∅)).
  { eapply rtc_l; [by apply (step_open _ _ _ 7%Z 3)|]. apply rtc_once.
    apply (step_ioctl _ _ ∅ 7%Z (handler_open 3) 2 id (λ _, id) LibMITOSISCmd.Prepare 5 example_process 0 self' _ w');
      [apply lookup_insert_eq|].
    by apply (prepare_run 2 example_globals (handler_open 3) 5 false example_process 512 g' w'). }
  eexists. split; [exact Hs|]. clear E. intros k.
  destruct (registered_iff_owned (vc := linux_VmConsts) (vm := area32) (x86 := x86_reference) (dl := word_layout) (rl := word_RpcLayout)
      (rp := word_ReplyLayout) (mkSys ∅ example_globals ∅) _ eq_refl (eq_sym (dom_empty_L (D := gset Z))) Hs) as [Hiff _].
  rewrite Hiff. cbn [kept files]. split.
  - intros [[]%not_elem_of_empty|(fd & self & Hfd & Hk & _)].
    apply lookup_insert_Some in Hfd as [[_ <-]|[Hne [_ <-]%lookup_singleton_Some]]; [by injection Hk as <-|done].
  - intros ->. right. exists 7%Z, self'. by rewrite lookup_insert_eq.
Defined.
