(* ===== verification/Resume.v ===== *)
(** * Resuming, from the call to the child's first fault ([core_syscall_handler.rs])

    [syscall_resume_w_rpc] calls the parent's machine, reads the descriptor,
    rebuilds the address space and keeps the page table for the faults to come.
    Until the address space is rebuilt nothing it does touches the process, so a
    resume that fails can be tried again; one that succeeds leaves the process
    with the parent's areas, registers and pages. *)

From S2P Require Import Prelude Future Rdma Machine PageStructures PageHeap RemotePageTable PageCopy PageDrop Bytes Descriptors ParentWire ChildWire Task RefTask ShadowProcess ShadowSpec RefPages ShadowCopy ShadowCow RemoteFork Datagram ShadowService Rpc RpcSpec RpcCall RemotePaging RpcHandlers CallerPool AddressSpace PageFault SysCalls.

(** ** Code that does not touch the calling process *)
Section Quiet.
Context {W : Type} {ta : TaskApi W} {ok : TaskOk W}.

Definition quiet {A} (m : io W A) : Prop := ∀ w a w', m w = Ret (a, w') → same_task w w'.

Lemma quiet_ret {A} (a : A) : quiet (mret a).
Proof. by intros w a' w' [= _ <-]. Qed.

Lemma quiet_lift {A} (m : outcome A) : quiet (lift m).
Proof. intros w a w'. unfold lift. destruct m; [|done..]. by intros [= _ <-]. Qed.

Lemma quiet_panic {A} : quiet (panic (A := A)).
Proof. done. Qed.

Lemma quiet_bind {A B} (m : io W A) (f : A → io W B) : quiet m → (∀ a, quiet (f a)) → quiet (m ≫= f).
Proof. intros Hm Hf w b w' E. apply io_bind_Ret in E as (a & w1 & E1 & E2). etrans; [by eapply Hm|by eapply Hf]. Qed.

Lemma quiet_block_on {F O E} {fut : Future W F O E} fuel f : (∀ f, quiet (poll f)) → quiet (block_on fuel f).
Proof.
  intros Hp. revert f. induction fuel as [|fuel IH]; intros f; [done|]. cbn [block_on].
  apply quiet_bind; [apply Hp|]. intros [[[o|]|e] f']; [apply quiet_ret|apply IH|apply quiet_ret].
Qed.
End Quiet.

Create HintDb quiet.
#[export] Hint Resolve quiet_ret quiet_lift quiet_panic : quiet.

(** [quiet_go] takes a program apart down to calls that are known to be quiet. *)
Ltac quiet_go :=
  repeat first
    [ solve [eauto with quiet]
    | apply quiet_bind; [|intros ?]
    | match goal with |- quiet (match ?x with _ => _ end) => destruct x end
    | progress cbv zeta ].

(** The clock, the card and the page allocator do not touch the address space
    or the registers of a process. *)
Class QuietDevices (W : Type) {ta : TaskApi W} {ok : TaskOk W} {kt : KTimerApi W} {kr : KRdmaKit W} {kn : Kernel W} : Prop := {
  quiet_cpu : quiet pmem_get_current_cpu;
  quiet_free_page p : quiet (pmem_free_page p);
  quiet_timer_new : quiet KTimer_new;
  quiet_timer_read t : quiet (get_passed_usec t);
  quiet_mr_new ctx sz : quiet (mr_new ctx sz);
  quiet_endpoint_new ctx port lid gid qpn qkey num key : quiet (endpoint_new ctx port lid gid qpn qkey num key);
  quiet_dc_read qp ep mr range sig raddr key : quiet (post_send_dc_read qp ep mr range sig raddr key);
  quiet_datagram qp ep mr range wr_id sig : quiet (post_datagram qp ep mr range wr_id sig);
  quiet_recv qp mr range addr : quiet (post_recv qp mr range addr);
  quiet_poll_send qp n : quiet (poll_send_cq qp n);
  quiet_poll_recv qp n : quiet (poll_recv_cq qp n);
}.
#[export] Hint Resolve quiet_cpu quiet_free_page quiet_timer_new quiet_timer_read quiet_mr_new quiet_endpoint_new quiet_dc_read
  quiet_datagram quiet_recv quiet_poll_send quiet_poll_recv : quiet.

Section Resume.
Context {W : Type} {kt : KTimerApi W} {kr : KRdmaKit W} {kn : Kernel W} {ta : TaskApi W} {ok : TaskOk W} {vc : VmConsts} {pa : PagesApi W}.
Context {cm : UdCm W} {qd : QuietDevices W}.
Context {vm : Vmalloc} {x86 : X86Crate} {dt : DcTargets} {dl : DescriptorLayout} {rl : RpcLayout} {rp : ReplyLayout}.
Context {ft : Features}.

Lemma quiet_timeout_ref {F O E} {fut : Future W F O E} (f : TimeoutWRef W F) : (∀ f, quiet (poll f)) → quiet (poll f).
Proof. intros Hp. unfold poll at 1, TimeoutWRef_Future, poll at 2, Delay_Future, get_cur_delay_usec. quiet_go. Qed.

Lemma quiet_timeout {F O E} {fut : Future W F O E} (f : Timeout W F) : (∀ f, quiet (poll f)) → quiet (poll f).
Proof. intros Hp. unfold poll at 1, Timeout_Future, poll at 2, Delay_Future, get_cur_delay_usec. quiet_go. Qed.

Lemma quiet_device (dev : DCRemoteDevice) : quiet (poll dev).
Proof. unfold poll, DCRemoteDevice_Future, poll, DCConn_Future. quiet_go. Qed.

Lemma quiet_session (s : UDSession W) : quiet (poll s).
Proof. unfold poll, UDSession_Future, poll, UDDatagram_Future. quiet_go. Qed.

Lemma quiet_caller m (c : Caller W) : quiet (poll (Future := Caller_Future m) c).
Proof. unfold poll, Caller_Future, Caller_poll, poll, UDReceiver_Future. quiet_go. Qed.

Lemma quiet_free_pages ps : quiet (free_pages ps).
Proof. unfold free_pages. induction ps as [|p ps IH]; cbn; quiet_go. Qed.
#[local] Hint Resolve quiet_free_pages : quiet.

Lemma quiet_sync_call {Args} `{Pod Args} fuel m (c : Caller W) id my rpc (arg : Args) : quiet (sync_call fuel m c id my rpc arg).
Proof.
  unfold sync_call, UDSession_post, UDDatagram_post. quiet_go; apply quiet_block_on; apply quiet_session.
Qed.
#[local] Hint Resolve quiet_sync_call : quiet.

Lemma quiet_call_remote fuel dma (g : Globals W) id mac key : quiet (call_remote fuel dma g id mac key).
Proof.
  unfold call_remote, TimeoutWRef_new, Delay_new, register_recv_buf, post_recv_buf. quiet_go.
  apply quiet_block_on. intros f. apply quiet_timeout_ref. apply quiet_caller.
Qed.
#[local] Hint Resolve quiet_call_remote : quiet.

Lemma quiet_fetch fuel pool d : quiet (remote_descriptor_fetch fuel pool d).
Proof.
  unfold remote_descriptor_fetch, UDMsg_new, DCRemoteDevice_read, Timeout_new, Delay_new. quiet_go.
  apply quiet_block_on. intros f. apply quiet_timeout. apply quiet_device.
Qed.

Lemma quiet_access dcf mi : quiet (AccessInfo_new (W := W) dcf mi).
Proof. unfold AccessInfo_new, AccessInfo_new_with_port, random_select_dc_factory_on_core. quiet_go. Qed.
#[local] Hint Resolve quiet_fetch quiet_access : quiet.

Abbreviation resuming := (syscall_resume_w_rpc (W := W)).

Lemma resume_again fuel dma dma_read g self mac key w :
  is_Some (resume_related (caller_status self)) → resuming fuel dma dma_read g self mac key w = Ret (((-1)%Z, self, g), w).
Proof. intros [rr E]. unfold syscall_resume_w_rpc. by rewrite E. Qed.

(** An outcome of a resume: an error that has not touched the process, or success. *)
Definition all_or_nothing (self : MitosisSysCallHandler W) (mac key : Z) (m : io W (Z * MitosisSysCallHandler W * Globals W)) : Prop :=
  ∀ w r self' g' w', m w = Ret ((r, self', g'), w') →
    (r = (-1)%Z ∧ self' = self ∧ same_task w w') ∨ (r = 0%Z ∧ ∃ des ai, self' = resumed_from self mac key des ai).

Lemma all_or_nothing_error self mac key g : all_or_nothing self mac key (mret ((-1)%Z, self, g)).
Proof. intros w r self' g' w' [= <- <- _ <-]. by left. Qed.

Lemma all_or_nothing_bind {A} self mac key (m : io W A) f :
  quiet m → (∀ a, all_or_nothing self mac key (f a)) → all_or_nothing self mac key (m ≫= f).
Proof.
  intros Hm Hf w r self' g' w' E. apply io_bind_Ret in E as (a & w1 & E1 & E).
  destruct (Hf a _ _ _ _ _ E) as [(-> & -> & H)|H]; [|by right]. left. split_and!; [done|done|]. etrans; [by eapply Hm|done].
Qed.

Lemma resume_outcome fuel dma dma_read g self mac key :
  resume_related (caller_status self) = None → all_or_nothing self mac key (resuming fuel dma dma_read g self mac key).
Proof.
  intros Hr. unfold syscall_resume_w_rpc. rewrite Hr.
  repeat first
    [ apply all_or_nothing_error
    | apply all_or_nothing_bind; [solve [unfold drop_page_table; quiet_go]|intros ?]
    | match goal with |- all_or_nothing _ _ _ (match ?x with _ => _ end) => destruct x end
    | progress cbv zeta ].
  intros w r self' g' w' E. right. apply io_bind_Ret in E as (u & w1 & _ & E). apply io_bind_Ret in E as ([des g2] & w2 & _ & E).
  injection E as <- <- _ _. eauto.
Qed.

(** C17: A resume is all or nothing.  When it reports an error, at whatever step, the
    calling process has kept its areas and its registers, and its file is as
    before, so that the call can be repeated; when it reports success the file
    carries the resumed image under the key that was asked for, and every
    further resume through it is refused without effect. *)
Theorem resume_all_or_nothing fuel dma dma_read g self mac key w r self' g' w' :
  resuming fuel dma dma_read g self mac key w = Ret ((r, self', g'), w') →
  (r = -1 ∧ self' = self ∧ areas w' = areas w ∧ user_regs w' = user_regs w)%Z ∨
  (r = 0%Z ∧ resume_related (caller_status self) = None ∧
    (∃ des ai, self' = resumed_from self mac key des ai) ∧
    ∀ fuel2 dma2 dma_read2 g2 mac2 key2 w2,
      resuming fuel2 dma2 dma_read2 g2 self' mac2 key2 w2 = Ret (((-1)%Z, self', g2), w2)).
Proof.
  intros E. destruct (resume_related (caller_status self)) as [rr|] eqn:Err.
  { rewrite resume_again in E by (by rewrite Err). injection E as <- <- _ <-. by left. }
  destruct (resume_outcome _ _ _ _ _ _ _ Err _ _ _ _ _ E) as [(-> & -> & H1 & H2 & _)|(-> & des & ai & ->)]; [by left|right].
  split_and!; [done|done|by eauto|]. intros. by apply resume_again.
Qed.
End Resume.

(** ** From the parent's preparation to the resumed child *)
Section Fork.
Context {W : Type} {ta : TaskApi W} {tok : TaskOk W} {pa : PagesApi W} {kn : Kernel W} {vc : VmConsts}.
Context {kt : KTimerApi W} {kt_ok : KTimerOk W} {kr : KRdmaKit W} {nic : NicOk W} {kn_ok : KernelOk W}.
Context {pok : PagesOk W} {dt : DcTargets} {dl : DescriptorLayout} {dl_ok : DescriptorLayoutOk}.
Context {vm : Vmalloc} {vm_ok : VmallocOk} {x86 : X86Crate} {x86_ok : X86CrateOk}.
Context {cm : UdCm W} {qd : QuietDevices W} {rl : RpcLayout} {rp : ReplyLayout} {ft : Features}.

Lemma call_remote_frame fuel dma (g : Globals W) id mac key w a g' w' :
  call_remote fuel dma g id mac key w = Ret ((a, g'), w') →
  g_heap g' = g_heap g ∧ g_dc_pool g' = g_dc_pool g ∧ g_dc_factories g' = g_dc_factories g ∧ g_pt_cache g' = g_pt_cache g.
Proof. unfold call_remote. intros E. walk E; by injection E as _ <- _. Qed.

(** The parent's areas and registers can be taken over. *)
Record takeable (wp : W) (mi : RDMADescriptor) : Prop := {
  tk_vmas : Forall vma_ok (with_next (area_desc <$> (areas wp).*2));
  tk_fs : (0 ≤ fs (user_regs wp) < max_addr)%Z;
  tk_gs : (0 ≤ gs (user_regs wp) < max_addr)%Z;
  tk_reachable : reachable_parent mi;
}.

(** The child's machine: it has not resumed yet, has room for the page table
    and keeps none for this key. *)
Record resume_ready (fuel : nat) (g : Globals W) (self : MitosisSysCallHandler W) (mac key : Z) (w : W) (pages : nat) : Prop := {
  rr_fresh : resume_related (caller_status self) = None;
  rr_mm : mm_inv w;
  rr_fuel : length (areas w) < fuel;
  rr_factories : g_dc_factories g ≠ [];
  rr_heap : pt_inv (g_heap g);
  rr_room : size (g_heap g) + 1 + 3 * pages ≤ vm_capacity;
  rr_cache : cache_lookup (g_pt_cache g) mac key = None;
}.

(** What the fault handler of a child with the descriptor [d] finds: the pages
    of the parent [wp], with their contents in [wp'], and no other. *)
Definition faults_find (wp wp' : W) (h : heap) (d : ChildDescriptor) : Prop := ∀ a, (4096 | a)%Z → (0 ≤ a < 2 ^ 47)%Z →
  if decide (is_mapped (os wp) a ∧ Exists (λ x, VmArea.vm_start x.2 ≤ a < VmArea.vm_end x.2)%Z (areas wp))
  then ∃ e, lookup_pg_table h d a = Ret (Some e) ∧ entry_for (os wp) (os wp') a e
  else lookup_pg_table h d a = Ret None.

Lemma resume_run fuel dma dma_read g self mac key w reply g1 w1 d buf w2 wp wp' (pd : ParentDescriptor) pages :
  resume_ready fuel g self mac key w pages → takeable wp (machine_info pd) →
  call_remote fuel dma g Query mac key w = Ret ((Some reply, g1), w1) →
  default_deserialize DescriptorLookupReply (H := reply_Pod) (kmem g1) reply = Ret (Some d) → r_ready d = true →
  remote_descriptor_fetch fuel (g_dc_pool g) d w1 = Ret (Ok buf, w2) →
  child_reads wp wp' pd (dma_read buf (kmem g1)) (g_heap g) (UDMsg_get_bytes buf) →
  ∃ self' g' w', syscall_resume_w_rpc fuel dma dma_read g self mac key w = Ret ((0%Z, self', g'), w') ∧
    Forall2 (mapped_as (my_file self)) (with_next (area_desc <$> (areas wp).*2)) (areas w') ∧ user_regs w' = user_regs wp ∧
    ∃ rr, resume_related (caller_status self') = Some rr ∧ faults_find wp wp' (g_heap g') (rd_descriptor rr).
Proof.
  intros [Hfr Hmm Hf Hdc Hpt Hroom Hc] [Hv Hfs Hgs Hrp] Ecall Ed Hready Ef (child & h' & Ech & Hr & Hvma & Hmi & Hpages).
  destruct (call_remote_frame _ _ _ _ _ _ _ _ _ _ Ecall) as (Gh & Gp & Gf & Gc).
  destruct (quiet_call_remote _ _ _ _ _ _ _ _ _ Ecall) as (Ha1 & _ & Hi1).
  destruct (quiet_fetch _ _ _ _ _ _ Ef) as (Ha2 & _ & Hi2).
  rewrite <- Hmi in Hrp. rewrite <- Hvma in Hv. rewrite <- Hr in Hfs, Hgs.
  destruct (AccessInfo_new_ok (g_dc_factories g) (c_machine_info child) w2 Hdc Hrp) as (ai & w3 & E3 & _ & Ha3 & _ & Hi3).
  destruct (apply_to_ok fuel (g_dc_factories g) child (my_file self) w3) as (w4 & E4 & _ & Hm & Hregs); try done;
    [by apply Hi3, Hi2, Hi1|by rewrite Ha3, Ha2, Ha1|].
  eexists _, _, w4. split; [|split_and!; [by rewrite <- Hvma|congruence|]].
  - unfold syscall_resume_w_rpc. rewrite Hfr. step Ecall. pure Ed. rewrite Hready. cbn [negb]. rewrite Gp. step Ef.
    cbv zeta. change (kmem (set_kmem g1 ?m)) with m. change (g_heap (set_kmem g1 ?m)) with (g_heap g1). rewrite Gh. pure Ech.
    rewrite (io_bind_run _ _ w2 () w2 eq_refl). cbv beta iota. cbn [g_dc_factories set_heap set_kmem set_sps]. rewrite Gf. step E3. step E4.
    unfold cached_table. cbn [g_pt_cache set_heap set_kmem set_sps]. rewrite Gc, Hc.
    destruct feature_page_cache; reflexivity.
  - eexists. split; [reflexivity|]. exact Hpages.
Qed.

(** C1: Remote fork, from the parent's system call to the child's.  After the parent
    has been prepared under [key], a child on another machine that gets the
    reply the parent's machine gives for [key], and whose card has read the
    published buffer, resumes: the call returns 0, the child's areas are the
    parent's areas mapped over its file, its registers are the parent's, and its
    faults find exactly the parent's pages with their contents at the time of the
    preparation.  This is under the conditions stated: the parent can be described
    ([prepare_ready]), none of its VMAs is larger than 4 GiB (pages further into
    one are lost), its descriptor fits the buffer taken from the pool, and the
    child's machine keeps no page table for [key] and has room for one
    ([resume_ready]). *)
Theorem fork_and_resume (cow : bool) pfuel gp wp key xs x ts t ls :
  sps_inv gp → registered_processes gp !! key = None → mp_pool (g_mem_pool gp) = xs ++ [x] → g_dc_targets gp = ts ++ [t] →
  let mi := target_descriptor (g_mac_id gp) t in
  prepare_ready pfuel wp mi ls → (published_len wp mi ls + 8 ≤ bm_len (msg_bytes x))%Z → takeable wp mi →
  Forall small_area (areas wp).*2 →
  ∃ n gp' wp', add_myself_as cow pfuel gp key wp = Ret ((Some n, gp'), wp') ∧
    query_descriptor_buf gp' key = Some (x, published_len wp mi ls + 8)%Z ∧
  ∀ fuel dma dma_read g self mac w reply g1 w1 targets metas d buf w2,
    resume_ready fuel g self mac key w (length (concat ls)) →
    call_remote fuel dma g Query mac key w = Ret ((Some reply, g1), w1) →
    default_deserialize DescriptorLookupReply (H := reply_Pod) (kmem g1) reply = Ret (Some d) →
    lookup_reply gp' targets metas key (Some d) →
    remote_descriptor_fetch fuel (g_dc_pool g) d w1 = Ret (Ok buf, w2) →
    copied_bytes (g_mem gp') (dma_read buf (kmem g1)) (msg_bytes x) (UDMsg_get_bytes buf) (r_sz d) →
    ∃ self' g' w', syscall_resume_w_rpc fuel dma dma_read g self mac key w = Ret ((0%Z, self', g'), w') ∧
      Forall2 (mapped_as (my_file self)) (with_next (area_desc <$> (areas wp).*2)) (areas w') ∧ user_regs w' = user_regs wp ∧
      ∃ rr, resume_related (caller_status self') = Some rr ∧ faults_find wp wp' (g_heap g') (rd_descriptor rr).
Proof.
  intros Hinv Hk Hp Ht mi Hr Hle Htk Hsm.
  destruct (prepare_publishes_ok cow pfuel gp wp key xs x ts t ls Hinv Hk Hp Ht Hr Hle) as
    (pd & gp' & wp' & E & _ & Hd & Hq & Hmi & _ & Hc).
  exists (bm_len (msg_bytes x)), gp', wp'. split; [exact E|]. split; [exact Hq|].
  intros fuel dma dma_read g self mac w reply g1 w1 targets metas d buf w2 Hrr Ecall Ed Hl Ef Hcp.
  unfold lookup_reply in Hl. rewrite Hq in Hl. destruct Hl as (i & tg & lid & gid & _ & _ & [= ->]).
  eapply (resume_run fuel dma dma_read g self mac key w reply g1 w1) with (pd := pd) (3 := Ecall) (4 := Ed) (6 := Ef); try done.
  - by rewrite Hmi.
  - apply Hc; [exact Hsm|exact Hcp|apply (rr_heap _ _ _ _ _ _ _ Hrr)|apply (rr_room _ _ _ _ _ _ _ Hrr)].
Qed.
End Fork.

(** ** On the reference machine *)
#[export] Instance ref_QuietDevices : QuietDevices ref_machine.
Proof.
  split; intros; intros w a w' E; try (by injection E as _ <-); try done.
  - cbn in E. unfold ref_poll in E. repeat case_match; by injection E as _ <-.
  - cbn in E. unfold ref_poll_recv in E. repeat case_match; by injection E as _ <-.
Qed.

(** The value of a computation that returns. *)
Definition returned {A} (d : A) (m : outcome A) : A := match m with Ret a => a | _ => d end.

Lemma returned_ok {A} (d : A) m : match m with Ret _ => true | _ => false end = true → m = Ret (returned d m).
Proof. by destruct m. Qed.

Definition ref_asked : DescriptorLookupReply := mkDescriptorLookupReply 512 344 true 9 3 (0, 0)%Z 11 84.
Definition ref_asked_bytes : list Z := to_bytes (Pod := reply_Pod (ReplyLayout := word_ReplyLayout)) ref_asked.

(** The card writes the reply into the receive buffer, and the descriptor into
    the buffer of the read. *)
Definition ref_deliver (bs : list Z) (m : mem) : mem :=
  default m (store m 552 (to_bytes (Pod := header_Pod (RpcLayout := word_RpcLayout)) (reply_header (Some bs)) ++ bs)).

Definition ref_copy (src : mem) (from to : Z) (n : nat) (m : mem) : mem :=
  foldr (λ i m, partial_alter (λ _, src !! (from + Z.of_nat i)%Z) (to + Z.of_nat i)%Z m) m (seq 0 n).

Lemma ref_copy_lookup src from to n m i :
  (0 ≤ i < Z.of_nat n)%Z → ref_copy src from to n m !! (to + i)%Z = src !! (from + i)%Z.
Proof.
  unfold ref_copy. intros Hi. assert (Hin : Z.to_nat i ∈ seq 0 n) by (apply elem_of_seq; lia).
  revert Hin. generalize (seq 0 n) as l. induction l as [|j l IH]; [by intros ?%elem_of_nil|]. intros Hin. cbn [foldr].
  destruct (decide (Z.of_nat j = i)) as [<-|Hne]; [by rewrite lookup_partial_alter_eq|].
  rewrite lookup_partial_alter_ne by lia. apply IH. apply elem_of_cons in Hin as [Heq|]; [lia|done].
Qed.

Definition ref_resumer : ref_machine :=
  ref_set_rq {[5%Z := [(512, 512)]%Z]} {[5%Z := 1]} (ref_set_tsk example_task ref_boot).
Definition ref_globals : Globals ref_machine :=
  mkGlobals (kr := ref_KRdmaKit) (example_sps 512) ∅ (mkCallerPool (kr := ref_KRdmaKit) [ref_caller] [] [] []) ref_pool [mkDCFactory tt] ∅ 4 1.

Definition ref_call : outcome (option BytesMut * Globals ref_machine * ref_machine) :=
  call_remote (rl := word_RpcLayout) 3 (ref_deliver ref_asked_bytes) ref_globals Query 2 5 ref_resumer.
Definition ref_answer : option BytesMut * Globals ref_machine * ref_machine := returned (None, ref_globals, ref_resumer) ref_call.
Definition ref_reply : BytesMut := mkBytesMut 592 72.
Definition ref_desc_buf : UDMsg ref_machine := mkUDMsg (kr := ref_KRdmaKit) (4096, 344)%Z (mkBytesMut 4096 344) 0.

Lemma ref_answered : ref_call = Ret ((Some ref_reply, ref_answer.1.2), ref_answer.2).
Proof.
  assert (E : ref_answer.1.1 = Some ref_reply) by (by vm_compute).
  rewrite (returned_ok (None, ref_globals, ref_resumer) ref_call) by (by vm_compute). fold ref_answer.
  rewrite <- E. by destruct ref_answer as [[]].
Qed.

Lemma ref_fetched : ∃ w2, remote_descriptor_fetch 3 ref_pool ref_asked ref_answer.2 = Ret (Ok ref_desc_buf, w2).
Proof.
  assert (E : match remote_descriptor_fetch 3 ref_pool ref_asked ref_answer.2 with
    | Ret (Ok b, _) => (msg_inner b : Z * Z, bm_ptr (msg_bytes b), bm_len (msg_bytes b), msg_imm b)
    | _ => (0, 0, 0, 0, 0)%Z
    end = (4096, 344, 4096, 344, 0)%Z) by (vm_compute; exact eq_refl).
  destruct (remote_descriptor_fetch _ _ _ _) as [[[[mr [p l] imm]|e] w2]| | |]; try discriminate E.
  exists w2. by injection E as -> -> -> ->.
Qed.

(** The parent's machine knows nothing of the key. *)
Lemma resume_all_or_nothing_witness :
  ∃ g' w', syscall_resume_w_rpc (vc := linux_VmConsts) (vm := area32) (x86 := x86_reference) (dl := word_layout) (rl := word_RpcLayout)
      (rp := word_ReplyLayout) 3 (ref_deliver []) (λ _, id) ref_globals (handler_open 3) 2 5 ref_resumer = Ret (((-1)%Z, handler_open 3, g'), w') ∧
    areas w' = areas ref_resumer.
Proof.
  assert (E : match syscall_resume_w_rpc (vc := linux_VmConsts) (vm := area32) (x86 := x86_reference) (dl := word_layout)
      (rl := word_RpcLayout) (rp := word_ReplyLayout) 3 (ref_deliver []) (λ _, id) ref_globals (handler_open 3) 2 5 ref_resumer with
    | Ret ((r, _, _), _) => r | _ => 7%Z end = (-1)%Z) by (vm_compute; exact eq_refl).
  destruct (syscall_resume_w_rpc _ _ _ _ _ _ _ _) as [[[[r self'] g'] w']| | |] eqn:Er; try discriminate E. subst r.
  destruct (resume_all_or_nothing _ _ _ _ _ _ _ _ _ _ _ _ Er) as [(_ & -> & Ha & _)|(Hr & _)]; [|discriminate Hr].
  exists g', w'. split; [reflexivity|exact Ha].
Defined.

Lemma ref_ready : resume_ready (vm := area32) 3 ref_globals (handler_open 3) 2 5 ref_resumer 2.
Proof.
  split; [reflexivity|exact example_task_inv|cbn; lia|by intros ?|apply pt_inv_empty|vm_compute; lia|reflexivity].
Qed.

Lemma ref_takeable mi : takeable example_process mi.
Proof.
  assert (Hd : ∀ k, (4096 | k * 4096)%Z) by (intros k; by exists k).
  split; [|cbn; lia|cbn; lia|intros ctx w; by eexists _, w].
  repeat constructor; cbn; try lia; [apply (Hd 1024%Z)|apply (Hd 1027%Z)].
Qed.

(** The process of the examples is prepared under the key 5 and resumed on
    another machine, where it has its one area and finds its page at 4 MiB. *)
Lemma fork_and_resume_witness :
  ∃ n gp' wp' self' g' w' rr e, add_myself_as (dl := word_layout) (vc := linux_VmConsts) true 2 (example_sps 512) 5 example_process = Ret ((Some n, gp'), wp') ∧
    syscall_resume_w_rpc (vc := linux_VmConsts) (vm := area32) (x86 := x86_reference) (dl := word_layout) (rl := word_RpcLayout)
      (rp := word_ReplyLayout) 3 (ref_deliver ref_asked_bytes) (λ _, ref_copy (g_mem gp') 512 4096 344) ref_globals (handler_open 3) 2 5
      ref_resumer = Ret ((0%Z, self', g'), w') ∧
    (λ x, (VmArea.vm_start x.2, VmArea.vm_end x.2)) <$> areas w' = [(4194304, 4206592)]%Z ∧
    resume_related (caller_status self') = Some rr ∧
    lookup_pg_table (x86 := x86_reference) (g_heap g') (rd_descriptor rr) 4194304 = Ret (Some e) ∧
    entry_for (os example_process) (os wp') 4194304 e.
Proof.
  destruct (fork_and_resume (dl := word_layout) (dl_ok := word_layout_ok) (vc := linux_VmConsts) (vm := area32) (vm_ok := area32_ok)
    (x86 := x86_reference) (rl := word_RpcLayout) (rp := word_ReplyLayout) true 2 (example_sps 512) example_process 5 [example_msg 0] (example_msg 512) []
    (mkDCTargetMeta (dt := ref_DcTargets) 11%Z 0 7 3 (0, 0)%Z) [[4194304; 4202496]%Z]) as (n & gp' & wp' & E & Hq & Hres);
    [by apply example_sps_inv|done|done|done|exact example_ready|by vm_compute|apply ref_takeable|apply example_small|].
  destruct ref_fetched as [w2 Ef].
  destruct (Hres 3 (ref_deliver ref_asked_bytes) (λ _, ref_copy (g_mem gp') 512 4096 344) ref_globals (handler_open 3) 2%Z ref_resumer ref_reply
    ref_answer.1.2 ref_answer.2 [11%Z] [(3, (0, 0))%Z] ref_asked ref_desc_buf w2 ref_ready ref_answered) as (self' & g' & w' & Er & Hm & _ & rr & Hrr & Hfind).
  - vm_compute. exact eq_refl.
  - unfold lookup_reply. rewrite Hq. exists 0, 11%Z, 3%Z, (0, 0)%Z. split; [reflexivity|]. split; [reflexivity|]. by vm_compute.
  - exact Ef.
  - split; [by exists 512%Z|]. split; [reflexivity|]. intros i Hi. by apply ref_copy_lookup.
  - exists n, gp', wp', self', g', w', rr. specialize (Hfind 4194304%Z (ltac:(by exists 1024%Z)) ltac:(lia)).
    rewrite decide_True in Hfind; [|split; [apply example_process_mapped; by left|repeat constructor; cbn; lia]].
    destruct Hfind as (e & El & He). exists e. split; [exact E|]. split; [exact Er|]. split; [|split; [exact Hrr|split; [exact El|exact He]]].
    clear -Hm.
    apply Forall2_cons_inv_l in Hm as ([p1 v1] & l1 & (S1 & E1 & _) & Hm & Hl). apply Forall2_nil_inv_l in Hm as ->.
    rewrite Hl. clear Hl. cbn in *. by rewrite S1, E1.
Defined.
