(* ===== verification/Startup.v ===== *)
(** * Starting and stopping the module ([lib.rs], [startup.rs], [rdma_context.rs], [dc_pool.rs], [rpc_caller_pool.rs], [rpc_service.rs])

    The module's services are global variables that [start_instance] fills and
    [end_instance] empties.  A state of the module has the global variables, the
    handler threads that were spawned, those that have come up, and the machine
    below.  Handler threads come up on their own while the start goes on: the
    order is a list of thread numbers given to [init_rpc]. *)

From S2P Require Import Prelude Future Rdma Machine PageStructures PageHeap RemotePageTable Bytes Descriptors ParentWire ChildWire Datagram ShadowProcess ShadowService Rpc RemotePaging RpcHandlers CallerPool PageFault RcPool.

(** ** [lib.rs]: the configuration *)
Record Config := mkConfig {
  default_nic_port : Z;
  num_nics_used : Z;
  rpc_threads_num : Z;
  machine_id : Z;
  max_core_cnt : Z;
  peers_gid : list (list Z);
  init_dc_targets : Z;
  max_cluster_size : Z;
  mem_pool_size : Z }.

Definition MAX_RPC_THREADS_CNT : Z := 10.

Definition Config_default : Config := mkConfig 1 1 2 0 48 [] 256 128 20.

Definition set_default_nic_port (c : Config) (port : Z) : Config :=
  mkConfig port (num_nics_used c) (rpc_threads_num c) (machine_id c) (max_core_cnt c) (peers_gid c) (init_dc_targets c) (max_cluster_size c) (mem_pool_size c).
Definition set_num_nics_used (c : Config) (num : Z) : Config :=
  mkConfig (default_nic_port c) num (rpc_threads_num c) (machine_id c) (max_core_cnt c) (peers_gid c) (init_dc_targets c) (max_cluster_size c) (mem_pool_size c).
Definition set_rpc_threads (c : Config) (num : Z) : outcome Config :=
  rust_assert (num <=? MAX_RPC_THREADS_CNT)%Z ≫= λ _,
  Ret (mkConfig (default_nic_port c) (num_nics_used c) num (machine_id c) (max_core_cnt c) (peers_gid c) (init_dc_targets c) (max_cluster_size c) (mem_pool_size c)).
Definition set_machine_id (c : Config) (id : Z) : Config :=
  mkConfig (default_nic_port c) (num_nics_used c) (rpc_threads_num c) id (max_core_cnt c) (peers_gid c) (init_dc_targets c) (max_cluster_size c) (mem_pool_size c).
Definition add_gid (c : Config) (gid : list Z) : Config :=
  mkConfig (default_nic_port c) (num_nics_used c) (rpc_threads_num c) (machine_id c) (max_core_cnt c) (peers_gid c ++ [gid]) (init_dc_targets c) (max_cluster_size c) (mem_pool_size c).
Definition set_max_core_cnt (c : Config) (cnt : Z) : Config :=
  mkConfig (default_nic_port c) (num_nics_used c) (rpc_threads_num c) (machine_id c) cnt (peers_gid c) (init_dc_targets c) (max_cluster_size c) (mem_pool_size c).
Definition set_init_dc_targets (c : Config) (num : Z) : Config :=
  mkConfig (default_nic_port c) (num_nics_used c) (rpc_threads_num c) (machine_id c) (max_core_cnt c) (peers_gid c) num (max_cluster_size c) (mem_pool_size c).
Definition set_mem_pool_size (c : Config) (sz : Z) : Config :=
  mkConfig (default_nic_port c) (num_nics_used c) (rpc_threads_num c) (machine_id c) (max_core_cnt c) (peers_gid c) (init_dc_targets c) (max_cluster_size c) sz.

(** ** KRdmaKit and the kernel's threads, as far as the start uses them *)
Class SetupKit (W : Type) {kr : KRdmaKit W} {cm : UdCm W} {dt : DcTargets} {rk : RcKit W} := {
  KDriver : Type;
  Device : Type;
  KDriver_create : io W (option KDriver);
  devices : KDriver → list Device;
  open_context : Device → io W (option Context_t);
  context_dev : Context_t → Device;
  context_rkey : Context_t → Z;
  (** [QueuePairBuilder]: build and bring up; the number is the port, for UD
      also the depth of the send queue *)
  build_dc : Context_t → Z → io W (Result QueuePair ControlpathError);
  build_ud : Context_t → Z → Z → io W (Result QueuePair ControlpathError);
  (** [DynamicConnectedTargetBuilder]: port and key *)
  build_dynamic_connected_target : Context_t → Z → Z → io W (option DCTarget);
  get_datagram_meta : DCTarget → io W (option (Z * (Z * Z)));
  UdService : Type;
  UdService_create : io W UdService;
  reg_qp : UdService → Z → QueuePair → io W ();
  RcServer_create : Context_t → Z → io W RcServer;
  CMServer : Type;
  CMServer_new : Z → UdService + RcServer → Device → io W (option CMServer);
  listen_id : CMServer → Z;
  gid_to_string : Z * Z → list Z;
  JoinHandler : Type;
  spawn : Z → io W (option JoinHandler);
  join : JoinHandler → io W () }.

(** Cargo features *)
Class StartFeatures := { feature_use_rc : bool; feature_prefetch : bool }.

(** A loop [for i in 0..n] that pushes one value per round. *)
Section ForRange.
Context {W A : Type} (body : Z → io W A).

Fixpoint for_range (start n : nat) (acc : list A) : io W (list A) :=
  match n with
  | 0 => mret acc
  | S n => a ← body (Z.of_nat start); for_range (S start) n (acc ++ [a])
  end.

Definition collect (n : Z) : io W (list A) := for_range 0 (Z.to_nat n) [].
End ForRange.

(** [i % n] on [usize] *)
Definition usize_rem (i n : Z) : outcome Z := if (n =? 0)%Z then Panic else Ret (i mod n)%Z.

(** ** The global variables ([declare_global!] in [mitosis-macros]) *)
Module Global.
Inductive name :=
| mac_id | max_caller_num | global_locks | max_cluster_size | max_nics_used
| rdma_driver | rdma_contexts | rdma_cm_service | ud_service | dc_target | dc_target_meta | rc_service | rc_cm_service
| ud_factories | rc_factories | dc_factories | service_rpc | service_caller_pool | rc_pool
| dc_pool_service | dc_target_service | access_info_service | dc_pool_service_async
| sp_service | mem_pool | global_pt_cache.
#[global] Instance name_eq_dec : EqDecision name.
Proof. solve_decision. Defined.
End Global.
Import Global(name).

Section Startup.
Context {W : Type} {kt : KTimerApi W} {kr : KRdmaKit W} {kn : Kernel W} {cm : UdCm W} {po : PortApi W} {dt : DcTargets} {rk : RcKit W}.
Context {sk : SetupKit W} {sf : StartFeatures} {rl : RpcLayout} {rp : ReplyLayout}.

(** [dc_pool.rs]: addresses of remote machines, per core *)
Definition AccessInfoPool : Type := list (gmap Z (AccessInfo W)).
Definition AccessInfoPool_new (sz : Z) : AccessInfoPool := replicate (Z.to_nat sz) ∅.
Definition AccessInfoPool_query (self : AccessInfoPool) (idx : nat) (id : Z) : outcome (option (AccessInfo W)) :=
  m ← unwrap (self !! idx); Ret (m !! id).
Definition AccessInfoPool_insert (self : AccessInfoPool) (idx : nat) (id : Z) (access : AccessInfo W) : outcome AccessInfoPool :=
  m ← unwrap (self !! idx); Ret (<[idx := <[id := access]> m]> self).

(** [rpc_service.rs]: the RPC service and the argument of a handler thread *)
Record RpcService := mkRpcService { threads : list JoinHandler; connect_infos : list HandlerConnectInfo }.
Record ThreadCTX := mkThreadCTX { th_id : Z; nic_to_use : Z }.

Definition get_connect_info (self : RpcService) (idx : nat) : option HandlerConnectInfo := connect_infos self !! idx.

Definition global_type (x : name) : Type :=
  match x with
  | Global.mac_id | Global.max_caller_num | Global.max_cluster_size | Global.max_nics_used => Z
  | Global.global_locks => list ()
  | Global.rdma_driver => KDriver
  | Global.rdma_contexts => list Context_t
  | Global.rdma_cm_service | Global.rc_cm_service => list CMServer
  | Global.ud_service => list UdService
  | Global.dc_target => list DCTarget
  | Global.dc_target_meta => list (Z * (Z * Z))
  | Global.rc_service => list RcServer
  | Global.ud_factories => list (UDFactory W)
  | Global.rc_factories => list (RCFactory W)
  | Global.dc_factories => list (DCFactory W)
  | Global.service_rpc => RpcService
  | Global.service_caller_pool => CallerPool W
  | Global.rc_pool => list (RCPool W)
  | Global.dc_pool_service | Global.dc_pool_service_async => DCPool W
  | Global.dc_target_service => DCTargetPool
  | Global.access_info_service => AccessInfoPool
  | Global.sp_service => gmap Z (ProcessBundler W)
  | Global.mem_pool => MemPool W
  | Global.global_pt_cache => RemotePageTableCache
  end.

Definition globals : Type := ∀ x, option (global_type x).
Definition no_globals : globals := λ _, None.
Definition update (g : globals) (x : name) (v : option (global_type x)) : globals := λ y,
  match decide (x = y) with left e => eq_rect x (λ z, option (global_type z)) v y e | right _ => g y end.

(** The state: the counter [RPC_HANDLER_READY_NUM], the threads
    that were spawned and have not run yet, and the hooks of those that have. *)
Record module := mkModule {
  m_globals : globals;
  m_ready : Z;
  m_spawned : list ThreadCTX;
  m_running : list (Z * RPCHook W);
  m_dev : W }.

Definition set_globals (s : module) (g : globals) : module := mkModule g (m_ready s) (m_spawned s) (m_running s) (m_dev s).
Definition set_dev (s : module) (w : W) : module := mkModule (m_globals s) (m_ready s) (m_spawned s) (m_running s) w.
Definition set_spawned (s : module) (l : list ThreadCTX) : module := mkModule (m_globals s) (m_ready s) l (m_running s) (m_dev s).
Definition thread_up (s : module) (id : Z) (hook : RPCHook W) : module :=
  mkModule (m_globals s) (m_ready s + 1) (m_spawned s) (m_running s ++ [(id, hook)]) (m_dev s).

Definition modify (f : module → module) : io module () := λ s, Ret ((), f s).

Definition init (x : name) (v : global_type x) : io module () := λ s, Ret ((), set_globals s (update (m_globals s) x (Some v))).
Definition drop_global (x : name) : io module () := λ s, Ret ((), set_globals s (update (m_globals s) x None)).
Definition get_ref (x : name) : io module (global_type x) := λ s,
  match m_globals s x with Some v => Ret (v, s) | None => Panic end.

(** Running a call of the machine below. *)
Definition dev {A} (m : io W A) : io module A := λ s,
  match m (m_dev s) with
  | Ret (a, w) => Ret (a, set_dev s w)
  | Panic => Panic
  | UB => UB
  | NoFuel => NoFuel
  end.

(** [get(idx)] on a global vector, then [unwrap] or [expect] *)
Definition nth_of {A} (l : list A) (idx : Z) : io module A := lift (unwrap (l !! Z.to_nat idx)).
Definition get_rdma_context_ref (nic_idx : Z) : io module Context_t := l ← get_ref Global.rdma_contexts; nth_of l nic_idx.
Definition get_ud_service_ref (nic_idx : Z) : io module UdService := l ← get_ref Global.ud_service; nth_of l nic_idx.
Definition get_rc_service_ref (nic_idx : Z) : io module RcServer := l ← get_ref Global.rc_service; nth_of l nic_idx.
Definition get_rdma_cm_server_ref (nic_idx : Z) : io module CMServer := l ← get_ref Global.rdma_cm_service; nth_of l nic_idx.
Definition get_ud_factory (nic_idx : Z) : io module (UDFactory W) := l ← get_ref Global.ud_factories; nth_of l nic_idx.
Definition get_dc_factory_ref (nic_idx : Z) : io module (DCFactory W) := l ← get_ref Global.dc_factories; nth_of l nic_idx.

Definition expect {A} (m : io module (option A)) : io module A := o ← m; lift (unwrap o).
Definition expect_ok {A E} (m : io module (Result A E)) : io module A := r ← m; match r with Ok a => mret a | Err _ => panic end.

(** ** The factories of [os-network] *)
Definition MAX_SEND_WR : Z := 2048.

Definition UDFactory_create (self : UDFactory W) (port : Z) : io W (Result (UDDatagram W) ControlpathError) :=
  r ← build_ud (Rpc.rctx self) MAX_SEND_WR port;
  mret (match r with Ok qp => Ok (mkUDDatagram qp 0) | Err e => Err e end).

Definition DCFactory_create (self : DCFactory W) (port : Z) : io W (Result DCConn ControlpathError) :=
  r ← build_dc (RemotePaging.rctx self) port;
  mret (match r with Ok qp => Ok (mkDCConn qp 0) | Err e => Err e end).

Definition create_target (self : DCFactory W) (key port_num : Z) : io W (option DCTarget) :=
  build_dynamic_connected_target (RemotePaging.rctx self) port_num key.

(** ** [rdma_context.rs] *)
Definition GLOBAL_DC_KEY : Z := 73.

Definition start_rdma (config : Config) : io module (option ()) :=
  kdriver ← dev KDriver_create;
  match kdriver with
  | None => mret None
  | Some kdriver =>
      init Global.rdma_driver kdriver ≫= λ _,
      contexts ← collect (λ i, d ← get_ref Global.rdma_driver; device ← nth_of (devices d) i; expect (dev (open_context device))) (num_nics_used config);
      init Global.rdma_contexts contexts ≫= λ _,
      ud_services ← collect (λ _, dev UdService_create) (num_nics_used config);
      init Global.ud_service ud_services ≫= λ _,
      targets ← collect (λ i,
        ctx ← get_rdma_context_ref i;
        dct_target ← expect (dev (create_target (mkDCFactory ctx) GLOBAL_DC_KEY (default_nic_port config)));
        dct_target_meta ← expect (dev (get_datagram_meta dct_target));
        mret (dct_target, dct_target_meta)) (num_nics_used config);
      init Global.dc_target (fst <$> targets) ≫= λ _,
      init Global.dc_target_meta (snd <$> targets) ≫= λ _,
      servers ← collect (λ i,
        id ← lift (u64_add SERVICE_ID_BASE i);
        service ← get_ud_service_ref i;
        ctx ← get_rdma_context_ref i;
        expect (dev (CMServer_new id (inl service) (context_dev ctx)))) (num_nics_used config);
      init Global.rdma_cm_service servers ≫= λ _,
      (if feature_use_rc then
        rc_services ← collect (λ i, ctx ← get_rdma_context_ref i; dev (RcServer_create ctx (default_nic_port config))) (num_nics_used config);
        init Global.rc_service rc_services ≫= λ _,
        servers ← collect (λ i,
          id ← lift (u64_add RC_SERVICE_ID_BASE i);
          service ← get_rc_service_ref i;
          ctx ← get_rdma_context_ref i;
          expect (dev (CMServer_new id (inr service) (context_dev ctx)))) (num_nics_used config);
        init Global.rc_cm_service servers
      else mret ()) ≫= λ _,
      mret (Some ())
  end.

Definition end_rdma : io module () :=
  (if feature_use_rc then drop_global Global.rc_cm_service ≫= λ _, drop_global Global.rc_service else mret ()) ≫= λ _,
  drop_global Global.rdma_cm_service ≫= λ _,
  drop_global Global.ud_service ≫= λ _,
  drop_global Global.dc_target_meta ≫= λ _,
  drop_global Global.dc_target ≫= λ _,
  drop_global Global.rdma_contexts ≫= λ _,
  drop_global Global.rdma_driver.

(** ** [dc_pool.rs] *)
Definition DCPool_new (config : Config) : io module (option (DCPool W)) :=
  l ← collect (λ i,
    nic_idx ← lift (usize_rem i (num_nics_used config));
    factory ← get_dc_factory_ref nic_idx;
    qp ← expect_ok (dev (DCFactory_create factory (default_nic_port config)));
    mret (qp, nic_idx)) (max_core_cnt config);
  mret (Some (mkDCPool (fst <$> l) (snd <$> l))).

Definition create_one_qp (self : DCPool W) : io module (DCPool W) :=
  factory ← get_dc_factory_ref 0;
  qp ← expect_ok (dev (DCFactory_create factory 1));
  mret (mkDCPool (dc_conns self ++ [qp]) (nic_idxs self)).

Definition DCTargetPool_new (config : Config) : io module (option DCTargetPool) :=
  pool ← collect (λ i,
    nic_idx ← lift (usize_rem i (num_nics_used config));
    factory ← get_dc_factory_ref nic_idx;
    let rkey := context_rkey (RemotePaging.rctx factory) in
    key ← lift (u64_add i 73);
    target ← expect (dev (create_target factory key (default_nic_port config)));
    '(lid, gid) ← expect (dev (get_datagram_meta target));
    mret (mkDCTargetMeta target nic_idx rkey lid gid)) (init_dc_targets config);
  mret (Some pool).

(** ** [rpc_caller_pool.rs] *)
Fixpoint register_bufs (n : nat) (ctx : Context_t) (caller : Caller W) : io module (Caller W) :=
  match n with
  | 0 => mret caller
  | S n =>
      buf ← dev (UDMsg_new 4096 0 ctx);
      '(r, caller) ← dev (register_recv_buf caller buf);
      match r with Ok _ => register_bufs n ctx caller | Err _ => panic end
  end.

Definition CallerPool_new (config : Config) : io module (option (CallerPool W)) :=
  l ← collect (λ i,
    nic_idx ← lift (usize_rem i (num_nics_used config));
    n ← lift (u64_mul (rpc_threads_num config) 2);
    base ← lift (u64_add QD_HINT_BASE n);
    client_ud_hint ← lift (u64_add base i);
    context ← get_rdma_context_ref nic_idx;
    factory ← get_ud_factory nic_idx;
    ud_service ← get_ud_service_ref nic_idx;
    cm_server ← get_rdma_cm_server_ref nic_idx;
    client_ud ← expect_ok (dev (UDFactory_create factory (default_nic_port config)));
    dev (reg_qp ud_service client_ud_hint (UDDatagram_get_qp client_ud)) ≫= λ _,
    let client_receiver := UDReceiverFactory_create (UDReceiverFactory_set_qd_hint UDReceiverFactory_new client_ud_hint) (UDDatagram_clone client_ud) in
    caller ← register_bufs 64 (qp_ctx (UDDatagram_get_qp client_ud)) (Caller_new client_receiver);
    mret (caller, factory, context, (client_ud_hint, listen_id cm_server))) (max_core_cnt config);
  mret (Some (mkCallerPool ((λ x, x.1.1.1) <$> l) ((λ x, x.1.1.2) <$> l) ((λ x, x.1.2) <$> l) (snd <$> l))).

(** ** [rpc_service.rs] *)
Definition spawn_worker (config : Config) (i : Z) : io module (option JoinHandler) :=
  nic_to_use ← lift (usize_rem i (num_nics_used config));
  handler ← dev (spawn i);
  match handler with
  | None => mret None
  | Some h => modify (λ s, set_spawned s (m_spawned s ++ [mkThreadCTX i nic_to_use])) ≫= λ _, mret (Some h)
  end.

Fixpoint spawn_loop (config : Config) (connect_infos : list HandlerConnectInfo) (i n : nat) (threads : list JoinHandler) : io module (option RpcService) :=
  match n with
  | 0 => mret (Some (mkRpcService threads connect_infos))
  | S n =>
      handler ← spawn_worker config (Z.of_nat i);
      match handler with
      | None => mret None
      | Some h => spawn_loop config connect_infos (S i) n (threads ++ [h])
      end
  end.

Definition new_with_worker (config : Config) : io module (option RpcService) :=
  connect_infos ← collect (λ i,
    nic_to_use ← lift (usize_rem i (num_nics_used config));
    local_context ← get_rdma_context_ref nic_to_use;
    qd_hint ← lift (calculate_qd_hint i);
    gid ← expect (dev (query_gid local_context (default_nic_port config) 0));
    service_id ← lift (u64_add SERVICE_ID_BASE nic_to_use);
    mret (mkHandlerConnectInfo (gid_to_string gid) service_id qd_hint (default_nic_port config))) (rpc_threads_num config);
  spawn_loop config connect_infos 0 (Z.to_nat (rpc_threads_num config)) [].

(** Dropping it joins the threads, the last one first. *)
Definition RpcService_drop (self : RpcService) : io module () :=
  dev (foldr (λ h k, join h ≫= λ _, k) (mret ()) (reverse (threads self))).

(** What the callbacks of a handler find in the global variables; they read
    them when they are called. *)
Context (served : Sps W * list DCTarget * list (Z * (Z * Z))).

(** [worker] up to its polling loop *)
Definition worker_setup (arg : ThreadCTX) : io module (RPCHook W) :=
  local_context ← get_rdma_context_ref (nic_to_use arg);
  expect (dev (query_gid local_context 1 0)) ≫= λ _,
  factory ← get_ud_factory (nic_to_use arg);
  server_ud ← expect_ok (dev (UDFactory_create factory 1));
  service ← get_ud_service_ref (nic_to_use arg);
  hint ← lift (calculate_qd_hint (th_id arg));
  dev (reg_qp service hint (UDDatagram_get_qp server_ud)) ≫= λ _,
  meta_factory ← get_ud_factory (nic_to_use arg);
  dev (worker_hook (th_id arg) meta_factory server_ud served.1.1 served.1.2 served.2).

(** A thread's set-up is one step here, with the counter [RPC_HANDLER_READY_NUM]
    raised at its end, and it is taken after [service_rpc] has been stored: its
    calls to the driver are not interleaved with those of the start. *)
Definition worker_start (arg : ThreadCTX) : io module () :=
  hook ← worker_setup arg; modify (λ s, thread_up s (th_id arg) hook).

(** The scheduler lets the thread [id] come up, if it is waiting for that. *)
Definition run_thread (id : Z) : io module () := λ s,
  match list_find (λ t, th_id t = id) (m_spawned s) with
  | Some (i, t) => worker_start t (set_spawned s (delete i (m_spawned s)))
  | None => Ret ((), s)
  end.

Definition run_threads (sched : list Z) : io module () := foldr (λ id k, run_thread id ≫= λ _, k) (mret ()) sched.

(** The barrier reads the counter; between two readings a thread may come up. *)
Fixpoint wait_handlers_ready_barrier (sched : list Z) (wait_num : Z) : io module () := λ s,
  if (wait_num <=? m_ready s)%Z then Ret ((), s)
  else match sched with
  | [] => NoFuel
  | id :: sched => (run_thread id ≫= λ _, wait_handlers_ready_barrier sched wait_num) s
  end.

(** ** [startup.rs] *)
Definition init_mitosis (config : Config) : io module (option ()) :=
  init Global.mac_id (machine_id config) ≫= λ _,
  init Global.max_caller_num (max_core_cnt config) ≫= λ _,
  init Global.max_nics_used (num_nics_used config) ≫= λ _,
  init Global.max_cluster_size (max_cluster_size config) ≫= λ _,
  expect (start_rdma config) ≫= λ _,
  contexts ← get_ref Global.rdma_contexts;
  init Global.ud_factories (mkUDFactory <$> contexts) ≫= λ _,
  contexts ← get_ref Global.rdma_contexts;
  init Global.dc_factories (mkDCFactory <$> contexts) ≫= λ _,
  init Global.access_info_service (AccessInfoPool_new (max_core_cnt config)) ≫= λ _,
  (if feature_use_rc then
    contexts ← get_ref Global.rdma_contexts;
    init Global.rc_factories (mkRCFactory <$> contexts) ≫= λ _,
    pools ← collect (λ _, lift (unwrap RCPool_new)) (max_core_cnt config);
    init Global.rc_pool pools
  else mret ()) ≫= λ _,
  init Global.global_locks (replicate (Z.to_nat (max_core_cnt config)) ()) ≫= λ _,
  pool ← expect (DCPool_new config);
  init Global.dc_pool_service pool ≫= λ _,
  (if feature_prefetch then
    pool ← expect (DCPool_new config);
    init Global.dc_pool_service_async pool
  else mret ()) ≫= λ _,
  targets ← expect (DCTargetPool_new config);
  init Global.dc_target_service targets ≫= λ _,
  init Global.sp_service ∅ ≫= λ _,
  context ← get_rdma_context_ref 0;
  pool ← dev (MemPool_new (Z.to_nat (mem_pool_size config)) context);
  init Global.mem_pool pool ≫= λ _,
  init Global.global_pt_cache ∅ ≫= λ _,
  init Global.service_rpc (mkRpcService [] []) ≫= λ _,
  init Global.service_caller_pool (mkCallerPool [] [] [] []) ≫= λ _,
  mret (Some ()).

(** Threads in [early] come up before the callers are made, those in [late]
    while the barrier waits. *)
Definition init_rpc (early late : list Z) (config : Config) : io module (option ()) :=
  service ← expect (new_with_worker config);
  init Global.service_rpc service ≫= λ _,
  run_threads early ≫= λ _,
  pool ← expect (CallerPool_new config);
  init Global.service_caller_pool pool ≫= λ _,
  wait_handlers_ready_barrier late (rpc_threads_num config) ≫= λ _,
  mret (Some ()).

Definition start_instance (early late : list Z) (config : Config) : io module (option ()) :=
  r ← init_mitosis config;
  match r with
  | None => mret None
  | Some _ =>
      r ← init_rpc early late config;
      match r with None => mret None | Some _ => mret (Some ()) end
  end.

(** Dropping the RPC service joins its threads. *)
Definition drop_service_rpc : io module () := λ s,
  (match m_globals s Global.service_rpc with Some service => RpcService_drop service | None => mret () end ≫= λ _,
   drop_global Global.service_rpc) s.

Definition end_instance : io module () :=
  drop_global Global.ud_factories ≫= λ _,
  drop_global Global.dc_factories ≫= λ _,
  (if feature_use_rc then drop_global Global.rc_factories ≫= λ _, drop_global Global.rc_pool else mret ()) ≫= λ _,
  drop_service_rpc ≫= λ _,
  drop_global Global.access_info_service ≫= λ _,
  drop_global Global.dc_target_service ≫= λ _,
  drop_global Global.dc_pool_service ≫= λ _,
  (if feature_prefetch then drop_global Global.dc_pool_service_async else mret ()) ≫= λ _,
  drop_global Global.service_caller_pool ≫= λ _,
  drop_global Global.sp_service ≫= λ _,
  drop_global Global.mem_pool ≫= λ _,
  drop_global Global.global_pt_cache ≫= λ _,
  drop_global Global.global_locks ≫= λ _,
  end_rdma.
End Startup.
