(* ===== verification/StartupSpec.v ===== *)
(** * What a start of the module establishes ([startup.rs])

    The other components assume pools that cover every core, idle queue pairs,
    receive queues that match the card's, buffers that do not overlap and
    addresses under which a peer finds the right queue pair.  Here [start_instance] is
    shown to establish all that from a machine whose cards and driver work, and
    [end_instance] to take everything back. *)

From S2P Require Import Prelude Future Rdma Machine PageStructures PageHeap RemotePageTable Bytes Descriptors ParentWire ChildWire Datagram ShadowProcess ShadowService Rpc RpcSpec RpcCall RemotePaging RpcHandlers CallerPool PageFault RcPool Startup.

(** ** What is relied on of KRdmaKit

    [in_use] are the queue pairs that exist, [taken] the memory handed out as
    [(address, size)], [free_hint] the hints no queue pair is registered under,
    [resolves service hint qp] what a peer finds under a hint, and
    [serves server service device] the service a CM server answers with and the
    device it listens on. *)
Class SetupOk (W : Type) {kt : KTimerApi W} {kt_ok : KTimerOk W} {kr : KRdmaKit W} {nic : NicOk W} {recv_ok : RecvOk W}
    {cm : UdCm W} {po : PortApi W} {dt : DcTargets} {rk : RcKit W} {sk : SetupKit W} := {
  nics : list Device;
  recv_depth : nat;
  in_use : QueuePair → W → Prop;
  taken : Z * Z → W → Prop;
  free_hint : Z → W → Prop;
  resolves : UdService → Z → QueuePair → W → Prop;
  serves : CMServer → UdService + RcServer → Device → Prop }.

Section Grows.
Context {W : Type} {kt : KTimerApi W} {kt_ok : KTimerOk W} {kr : KRdmaKit W} {nic : NicOk W} {recv_ok : RecvOk W}.
Context {cm : UdCm W} {po : PortApi W} {dt : DcTargets} {rk : RcKit W} {sk : SetupKit W} {so : SetupOk W}.

(** What a step of the set-up leaves alone: all that exists, but for the receive
    queues of [Q] and the hints [H]. *)
Record grows (Q : QueuePair → Prop) (H : Z → Prop) (w w' : W) : Prop := {
  gr_use q : in_use q w → in_use q w';
  gr_out q : in_use q w → outstanding q w' = outstanding q w;
  gr_recv q : in_use q w → ¬ Q q → posted_recv q w' = posted_recv q w;
  gr_taken r : taken r w → taken r w';
  gr_hint h : ¬ H h → free_hint h w → free_hint h w';
  gr_resolves s h q : resolves s h q w → resolves s h q w' }.

Definition none {A} : A → Prop := λ _, False.
Abbreviation keeps := (grows none none).

Lemma grows_refl Q H w : grows Q H w w.
Proof. by split. Qed.

Lemma grows_trans Q H w1 w2 w3 : grows Q H w1 w2 → grows Q H w2 w3 → grows Q H w1 w3.
Proof.
  intros [A1 A2 A3 A4 A5 A6] [B1 B2 B3 B4 B5 B6]. split; auto.
  - intros q Hq. by rewrite B2, A2 by auto.
  - intros q Hq Hn. by rewrite B3, A3 by auto.
Qed.

Lemma grows_mono (Q Q' : QueuePair → Prop) (H H' : Z → Prop) w w' :
  (∀ q, in_use q w → Q q → Q' q) → (∀ h, H h → H' h) → grows Q H w w' → grows Q' H' w w'.
Proof. intros HQ HH [A1 A2 A3 A4 A5 A6]. split; eauto. Qed.

(** A queue pair that did not exist before. *)
Record fresh_qp (qp : QueuePair) (w w' : W) : Prop := {
  fq_new : ¬ in_use qp w;
  fq_use : in_use qp w';
  fq_out : outstanding qp w' = [];
  fq_recv : posted_recv qp w' = [] }.

(** Code that ends normally with a result in [Q]. *)
Definition wp {S A} (m : io S A) (Q : A → S → Prop) (s : S) : Prop := ∃ a s', m s = Ret (a, s') ∧ Q a s'.
End Grows.

(** The cards and the driver work: every request of the set-up is granted. *)
Class SetupLaws (W : Type) {kt : KTimerApi W} {kt_ok : KTimerOk W} {kr : KRdmaKit W} {nic : NicOk W} {recv_ok : RecvOk W}
    {cm : UdCm W} {po : PortApi W} {dt : DcTargets} {rk : RcKit W} {sk : SetupKit W} {so : SetupOk W} : Prop := {
  recv_depth_ok : 64 ≤ recv_depth;
  kmalloc_ok : (0 < MAX_KMALLOC_SZ)%Z;
  driver_ok (w : W) : wp KDriver_create (λ o w', (∃ d, o = Some d ∧ devices d = nics) ∧ grows none none w w') w;
  open_context_ok d (w : W) : wp (open_context d) (λ o w', (∃ ctx, o = Some ctx ∧ context_dev ctx = d) ∧ grows none none w w') w;
  ud_service_ok (w : W) : wp UdService_create (λ _ w', grows none none w w') w;
  rc_server_ok ctx port (w : W) : wp (RcServer_create ctx port) (λ _ w', grows none none w w') w;
  cm_server_ok id svc d (w : W) : wp (CMServer_new id svc d)
    (λ o w', (∃ s, o = Some s ∧ listen_id s = id ∧ serves s svc d) ∧ grows none none w w') w;
  target_ok ctx port key (w : W) : wp (build_dynamic_connected_target ctx port key)
    (λ o w', (∃ t, o = Some t ∧ target_dc_key t = key) ∧ grows none none w w') w;
  target_meta_ok t (w : W) : wp (get_datagram_meta t) (λ o w', is_Some o ∧ grows none none w w') w;
  query_gid_ok ctx port idx (w : W) : wp (query_gid ctx port idx) (λ o w', is_Some o ∧ grows none none w w') w;
  spawn_ok i (w : W) : wp (spawn i) (λ o w', is_Some o ∧ grows none none w w') w;
  build_dc_ok ctx port (w : W) : wp (build_dc ctx port)
    (λ r w', (∃ qp, r = Ok qp ∧ qp_ctx qp = ctx ∧ fresh_qp qp w w') ∧ grows none none w w') w;
  build_ud_ok ctx depth port (w : W) : wp (build_ud ctx depth port)
    (λ r w', (∃ qp, r = Ok qp ∧ qp_ctx qp = ctx ∧ fresh_qp qp w w') ∧ grows none none w w') w;
  reg_qp_ok s h qp (w : W) : free_hint h w → wp (reg_qp s h qp) (λ _ w', resolves s h qp w' ∧ grows none (λ h', h' = h) w w') w;
  mr_new_ok ctx sz (w : W) : (0 < sz)%Z → wp (mr_new ctx sz) (λ o w', (∃ mr, o = Some mr ∧ taken (get_virt_addr mr, sz) w' ∧
      ∀ a n, taken (a, n) w → (a + n ≤ get_virt_addr mr ∨ get_virt_addr mr + sz ≤ a)%Z) ∧ grows none none w w') w;
  post_recv_ok' qp mr range addr (w : W) : in_use qp w → wp (post_recv qp mr range addr)
    (λ r w', posted_recv qp w' = posted_recv qp w ++ (match r with Ok _ => [mr] | Err _ => [] end) ∧
      (length (posted_recv qp w) < recv_depth → r = Ok ()) ∧ grows (λ q, q = qp) none w w') w }.

Section Runs.
Context {W : Type} {kt : KTimerApi W} {kt_ok : KTimerOk W} {kr : KRdmaKit W} {nic : NicOk W} {recv_ok : RecvOk W}.
Context {kn : Kernel W} {cm : UdCm W} {po : PortApi W} {dt : DcTargets} {rk : RcKit W} {sk : SetupKit W} {so : SetupOk W} {sl : SetupLaws W}.
Context {sf : StartFeatures} {rl : RpcLayout} {rp : ReplyLayout}.

(** ** Code that leaves the global variables alone *)
Context (g : globals) (ready : Z) (spawned : list ThreadCTX) (running : list (Z * RPCHook W)).
Abbreviation st := (mkModule g ready spawned running).

Definition runs {A} (m : io module A) (w : W) (P : A → W → Prop) : Prop := ∃ a w', m (st w) = Ret (a, st w') ∧ P a w'.

Lemma runs_ret {A} (a : A) w (P : A → W → Prop) : P a w → runs (mret a) w P.
Proof. intros H. by exists a, w. Qed.

Lemma runs_bind {A B} (m : io module A) (f : A → io module B) w (P : B → W → Prop) :
  runs m w (λ a w1, runs (f a) w1 P) → runs (m ≫= f) w P.
Proof. intros (a & w1 & E & b & w2 & E2 & H). exists b, w2. split; [|done]. by rewrite (io_bind_run _ _ _ _ _ E). Qed.

Lemma runs_lift {A B} (m : outcome A) a (f : A → io module B) w (P : B → W → Prop) :
  m = Ret a → runs (f a) w P → runs (lift m ≫= f) w P.
Proof. intros ->. done. Qed.

Lemma runs_mono {A} (m : io module A) w (P P' : A → W → Prop) : (∀ a w', P a w' → P' a w') → runs m w P → runs m w P'.
Proof. intros H (a & w' & E & HP). exists a, w'. auto. Qed.

Lemma runs_dev {A} (m : io W A) w (P : A → W → Prop) : wp m P w → runs (dev m) w P.
Proof. intros (a & w' & E & H). exists a, w'. unfold dev. cbn [m_dev]. by rewrite E. Qed.

Lemma runs_pure {A B} (m : io module A) a (f : A → io module B) w (P : B → W → Prop) :
  m (st w) = Ret (a, st w) → runs (f a) w P → runs (m ≫= f) w P.
Proof. intros E H. unfold runs. by rewrite (io_bind_run _ _ _ _ _ E). Qed.

Lemma get_ref_ok (x : Global.name) v w : g x = Some v → get_ref x (st w) = Ret (v, st w).
Proof. intros Hx. unfold get_ref. cbn [m_globals]. by rewrite Hx. Qed.

Lemma nth_ok {A} (l : list A) i a w : l !! Z.to_nat i = Some a → nth_of l i (st w) = Ret (a, st w).
Proof. intros H. unfold nth_of. by rewrite H. Qed.

Lemma get_nth_ok {A} (x : Global.name) (get : global_type x → list A) v i a w :
  g x = Some v → get v !! Z.to_nat i = Some a → (l ← get_ref x; nth_of (get l) i) (st w) = Ret (a, st w).
Proof. intros Hx Ha. rewrite (io_bind_run _ _ _ _ _ (get_ref_ok x v w Hx)). by apply nth_ok. Qed.

Lemma runs_expect {A B} (m : io W (option A)) (f : A → io module B) w (P : B → W → Prop) :
  wp m (λ o w1, ∃ a, o = Some a ∧ runs (f a) w1 P) w → runs (expect (dev m) ≫= f) w P.
Proof.
  intros (o & w1 & E & a & -> & H). unfold runs. rewrite (io_bind_run _ _ _ a (st w1)); [done|].
  unfold expect. rewrite (io_bind_run _ _ _ (Some a) (st w1)); [done|]. unfold dev. cbn [m_dev]. by rewrite E.
Qed.

Lemma runs_expect_ok {A B E} (m : io W (Result A E)) (f : A → io module B) w (P : B → W → Prop) :
  wp m (λ r w1, ∃ a, r = Ok a ∧ runs (f a) w1 P) w → runs (expect_ok (dev m) ≫= f) w P.
Proof.
  intros (o & w1 & Em & a & -> & H). unfold runs. rewrite (io_bind_run _ _ _ a (st w1)); [done|].
  unfold expect_ok. rewrite (io_bind_run _ _ _ (Ok a) (st w1)); [done|]. unfold dev. cbn [m_dev]. by rewrite Em.
Qed.

Lemma wp_mono' {A} (m : io W A) w (P P' : A → W → Prop) : wp m P w → (∀ a w', P a w' → P' a w') → wp m P' w.
Proof. intros (a & w' & E & HP) H. exists a, w'. auto. Qed.

Lemma wp_bind' {A B} (m : io W A) (f : A → io W B) w (P : B → W → Prop) :
  wp m (λ a w1, wp (f a) P w1) w → wp (m ≫= f) P w.
Proof. intros (a & w1 & E & b & w2 & E2 & H). exists b, w2. split; [|done]. by rewrite (io_bind_run _ _ _ _ _ E). Qed.

(** ** A loop that collects: what holds of the elements made so far is kept, and
    each element is new to those before it. *)
Lemma runs_collect {A} (body : Z → io module A) (R : W → W → Prop) (I : nat → W → Prop) (P : nat → A → W → Prop)
    (D : A → A → Prop) (n : Z) w :
  (∀ w, R w w) → (∀ w1 w2 w3, R w1 w2 → R w2 w3 → R w1 w3) →
  (∀ i a w w', R w w' → P i a w → P i a w') → I 0 w →
  (∀ i w, (Z.of_nat i < n)%Z → I i w → runs (body (Z.of_nat i)) w (λ a w',
    R w w' ∧ I (S i) w' ∧ P i a w' ∧ ∀ j b, P j b w → D b a)) →
  runs (collect body n) w (λ l w', R w w' ∧ I (Z.to_nat n) w' ∧ length l = Z.to_nat n ∧
    (∀ i a, l !! i = Some a → P i a w') ∧ (∀ i j a b, l !! i = Some a → l !! j = Some b → i < j → D a b)).
Proof.
  intros Hrefl Htrans Hst HI Hbody.
  assert (Hl : ∀ k i acc w0, i + k = Z.to_nat n → length acc = i → R w w0 → I i w0 → (∀ j a, acc !! j = Some a → P j a w0) →
    (∀ j j' a b, acc !! j = Some a → acc !! j' = Some b → j < j' → D a b) →
    runs (for_range body i k acc) w0 (λ l w', R w w' ∧ I (Z.to_nat n) w' ∧ length l = Z.to_nat n ∧
    (∀ i a, l !! i = Some a → P i a w') ∧ (∀ i j a b, l !! i = Some a → l !! j = Some b → i < j → D a b))).
  { induction k as [|k IH]; intros i acc w0 Hi Hlen HR HI0 HP HD; cbn [for_range].
    - apply runs_ret. rewrite Nat.add_0_r in Hi. rewrite <- Hi. split_and!; done.
    - apply runs_bind. eapply runs_mono; [|apply (Hbody i w0); [lia|done]]. intros a w1 (HR1 & HI1 & HP1 & HD1).
      apply IH; [lia|rewrite length_app; cbn; lia|by eapply Htrans|done| |].
      + intros j b [Hj|[Hj Hb]]%lookup_app_Some; [eauto|]. apply list_lookup_singleton_Some in Hb as [Hj' <-].
        by replace j with i by lia.
      + intros j j' b c [Hj|[Hj Hb]]%lookup_app_Some [Hj'|[Hj' Hc]]%lookup_app_Some Hlt; [eauto| | |].
        * apply list_lookup_singleton_Some in Hc as [_ <-]. eauto.
        * apply lookup_lt_Some in Hj'. lia.
        * apply list_lookup_singleton_Some in Hb as [Hb1 _], Hc as [Hc1 _]. lia. }
  apply Hl; [lia|done|done|done|..]; intros; by rewrite lookup_nil in *.
Qed.

(** ** The pools *)
Lemma wp_expect_some {A} (m : io W (option A)) w (P : A → W → Prop) (Q : A → W → Prop) :
  wp m (λ o w', (∃ a, o = Some a ∧ P a w') ∧ grows none none w w') w → (∀ a w', P a w' → grows none none w w' → Q a w') →
  wp m (λ o w', ∃ a, o = Some a ∧ Q a w') w.
Proof. intros (o & w' & E & (a & -> & HP) & Hg) H. exists (Some a), w'. split; [done|]. exists a. auto. Qed.

Lemma wp_expect_is_some {A} (m : io W (option A)) w (Q : A → W → Prop) :
  wp m (λ o w', is_Some o ∧ grows none none w w') w → (∀ a w', grows none none w w' → Q a w') →
  wp m (λ o w', ∃ a, o = Some a ∧ Q a w') w.
Proof. intros (o & w' & E & [a ->] & Hg) H. exists (Some a), w'. split; [done|]. exists a. auto. Qed.

Lemma UDMsg_new_ok sz imm ctx w : (0 < sz)%Z → wp (UDMsg_new sz imm ctx) (λ m w', grows none none w w' ∧
    taken (bm_ptr (msg_bytes m), sz) w' ∧ bm_len (msg_bytes m) = sz ∧
    ∀ a n, taken (a, n) w → (a + n ≤ bm_ptr (msg_bytes m) ∨ bm_ptr (msg_bytes m) + sz ≤ a)%Z) w.
Proof.
  intros Hsz. destruct (mr_new_ok ctx sz w Hsz) as (o & w' & E & (mr & -> & Ht & Hd) & Hg).
  exists (mkUDMsg mr (from_raw (get_virt_addr mr) sz) imm), w'. split; [|split_and!; [exact Hg|exact Ht|done|exact Hd]].
  unfold UDMsg_new. by rewrite (io_bind_run _ _ _ _ _ E).
Qed.

Definition cores (c : Config) : nat := Z.to_nat (max_core_cnt c).
Definition nic_of (c : Config) (i : nat) : Z := (Z.of_nat i mod num_nics_used c)%Z.

(** A configuration that fits the machine. *)
Record config_ok (c : Config) : Prop := {
  co_nics : (0 < num_nics_used c ≤ Z.of_nat (length nics))%Z ∧ (num_nics_used c < 2 ^ 32)%Z;
  co_cores : (0 ≤ max_core_cnt c < 2 ^ 32)%Z;
  co_threads : (0 ≤ rpc_threads_num c < 2 ^ 32)%Z;
  co_targets : (0 ≤ init_dc_targets c < 2 ^ 32)%Z }.

Lemma nic_of_ok c i : config_ok c → usize_rem (Z.of_nat i) (num_nics_used c) = Ret (nic_of c i).
Proof. intros [[H _] _ _ _]. unfold usize_rem. by destruct (Z.eqb_spec (num_nics_used c) 0); [lia|]. Qed.

Lemma nic_lookup {A} c i (l : list A) : config_ok c → length l = Z.to_nat (num_nics_used c) → ∃ a, l !! Z.to_nat (nic_of c i) = Some a.
Proof.
  intros [[H _] _ _ _] Hl. apply lookup_lt_is_Some_2. unfold nic_of. pose proof (Z.mod_pos_bound (Z.of_nat i) (num_nics_used c)). lia.
Qed.

(** An idle queue pair *)
Definition idle_qp (qp : QueuePair) (w : W) : Prop := in_use qp w ∧ outstanding qp w = [].

Lemma idle_grows Q H qp w w' : grows Q H w w' → idle_qp qp w → idle_qp qp w'.
Proof. intros Hg [Hu Ho]. split; [by eapply gr_use|]. by rewrite (gr_out _ _ _ _ Hg). Qed.

Record dc_pool_ok (c : Config) (pool : DCPool W) (w : W) : Prop := {
  dp_len : length (dc_conns pool) = cores c;
  dp_nics i n : nic_idxs pool !! i = Some n → n = nic_of c i;
  dp_idle i conn : dc_conns pool !! i = Some conn → idle_qp (dc conn) w;
  dp_apart i j a b : dc_conns pool !! i = Some a → dc_conns pool !! j = Some b → i < j → dc a ≠ dc b }.

Lemma dc_pool_grows Q H c pool w w' : grows Q H w w' → dc_pool_ok c pool w → dc_pool_ok c pool w'.
Proof. intros Hg [A1 A2 A3 A4]. split; [done|done| |done]. intros i conn Hi. eapply idle_grows; eauto. Qed.

Lemma DCPool_new_ok c facs w :
  config_ok c → g Global.dc_factories = Some facs → length facs = Z.to_nat (num_nics_used c) →
  runs (DCPool_new c) w (λ o w', grows none none w w' ∧ ∃ pool, o = Some pool ∧ dc_pool_ok c pool w').
Proof.
  intros Hc Hg Hl. apply runs_bind. eapply runs_mono; cycle 1.
  { apply (runs_collect _ (grows none none) (λ _ _, True) (λ i x w, x.2 = nic_of c i ∧ idle_qp (dc x.1) w) (λ x y, dc x.1 ≠ dc y.1));
      [apply grows_refl|apply grows_trans| |done|].
    { intros i x w1 w2 Hgr [H1 H2]. split; [done|by eapply idle_grows]. }
    intros i w1 Hi _. eapply runs_lift; [by apply nic_of_ok|]. destruct (nic_lookup c i facs Hc Hl) as [f Hf].
    eapply runs_pure; [by apply (get_nth_ok Global.dc_factories (λ l, l) facs)|]. apply runs_expect_ok.
    destruct (build_dc_ok (RemotePaging.rctx f) (default_nic_port c) w1) as (r & w2 & E & (qp & -> & _ & [Hn Hu Ho _]) & Hgr).
    eexists (Ok (mkDCConn qp 0)), w2. split; [unfold DCFactory_create; by rewrite (io_bind_run _ _ _ _ _ E)|].
    eexists. split; [done|]. apply runs_ret. split_and!; [done|done|done|done|]. cbn. intros j b [_ [Hb _]] Heq. congruence. }
  intros l w' (Hgr & _ & Hlen & HP & HD). apply runs_ret. split; [done|]. eexists. split; [done|]. split; cbn.
  - by rewrite length_fmap.
  - intros i n Hi. apply list_lookup_fmap_Some in Hi as (x & -> & Hx). by apply (HP i x).
  - intros i conn Hi. apply list_lookup_fmap_Some in Hi as (x & -> & Hx). by apply (HP i x).
  - intros i j a b Hi Hj Hlt. apply list_lookup_fmap_Some in Hi as (x & -> & Hx), Hj as (y & -> & Hy). by apply (HD i j).
Qed.

Record target_ok_at (c : Config) (i : nat) (t : DCTargetMeta) : Prop := {
  ta_key : target_dc_key (tm_target t) = (Z.of_nat i + 73)%Z;
  ta_nic : tm_nic_idx t = nic_of c i }.

Lemma DCTargetPool_new_ok c facs w :
  config_ok c → g Global.dc_factories = Some facs → length facs = Z.to_nat (num_nics_used c) →
  runs (DCTargetPool_new c) w (λ o w', grows none none w w' ∧ ∃ ts, o = Some ts ∧
    length ts = Z.to_nat (init_dc_targets c) ∧ ∀ i t, ts !! i = Some t → target_ok_at c i t).
Proof.
  intros Hc Hg Hl. apply runs_bind. eapply runs_mono; cycle 1.
  { apply (runs_collect _ (grows none none) (λ _ _, True) (λ i t _, target_ok_at c i t) (λ _ _, True));
      [apply grows_refl|apply grows_trans|done|done|].
    intros i w1 Hi _. eapply runs_lift; [by apply nic_of_ok|]. destruct (nic_lookup c i facs Hc Hl) as [f Hf].
    eapply runs_pure; [by apply (get_nth_ok Global.dc_factories (λ l, l) facs)|].
    eapply runs_lift; [apply u64_add_Ret; destruct Hc; unfold is_u64; lia|]. apply runs_expect.
    eapply wp_expect_some; [apply target_ok|]. intros t w2 Hk Hg2. apply runs_expect.
    eapply wp_expect_is_some; [apply target_meta_ok|]. intros [lid gid] w3 Hg3. apply runs_ret.
    split_and!; [by eapply grows_trans|done|by split|done]. }
  intros l w' (Hgr & _ & Hlen & HP & _). apply runs_ret. split; [done|]. by exists l.
Qed.

Record mem_pool_ok (n : nat) (mp : MemPool W) (w : W) : Prop := {
  mo_len : length (mp_pool mp) = n;
  mo_size x : x ∈ mp_pool mp → bm_len (msg_bytes x) = MAX_KMALLOC_SZ;
  mo_apart i j x y : mp_pool mp !! i = Some x → mp_pool mp !! j = Some y → i < j → apart (msg_bytes x) (msg_bytes y) }.

Lemma fill_up_ok n ctx pool w :
  (∀ x, x ∈ pool → taken (bm_ptr (msg_bytes x), bm_len (msg_bytes x)) w ∧ bm_len (msg_bytes x) = MAX_KMALLOC_SZ) →
  (∀ i j x y, pool !! i = Some x → pool !! j = Some y → i < j → apart (msg_bytes x) (msg_bytes y)) →
  wp (fill_up pool n ctx) (λ pool' w', grows none none w w' ∧ length pool' = length pool + n ∧
    (∀ x, x ∈ pool' → bm_len (msg_bytes x) = MAX_KMALLOC_SZ) ∧
    ∀ i j x y, pool' !! i = Some x → pool' !! j = Some y → i < j → apart (msg_bytes x) (msg_bytes y)) w.
Proof.
  revert pool w. induction n as [|n IH]; intros pool w Ht Ha; cbn [fill_up].
  - exists pool, w. split; [done|]. split_and!; [apply grows_refl|lia|intros x Hx; by apply Ht|done].
  - apply wp_bind'. eapply wp_mono'; [apply UDMsg_new_ok, kmalloc_ok|]. intros m w1 (Hg & Hm & Hlen & Hd).
    eapply wp_mono'; [apply IH|].
    + intros x [Hx|Hx]%elem_of_app; [|apply list_elem_of_singleton in Hx as ->; by rewrite Hlen].
      destruct (Ht x Hx) as [H1 H2]. split; [by eapply gr_taken|done].
    + intros i j x y [Hi|[Hi Hx]]%lookup_app_Some [Hj|[Hj Hy]]%lookup_app_Some Hlt; [eauto| | |].
      * apply list_lookup_singleton_Some in Hy as [_ <-]. destruct (Ht x) as [H1 H2]; [by eapply list_elem_of_lookup_2|].
        destruct (Hd _ _ H1); unfold apart; lia.
      * apply lookup_lt_Some in Hj. lia.
      * apply list_lookup_singleton_Some in Hx as [? _], Hy as [? _]. lia.
    + intros pool' w2 (Hg2 & Hl2 & Hs2 & Ha2). rewrite length_app in Hl2. cbn in Hl2.
      split_and!; [by eapply grows_trans|lia|done|done].
Qed.

Lemma MemPool_new_ok n ctx w :
  wp (MemPool_new n ctx) (λ mp w', grows none none w w' ∧ mem_pool_ok n mp w') w.
Proof.
  apply wp_bind'. eapply wp_mono'; [apply fill_up_ok; by intros; set_solver|].
  intros pool w' (Hg & Hl & Hs & Ha). eexists _, w'. split; [done|]. by split.
Qed.

(** ** The callers *)
Abbreviation caller_qp c := (ud (recv_inner (inner_receiver c))).

Lemma register_bufs_ok n ctx caller w :
  in_use (caller_qp caller) w → ReceiverInv (inner_receiver caller) w →
  length (msg_queues (inner_receiver caller)) + n ≤ recv_depth →
  runs (register_bufs n ctx caller) w (λ caller' w', grows (λ q, q = caller_qp caller) none w w' ∧
    caller_qp caller' = caller_qp caller ∧ caller_sessions caller' = caller_sessions caller ∧
    ReceiverInv (inner_receiver caller') w' ∧
    length (msg_queues (inner_receiver caller')) = length (msg_queues (inner_receiver caller)) + n).
Proof.
  revert caller w. induction n as [|n IH]; intros caller w Hu Hr Hn; cbn [register_bufs].
  - apply runs_ret. split_and!; [apply grows_refl|done|done|done|lia].
  - apply runs_bind, runs_dev. eapply wp_mono'; [by apply UDMsg_new_ok|]. intros buf w1 (Hg1 & _).
    apply runs_bind, runs_dev. assert (Hu1 : in_use (caller_qp caller) w1) by by eapply gr_use.
    destruct (post_recv_ok' (caller_qp caller) (UDMsg_get_inner buf) (0, UDMsg_len buf)%Z (UDMsg_get_pa buf) w1 Hu1)
      as (r & w2 & E & Hp & Hok & Hg2).
    assert (Hp1 : posted_recv (caller_qp caller) w1 = UDMsg_get_inner <$> msg_queues (inner_receiver caller))
      by (rewrite (gr_recv _ _ _ _ Hg1 _ Hu) by (intros []); exact Hr).
    rewrite Hp1, length_fmap in Hok. rewrite Hok in * by lia. rewrite Hp1 in Hp.
    set (caller2 := mkCaller (mkUDReceiver (qd_hint (inner_receiver caller)) (recv_inner (inner_receiver caller))
      (msg_queues (inner_receiver caller) ++ [buf])) (caller_sessions caller)).
    exists (Ok (), caller2), w2. split.
    { unfold register_recv_buf, post_recv_buf. unfold mbind at 1, io_bind at 1. by rewrite (io_bind_run _ _ _ _ _ E). }
    eapply runs_mono; [|apply (IH caller2 w2)]; cbn.
    + intros c' w3 (Hg3 & Hq & Hs & Hr3 & Hl). rewrite length_app in Hl. cbn in Hl. split_and!; [|done|done|done|lia].
      eapply grows_trans; [|exact Hg3]. eapply grows_trans; [|exact Hg2]. eapply grows_mono; [..|exact Hg1]; [by intros ? _ []|done].
    + by eapply gr_use.
    + unfold ReceiverInv. cbn. rewrite Hp. by rewrite fmap_app.
    + rewrite length_app. cbn. lia.
Qed.

Definition server_hint (i : Z) : Z := (QD_HINT_BASE + i)%Z.
Definition client_hint (c : Config) (i : nat) : Z := (QD_HINT_BASE + rpc_threads_num c * 2 + Z.of_nat i)%Z.
Definition client_hints (c : Config) : Z → Prop := λ h, (client_hint c 0 ≤ h)%Z.

(** The caller of core [i]: its queue pair is idle and can be found under the
    published service and hint, and the receive queue is the card's. *)
Record caller_at (c : Config) (facs : list (UDFactory W)) (ctxs : list Context_t) (svcs : list UdService) (i : nat)
    (x : Caller W * UDFactory W * Context_t * (Z * Z)) (w : W) : Prop := {
  ca_idle : idle_qp (caller_qp x.1.1.1) w;
  ca_recv : ReceiverInv (inner_receiver x.1.1.1) w;
  ca_bufs : length (msg_queues (inner_receiver x.1.1.1)) = 64;
  ca_sessions : caller_sessions x.1.1.1 = ∅;
  ca_meta : x.2 = (client_hint c i, SERVICE_ID_BASE + nic_of c i)%Z;
  ca_nic : facs !! Z.to_nat (nic_of c i) = Some x.1.1.2 ∧ ctxs !! Z.to_nat (nic_of c i) = Some x.1.2;
  ca_found : ∃ svc, svcs !! Z.to_nat (nic_of c i) = Some svc ∧ resolves svc (client_hint c i) (caller_qp x.1.1.1) w }.

Lemma caller_grows H c facs ctxs svcs i x w w' : grows none H w w' → caller_at c facs ctxs svcs i x w → caller_at c facs ctxs svcs i x w'.
Proof.
  intros Hg [A1 A2 A3 A4 A5 A6 (svc & A7 & A8)]. split; [by eapply idle_grows| |done|done|done|done|].
  - unfold ReceiverInv. rewrite (gr_recv _ _ _ _ Hg); [done|apply A1|intros []].
  - exists svc. split; [done|by eapply gr_resolves].
Qed.

Lemma client_hint_ok c i : config_ok c → (Z.of_nat i < max_core_cnt c)%Z →
  (n ← u64_mul (rpc_threads_num c) 2; base ← u64_add QD_HINT_BASE n; u64_add base (Z.of_nat i)) = Ret (client_hint c i) ∧
  u64_mul (rpc_threads_num c) 2 = Ret (rpc_threads_num c * 2)%Z ∧
  u64_add QD_HINT_BASE (rpc_threads_num c * 2) = Ret (QD_HINT_BASE + rpc_threads_num c * 2)%Z ∧
  u64_add (QD_HINT_BASE + rpc_threads_num c * 2) (Z.of_nat i) = Ret (client_hint c i).
Proof.
  intros [_ Hc Ht _] Hi. unfold QD_HINT_BASE in *. unfold client_hint, QD_HINT_BASE.
  assert (E1 : u64_mul (rpc_threads_num c) 2 = Ret (rpc_threads_num c * 2)%Z) by (apply u64_checked_Ret; unfold is_u64; lia).
  assert (E2 : u64_add 12 (rpc_threads_num c * 2) = Ret (12 + rpc_threads_num c * 2)%Z) by (apply u64_add_Ret; unfold is_u64; lia).
  assert (E3 : u64_add (12 + rpc_threads_num c * 2) (Z.of_nat i) = Ret (12 + rpc_threads_num c * 2 + Z.of_nat i)%Z)
    by (apply u64_add_Ret; unfold is_u64; lia).
  rewrite E1. cbn [mbind outcome_bind]. rewrite E2. cbn [mbind outcome_bind]. rewrite E3. done.
Qed.

Lemma caller_body_ok c facs ctxs svcs i f ctx svc (srv : CMServer) w :
  facs !! Z.to_nat (nic_of c i) = Some f → ctxs !! Z.to_nat (nic_of c i) = Some ctx → svcs !! Z.to_nat (nic_of c i) = Some svc →
  (∀ j, i ≤ j → free_hint (client_hint c j) w) → (Z.of_nat i < max_core_cnt c)%Z →
  listen_id srv = (SERVICE_ID_BASE + nic_of c i)%Z → config_ok c →
  runs (client_ud ← expect_ok (dev (UDFactory_create f (default_nic_port c)));
    dev (reg_qp svc (client_hint c i) (UDDatagram_get_qp client_ud)) ≫= λ _,
    let client_receiver := UDReceiverFactory_create (UDReceiverFactory_set_qd_hint UDReceiverFactory_new (client_hint c i)) (UDDatagram_clone client_ud) in
    caller ← register_bufs 64 (qp_ctx (UDDatagram_get_qp client_ud)) (Caller_new client_receiver);
    mret (caller, f, ctx, (client_hint c i, listen_id srv))) w
  (λ x w', grows none (client_hints c) w w' ∧ (∀ j, S i ≤ j → free_hint (client_hint c j) w') ∧
    caller_at c facs ctxs svcs i x w' ∧ ∀ j y, caller_at c facs ctxs svcs j y w → caller_qp y.1.1.1 ≠ caller_qp x.1.1.1).
Proof.
  intros Hf Hx Hs HI Hi Hid Hc. apply runs_expect_ok.
  destruct (build_ud_ok (Rpc.rctx f) MAX_SEND_WR (default_nic_port c) w) as (r & w1 & E & (qp & -> & _ & [Hn Hu Ho Hp]) & Hg1).
  exists (Ok (mkUDDatagram qp 0)), w1. split; [unfold UDFactory_create; by rewrite (io_bind_run _ _ _ _ _ E)|].
  exists (mkUDDatagram qp 0). split; [done|]. cbn [UDDatagram_get_qp UDDatagram_clone ud pending].
  apply runs_bind, runs_dev. eapply wp_mono'; [apply reg_qp_ok; eapply gr_hint; [exact Hg1|by intros []|by apply HI]|].
  intros _ w2 [Hres Hg2]. apply runs_bind. cbv zeta.
  eapply runs_mono; [|apply register_bufs_ok; cbn].
  - intros caller w3 (Hg3 & Hq & Hss & Hrec & Hlen). apply runs_ret. cbn in Hq, Hlen, Hg3.
    assert (G : grows (λ q, q = qp) (λ h, h = client_hint c i) w w3).
    { eapply grows_trans; [eapply grows_mono; [..|exact Hg1]; [by intros ?? []|by intros ? []]|].
      eapply grows_trans; [eapply grows_mono; [..|exact Hg2]; [by intros ?? []|done]|].
      eapply grows_mono; [..|exact Hg3]; [done|by intros ? []]. }
    assert (Hqu : in_use qp w2) by (by eapply gr_use).
    split_and!.
    + eapply grows_mono; [..|exact G]; [by intros q Hq1 ->|]. intros h ->. unfold client_hints, client_hint. lia.
    + intros j Hj. eapply gr_hint; [exact G| |apply HI; lia]. unfold client_hint. lia.
    + split; cbn; rewrite ?Hq; [|exact Hrec|lia|exact Hss|by rewrite Hid|done|].
      * split; [exact (gr_use _ _ _ _ Hg3 _ Hqu)|]. by rewrite (gr_out _ _ _ _ Hg3), (gr_out _ _ _ _ Hg2).
      * exists svc. split; [done|exact (gr_resolves _ _ _ _ Hg3 _ _ _ Hres)].
    + intros j y Hy. cbn. rewrite Hq. intros Heq. apply Hn. rewrite <- Heq. apply (ca_idle _ _ _ _ _ _ _ Hy).
  - by eapply gr_use.
  - unfold ReceiverInv. cbn. rewrite (gr_recv _ _ _ _ Hg2); [done|done|by intros []].
  - pose proof recv_depth_ok. lia.
Qed.

Lemma CallerPool_new_ok c facs ctxs svcs srvs w :
  config_ok c → g Global.ud_factories = Some facs → g Global.rdma_contexts = Some ctxs → g Global.ud_service = Some svcs →
  g Global.rdma_cm_service = Some srvs → length facs = Z.to_nat (num_nics_used c) → length ctxs = Z.to_nat (num_nics_used c) →
  length svcs = Z.to_nat (num_nics_used c) → length srvs = Z.to_nat (num_nics_used c) →
  (∀ i s, srvs !! i = Some s → listen_id s = (SERVICE_ID_BASE + Z.of_nat i)%Z) →
  (∀ h, client_hints c h → free_hint h w) →
  runs (CallerPool_new c) w (λ o w', grows none (client_hints c) w w' ∧ ∃ l,
    o = Some (mkCallerPool ((λ x, x.1.1.1) <$> l) ((λ x, x.1.1.2) <$> l) ((λ x, x.1.2) <$> l) (snd <$> l)) ∧ length l = cores c ∧
    (∀ i x, l !! i = Some x → caller_at c facs ctxs svcs i x w') ∧
    (∀ i j x y, l !! i = Some x → l !! j = Some y → i < j → caller_qp x.1.1.1 ≠ caller_qp y.1.1.1)).
Proof.
  intros Hc Hfac Hctx Hsvc Hsrv Lf Lc Ls Lr Hid Hfree. apply runs_bind. eapply runs_mono; cycle 1.
  { apply (runs_collect _ (grows none (client_hints c)) (λ i w, ∀ j, i ≤ j → free_hint (client_hint c j) w)
      (caller_at c facs ctxs svcs) (λ x y, caller_qp x.1.1.1 ≠ caller_qp y.1.1.1));
      [apply grows_refl|apply grows_trans|by intros; eapply caller_grows| |].
    { intros j _. apply Hfree. unfold client_hints, client_hint. lia. }
    intros i w1 Hi HI. destruct (client_hint_ok c i Hc Hi) as (_ & E1 & E2 & E3).
    eapply runs_lift; [by apply nic_of_ok|]. eapply runs_lift; [exact E1|]. eapply runs_lift; [exact E2|]. eapply runs_lift; [exact E3|].
    destruct (nic_lookup c i facs Hc Lf) as [f Hf], (nic_lookup c i ctxs Hc Lc) as [ctx Hx], (nic_lookup c i svcs Hc Ls) as [svc Hs],
      (nic_lookup c i srvs Hc Lr) as [srv Hr].
    eapply runs_pure; [by apply (get_nth_ok Global.rdma_contexts (λ l, l) ctxs)|].
    eapply runs_pure; [by apply (get_nth_ok Global.ud_factories (λ l, l) facs)|].
    eapply runs_pure; [by apply (get_nth_ok Global.ud_service (λ l, l) svcs)|].
    eapply runs_pure; [by apply (get_nth_ok Global.rdma_cm_service (λ l, l) srvs)|].
    apply caller_body_ok; [done|done|done|done|done| |done].
    rewrite (Hid _ _ Hr). unfold nic_of. rewrite Z2Nat.id; [done|]. apply Z.mod_pos_bound. destruct Hc; lia. }
  intros l w' (Hgr & _ & Hlen & HP & HD). apply runs_ret. split; [done|]. exists l. done.
Qed.

(** ** The handlers *)
Abbreviation hook_qp h := (ud (recv_inner (transport h))).

Lemma post_buffers_ok n ctx hook w :
  in_use (hook_qp hook) w → ReceiverInv (transport hook) w →
  wp (post_buffers n ctx hook) (λ hook' w', grows (λ q, q = hook_qp hook) none w w' ∧ ReceiverInv (transport hook') w' ∧
    ∃ t, hook' = hook_set_transport hook t ∧ ud (recv_inner t) = hook_qp hook) w.
Proof.
  revert hook w. induction n as [|n IH]; intros hook w Hu Hr; cbn [post_buffers].
  - exists hook, w. split; [done|]. split_and!; [apply grows_refl|done|]. exists (transport hook). by destruct hook.
  - apply wp_bind'. eapply wp_mono'; [by apply UDMsg_new_ok|]. intros buf w1 (Hg1 & _).
    assert (Hu1 : in_use (hook_qp hook) w1) by by eapply gr_use.
    destruct (post_recv_ok' (hook_qp hook) (UDMsg_get_inner buf) (0, UDMsg_len buf)%Z (UDMsg_get_pa buf) w1 Hu1)
      as (r & w2 & E & Hp & _ & Hg2).
    rewrite (gr_recv _ _ _ _ Hg1 _ Hu) in Hp by (intros []). rewrite Hr in Hp.
    set (t2 := match r with
      | Ok _ => mkUDReceiver (qd_hint (transport hook)) (recv_inner (transport hook)) (msg_queues (transport hook) ++ [buf])
      | Err _ => transport hook end).
    assert (E2 : post_msg_buf hook buf w1 = Ret ((r, hook_set_transport hook t2), w2)).
    { unfold post_msg_buf, post_recv_buf. unfold mbind at 1, io_bind at 1. rewrite (io_bind_run _ _ _ _ _ E). by destruct r as [[]|e]. }
    assert (Hq : ud (recv_inner t2) = hook_qp hook) by (unfold t2; by destruct r).
    apply wp_bind'. eexists _, w2. split; [exact E2|]. cbn.
    eapply wp_mono'; [apply (IH (hook_set_transport hook t2) w2); cbn; rewrite ?Hq|].
    + by eapply gr_use.
    + unfold ReceiverInv. rewrite Hq, Hp. unfold t2. destruct r; cbn [msg_queues]; [by rewrite fmap_app|by rewrite app_nil_r].
    + cbn. rewrite Hq. intros hook' w3 (Hg3 & Hr3 & t & -> & Ht). split_and!; [|done|by exists t].
      eapply grows_trans; [|exact Hg3]. eapply grows_trans; [|exact Hg2]. eapply grows_mono; [..|exact Hg1]; [by intros ? _ []|done].
Qed.

Context (served : Sps W * list DCTarget * list (Z * (Z * Z))).

(** The handler of thread [id]. *)
Record handler_at (c : Config) (svcs : list UdService) (x : Z * RPCHook W) (w : W) : Prop := {
  ha_id : (0 ≤ x.1 < rpc_threads_num c)%Z;
  ha_idle : idle_qp (hook_qp x.2) w;
  ha_recv : ReceiverInv (transport x.2) w;
  ha_sessions : hook_sessions x.2 = ∅;
  ha_query : hk_service x.2 !! RPCId_num Query = Some (handle_descriptor_addr_lookup served.1.1 served.1.2 served.2);
  ha_found : ∃ svc, svcs !! Z.to_nat (x.1 mod num_nics_used c) = Some svc ∧ resolves svc (server_hint x.1) (hook_qp x.2) w }.

Lemma handler_grows H c svcs x w w' : grows none H w w' → handler_at c svcs x w → handler_at c svcs x w'.
Proof.
  intros Hg [A1 A2 A3 A4 A5 (svc & A6 & A7)]. split; [done|by eapply idle_grows| |done|done|].
  - unfold ReceiverInv. rewrite (gr_recv _ _ _ _ Hg); [done|apply A2|intros []].
  - exists svc. split; [done|by eapply gr_resolves].
Qed.

Lemma worker_hook_ok id f qp w :
  (0 ≤ id < 2 ^ 32)%Z → in_use qp w → outstanding qp w = [] → posted_recv qp w = [] →
  wp (worker_hook id f (mkUDDatagram qp 0) served.1.1 served.1.2 served.2) (λ hook w',
    grows (λ q, q = qp) none w w' ∧ hook_qp hook = qp ∧ ReceiverInv (transport hook) w' ∧ hook_sessions hook = ∅ ∧
    hk_service hook !! RPCId_num Query = Some (handle_descriptor_addr_lookup served.1.1 served.1.2 served.2)) w.
Proof.
  intros Hid Hu Ho Hp. unfold worker_hook. apply wp_bind'. exists (server_hint id), w.
  split; [unfold calculate_qd_hint, QD_HINT_BASE; rewrite u64_add_Ret by (unfold is_u64; lia); done|].
  eapply wp_mono'; [apply post_buffers_ok; [exact Hu|exact Hp]|].
  intros hook w' (Hg & Hr & t & -> & Ht). split_and!; [exact Hg|exact Ht|exact Hr|done|].
  cbn. unfold Service_register. cbn. done.
Qed.
End Runs.

(** ** The threads come up *)
Section Threads.
Context {W : Type} {kt : KTimerApi W} {kt_ok : KTimerOk W} {kr : KRdmaKit W} {nic : NicOk W} {recv_ok : RecvOk W}.
Context {kn : Kernel W} {cm : UdCm W} {po : PortApi W} {dt : DcTargets} {rk : RcKit W} {sk : SetupKit W} {so : SetupOk W} {sl : SetupLaws W}.
Context {sf : StartFeatures} {rl : RpcLayout} {rp : ReplyLayout}.
Context (served : Sps W * list DCTarget * list (Z * (Z * Z))) (c : Config) (Hc : config_ok c).

Definition server_hints : Z → Prop := λ h, ¬ client_hints c h.

(** The handler threads: each has either been spawned and waits with its hint
    free, or is up and counted. *)
Record threads_ok (s : module) : Prop := {
  to_ids : (th_id <$> m_spawned s) ++ (fst <$> m_running s) ≡ₚ seqZ 0 (rpc_threads_num c);
  to_ready : m_ready s = Z.of_nat (length (m_running s));
  to_spawned t : t ∈ m_spawned s → nic_to_use t = (th_id t mod num_nics_used c)%Z ∧ free_hint (server_hint (th_id t)) (m_dev s);
  to_running svcs x : m_globals s Global.ud_service = Some svcs → x ∈ m_running s → handler_at served c svcs x (m_dev s) }.

Record rdma_up (g : globals) : Prop := {
  ru_contexts : ∃ ctxs, g Global.rdma_contexts = Some ctxs ∧ length ctxs = Z.to_nat (num_nics_used c) ∧
    g Global.ud_factories = Some (mkUDFactory <$> ctxs) ∧ g Global.dc_factories = Some (mkDCFactory <$> ctxs);
  ru_services : ∃ svcs, g Global.ud_service = Some svcs ∧ length svcs = Z.to_nat (num_nics_used c);
  ru_servers : ∃ srvs, g Global.rdma_cm_service = Some srvs ∧ length srvs = Z.to_nat (num_nics_used c) ∧
    ∀ i s, srvs !! i = Some s → listen_id s = (SERVICE_ID_BASE + Z.of_nat i)%Z }.

Lemma thread_ids s t : threads_ok s → t ∈ m_spawned s → (0 ≤ th_id t < rpc_threads_num c)%Z.
Proof.
  intros H Ht. apply (elem_of_seqZ 0 (rpc_threads_num c)). rewrite <- (to_ids s H). apply elem_of_app. left.
  by apply list_elem_of_fmap_2.
Qed.

Lemma server_hint_server i : (i < rpc_threads_num c)%Z → server_hints (server_hint i).
Proof. unfold server_hints, client_hints, server_hint, client_hint. destruct Hc. lia. Qed.

Lemma worker_setup_ok g ready spawned running w t svcs :
  rdma_up g → (0 ≤ th_id t < rpc_threads_num c)%Z → nic_to_use t = (th_id t mod num_nics_used c)%Z → free_hint (server_hint (th_id t)) w →
  g Global.ud_service = Some svcs →
  runs g ready spawned running (worker_setup served t) w (λ hook w',
    grows none (λ h, h = server_hint (th_id t)) w w' ∧ handler_at served c svcs (th_id t, hook) w').
Proof.
  intros [(ctxs & Ex & Lx & Ef & _) (svcs' & Es' & Ls) _] Hid Hnic Hfree Es. rewrite Es in Es'. injection Es' as <-.
  assert (Hn : nic_to_use t = nic_of c (Z.to_nat (th_id t))) by (unfold nic_of; by rewrite Z2Nat.id by lia).
  destruct (nic_lookup c (Z.to_nat (th_id t)) ctxs Hc Lx) as [ctx Hx], (nic_lookup c (Z.to_nat (th_id t)) svcs Hc Ls) as [svc Hs].
  rewrite <- Hn in Hx, Hs. assert (Hf : (mkUDFactory (kr := kr) <$> ctxs) !! Z.to_nat (nic_to_use t) = Some (mkUDFactory ctx)) by (by rewrite list_lookup_fmap, Hx).
  unfold worker_setup. eapply runs_pure; [by apply (get_nth_ok _ _ _ _ Global.rdma_contexts (λ l, l) ctxs)|].
  apply runs_expect. eapply wp_expect_is_some; [apply query_gid_ok|]. intros gid w1 Hg1.
  eapply runs_pure; [by apply (get_nth_ok _ _ _ _ Global.ud_factories (λ l, l) (mkUDFactory <$> ctxs))|]. apply runs_expect_ok.
  destruct (build_ud_ok ctx MAX_SEND_WR 1 w1) as (r & w2 & E & (qp & -> & _ & [Hqn Hu Ho Hp]) & Hg2).
  exists (Ok (mkUDDatagram qp 0)), w2. split; [unfold UDFactory_create; by rewrite (io_bind_run _ _ _ _ _ E)|].
  exists (mkUDDatagram qp 0). split; [done|]. cbn [UDDatagram_get_qp ud].
  eapply runs_pure; [by apply (get_nth_ok _ _ _ _ Global.ud_service (λ l, l) svcs)|].
  eapply runs_lift; [apply u64_add_Ret; unfold QD_HINT_BASE, is_u64; destruct Hc; lia|]. change (QD_HINT_BASE + th_id t)%Z with (server_hint (th_id t)).
  apply runs_bind, runs_dev. assert (Hg12 : grows none none w w2) by (by eapply grows_trans).
  eapply wp_mono'; [apply reg_qp_ok; eapply gr_hint; [exact Hg12|by intros []|done]|]. intros _ w3 [Hres Hg3].
  eapply runs_pure; [by apply (get_nth_ok _ _ _ _ Global.ud_factories (λ l, l) (mkUDFactory <$> ctxs))|].
  apply runs_dev. pose proof (gr_use _ _ _ _ Hg3 _ Hu) as Hu3. pose proof (gr_out _ _ _ _ Hg3 _ Hu) as Ho3. rewrite Ho in Ho3.
  eapply wp_mono'; [apply worker_hook_ok; [destruct Hc; lia|exact Hu3|exact Ho3|]|].
  { rewrite (gr_recv _ _ _ _ Hg3); [done|done|by intros []]. }
  intros hook w4 (Hg4 & Hq & Hr & Hss & Hqs). split.
  - eapply grows_mono; [| |eapply grows_trans; [eapply grows_trans|]].
    4: { eapply grows_mono; [..|exact Hg3]; [by intros ? _ []|exact (λ h Hh, Hh)]. }
    4: { eapply grows_mono; [..|exact Hg4]; [exact (λ q _ Hq', Hq')|by intros ? []]. }
    3: { eapply grows_mono; [..|exact Hg12]; [by intros ? _ []|by intros ? []]. }
    + intros q Hqu ->. apply Hqn. by eapply gr_use.
    + done.
  - split; cbn; rewrite ?Hq; [done| |exact Hr|exact Hss|exact Hqs|].
    + split; [exact (gr_use _ _ _ _ Hg4 _ Hu3)|]. by rewrite (gr_out _ _ _ _ Hg4 _ Hu3).
    + exists svc. rewrite <- Hnic. split; [done|exact (gr_resolves _ _ _ _ Hg4 _ _ _ Hres)].
Qed.

(** Letting threads come up touches neither the globals nor the clients' hints. *)
Record threads_step (s s' : module) : Prop := {
  ts_globals : m_globals s' = m_globals s;
  ts_ok : threads_ok s';
  ts_spawned t : t ∈ m_spawned s' → t ∈ m_spawned s;
  ts_grows : grows none server_hints (m_dev s) (m_dev s') }.

Lemma threads_step_trans s1 s2 s3 : threads_step s1 s2 → threads_step s2 s3 → threads_step s1 s3.
Proof. intros [A1 A2 A3 A4] [B1 B2 B3 B4]. split; [congruence|done|auto|by eapply grows_trans]. Qed.

Lemma run_thread_ok s id : rdma_up (m_globals s) → threads_ok s →
  ∃ s', run_thread served id s = Ret ((), s') ∧ threads_step s s' ∧ ∀ t, t ∈ m_spawned s' → th_id t ≠ id.
Proof.
  intros Hup Hok. unfold run_thread. destruct (list_find (λ t, th_id t = id) (m_spawned s)) as [[i t]|] eqn:E.
  2: { exists s. split; [done|]. split; [split; [done|done|done|apply grows_refl]|].
       intros t Ht. apply list_find_None in E. rewrite Forall_forall in E. by apply E. }
  apply list_find_Some in E as (Hi & Ht & _). pose proof (list_elem_of_lookup_2 _ _ _ Hi) as Hin.
  pose proof (thread_ids s t Hok Hin) as Hid. destruct (to_spawned s Hok t Hin) as [Hn Hf].
  destruct (ru_services _ Hup) as (svcs & Es & _).
  destruct (worker_setup_ok (m_globals s) (m_ready s) (delete i (m_spawned s)) (m_running s) (m_dev s) t svcs Hup Hid Hn Hf Es)
    as (hook & w' & Er & Hg & Hh).
  pose proof (delete_Permutation _ _ _ Hi) as Hperm.
  exists (mkModule (m_globals s) (m_ready s + 1) (delete i (m_spawned s)) (m_running s ++ [(th_id t, hook)]) w'). split.
  { unfold worker_start. by rewrite (io_bind_run _ _ _ _ _ Er). }
  assert (Hids : th_id t :: (th_id <$> delete i (m_spawned s)) ++ (fst <$> m_running s) ≡ₚ seqZ 0 (rpc_threads_num c)).
  { rewrite <- (to_ids s Hok), (fmap_Permutation th_id _ _ Hperm). done. }
  assert (Hnd : ∀ t', t' ∈ delete i (m_spawned s) → th_id t' ≠ th_id t).
  { intros t' Ht' Heq. pose proof (NoDup_seqZ 0 (rpc_threads_num c)) as Hd. rewrite <- Hids in Hd.
    apply NoDup_cons in Hd as [Hd _]. apply Hd, elem_of_app. left. rewrite <- Heq. by apply list_elem_of_fmap_2. }
  assert (Hdel : ∀ t', t' ∈ delete i (m_spawned s) → t' ∈ m_spawned s) by (intros t' Ht'; rewrite Hperm; by right).
  split; [|cbn; intros t' Ht'; rewrite <- Ht; by apply Hnd]. split; cbn; [done| |done|].
  - split; cbn.
    + rewrite fmap_app. cbn. rewrite <- Hids. rewrite app_assoc. by rewrite <- Permutation_cons_append.
    + rewrite length_app, (to_ready s Hok). cbn. lia.
    + intros t' Ht'. destruct (to_spawned s Hok t' (Hdel t' Ht')) as [H1 H2]. split; [done|]. eapply gr_hint; [exact Hg| |done].
      unfold server_hint. specialize (Hnd t' Ht'). lia.
    + intros svcs' x Hs [Hx|Hx]%elem_of_app; [by eapply handler_grows, (to_running s Hok)|].
      apply list_elem_of_singleton in Hx as ->. rewrite Es in Hs. by injection Hs as <-.
  - eapply grows_mono; [..|exact Hg]; [done|]. intros h ->. apply server_hint_server. lia.
Qed.

Lemma run_threads_ok sched s : rdma_up (m_globals s) → threads_ok s →
  ∃ s', run_threads served sched s = Ret ((), s') ∧ threads_step s s' ∧ ∀ t, t ∈ m_spawned s' → (th_id t ∉ sched).
Proof.
  revert s. induction sched as [|id sched IH]; intros s Hup Hok.
  - exists s. split; [done|]. split; [split; [done|done|done|apply grows_refl]|]. intros t _. apply not_elem_of_nil.
  - destruct (run_thread_ok s id Hup Hok) as (s1 & E1 & H1 & Hn1).
    destruct (IH s1) as (s2 & E2 & H2 & Hn2); [by rewrite (ts_globals _ _ H1)|by apply (ts_ok s s1)|].
    exists s2. split; [cbn; by rewrite (io_bind_run _ _ _ _ _ E1)|]. split; [by eapply threads_step_trans|].
    intros t Ht. apply not_elem_of_cons. split; [|by apply Hn2]. apply Hn1. by apply (ts_spawned s1 s2).
Qed.

Lemma ready_all s : threads_ok s → (m_ready s + Z.of_nat (length (m_spawned s)) = rpc_threads_num c)%Z.
Proof.
  intros Hok. pose proof (Permutation_length (to_ids s Hok)) as Hl. rewrite length_app, !length_fmap, length_seqZ in Hl.
  rewrite (to_ready s Hok). destruct Hc. lia.
Qed.

Lemma barrier_ok sched s : rdma_up (m_globals s) → threads_ok s → (∀ t, t ∈ m_spawned s → th_id t ∈ sched) →
  ∃ s', wait_handlers_ready_barrier served sched (rpc_threads_num c) s = Ret ((), s') ∧ threads_step s s' ∧ m_spawned s' = [].
Proof.
  revert s. induction sched as [|id sched IH]; intros s Hup Hok Hall; cbn [wait_handlers_ready_barrier];
    pose proof (ready_all s Hok) as Hr; destruct (Z.leb_spec (rpc_threads_num c) (m_ready s)) as [Hle|Hlt].
  - exists s. split; [done|]. split; [split; [done|done|done|apply grows_refl]|]. destruct (m_spawned s); [done|cbn in Hr; lia].
  - destruct (m_spawned s) as [|t l] eqn:E; [cbn in Hr; lia|]. specialize (Hall t ltac:(left)). by apply not_elem_of_nil in Hall.
  - exists s. split; [done|]. split; [split; [done|done|done|apply grows_refl]|]. destruct (m_spawned s); [done|cbn in Hr; lia].
  - destruct (run_thread_ok s id Hup Hok) as (s1 & E1 & H1 & Hn1).
    destruct (IH s1) as (s2 & E2 & H2 & Hn2); [by rewrite (ts_globals _ _ H1)|by apply (ts_ok s s1)| |].
    { intros t Ht. specialize (Hn1 t Ht). specialize (Hall t (ts_spawned _ _ H1 t Ht)). by apply elem_of_cons in Hall as [?|?]. }
    exists s2. split; [by rewrite (io_bind_run _ _ _ _ _ E1)|]. split; [by eapply threads_step_trans|done].
Qed.
End Threads.
