(* ===== verification/StartInstance.v ===== *)
(** * A started module ([startup.rs], [rdma_context.rs])

    [start_instance] from its first step to the barrier, and [end_instance]. *)

From S2P Require Import Prelude Future Rdma Machine PageStructures PageHeap RemotePageTable Bytes Descriptors ParentWire ChildWire Datagram ShadowProcess ShadowService Rpc RpcSpec RpcCall RemotePaging RpcHandlers CallerPool PageFault RcPool Startup StartupSpec.

Section Start.
Context {W : Type} {kt : KTimerApi W} {kt_ok : KTimerOk W} {kr : KRdmaKit W} {nic : NicOk W} {recv_ok : RecvOk W}.
Context {kn : Kernel W} {cm : UdCm W} {po : PortApi W} {dt : DcTargets} {rk : RcKit W} {sk : SetupKit W} {so : SetupOk W} {sl : SetupLaws W}.
Context {sf : StartFeatures} {rl : RpcLayout} {rp : ReplyLayout}.
Context (served : Sps W * list DCTarget * list (Z * (Z * Z))) (c : Config) (Hc : config_ok c).

Lemma init_ok x v g ready spawned running (w : W) :
  init x v (mkModule g ready spawned running w) = Ret ((), mkModule (update g x (Some v)) ready spawned running w).
Proof. done. Qed.

Lemma update_ne (g : globals) x v y : x ≠ y → update (W := W) g x v y = g y.
Proof. intros H. unfold update. by destruct (decide (x = y)). Qed.

Ltac start_init := rewrite (io_bind_run _ _ _ _ _ (init_ok _ _ _ _ _ _ _)); cbv beta.
(** [start_get v H] reads a global variable of which [H] says that it is [v]. *)
Ltac start_get v H :=
  match goal with |- context [(get_ref ?x ≫= _) (mkModule ?G ?a ?b ?d ?e)] =>
    rewrite (io_bind_run _ _ _ v _ (get_ref_ok G a b d x v e H)); cbv beta end.
(** [start_run H] takes the loop that [H : runs ...] describes, with its result. *)
Ltac start_run H l w P :=
  let E := fresh "E" in destruct H as (l & w & E & P); rewrite (io_bind_run _ _ _ _ _ E); clear E; cbv beta iota.

(** A loop of which only the elements matter. *)
Lemma collect_plain {A} g ready spawned running (body : Z → io module A) (P : nat → A → Prop) (n : Z) (w : W) :
  (∀ i w, (Z.of_nat i < n)%Z → runs g ready spawned running (body (Z.of_nat i)) w (λ a w', grows none none w w' ∧ P i a)) →
  runs g ready spawned running (collect body n) w (λ l w', grows none none w w' ∧ length l = Z.to_nat n ∧ ∀ i a, l !! i = Some a → P i a).
Proof.
  intros Hb. eapply runs_mono; [|apply (runs_collect _ _ _ _ body (grows none none) (λ _ _, True) (λ i a _, P i a) (λ _ _, True));
    [apply grows_refl|apply grows_trans|done|done|]].
  - intros l w' (H1 & _ & H2 & H3 & _). done.
  - intros i w1 Hi _. eapply runs_mono; [|by apply Hb]. intros a w2 [H1 H2]. done.
Qed.

(** The CM server [s] of card [i]: it listens under its own number and answers
    with the service of its own card, on that card's device. *)
Definition server_at {A} (base : Z) (inj : A → UdService + RcServer) (svcs : list A) (ctxs : list Context_t) (i : nat) (s : CMServer) : Prop :=
  listen_id s = (base + Z.of_nat i)%Z ∧
  ∃ svc ctx, svcs !! i = Some svc ∧ ctxs !! i = Some ctx ∧ serves s (inj svc) (context_dev ctx).

Record rdma_started (g : globals) : Prop := {
  rs_driver : ∃ d, g Global.rdma_driver = Some d ∧ devices d = nics;
  rs_contexts : ∃ ctxs, g Global.rdma_contexts = Some ctxs ∧ length ctxs = Z.to_nat (num_nics_used c) ∧
    ∀ i ctx, ctxs !! i = Some ctx → nics !! i = Some (context_dev ctx);
  rs_services : ∃ svcs, g Global.ud_service = Some svcs ∧ length svcs = Z.to_nat (num_nics_used c);
  rs_targets : ∃ ts ms, g Global.dc_target = Some ts ∧ g Global.dc_target_meta = Some ms ∧
    length ts = Z.to_nat (num_nics_used c) ∧ length ms = Z.to_nat (num_nics_used c) ∧ ∀ i t, ts !! i = Some t → target_dc_key t = GLOBAL_DC_KEY;
  rs_servers : ∃ ctxs svcs srvs, g Global.rdma_contexts = Some ctxs ∧ g Global.ud_service = Some svcs ∧ g Global.rdma_cm_service = Some srvs ∧
    length srvs = Z.to_nat (num_nics_used c) ∧ ∀ i s, srvs !! i = Some s → server_at SERVICE_ID_BASE inl svcs ctxs i s;
  rs_rc : feature_use_rc = true → ∃ ctxs rcs srvs, g Global.rdma_contexts = Some ctxs ∧
    g Global.rc_service = Some rcs ∧ length rcs = Z.to_nat (num_nics_used c) ∧ g Global.rc_cm_service = Some srvs ∧
    length srvs = Z.to_nat (num_nics_used c) ∧ ∀ i s, srvs !! i = Some s → server_at RC_SERVICE_ID_BASE inr rcs ctxs i s }.

Definition rdma_names : list Global.name :=
  [Global.rdma_driver; Global.rdma_contexts; Global.ud_service; Global.dc_target; Global.dc_target_meta; Global.rdma_cm_service;
   Global.rc_service; Global.rc_cm_service].

Lemma lookup_index {A} (l : list A) i : length l = Z.to_nat (num_nics_used c) → (Z.of_nat i < num_nics_used c)%Z → ∃ a, l !! Z.to_nat (Z.of_nat i) = Some a.
Proof. intros Hl Hi. rewrite Nat2Z.id. apply lookup_lt_is_Some_2. lia. Qed.

Lemma runs_expect_last {A} (g : globals) ready spawned running (m : io W (option A)) w (P : A → W → Prop) :
  wp m (λ o w1, ∃ a, o = Some a ∧ P a w1) w → runs g ready spawned running (expect (dev m)) w P.
Proof.
  intros (o & w1 & E & a & -> & H). exists a, w1. split; [|done]. unfold expect. rewrite (io_bind_run _ _ _ (Some a) (mkModule g ready spawned running w1)); [done|].
  unfold dev. cbn [m_dev]. by rewrite E.
Qed.

Lemma contexts_loop (g : globals) ready spawned running d (w : W) : g Global.rdma_driver = Some d → devices d = nics →
  runs g ready spawned running (collect (λ i, d ← get_ref Global.rdma_driver; device ← nth_of (devices d) i; expect (dev (open_context device)))
    (num_nics_used c)) w (λ l w', grows none none w w' ∧ length l = Z.to_nat (num_nics_used c) ∧
      ∀ i ctx, l !! i = Some ctx → nics !! i = Some (context_dev ctx)).
Proof.
  intros Hd Hn. apply collect_plain. intros i w1 Hi. eapply runs_pure; [exact (get_ref_ok _ _ _ _ _ _ _ Hd)|]. rewrite Hn.
  destruct (lookup_lt_is_Some_2 nics (Z.to_nat (Z.of_nat i))) as [dv Hdv]; [destruct Hc; lia|].
  eapply runs_pure; [by apply nth_ok|]. apply runs_expect_last. rewrite Nat2Z.id in Hdv.
  eapply wp_expect_some; [apply open_context_ok|]. cbn. by intros ctx w2 <- G2.
Qed.

Lemma services_loop (g : globals) ready spawned running (w : W) :
  runs g ready spawned running (collect (λ _, dev UdService_create) (num_nics_used c)) w
    (λ l w', grows none none w w' ∧ length l = Z.to_nat (num_nics_used c)).
Proof.
  eapply runs_mono; [|apply (collect_plain _ _ _ _ _ (λ _ _, True))]; [by intros l w' (? & ? & _)|].
  intros i w1 Hi. apply runs_dev. eapply wp_mono'; [apply ud_service_ok|]. done.
Qed.

Lemma targets_loop (g : globals) ready spawned running ctxs (w : W) :
  g Global.rdma_contexts = Some ctxs → length ctxs = Z.to_nat (num_nics_used c) →
  runs g ready spawned running (collect (λ i,
      ctx ← get_rdma_context_ref i;
      dct_target ← expect (dev (create_target (mkDCFactory ctx) GLOBAL_DC_KEY (default_nic_port c)));
      dct_target_meta ← expect (dev (get_datagram_meta dct_target));
      mret (dct_target, dct_target_meta)) (num_nics_used c)) w
    (λ l w', grows none none w w' ∧ length l = Z.to_nat (num_nics_used c) ∧ ∀ i t, l !! i = Some t → target_dc_key t.1 = GLOBAL_DC_KEY).
Proof.
  intros Hx Lx. apply collect_plain. intros i w1 Hi. destruct (lookup_index ctxs i Lx Hi) as [ctx Hctx].
  eapply runs_pure; [by apply (get_nth_ok _ _ _ _ Global.rdma_contexts (λ l, l) ctxs)|].
  apply runs_expect. eapply wp_expect_some; [apply target_ok|]. intros t w2 Hk Hg2.
  apply runs_expect. eapply wp_expect_is_some; [apply target_meta_ok|]. intros m w3 Hg3. apply runs_ret. split; [by eapply grows_trans|done].
Qed.

Lemma servers_loop (g : globals) ready spawned running base {A} (get : Z → io module A) (inj : A → UdService + RcServer) svcs ctxs (w : W) :
  (0 ≤ base < 2 ^ 32)%Z → g Global.rdma_contexts = Some ctxs → length ctxs = Z.to_nat (num_nics_used c) → length svcs = Z.to_nat (num_nics_used c) →
  (∀ i a w, svcs !! i = Some a → get (Z.of_nat i) (mkModule g ready spawned running w) = Ret (a, mkModule g ready spawned running w)) →
  runs g ready spawned running (collect (λ i,
      id ← lift (u64_add base i);
      service ← get i;
      ctx ← get_rdma_context_ref i;
      expect (dev (CMServer_new id (inj service) (context_dev ctx)))) (num_nics_used c)) w
    (λ l w', grows none none w w' ∧ length l = Z.to_nat (num_nics_used c) ∧ ∀ i s, l !! i = Some s → server_at base inj svcs ctxs i s).
Proof.
  intros Hb Hx Lx Ls Hget. apply collect_plain.
  intros i w1 Hi. eapply runs_lift; [apply u64_add_Ret; destruct Hc; unfold is_u64; lia|].
  destruct (lookup_index svcs i Ls Hi) as [a Ha], (lookup_index ctxs i Lx Hi) as [ctx Hctx].
  eapply runs_pure; [apply Hget; by rewrite Nat2Z.id in Ha|]. eapply runs_pure; [by apply (get_nth_ok _ _ _ _ Global.rdma_contexts (λ l, l) ctxs)|].
  rewrite Nat2Z.id in Ha, Hctx. apply runs_expect_last. eapply wp_expect_some; [apply cm_server_ok|]. cbn. intros s w2 [Hid Hsv] G2.
  split; [done|]. split; [done|]. by exists a, ctx.
Qed.

Lemma rc_services_ok (g : globals) ready spawned running ctxs (w : W) :
  g Global.rdma_contexts = Some ctxs → length ctxs = Z.to_nat (num_nics_used c) → ∃ g' w',
  (if feature_use_rc then
    rc_services ← collect (λ i, ctx ← get_rdma_context_ref i; dev (RcServer_create ctx (default_nic_port c))) (num_nics_used c);
    init Global.rc_service rc_services ≫= λ _,
    servers ← collect (λ i,
      id ← lift (u64_add RC_SERVICE_ID_BASE i);
      service ← get_rc_service_ref i;
      ctx ← get_rdma_context_ref i;
      expect (dev (CMServer_new id (inr service) (context_dev ctx)))) (num_nics_used c);
    init Global.rc_cm_service servers
  else mret ()) (mkModule g ready spawned running w) = Ret ((), mkModule g' ready spawned running w') ∧
  grows none none w w' ∧ (∀ y, y ≠ Global.rc_service → y ≠ Global.rc_cm_service → g' y = g y) ∧
  (feature_use_rc = true → ∃ rcs srvs, g' Global.rc_service = Some rcs ∧ length rcs = Z.to_nat (num_nics_used c) ∧
    g' Global.rc_cm_service = Some srvs ∧ length srvs = Z.to_nat (num_nics_used c) ∧ ∀ i s, srvs !! i = Some s → server_at RC_SERVICE_ID_BASE inr rcs ctxs i s).
Proof.
  intros Hx Lx. destruct feature_use_rc; [|by exists g, w; split; [|split; [apply grows_refl|]]].
  assert (H1 : runs g ready spawned running (collect (λ i, ctx ← get_rdma_context_ref i; dev (RcServer_create ctx (default_nic_port c)))
    (num_nics_used c)) w (λ l w', grows none none w w' ∧ length l = Z.to_nat (num_nics_used c))).
  { eapply runs_mono; [|apply (collect_plain _ _ _ _ _ (λ _ _, True))]; [by intros l w' (? & ? & _)|].
    intros i w1 Hi. destruct (lookup_index ctxs i Lx Hi) as [ctx Hctx].
    eapply runs_pure; [by apply (get_nth_ok _ _ _ _ Global.rdma_contexts (λ l, l) ctxs)|].
    apply runs_dev. eapply wp_mono'; [apply rc_server_ok|]. done. }
  start_run H1 l w1 P1. destruct P1 as [G1 L1]. start_init.
  start_run (servers_loop (update g Global.rc_service (Some l)) ready spawned running RC_SERVICE_ID_BASE get_rc_service_ref inr l ctxs w1 ltac:(done) Hx Lx L1
    ltac:(intros i a w2 Ha; apply (get_nth_ok _ _ _ _ Global.rc_service (λ l, l) l); [done|by rewrite Nat2Z.id])) srvs w2 P2.
  destruct P2 as (G2 & L2 & Hs). eexists _, w2. split; [apply init_ok|]. split; [by eapply grows_trans|]. split.
  - intros y H2 H3. by rewrite !update_ne.
  - intros _. by exists l, srvs.
Qed.

Lemma start_rdma_ok (g : globals) ready spawned running (w : W) : ∃ g' w',
  start_rdma c (mkModule g ready spawned running w) = Ret (Some (), mkModule g' ready spawned running w') ∧
  grows none none w w' ∧ rdma_started g' ∧ ∀ y, (y ∉ rdma_names) → g' y = g y.
Proof.
  unfold start_rdma. destruct (driver_ok w) as (o & w1 & E1 & (d & -> & Hd) & G1).
  rewrite (io_bind_run _ _ _ (Some d) (mkModule g ready spawned running w1)) by (unfold dev; cbn [m_dev]; by rewrite E1). cbv beta iota.
  start_init. start_run (contexts_loop (update g Global.rdma_driver (Some d)) ready spawned running d w1 eq_refl Hd) ctxs w2 P2.
  destruct P2 as (G2 & L2 & Hdev). start_init.
  start_run (services_loop (update (update g Global.rdma_driver (Some d)) Global.rdma_contexts (Some ctxs)) ready spawned running w2) svcs w3 P3.
  destruct P3 as [G3 L3]. start_init. match goal with |- context [mkModule ?G _ _ _ w3] => set (g3 := G) end.
  start_run (targets_loop g3 ready spawned running ctxs w3 eq_refl L2) ts w4 P4. destruct P4 as (G4 & L4 & Hkeys). start_init. start_init.
  match goal with |- context [mkModule ?G _ _ _ w4] => set (g5 := G) end.
  start_run (servers_loop g5 ready spawned running SERVICE_ID_BASE get_ud_service_ref inl svcs ctxs w4 ltac:(done) eq_refl L2 L3
    ltac:(intros i a w5 Ha; apply (get_nth_ok _ _ _ _ Global.ud_service (λ l, l) svcs); [done|by rewrite Nat2Z.id])) srvs w5 P5.
  destruct P5 as (G5 & L5 & Hid). start_init.
  destruct (rc_services_ok (update g5 Global.rdma_cm_service (Some srvs)) ready spawned running ctxs w5 eq_refl L2) as (g' & w' & E' & G' & Hg' & Hrc).
  rewrite (io_bind_run _ _ _ _ _ E'). cbv beta. exists g', w'. split; [done|]. split; [|split].
  - do 5 (eapply grows_trans; [eassumption|]). exact G'.
  - split.
    + exists d. by rewrite Hg' by done.
    + exists ctxs. by rewrite Hg' by done.
    + exists svcs. by rewrite Hg' by done.
    + exists (fst <$> ts), (snd <$> ts). rewrite !Hg' by done. rewrite !length_fmap. split_and!; try done.
      intros i t Ht. apply list_lookup_fmap_Some in Ht as (x & -> & Hx). by apply (Hkeys i).
    + exists ctxs, svcs, srvs. by rewrite !Hg' by done.
    + intros Hf. destruct (Hrc Hf) as (rcs & rsrvs & H). exists ctxs, rcs, rsrvs. rewrite Hg' by done. by split.
  - intros y Hy. unfold rdma_names in Hy. rewrite !not_elem_of_cons in Hy. destruct Hy as (N1 & N2 & N3 & N4 & N5 & N6 & N7 & N8 & _).
    rewrite Hg' by done. unfold g5, g3. by rewrite !update_ne.
Qed.

(** What [init_mitosis] leaves in the global variables. *)
Record mitosis_up (g : globals) (w : W) : Prop := {
  mu_rdma : rdma_started g;
  mu_up : rdma_up c g;
  mu_numbers : g Global.mac_id = Some (machine_id c) ∧ g Global.max_caller_num = Some (max_core_cnt c) ∧
    g Global.max_nics_used = Some (num_nics_used c) ∧ g Global.max_cluster_size = Some (max_cluster_size c);
  mu_access : g Global.access_info_service = Some (replicate (cores c) ∅);
  mu_locks : g Global.global_locks = Some (replicate (cores c) ());
  mu_dc_pool : ∃ pool, g Global.dc_pool_service = Some pool ∧ dc_pool_ok c pool w;
  mu_async : feature_prefetch = true → ∃ pool, g Global.dc_pool_service_async = Some pool ∧ dc_pool_ok c pool w;
  mu_rc : feature_use_rc = true → (∃ ctxs, g Global.rdma_contexts = Some ctxs ∧ g Global.rc_factories = Some (mkRCFactory <$> ctxs)) ∧
    g Global.rc_pool = Some (replicate (cores c) (mkRCPool ∅ false));
  mu_targets : ∃ ts, g Global.dc_target_service = Some ts ∧ length ts = Z.to_nat (init_dc_targets c) ∧ ∀ i t, ts !! i = Some t → target_ok_at c i t;
  mu_mem : ∃ mp, g Global.mem_pool = Some mp ∧ mem_pool_ok (Z.to_nat (mem_pool_size c)) mp w;
  mu_empty : g Global.sp_service = Some ∅ ∧ g Global.global_pt_cache = Some ∅ }.

Lemma expect_run {A B} (m : io (module (W := W)) (option A)) (f : A → io module B) s a s' : m s = Ret (Some a, s') → (expect m ≫= f) s = f a s'.
Proof. intros E. rewrite (io_bind_run _ _ _ a s'); [done|]. unfold expect. by rewrite (io_bind_run _ _ _ _ _ E). Qed.

Lemma rc_pools_ok (g : globals) ready spawned running (w : W) ctxs : g Global.rdma_contexts = Some ctxs → ∃ g',
  (if feature_use_rc then
    contexts ← get_ref Global.rdma_contexts;
    init Global.rc_factories (mkRCFactory <$> contexts) ≫= λ _,
    pools ← collect (λ _, lift (unwrap RCPool_new)) (max_core_cnt c);
    init Global.rc_pool pools
  else mret ()) (mkModule g ready spawned running w) = Ret ((), mkModule g' ready spawned running w) ∧
  (feature_use_rc = true → g' Global.rc_factories = Some (mkRCFactory <$> ctxs) ∧ g' Global.rc_pool = Some (replicate (cores c) (mkRCPool ∅ false))) ∧
  ∀ y, y ≠ Global.rc_factories → y ≠ Global.rc_pool → g' y = g y.
Proof.
  intros Hx. destruct feature_use_rc; [|by exists g].
  rewrite (io_bind_run _ _ _ _ _ (get_ref_ok _ _ _ _ _ _ _ Hx)). cbv beta. start_init.
  assert (Hl : ∀ n i acc s, for_range (λ _ : Z, lift (unwrap (RCPool_new (W := W)))) i n acc s = Ret (acc ++ replicate n (mkRCPool ∅ false), s : module (W := W))).
  { induction n as [|n IH]; intros i acc s; cbn [for_range]; [by rewrite app_nil_r|].
    rewrite (io_bind_run _ _ _ (mkRCPool ∅ false) s eq_refl), IH. by rewrite <- app_assoc. }
  unfold collect. rewrite (io_bind_run _ _ _ _ _ (Hl _ _ _ _)). eexists. split; [apply init_ok|]. split; [done|]. intros y H1 H2. by rewrite !update_ne.
Qed.

Lemma async_pool_ok (g : globals) ready spawned running (w : W) facs :
  g Global.dc_factories = Some facs → length facs = Z.to_nat (num_nics_used c) → ∃ g' w',
  (if feature_prefetch then pool ← expect (DCPool_new c); init Global.dc_pool_service_async pool else mret ())
    (mkModule g ready spawned running w) = Ret ((), mkModule g' ready spawned running w') ∧ grows none none w w' ∧
  (feature_prefetch = true → ∃ pool, g' Global.dc_pool_service_async = Some pool ∧ dc_pool_ok c pool w') ∧
  ∀ y, y ≠ Global.dc_pool_service_async → g' y = g y.
Proof.
  intros Hf Lf. destruct feature_prefetch; [|exists g, w; split_and!; [done|apply grows_refl|done|done]].
  destruct (DCPool_new_ok g ready spawned running c facs w Hc Hf Lf) as (o & w' & E & Hg & pool & -> & Hp).
  rewrite (expect_run _ _ _ _ _ E). eexists _, w'. split; [apply init_ok|]. split; [done|]. split; [intros _; by exists pool|].
  intros y Hy. by rewrite update_ne.
Qed.

(** The global variables that the steps of [init_mitosis] write, in four
    stages: [g0] the numbers, [g1] the RDMA resources, [g2] the factories and
    the RC pools, [g4] the DC pools. *)
Lemma mitosis_up_intro (g0 g1 g2 g3 g4 : globals) ctxs pool ts mp (w2 w3 w' : W) :
  g0 Global.mac_id = Some (machine_id c) ∧ g0 Global.max_caller_num = Some (max_core_cnt c) ∧
    g0 Global.max_nics_used = Some (num_nics_used c) ∧ g0 Global.max_cluster_size = Some (max_cluster_size c) →
  (∀ y, (y ∉ rdma_names) → g1 y = g0 y) → rdma_started g1 → g1 Global.rdma_contexts = Some ctxs →
  (∀ y, y ≠ Global.rc_factories → y ≠ Global.rc_pool → g2 y =
    update (update (update g1 Global.ud_factories (Some (mkUDFactory <$> ctxs))) Global.dc_factories (Some (mkDCFactory <$> ctxs)))
      Global.access_info_service (Some (AccessInfoPool_new (max_core_cnt c))) y) →
  (feature_use_rc = true → g2 Global.rc_factories = Some (mkRCFactory <$> ctxs) ∧ g2 Global.rc_pool = Some (replicate (cores c) (mkRCPool ∅ false))) →
  g3 = update g2 Global.global_locks (Some (replicate (cores c) ())) →
  (∀ y, y ≠ Global.dc_pool_service_async → g4 y = update g3 Global.dc_pool_service (Some pool) y) →
  (feature_prefetch = true → ∃ pool, g4 Global.dc_pool_service_async = Some pool ∧ dc_pool_ok c pool w3) →
  grows none none w2 w' → grows none none w3 w' → dc_pool_ok c pool w2 →
  length ts = Z.to_nat (init_dc_targets c) ∧ (∀ i t, ts !! i = Some t → target_ok_at c i t) →
  mem_pool_ok (Z.to_nat (mem_pool_size c)) mp w' →
  mitosis_up (update (update (update (update (update (update g4 Global.dc_target_service (Some ts)) Global.sp_service (Some ∅))
    Global.mem_pool (Some mp)) Global.global_pt_cache (Some ∅)) Global.service_rpc (Some (mkRpcService [] [])))
    Global.service_caller_pool (Some (mkCallerPool [] [] [] []))) w'.
Proof.
  intros Hn Hg1 Hrs Hx Hg2 Hrc -> Hg4 Hasync Gp Ga Hpool Hts Hmp.
  assert (H3 : ∀ y, y ≠ Global.dc_pool_service_async → y ≠ Global.dc_pool_service → y ≠ Global.global_locks → g4 y = g2 y).
  { intros y N1 N2 N3. by rewrite Hg4, !update_ne. }
  assert (H4 : ∀ y, y ≠ Global.dc_pool_service_async → y ≠ Global.dc_pool_service → y ≠ Global.global_locks → y ≠ Global.rc_factories →
    y ≠ Global.rc_pool → y ≠ Global.access_info_service → y ≠ Global.dc_factories → y ≠ Global.ud_factories → g4 y = g1 y).
  { intros y N1 N2 N3 N4 N5 N6 N7 N8. by rewrite H3, Hg2, !update_ne. }
  destruct (rs_contexts _ Hrs) as (ctxs' & R1 & R2 & _). rewrite Hx in R1. injection R1 as <-.
  assert (Hrs4 : rdma_started g4) by (destruct Hrs as [R0 R1 R3 R4 R5 R6]; split; rewrite !H4 by done; eauto).
  assert (Hx4 : g4 Global.rdma_contexts = Some ctxs) by by rewrite H4.
  split.
  - destruct Hrs4 as [S0 S1 S2 S3 S4 S5]. by split.
  - split; [exists ctxs; split_and!; [exact Hx4|done| |]|apply Hrs4|].
    + change (g4 Global.ud_factories = Some (mkUDFactory <$> ctxs)). by rewrite H3, Hg2.
    + change (g4 Global.dc_factories = Some (mkDCFactory <$> ctxs)). by rewrite H3, Hg2.
    + destruct (rs_servers _ Hrs4) as (xs & vs & srvs & _ & _ & Hsr & Lsr & Hat). exists srvs. split_and!; [exact Hsr|done|].
      intros i s Hi. by destruct (Hat i s Hi).
  - destruct Hn as (N1 & N2 & N3 & N4). split_and!; unfold update; cbn; rewrite H4, Hg1 by first [done|by apply (bool_decide_unpack _)]; done.
  - transitivity (g2 Global.access_info_service); [by apply H3|by rewrite Hg2].
  - transitivity (update g2 Global.global_locks (Some (replicate (cores c) ())) Global.global_locks); [by apply Hg4|done].
  - exists pool. split; [by apply (Hg4 Global.dc_pool_service)|exact (dc_pool_grows _ _ _ _ _ _ Gp Hpool)].
  - intros Hf. destruct (Hasync Hf) as (ap & Ha & Hap). exists ap. split; [exact Ha|exact (dc_pool_grows _ _ _ _ _ _ Ga Hap)].
  - intros Hf. destruct (Hrc Hf) as [Hr1 Hr2]. split; [exists ctxs; split; [exact Hx4|]|].
    + transitivity (g2 Global.rc_factories); [by apply H3|done].
    + transitivity (g2 Global.rc_pool); [by apply H3|done].
  - by exists ts.
  - by exists mp.
  - done.
Qed.

Lemma init_mitosis_ok (g : globals) ready spawned running (w : W) : ∃ g' w',
  init_mitosis c (mkModule g ready spawned running w) = Ret (Some (), mkModule g' ready spawned running w') ∧
  grows none none w w' ∧ mitosis_up g' w'.
Proof.
  unfold init_mitosis. do 4 start_init.
  match goal with |- context [mkModule ?G _ _ _ w] => destruct (start_rdma_ok G ready spawned running w) as (g1 & w1 & E1 & G1 & Hrs & Hg1) end.
  rewrite (expect_run _ _ _ _ _ E1). cbv beta.
  destruct (rs_contexts _ Hrs) as (ctxs & Hx & Lx & _).
  start_get ctxs Hx. start_init. start_get ctxs Hx. start_init. start_init.
  match goal with |- context [mkModule ?G _ _ _ w1] => destruct (rc_pools_ok G ready spawned running w1 ctxs Hx) as (g2 & E2 & Hrc & Hg2) end.
  rewrite (io_bind_run _ _ _ _ _ E2). cbv beta. start_init. clear E1 E2.
  assert (Hdf : g2 Global.dc_factories = Some (mkDCFactory <$> ctxs)) by by rewrite Hg2.
  assert (Ldf : length (mkDCFactory (kr := kr) <$> ctxs) = Z.to_nat (num_nics_used c)) by by rewrite length_fmap.
  match goal with |- context [mkModule ?G _ _ _ w1] => set (g3 := G) end.
  destruct (DCPool_new_ok g3 ready spawned running c _ w1 Hc Hdf Ldf) as (o & w2 & E3 & G3 & pool & -> & Hpool).
  rewrite (expect_run _ _ _ _ _ E3). cbv beta. start_init.
  destruct (async_pool_ok (update g3 Global.dc_pool_service (Some pool)) ready spawned running w2 _ Hdf Ldf) as (g4 & w3 & E4 & G4 & Hasync & Hg4).
  rewrite (io_bind_run _ _ _ _ _ E4). cbv beta. clear E3 E4.
  assert (Hdf4 : g4 Global.dc_factories = Some (mkDCFactory <$> ctxs)) by (by rewrite Hg4).
  destruct (DCTargetPool_new_ok g4 ready spawned running c _ w3 Hc Hdf4 Ldf) as (o & w4 & E5 & G5 & ts & -> & Hts).
  rewrite (expect_run _ _ _ _ _ E5). cbv beta. start_init. start_init. clear E5.
  assert (Hx4 : g4 Global.rdma_contexts = Some ctxs) by (by rewrite Hg4, <- Hx by done; unfold g3; rewrite !update_ne, Hg2 by done).
  destruct (lookup_index ctxs 0 Lx) as [ctx Hctx]; [destruct Hc; lia|]. cbn in Hctx.
  match goal with |- context [mkModule ?G _ _ _ w4] => set (g5 := G) end.
  rewrite (io_bind_run _ _ _ ctx (mkModule g5 ready spawned running w4)) by (by apply (get_nth_ok _ _ _ _ Global.rdma_contexts (λ l, l) ctxs)). cbv beta.
  destruct (MemPool_new_ok (Z.to_nat (mem_pool_size c)) ctx w4) as (mp & w' & E6 & G6 & Hmp).
  rewrite (io_bind_run _ _ _ mp (mkModule g5 ready spawned running w')) by (unfold dev; cbn [m_dev]; by rewrite E6). cbv beta. clear E6.
  do 4 start_init. eexists _, w'. split; [done|].
  assert (Gp : grows none none w2 w') by (do 2 (eapply grows_trans; [eassumption|]); done).
  assert (Ga : grows none none w3 w') by (eapply grows_trans; [eassumption|]; done).
  split; [eapply grows_trans; [exact G1|]; eapply grows_trans; [exact G3|]; done|].
  exact (mitosis_up_intro _ g1 g2 g3 g4 ctxs pool ts mp w2 w3 w' (conj eq_refl (conj eq_refl (conj eq_refl eq_refl))) Hg1 Hrs Hx Hg2 Hrc eq_refl Hg4 Hasync
    Gp Ga Hpool Hts Hmp).
Qed.

(** ** The RPC service *)
Record connect_info_at (i : nat) (info : HandlerConnectInfo) : Prop := {
  ci_at_service : ci_service_id info = (SERVICE_ID_BASE + nic_of c i)%Z;
  ci_at_hint : ci_qd_hint info = server_hint (Z.of_nat i);
  ci_at_port : ci_local_port info = default_nic_port c }.

Definition thread_of (i : Z) : ThreadCTX := mkThreadCTX i (i mod num_nics_used c).

Lemma spawn_loop_ok (g : globals) ready running infos n i spawned threads (w : W) : ∃ ths w',
  spawn_loop c infos i n threads (mkModule g ready spawned running w) =
    Ret (Some (mkRpcService (threads ++ ths) infos), mkModule g ready (spawned ++ (thread_of <$> seqZ (Z.of_nat i) (Z.of_nat n))) running w') ∧
  length ths = n ∧ grows none none w w'.
Proof.
  revert i spawned threads w. induction n as [|n IH]; intros i spawned threads w; cbn [spawn_loop].
  - exists [], w. rewrite !app_nil_r. split_and!; [done|done|apply grows_refl].
  - destruct (spawn_ok (Z.of_nat i) w) as (o & w1 & E & [h ->] & G1).
    assert (Es : spawn_worker c (Z.of_nat i) (mkModule g ready spawned running w) =
      Ret (Some h, mkModule g ready (spawned ++ [thread_of (Z.of_nat i)]) running w1)).
    { unfold spawn_worker. rewrite (io_lift_run _ _ _ _ (nic_of_ok c i Hc)).
      by rewrite (io_bind_run _ _ _ (Some h) (mkModule g ready spawned running w1)) by (unfold dev; cbn [m_dev]; by rewrite E). }
    rewrite (io_bind_run _ _ _ _ _ Es). cbv beta iota.
    destruct (IH (S i) (spawned ++ [thread_of (Z.of_nat i)]) (threads ++ [h]) w1) as (ths & w' & E' & Hl & G').
    exists (h :: ths), w'. rewrite E', <- !app_assoc. rewrite (seqZ_cons (Z.of_nat i)) by lia.
    replace (Z.pred (Z.of_nat (S n))) with (Z.of_nat n) by lia. replace (Z.succ (Z.of_nat i)) with (Z.of_nat (S i)) by lia. split_and!; [done|cbn; lia|by eapply grows_trans].
Qed.

Lemma new_with_worker_ok (g : globals) ready running ctxs (w : W) :
  g Global.rdma_contexts = Some ctxs → length ctxs = Z.to_nat (num_nics_used c) → ∃ svc w',
  new_with_worker c (mkModule g ready [] running w) = Ret (Some svc, mkModule g ready (thread_of <$> seqZ 0 (rpc_threads_num c)) running w') ∧
  grows none none w w' ∧ length (threads svc) = Z.to_nat (rpc_threads_num c) ∧ length (connect_infos svc) = Z.to_nat (rpc_threads_num c) ∧
  ∀ i info, connect_infos svc !! i = Some info → connect_info_at i info.
Proof.
  intros Hx Lx. unfold new_with_worker.
  assert (H : runs g ready [] running (collect (λ i,
      nic_to_use ← lift (usize_rem i (num_nics_used c));
      local_context ← get_rdma_context_ref nic_to_use;
      qd_hint ← lift (calculate_qd_hint i);
      gid ← expect (dev (query_gid local_context (default_nic_port c) 0));
      service_id ← lift (u64_add SERVICE_ID_BASE nic_to_use);
      mret (mkHandlerConnectInfo (gid_to_string gid) service_id qd_hint (default_nic_port c))) (rpc_threads_num c)) w
    (λ l w', grows none none w w' ∧ length l = Z.to_nat (rpc_threads_num c) ∧ ∀ i a, l !! i = Some a → connect_info_at i a)).
  { apply collect_plain. intros i w1 Hi. eapply runs_lift; [by apply nic_of_ok|]. destruct (nic_lookup c i ctxs Hc Lx) as [ctx Hctx].
    eapply runs_pure; [by apply (get_nth_ok _ _ _ _ Global.rdma_contexts (λ l, l) ctxs)|].
    eapply runs_lift; [apply u64_add_Ret; unfold QD_HINT_BASE, is_u64; destruct Hc; lia|].
    apply runs_expect. eapply wp_expect_is_some; [apply query_gid_ok|]. intros gid w2 G2.
    eapply runs_lift; [apply u64_add_Ret; unfold SERVICE_ID_BASE, is_u64, nic_of; destruct Hc as [[? ?] _ _ _];
      pose proof (Z.mod_pos_bound (Z.of_nat i) (num_nics_used c)); lia|].
    apply runs_ret. split; [done|]. by split. }
  start_run H infos w1 P1. destruct P1 as (G1 & L1 & H1).
  destruct (spawn_loop_ok g ready running infos (Z.to_nat (rpc_threads_num c)) 0 [] [] w1) as (ths & w' & E & Hl & G').
  rewrite Z2Nat.id in E by (destruct Hc; lia). rewrite E. eexists _, w'. split; [done|]. split_and!; [by eapply grows_trans|done|done|done].
Qed.

(** ** The whole start *)
Record callers_up (g : globals) (w : W) : Prop := {
  cu_callers : ∃ ctxs svcs l, g Global.rdma_contexts = Some ctxs ∧ g Global.ud_service = Some svcs ∧
    g Global.service_caller_pool =
      Some (mkCallerPool ((λ x, x.1.1.1) <$> l) ((λ x, x.1.1.2) <$> l) ((λ x, x.1.2) <$> l) (snd <$> l)) ∧ length l = cores c ∧
    (∀ i x, l !! i = Some x → caller_at c (mkUDFactory <$> ctxs) ctxs svcs i x w) ∧
    (∀ i j x y, l !! i = Some x → l !! j = Some y → i < j →
      ud (recv_inner (inner_receiver x.1.1.1)) ≠ ud (recv_inner (inner_receiver y.1.1.1))) }.

Definition service_up (g : globals) : Prop := ∃ svc, g Global.service_rpc = Some svc ∧ length (threads svc) = Z.to_nat (rpc_threads_num c) ∧
  length (connect_infos svc) = Z.to_nat (rpc_threads_num c) ∧ ∀ i info, connect_infos svc !! i = Some info → connect_info_at i info.

Record started (s : module) : Prop := {
  sd_mitosis : mitosis_up (m_globals s) (m_dev s);
  sd_callers : callers_up (m_globals s) (m_dev s);
  sd_service : service_up (m_globals s);
  sd_threads : threads_ok served c s ∧ m_spawned s = [] }.

Lemma mitosis_up_frame H (g g' : globals) (w w' : W) : grows none H w w' →
  (∀ y, y ≠ Global.service_rpc → y ≠ Global.service_caller_pool → g' y = g y) → mitosis_up g w → mitosis_up g' w'.
Proof.
  intros Hg Hy [[A0 A1 A2 A3 A4 A5] [B1 B2 B3] C1 C2 C3 (p & D1 & D2) E F G (mp & M1 & [M2 M3 M4]) K].
  split; rewrite ?Hy by done; [split; rewrite !Hy by done; done|split; rewrite !Hy by done; done|done|done|done| | |done|done| |done].
  - exists p. split; [done|by eapply dc_pool_grows].
  - intros Hf. destruct (E Hf) as (q & E1 & E2). exists q. split; [done|by eapply dc_pool_grows].
  - exists mp. by split.
Qed.

Lemma fresh_threads_ok (g : globals) (w : W) : (∀ h, server_hints c h → free_hint h w) →
  threads_ok served c (mkModule g 0 (thread_of <$> seqZ 0 (rpc_threads_num c)) [] w).
Proof.
  intros Hf. split; cbn.
  - rewrite app_nil_r, <- list_fmap_compose. by rewrite list_fmap_id.
  - done.
  - intros t Ht. apply list_elem_of_fmap in Ht as (i & -> & Hi). apply elem_of_seqZ in Hi. split; [done|]. apply Hf, server_hint_server; [done|]. cbn. lia.
  - intros svcs x _ Hx. by apply not_elem_of_nil in Hx.
Qed.

Lemma threads_ok_frame (g g' : globals) r sp ru (w w' : W) :
  threads_ok served c (mkModule g r sp ru w) → g' Global.ud_service = g Global.ud_service → grows none (client_hints c) w w' →
  threads_ok served c (mkModule g' r sp ru w').
Proof.
  intros Hok Hs Hg. pose proof (λ t, thread_ids served c _ t Hok) as Hids. cbn in Hids. destruct Hok as [A1 A2 A3 A4]. cbn in A1, A2, A3, A4.
  split; cbn; [done|done| |].
  - intros t Ht. destruct (A3 t Ht) as [H1 H2]. split; [done|]. eapply gr_hint; [exact Hg| |done].
    apply (server_hint_server c Hc). specialize (Hids t Ht). lia.
  - intros svcs x Hsv Hx. rewrite Hs in Hsv. by eapply handler_grows, A4.
Qed.

Lemma init_rpc_ok (g : globals) (w : W) early late :
  mitosis_up g w → (∀ h, free_hint h w) → (∀ i, (0 ≤ i < rpc_threads_num c)%Z → i ∈ early ++ late) →
  ∃ s, init_rpc served early late c (mkModule g 0 [] [] w) = Ret (Some (), s) ∧ started s.
Proof.
  intros Hm Hfree Hsched. destruct (ru_contexts _ _ (mu_up _ _ Hm)) as (ctxs & Hx & Lx & Hf & _).
  destruct (ru_services _ _ (mu_up _ _ Hm)) as (svcs & Hsv & Lsv), (ru_servers _ _ (mu_up _ _ Hm)) as (srvs & Hsr & Lsr & Hid).
  unfold init_rpc. destruct (new_with_worker_ok g 0 [] ctxs w Hx Lx) as (svc & w1 & E1 & G1 & Ht & Hi & Hinfo).
  rewrite (expect_run _ _ _ _ _ E1). cbv beta. start_init. clear E1.
  set (g1 := update g Global.service_rpc (Some svc)). set (s1 := mkModule g1 0 (thread_of <$> seqZ 0 (rpc_threads_num c)) [] w1).
  assert (Hup : rdma_up c g1) by (destruct (mu_up _ _ Hm) as [A1 A2 A3]; by split).
  destruct (run_threads_ok served c Hc early s1 Hup) as (s2 & E2 & T2 & N2).
  { apply fresh_threads_ok. intros h _. eapply gr_hint; [exact G1|by intros []|done]. }
  rewrite (io_bind_run _ _ _ _ _ E2). cbv beta. clear E2. destruct s2 as [g2 r2 sp2 ru2 w2]. pose proof (ts_globals _ _ _ _ T2) as Eg. cbn in Eg. subst g2.
  destruct (CallerPool_new_ok g1 r2 sp2 ru2 c (mkUDFactory <$> ctxs) ctxs svcs srvs w2 Hc Hf Hx Hsv Hsr) as (o & w3 & E3 & G3 & l & -> & Ll & Hl & Dl);
    [by rewrite length_fmap|done|done|done|done| |].
  { intros h Hh. eapply gr_hint; [exact (ts_grows _ _ _ _ T2)|by intros Hn|]. eapply gr_hint; [exact G1|by intros []|done]. }
  rewrite (expect_run _ _ _ _ _ E3). cbv beta. start_init. clear E3.
  match goal with |- context [mkModule ?G r2 sp2 ru2 w3] => set (g3 := G) end. set (s3 := mkModule g3 r2 sp2 ru2 w3).
  assert (Hup3 : rdma_up c g3) by (destruct Hup as [A1 A2 A3]; by split).
  assert (Hok3 : threads_ok served c s3) by exact (threads_ok_frame g1 g3 r2 sp2 ru2 w2 w3 (ts_ok _ _ _ _ T2) eq_refl G3).
  destruct (barrier_ok served c Hc late s3 Hup3 Hok3) as (s4 & E4 & T4 & N4).
  { intros t Htin. pose proof (thread_ids served c s3 t Hok3 Htin) as Hr. specialize (N2 t Htin).
    specialize (Hsched (th_id t) Hr). apply elem_of_app in Hsched as [?|?]; [by destruct N2|done]. }
  rewrite (io_bind_run _ _ _ _ _ E4). cbv beta. clear E4. exists s4. split; [done|].
  pose proof (ts_globals _ _ _ _ T4) as Eg. pose proof (ts_grows _ _ _ _ T4) as G4. cbn in Eg, G4. split; rewrite ?Eg.
  - assert (Gall : grows none (λ _, True) w (m_dev s4)).
    { pose proof (ts_grows _ _ _ _ T2) as G2. cbn in G2. eapply grows_trans; [eapply grows_mono; [..|exact G1]; [done|by intros ? []]|].
      eapply grows_trans; [eapply grows_mono; [..|exact G2]; done|]. eapply grows_trans; [eapply grows_mono; [..|exact G3]; done|].
      eapply grows_mono; [..|exact G4]; done. }
    eapply mitosis_up_frame; [exact Gall| |exact Hm]. intros y H1 H2. unfold g3, g1. by rewrite !update_ne.
  - split. exists ctxs, svcs, l. split_and!; [exact Hx|exact Hsv|done|done| |done]. intros i x Hi'. by eapply caller_grows, Hl.
  - by exists svc.
  - split; [exact (ts_ok _ _ _ _ T4)|exact N4].
Qed.

Lemma start_instance_ok early late s0 :
  m_ready s0 = 0%Z → m_spawned s0 = [] → m_running s0 = [] → (∀ h, free_hint h (m_dev s0)) →
  (∀ i, (0 ≤ i < rpc_threads_num c)%Z → i ∈ early ++ late) →
  ∃ s, start_instance served early late c s0 = Ret (Some (), s) ∧ started s.
Proof.
  destruct s0 as [g r sp ru w]. cbn. intros -> -> -> Hfree Hsched. unfold start_instance.
  destruct (init_mitosis_ok g 0 [] [] w) as (g1 & w1 & E1 & G1 & Hm). rewrite (io_bind_run _ _ _ _ _ E1). cbv beta iota.
  destruct (init_rpc_ok g1 w1 early late Hm) as (s & E2 & Hs); [|done|].
  { intros h. eapply gr_hint; [exact G1|by intros []|done]. }
  rewrite (io_bind_run _ _ _ _ _ E2). by exists s.
Qed.

(** C19: Start-up establishes what the other components rely on: from a machine whose
    cards and driver work, and whatever order the handler threads come up in,
    [start_instance] returns, every core has its own idle DC queue pair and its
    own caller with 64 posted buffers on the core's card, the descriptor buffers
    do not overlap, the DC targets have distinct keys, nothing is registered yet,
    all handler threads are up, and every published pair of service and hint
    leads to the queue pair it was published for.  The driver is kept, there is
    one context per card, opened on the card's device, and one CM server per card
    that listens under the card's number and answers with the service of that
    card, likewise for the RC servers in a build with [use_rc].  A handler thread
    sets itself up in one step, after the RPC service has been stored. *)
Theorem start_instance_establishes early late s0 :
  m_ready s0 = 0%Z → m_spawned s0 = [] → m_running s0 = [] → (∀ h, free_hint h (m_dev s0)) →
  (∀ i, (0 ≤ i < rpc_threads_num c)%Z → i ∈ early ++ late) →
  ∃ s, start_instance served early late c s0 = Ret (Some (), s) ∧ started s.
Proof. apply start_instance_ok. Qed.
End Start.

(** ** What that gives the other components *)
Section Started.
Context {W : Type} {kt : KTimerApi W} {kt_ok : KTimerOk W} {kr : KRdmaKit W} {nic : NicOk W} {recv_ok : RecvOk W}.
Context {kn : Kernel W} {kn_ok : KernelOk W} {cm : UdCm W} {po : PortApi W} {dt : DcTargets} {rk : RcKit W} {sk : SetupKit W} {so : SetupOk W} {sl : SetupLaws W}.
Context {sf : StartFeatures} {dl : DescriptorLayout} {rl : RpcLayout} {rp : ReplyLayout}.

Lemma window_inv_empty K qp (w : W) : outstanding qp w = [] → window_inv K qp ∅ w.
Proof.
  intros Ho. split; [intros id s msg H; by rewrite lookup_empty in H|]. rewrite Ho. unfold nsig. cbn. by rewrite map_filter_empty, map_size_empty.
Qed.

Lemma started_invariants_ok served c s :
  config_ok c → started served c s → (∀ w x, pmem_get_current_cpu w = Ret (x, w) → (0 ≤ x < max_core_cnt c)%Z) →
  (∃ pool, m_globals s Global.dc_pool_service = Some pool ∧ pool_covers pool ∧ pool_idle pool (m_dev s)) ∧
  (∃ mp ts, m_globals s Global.mem_pool = Some mp ∧ m_globals s Global.dc_target_service = Some ts ∧
    ∀ m, (∀ x, x ∈ mp_pool mp → buf_ok m (msg_bytes x)) → sps_inv (mkSps m mp ts (machine_id c) ∅)) ∧
  (∃ cp, m_globals s Global.service_caller_pool = Some cp ∧ CallerPool_len cp = max_core_cnt c ∧
    ∀ i caller, cp_pool cp !! i = Some caller → ReceiverInv (inner_receiver caller) (m_dev s) ∧
      window_inv CALL_WINDOW (ud (recv_inner (inner_receiver caller))) (caller_sessions caller) (m_dev s)) ∧
  (∀ i, (0 ≤ i < rpc_threads_num c)%Z → ∃ hook, (i, hook) ∈ m_running s ∧ ReceiverInv (transport hook) (m_dev s) ∧
    window_inv REPLY_WINDOW (ud (recv_inner (transport hook))) (hook_sessions hook) (m_dev s)).
Proof.
  intros Hc [Hm [(ctxs & svcs & l & _ & Hsv & Hcp & Ll & Hl & _)] _ [Hth Hsp]] Hcpu. split_and!.
  - destruct (mu_dc_pool _ _ _ Hm) as (pool & Hp & [P1 _ P3 _]). exists pool. split_and!; [done| |].
    + intros w x Hx. apply lookup_lt_is_Some_2. rewrite P1. unfold cores. specialize (Hcpu w x Hx). lia.
    + intros conn Hin. apply list_elem_of_lookup in Hin as [i Hi]. by apply (P3 i conn).
  - destruct (mu_mem _ _ _ Hm) as (mp & Hmp & [_ _ M3]), (mu_targets _ _ _ Hm) as (ts & Hts & _). exists mp, ts. split_and!; [done|done|].
    intros m Hb. split; cbn; [done| |by intros k b; rewrite lookup_empty..].
    intros i j x y Hi Hj Hne. destruct (decide (i < j)) as [Hlt|Hge]; [by apply (M3 i j)|].
    destruct (M3 j i y x Hj Hi ltac:(lia)) as [?|?]; unfold apart; auto.
  - eexists. split; [exact Hcp|]. split; [unfold CallerPool_len; cbn; rewrite length_fmap, Ll; unfold cores; destruct Hc; lia|].
    cbn. intros i caller Hi. apply list_lookup_fmap_Some in Hi as (x & -> & Hx). destruct (Hl i x Hx) as [[_ Ho] C2 _ C4 _ _ _].
    split; [done|]. rewrite C4. by apply window_inv_empty.
  - intros i Hi. assert (Hin : i ∈ fst <$> m_running s).
    { pose proof (to_ids _ _ _ Hth) as Hp. rewrite Hsp in Hp. cbn in Hp. rewrite Hp. apply elem_of_seqZ. lia. }
    apply list_elem_of_fmap in Hin as ([i' hook] & -> & Hin). exists hook. split; [done|].
    destruct (to_running _ _ _ Hth svcs _ Hsv Hin) as [_ [_ Ho] H3 H4 _ _]. split; [done|]. cbn in *. rewrite H4. by apply window_inv_empty.
Qed.

(** C14: [start_instance] hands the other components what their theorems ask for:
    on a machine whose cards and driver work, with a core count that covers every
    core, it returns in a state in which the pool of DC queue pairs covers every
    core and is idle; the registry's invariant holds in every memory in which the
    descriptor buffers lie; there is one caller per core, and each caller and each
    handler is within its window with its receive queue equal to the card's. *)
Theorem started_invariants served c early late s0 :
  config_ok c → m_ready s0 = 0%Z → m_spawned s0 = [] → m_running s0 = [] → (∀ h, free_hint h (m_dev s0)) →
  (∀ i, (0 ≤ i < rpc_threads_num c)%Z → i ∈ early ++ late) →
  (∀ w x, pmem_get_current_cpu w = Ret (x, w) → (0 ≤ x < max_core_cnt c)%Z) →
  ∃ s, start_instance served early late c s0 = Ret (Some (), s) ∧
  (∃ pool, m_globals s Global.dc_pool_service = Some pool ∧ pool_covers pool ∧ pool_idle pool (m_dev s)) ∧
  (∃ mp ts, m_globals s Global.mem_pool = Some mp ∧ m_globals s Global.dc_target_service = Some ts ∧
    ∀ m, (∀ x, x ∈ mp_pool mp → buf_ok m (msg_bytes x)) → sps_inv (mkSps m mp ts (machine_id c) ∅)) ∧
  (∃ cp, m_globals s Global.service_caller_pool = Some cp ∧ CallerPool_len cp = max_core_cnt c ∧
    ∀ i caller, cp_pool cp !! i = Some caller → ReceiverInv (inner_receiver caller) (m_dev s) ∧
      window_inv CALL_WINDOW (ud (recv_inner (inner_receiver caller))) (caller_sessions caller) (m_dev s)) ∧
  (∀ i, (0 ≤ i < rpc_threads_num c)%Z → ∃ hook, (i, hook) ∈ m_running s ∧ ReceiverInv (transport hook) (m_dev s) ∧
    window_inv REPLY_WINDOW (ud (recv_inner (transport hook))) (hook_sessions hook) (m_dev s)).
Proof.
  intros Hc H1 H2 H3 H4 H5 Hcpu. destruct (start_instance_ok served c Hc early late s0 H1 H2 H3 H4 H5) as (s & E & Hs).
  exists s. split; [exact E|]. by apply (started_invariants_ok served c s).
Qed.

(** ** Stopping *)
Definition kept_numbers : list Global.name := [Global.mac_id; Global.max_caller_num; Global.max_nics_used; Global.max_cluster_size].
Definition not_built : list Global.name :=
  (if feature_use_rc then [] else [Global.rc_service; Global.rc_cm_service; Global.rc_factories; Global.rc_pool]) ++
  (if feature_prefetch then [] else [Global.dc_pool_service_async]).

Lemma join_all (hs : list JoinHandler) (w : W) : (∀ h w, ∃ w', join h w = Ret ((), w')) →
  ∃ w', foldr (λ h k, join h ≫= λ _, k) (mret ()) hs w = Ret ((), w').
Proof.
  intros Hj. revert w. induction hs as [|h hs IH]; intros w; cbn; [by exists w|].
  destruct (Hj h w) as [w1 E]. rewrite (io_bind_run _ _ _ _ _ E). apply IH.
Qed.

Lemma drop_ok x g ready spawned running (w : W) :
  drop_global x (mkModule g ready spawned running w) = Ret ((), mkModule (update g x None) ready spawned running w).
Proof. done. Qed.

Lemma drop_two_ok x y g ready spawned running (w : W) :
  (drop_global x ≫= λ _, drop_global y) (mkModule g ready spawned running w) =
    Ret ((), mkModule (update (update g x None) y None) ready spawned running w).
Proof. done. Qed.

Lemma skip_ok (s : module (W := W)) : (mret () : io module ()) s = Ret ((), s).
Proof. done. Qed.

(** [start_drop] runs a step that only drops global variables. *)
Ltac start_drop :=
  first [rewrite (io_bind_run _ _ _ _ _ (drop_ok _ _ _ _ _ _)) | rewrite (io_bind_run _ _ _ _ _ (drop_two_ok _ _ _ _ _ _ _)) |
    rewrite (io_bind_run _ _ _ _ _ (skip_ok _))]; cbv beta.

(** Stopping takes back everything the start made: once the threads have ended,
    no global variable is left but the four numbers, which are never dropped. *)
Theorem end_instance_drops s : (∀ h (w : W), ∃ w', join h w = Ret ((), w')) →
  ∃ s', end_instance s = Ret ((), s') ∧
    ∀ y, (y ∈ kept_numbers → m_globals s' y = m_globals s y) ∧ (y ∉ kept_numbers ++ not_built → m_globals s' y = None).
Proof.
  intros Hj. destruct s as [g r sp ru w].
  assert (Hs : ∀ g w, ∃ w', drop_service_rpc (mkModule g r sp ru w) = Ret ((), mkModule (update g Global.service_rpc None) r sp ru w')).
  { clear g w. intros g w. unfold drop_service_rpc. cbn [m_globals]. destruct (g Global.service_rpc) as [svc|]; [|by exists w].
    destruct (join_all (reverse (threads svc)) w Hj) as [w' E]. exists w'.
    rewrite (io_bind_run _ _ _ () (mkModule g r sp ru w')); [done|]. unfold RpcService_drop, dev. cbn [m_dev]. by rewrite E. }
  unfold end_instance, end_rdma, not_built. destruct feature_use_rc, feature_prefetch; repeat start_drop;
    (match goal with |- context [(drop_service_rpc ≫= _) (mkModule ?G _ _ _ _)] => destruct (Hs G w) as [w' E] end);
    rewrite (io_bind_run _ _ _ _ _ E); clear E; cbv beta; repeat start_drop; (eexists; split; [apply drop_ok|]); intros y; (split;
      [intros Hy; repeat (apply elem_of_cons in Hy as [->|Hy]; [reflexivity|]); by apply not_elem_of_nil in Hy|]);
    intros Hy; destruct y; first [reflexivity|exfalso; apply Hy; by apply (bool_decide_unpack _)].
Qed.
End Started.

(** ** On the reference machine *)
Definition ref_set_next (n : Z) (w : ref_machine) : ref_machine :=
  mkRef (ref_clock w) (ref_alive w) (ref_sq w) (ref_landed w) (ref_rq w) (ref_inbox w)
    (ref_pages w) n (ref_cpu w) (ref_tsk w) (ref_memory w) (ref_hints w) (ref_sent w) (ref_devs w) (ref_rounds w).
Definition ref_set_hints (h : gmap (Z * Z) Z) (w : ref_machine) : ref_machine :=
  mkRef (ref_clock w) (ref_alive w) (ref_sq w) (ref_landed w) (ref_rq w) (ref_inbox w)
    (ref_pages w) (ref_next_mr w) (ref_cpu w) (ref_tsk w) (ref_memory w) h (ref_sent w) (ref_devs w) (ref_rounds w).

(** A queue pair is numbered by the next free address. *)
Definition ref_build (w : ref_machine) : ref_machine :=
  let qp := ref_next_mr w in
  ref_set_next (qp + 8) (ref_set_rq (delete qp (ref_rq w)) (ref_inbox w) (ref_set_sq (delete qp (ref_sq w)) (ref_landed w) w)).

Definition ref_RcKit : RcKit ref_machine := limited_RcKit 100.

#[export] Instance ref_SetupKit : SetupKit (rk := ref_RcKit) ref_machine := {|
  KDriver := ();
  Device := ();
  KDriver_create := λ w, Ret (Some (), w);
  devices := λ _, [()];
  open_context := λ _ w, Ret (Some (() : @Context_t _ ref_KRdmaKit), w);
  context_dev := λ _, ();
  context_rkey := λ _, 7%Z;
  build_dc := λ _ _ w, Ret (Ok (ref_next_mr w), ref_build w);
  build_ud := λ _ _ _ w, Ret (Ok (ref_next_mr w), ref_build w);
  build_dynamic_connected_target := λ _ _ key w, Ret (Some ((key - 73)%Z : @DCTarget ref_DcTargets), w);
  get_datagram_meta := λ _ w, Ret (Some (3, (0, 0))%Z, w);
  UdService := Z;
  UdService_create := λ w, Ret (ref_next_mr w, ref_set_next (ref_next_mr w + 8) w);
  reg_qp := λ s h qp w, Ret ((), ref_set_hints (<[(s, h) := qp]> (ref_hints w)) w);
  RcServer_create := λ _ _ w, Ret ((() : @RcServer _ _ _ ref_RcKit), w);
  CMServer := Z * (Z + @RcServer _ _ _ ref_RcKit);
  CMServer_new := λ id svc _ w, Ret (Some (id, svc), w);
  listen_id := fst;
  gid_to_string := λ _, ref_gid;
  JoinHandler := Z;
  spawn := λ i w, Ret (Some i, w);
  join := λ _ w, Ret ((), w) |}.

#[export] Instance ref_SetupOk : SetupOk (rk := ref_RcKit) ref_machine := {|
  nics := [()] : list (@Device _ _ _ _ _ ref_SetupKit);
  recv_depth := 64;
  in_use := λ (qp : Z) w, (qp < ref_next_mr w)%Z;
  taken := λ r w, (r.1 + r.2 ≤ ref_next_mr w)%Z;
  free_hint := λ h w, ∀ s, ref_hints w !! (s, h) = None;
  resolves := λ (s h qp : Z) w, ref_hints w !! (s, h) = Some qp;
  serves := λ s svc _, s.2 = svc |}.

Lemma ref_keeps Q H w w' : (ref_next_mr w ≤ ref_next_mr w')%Z → ref_hints w' = ref_hints w →
  (∀ qp, (qp < ref_next_mr w)%Z → ref_queue w' qp = ref_queue w qp ∧ ref_recv_queue w' qp = ref_recv_queue w qp) →
  grows (rk := ref_RcKit) Q H w w'.
Proof.
  intros Hn Hh Hq. split; cbn; [lia| | |intros r; lia|by rewrite Hh..].
  - intros q Hu. unfold ref_outstanding. by rewrite (proj1 (Hq q Hu)).
  - intros q Hu _. by apply Hq.
Qed.

Lemma ref_build_ok w : fresh_qp (rk := ref_RcKit) (ref_next_mr w : @QueuePair _ ref_KRdmaKit) w (ref_build w) ∧ grows (rk := ref_RcKit) none none w (ref_build w).
Proof.
  split; [split; cbn; [lia|lia|..]|].
  - unfold ref_outstanding, ref_queue. cbn. by rewrite lookup_delete_eq.
  - unfold ref_recv_queue. cbn. by rewrite lookup_delete_eq.
  - apply ref_keeps; cbn; [lia|done|]. intros qp Hqp. unfold ref_queue, ref_recv_queue. cbn. by rewrite !lookup_delete_ne by lia.
Qed.

#[export] Instance ref_SetupLaws : SetupLaws (rk := ref_RcKit) ref_machine.
Proof.
  assert (Hid : ∀ Q H w, grows (rk := ref_RcKit) Q H w w) by (intros; apply grows_refl).
  split; [done|done| | | | | | | | | | | | | |].
  - intros w. eexists _, _. split; [done|]. eauto.
  - intros [] w. eexists _, _. split; [done|]. eauto.
  - intros w. eexists _, _. split; [done|]. apply ref_keeps; cbn; [lia|done|done].
  - intros ctx port w. eexists _, _. by split.
  - intros id svc d w. eexists _, _. split; [done|]. split; [by eexists|done].
  - intros ctx port key w. eexists _, _. split; [done|]. split; [|done]. eexists. split; [done|]. cbn. lia.
  - intros t w. eexists _, _. split; [done|]. eauto.
  - intros ctx port idx w. eexists _, _. split; [done|]. eauto.
  - intros i w. eexists _, _. split; [done|]. eauto.
  - intros ctx port w. eexists _, _. split; [done|]. destruct (ref_build_ok w) as [H1 H2]. destruct ctx. eauto.
  - intros ctx depth port w. eexists _, _. split; [done|]. destruct (ref_build_ok w) as [H1 H2]. destruct ctx. eauto.
  - intros s h qp w Hf. eexists _, _. split; [done|]. cbn in Hf. cbn. split; [apply lookup_insert_eq|].
    split; cbn; try done.
    + intros h' Hne Hf' s'. rewrite lookup_insert_ne; [done|]. by intros [= _ <-].
    + intros s' h' q Hr. rewrite lookup_insert_ne; [done|]. intros [= <- <-]. by rewrite Hf in Hr.
  - intros ctx sz w Hsz. eexists _, _. split; [done|]. split; [|apply ref_keeps; cbn; [lia|done|done]].
    eexists. split; [done|]. cbn. split; [lia|]. intros a n. lia.
  - intros qp mr range addr w Hu. eexists _, _. split; [done|]. cbn. unfold ref_recv_queue. cbn. rewrite lookup_insert_eq. split_and!; [done|done|].
    split; cbn; try done. intros q Hq Hne. unfold ref_recv_queue. cbn. by rewrite lookup_insert_ne by congruence.
Qed.

#[export] Instance ref_StartFeatures : StartFeatures := {| feature_use_rc := true; feature_prefetch := true |}.

Definition ref_config : Config := mkConfig 1 1 2 0 4 [] 3 128 2.
Definition ref_module (w : ref_machine) : module (rk := ref_RcKit) := mkModule no_globals 0 [] [] w.
Definition ref_served : Sps ref_machine * list (@DCTarget ref_DcTargets) * list (Z * (Z * Z)) := (example_sps 512, [], []).

Lemma ref_config_ok : config_ok (rk := ref_RcKit) ref_config.
Proof. by repeat split. Qed.

(** The second thread comes up while the callers are made, the first during the wait. *)
Lemma start_instance_establishes_witness : ∃ s,
  start_instance (rp := word_ReplyLayout) ref_served [1%Z] [0%Z] ref_config (ref_module ref_boot) = Ret (Some (), s) ∧
  started (rp := word_ReplyLayout) ref_served ref_config s.
Proof.
  apply (start_instance_establishes (rp := word_ReplyLayout) ref_served ref_config ref_config_ok [1%Z] [0%Z] (ref_module ref_boot));
    [done|done|done|done|].
  intros i Hi. cbn in Hi. assert (i = 0 ∨ i = 1)%Z as [->| ->] by lia; set_solver.
Defined.

Lemma ref_started : ∃ s, start_instance (rp := word_ReplyLayout) ref_served [1%Z] [0%Z] ref_config (ref_module ref_boot) = Ret (Some (), s) ∧
  started (rp := word_ReplyLayout) ref_served ref_config s.
Proof.
  apply (start_instance_ok (rp := word_ReplyLayout) ref_served ref_config ref_config_ok [1%Z] [0%Z] (ref_module ref_boot));
    [done|done|done|done|].
  intros i Hi. cbn in Hi. assert (i = 0 ∨ i = 1)%Z as [->| ->] by lia; set_solver.
Qed.

Lemma started_invariants_witness : ∃ s pool hook,
  start_instance (rp := word_ReplyLayout) ref_served [1%Z] [0%Z] ref_config (ref_module ref_boot) = Ret (Some (), s) ∧
  m_globals s Global.dc_pool_service = Some pool ∧ pool_covers pool ∧ pool_idle pool (m_dev s) ∧
  (1%Z, hook) ∈ m_running s ∧ ReceiverInv (transport hook) (m_dev s).
Proof.
  destruct (started_invariants (dl := word_layout) (rp := word_ReplyLayout) ref_served ref_config [1%Z] [0%Z] (ref_module ref_boot) ref_config_ok)
    as (s & E & (pool & H1 & H2 & H3) & _ & _ & Hh); [done|done|done|done| | |].
  - intros i Hi. cbn in Hi. assert (i = 0 ∨ i = 1)%Z as [->| ->] by lia; set_solver.
  - intros w x [= <-]. cbn. pose proof (Z.mod_pos_bound (ref_cpu w) 4). lia.
  - destruct (Hh 1%Z) as (hook & Hin & Hr & _); [cbn; lia|]. exists s, pool, hook.
    split; [exact E|]. split_and!; [exact H1|exact H2|exact H3|exact Hin|exact Hr].
Defined.

Lemma end_instance_drops_witness : ∃ s s',
  start_instance (rp := word_ReplyLayout) ref_served [1%Z] [0%Z] ref_config (ref_module ref_boot) = Ret (Some (), s) ∧
  end_instance s = Ret ((), s') ∧ m_globals s' Global.sp_service = None ∧ m_globals s' Global.rdma_driver = None.
Proof.
  destruct ref_started as (s & E & _). destruct (end_instance_drops s) as (s' & E' & H); [intros h w; by exists w|].
  exists s, s'. split; [exact E|]. split; [exact E'|].
  split; [apply (H Global.sp_service)|apply (H Global.rdma_driver)]; by apply (bool_decide_unpack _).
Defined.
