(* ===== verification/KernelModule.v ===== *)
(** * Loading and unloading the kernel module ([mitosis-kms/fork/src/lib.rs], [syscalls.rs])

    The kernel calls [init] when the module is loaded and drops the module when
    it is unloaded.  In between the module's device answers system calls. *)

From S2P Require Import Prelude Future Rdma Machine RemotePaging Datagram ShadowService Rpc RpcSpec RpcHandlers CallerPool RcPool Startup StartupSpec StartInstance Bytes Descriptors.

(** [linux_kernel_module::chrdev] *)
Class ChrDev (W : Type) := {
  KError : Type;
  Builder : Type;
  Registration : Type;
  chrdev_builder : io W (Result Builder KError);
  build_device : Builder → io W (Result Registration KError);
  unregister_device : Registration → io W ();
}.

Section KernelModule.
Context {W : Type} {kt : KTimerApi W} {kr : KRdmaKit W} {kn : Kernel W} {cm : UdCm W} {po : PortApi W} {dt : DcTargets} {rk : RcKit W}.
Context {sk : SetupKit W} {sf : StartFeatures} {rl : RpcLayout} {rp : ReplyLayout} {cd : ChrDev W}.
Context (served : Sps W * list DCTarget * list (Z * (Z * Z))).

(** [SysCallsService::new] *)
Definition SysCallsService_new : io W (Result Registration KError) :=
  try_bind chrdev_builder build_device.

Definition module_config (id : Z) : outcome Config :=
  let config := set_num_nics_used Config_default 1 in
  config ← set_rpc_threads config 2;
  Ret (set_machine_id (set_init_dc_targets config 12) id).

(** [init]; [mac_id] is the parameter the module was loaded with. *)
Definition Module_init (early late : list Z) (mac_id : Z) : io module (Result Registration KError) :=
  config ← lift (module_config mac_id);
  r ← start_instance served early late config;
  match r with None => panic | Some _ => dev SysCallsService_new end.

(** [drop], then the field is dropped. *)
Definition Module_drop (service : Registration) : io module () :=
  end_instance ≫= λ _, dev (unregister_device service).
End KernelModule.

Section Lifetime.
Context {W : Type} {kt : KTimerApi W} {kt_ok : KTimerOk W} {kr : KRdmaKit W} {nic : NicOk W} {recv_ok : RecvOk W}.
Context {kn : Kernel W} {kn_ok : KernelOk W} {cm : UdCm W} {po : PortApi W} {dt : DcTargets} {rk : RcKit W} {sk : SetupKit W} {so : SetupOk W} {sl : SetupLaws W}.
Context {sf : StartFeatures} {rl : RpcLayout} {rp : ReplyLayout} {cd : ChrDev W}.
Context (served : Sps W * list DCTarget * list (Z * (Z * Z))).

Definition loaded_config (id : Z) : Config := mkConfig 1 1 2 id 48 [] 12 128 20.

Lemma module_config_ok id : module_config id = Ret (loaded_config id).
Proof. reflexivity. Qed.

Lemma loaded_config_ok id : 1 ≤ length nics → config_ok (loaded_config id).
Proof. intros Hn. split; cbn; lia. Qed.

(** Nothing of the module has run yet on this machine. *)
Record unloaded (s : module) : Prop := {
  un_ready : m_ready s = 0%Z;
  un_spawned : m_spawned s = [];
  un_running : m_running s = [];
  un_hints h : free_hint h (m_dev s) }.

Lemma init_starts early late id s0 : 1 ≤ length nics → unloaded s0 → (0 ∈ early ++ late)%Z → (1 ∈ early ++ late)%Z →
  ∃ s1, started served (loaded_config id) s1 ∧ Module_init served early late id s0 = dev SysCallsService_new s1.
Proof.
  intros Hn [H1 H2 H3 H4] He0 He1.
  destruct (start_instance_ok served (loaded_config id) (loaded_config_ok id Hn) early late s0 H1 H2 H3 H4) as (s1 & E & Hs).
  { cbn. intros i Hi. by assert (i = 0 ∨ i = 1)%Z as [->| ->] by lia. }
  exists s1. split; [done|]. unfold Module_init. rewrite (io_lift_run _ _ _ _ (module_config_ok id)). cbv beta. by step E.
Qed.

(** A started module stays started while the kernel does other things. *)
Lemma started_grows c g r sp ru (w w' : W) : config_ok c → grows none none w w' →
  started served c (mkModule g r sp ru w) → started served c (mkModule g r sp ru w').
Proof.
  intros Hc Hg [Hm [(ctxs & svcs & l & Hx & Hsv & Hcp & Ll & Hl & Hd)] Hsv' [Ht Hs]].
  assert (Hg' : ∀ H, grows none H w w') by (intros H; eapply grows_mono; [..|exact Hg]; [done|by intros ? []]). split; cbn in *.
  - by eapply mitosis_up_frame.
  - split. exists ctxs, svcs, l. split_and!; try done. intros i x Hi. by eapply caller_grows, Hl.
  - done.
  - split; [|done]. by eapply threads_ok_frame.
Qed.

(** What is relied on of the kernel's character devices: it makes them, [registered]
    then holds, and one that is given back is no longer registered. *)
Record ChrDevOk (registered : Registration → W → Prop) : Prop := {
  cd_builder (w : W) : ∃ b w', chrdev_builder w = Ret (Ok b, w') ∧ grows none none w w';
  cd_build b (w : W) : ∃ reg w', build_device b w = Ret (Ok reg, w') ∧ registered reg w' ∧ grows none none w w';
  cd_unregister reg (w : W) : ∃ w', unregister_device reg w = Ret ((), w') ∧ ¬ registered reg w' }.

Lemma SysCallsService_new_ok registered w : ChrDevOk registered →
  ∃ reg w', SysCallsService_new w = Ret (Ok reg, w') ∧ registered reg w' ∧ grows none none w w'.
Proof.
  intros Hcd. destruct (cd_builder _ Hcd w) as (b & w1 & E1 & G1), (cd_build _ Hcd b w1) as (reg & w2 & E2 & Hr & G2).
  exists reg, w2. split_and!; [|done|by eapply grows_trans]. unfold SysCallsService_new, try_bind. by rewrite (io_bind_run _ _ _ _ _ E1).
Qed.

(** C20: The life of the kernel module.  Loaded on a machine with a working card whose
    kernel makes its device, and whatever order its two handler threads come up
    in, the module is started with its default configuration and its device is
    registered.  If the handler threads return when they are joined, unloading
    ends, with all global variables gone but the numbers, and the device is no
    longer registered. *)
Theorem module_lifetime registered early late id s0 :
  1 ≤ length nics → unloaded s0 → (0 ∈ early ++ late)%Z → (1 ∈ early ++ late)%Z →
  ChrDevOk registered → (∀ h (w : W), ∃ w', join h w = Ret ((), w')) →
  ∃ reg s s', Module_init served early late id s0 = Ret (Ok reg, s) ∧ started served (loaded_config id) s ∧ registered reg (m_dev s) ∧
    Module_drop reg s = Ret ((), s') ∧ ¬ registered reg (m_dev s') ∧
    ∀ y, (y ∈ kept_numbers → m_globals s' y = m_globals s y) ∧ (y ∉ kept_numbers ++ not_built → m_globals s' y = None).
Proof.
  intros Hn Hu He0 He1 Hcd Hj. destruct (init_starts early late id s0 Hn Hu He0 He1) as ([g r sp ru w] & Hs & E).
  destruct (SysCallsService_new_ok registered w Hcd) as (reg & w' & Ereg & Hr & Hg). set (s := mkModule g r sp ru w').
  assert (Es : Module_init served early late id s0 = Ret (Ok reg, s)) by (rewrite E; unfold dev; cbn [m_dev]; by rewrite Ereg).
  destruct (end_instance_drops s Hj) as (s1 & E1 & Hd). destruct (cd_unregister _ Hcd reg (m_dev s1)) as (w2 & E2 & Hr2).
  exists reg, s, (set_dev s1 w2). split_and!; [exact Es|by eapply started_grows; [apply loaded_config_ok|..]|exact Hr| |exact Hr2|exact Hd].
  unfold Module_drop. rewrite (io_bind_run _ _ _ _ _ E1). unfold dev. by rewrite E2.
Qed.

Lemma thread_runs c s i : started served c s → (0 ≤ i < rpc_threads_num c)%Z → ∃ hook, (i, hook) ∈ m_running s.
Proof.
  intros [_ _ _ [Hth Hsp]] Hi. assert (Hin : i ∈ fst <$> m_running s).
  { pose proof (to_ids _ _ _ Hth) as Hp. rewrite Hsp in Hp. cbn in Hp. rewrite Hp. apply elem_of_seqZ. lia. }
  apply list_elem_of_fmap in Hin as ([i' hook] & -> & Hin). by exists hook.
Qed.

(** A device that cannot be made leaves the module half loaded.  When the kernel
    refuses the device, [init] reports the error without stopping what it has
    started: no [Module] exists whose drop would do it, so that the handler
    threads go on running in a module that the kernel removes. *)
Theorem failed_load_keeps_threads early late id s0 e :
  1 ≤ length nics → unloaded s0 → (0 ∈ early ++ late)%Z → (1 ∈ early ++ late)%Z →
  (∀ w, SysCallsService_new w = Ret (Err e, w)) →
  ∃ s, Module_init served early late id s0 = Ret (Err e, s) ∧ started served (loaded_config id) s ∧
    ∃ h0 h1, (0%Z, h0) ∈ m_running s ∧ (1%Z, h1) ∈ m_running s.
Proof.
  intros Hn Hu He0 He1 Hdev. destruct (init_starts early late id s0 Hn Hu He0 He1) as (s & Hs & E). exists s.
  split; [|split; [exact Hs|]].
  - rewrite E. unfold dev. rewrite Hdev. by destruct s.
  - destruct (thread_runs _ s 0 Hs) as [h0 H0]; [cbn; lia|]. destruct (thread_runs _ s 1 Hs) as [h1 H1]; [cbn; lia|]. by exists h0, h1.
Qed.
End Lifetime.

(** ** On the reference machine *)
Definition ref_set_devs (d : gset Z) (w : ref_machine) : ref_machine :=
  mkRef (ref_clock w) (ref_alive w) (ref_sq w) (ref_landed w) (ref_rq w) (ref_inbox w)
    (ref_pages w) (ref_next_mr w) (ref_cpu w) (ref_tsk w) (ref_memory w) (ref_hints w) (ref_sent w) d (ref_rounds w).

Definition ref_ChrDev (ok : bool) : ChrDev ref_machine := {|
  KError := Z;
  Builder := ();
  Registration := Z;
  chrdev_builder := λ w, Ret (Ok tt, w);
  build_device := λ _ w, if ok then Ret (Ok 240%Z, ref_set_devs ({[240%Z]} ∪ ref_devs w) w) else Ret (Err (-16)%Z, w);
  unregister_device := λ reg w, Ret ((), ref_set_devs (ref_devs w ∖ {[reg]}) w) |}.

Lemma ref_ChrDevOk : ChrDevOk (rk := ref_RcKit) (cd := ref_ChrDev true) (λ (reg : Z) w, reg ∈ ref_devs w).
Proof.
  split.
  - intros w. eexists _, _. split; [done|apply grows_refl].
  - intros b w. eexists _, _. split; [done|]. split; [cbn; set_solver|]. by apply ref_keeps.
  - intros reg w. eexists. split; [done|]. cbn. set_solver.
Qed.

Lemma ref_unloaded : unloaded (rk := ref_RcKit) (ref_module ref_boot).
Proof. by split. Qed.

Lemma module_lifetime_witness : ∃ reg s s',
  Module_init (cd := ref_ChrDev true) (rp := word_ReplyLayout) ref_served [1%Z] [0%Z] 3 (ref_module ref_boot) = Ret (Ok reg, s) ∧
  ((reg : Z) ∈ ref_devs (m_dev s)) ∧ Module_drop (cd := ref_ChrDev true) reg s = Ret ((), s') ∧ ¬ ((reg : Z) ∈ ref_devs (m_dev s')) ∧
  m_globals s' Global.sp_service = None.
Proof.
  destruct (module_lifetime (cd := ref_ChrDev true) (rp := word_ReplyLayout) ref_served
    (λ (reg : Z) w, reg ∈ ref_devs w) [1%Z] [0%Z] 3 (ref_module ref_boot)) as (reg & s & s' & E & _ & Hr & E' & Hr' & H).
  - cbn. lia.
  - exact ref_unloaded.
  - right. left.
  - left.
  - exact ref_ChrDevOk.
  - intros h w. by exists w.
  - exists reg, s, s'. split; [exact E|]. split; [exact Hr|]. split; [exact E'|]. split; [exact Hr'|].
    apply (H Global.sp_service). by apply (bool_decide_unpack _).
Defined.

Lemma failed_load_keeps_threads_witness : ∃ s h0,
  Module_init (cd := ref_ChrDev false) (rp := word_ReplyLayout) ref_served [1%Z] [0%Z] 3 (ref_module ref_boot) = Ret (Err (-16)%Z, s) ∧
  (0%Z, h0) ∈ m_running s.
Proof.
  destruct (failed_load_keeps_threads (cd := ref_ChrDev false) (rp := word_ReplyLayout) ref_served [1%Z] [0%Z] 3 (ref_module ref_boot) (-16)%Z)
    as (s & E & _ & h0 & _ & H0 & _).
  - cbn. lia.
  - exact ref_unloaded.
  - right. left.
  - left.
  - intros w. reflexivity.
  - exists s, h0. split; [exact E|exact H0].
Defined.
