(* ===== verification/Prepares.v ===== *)
(** * Prepares that overlap ([shadow_process_service.rs])

    The system calls of different processes run on different cores, and the
    registry, the buffer pool and the pool of DC targets are global variables that
    [syscall_prepare] uses without a lock.  Here [add_myself_copy] and
    [add_myself_cow] are cut at their accesses to these globals, and the pieces
    of any number of calls are interleaved.  Each access to a global is one step:
    two cores inside [HashMap::insert] or [Vec::pop] at the same moment, which would
    race on the memory itself, are not described.  Calls for different keys then do
    not disturb each other; calls for one key may both pass the check that the key
    is free. *)

From S2P Require Import Prelude Future Rdma Machine PageStructures PageHeap RemotePageTable Bytes Descriptors ParentWire ChildWire Task RefTask ShadowProcess ShadowSpec RefPages Datagram ShadowCopy ShadowCow RemoteFork ShadowService.

Section Prepares.
Context {W : Type} {ta : TaskApi W} {pa : PagesApi W} {kn : Kernel W} {vc : VmConsts}.
Context {kt : KTimerApi W} {kr : KRdmaKit W} {dt : DcTargets} {dl : DescriptorLayout}.

(** Where a call of [add_myself_copy] or [add_myself_cow] stands: before the check
    of the key, before a target is popped, before the process is copied, before
    the buffer is popped and filled, before the insertion, or returned. *)
Inductive prepare_at : Type :=
  | AtCheck
  | AtTarget
  | AtSnapshot (target : DCTarget) (d : RDMADescriptor)
  | AtBundle (target : DCTarget) (process : ShadowProcess)
  | AtInsert (b : ProcessBundler W)
  | Prepared (r : option Z).

(** [HashMap::insert] gives back the value that was there, which is dropped. *)
Definition insert_bundler (g : Sps W) (key : Z) (b : ProcessBundler W) : io W (Sps W) :=
  match registered_processes g !! key with
  | None => mret (sps_insert g key b)
  | Some old => ShadowProcess_drop (pb_process old) ≫= λ _, mret (sps_insert g key b)
  end.

Definition prepare_step (snapshot : RDMADescriptor → io W ShadowProcess) (key : Z) (at_ : prepare_at) (g : Sps W) :
    io W (prepare_at * Sps W) :=
  match at_ with
  | AtCheck => mret (if decide (is_Some (registered_processes g !! key)) then Prepared None else AtTarget, g)
  | AtTarget => '(target, d, g) ← lift (new_from_dc_target_pool g); mret (AtSnapshot target d, g)
  | AtSnapshot target d => process ← snapshot d; mret (AtBundle target process, g)
  | AtBundle target process => '(b, g) ← ProcessBundler_new g process target; mret (AtInsert b, g)
  | AtInsert b => g ← insert_bundler g key b; mret (Prepared (Some (get_serialize_buf_sz b)), g)
  | Prepared r => mret (Prepared r, g)
  end.

(** A call that nobody interferes with *)
Fixpoint prepare_steps (n : nat) (snapshot : RDMADescriptor → io W ShadowProcess) (key : Z) (at_ : prepare_at) (g : Sps W) :
    io W (prepare_at * Sps W) :=
  match n with
  | 0 => mret (at_, g)
  | S n => '(at_, g) ← prepare_step snapshot key at_ g; prepare_steps n snapshot key at_ g
  end.

(** ** Any number of calls *)
Record race := mkRace { race_sps : Sps W; calls : list (Z * prepare_at) }.
End Prepares.
Arguments prepare_at W {kr dt}.
Arguments race W {kr dt}.

Section Interleaving.
Context {W : Type} {ta : TaskApi W} {tok : TaskOk W} {pa : PagesApi W} {kn : Kernel W} {vc : VmConsts}.
Context {kt : KTimerApi W} {kt_ok : KTimerOk W} {kr : KRdmaKit W} {nic : NicOk W} {kn_ok : KernelOk W}.
Context {pok : PagesOk W} {dt : DcTargets}.
Context {dl : DescriptorLayout} {dl_ok : DescriptorLayoutOk}.

Definition snapshot_as (cow : bool) (fuel : nat) : RDMADescriptor → io W ShadowProcess :=
  if cow then new_cow fuel else new_copy fuel.

(** One call makes one step, in the world of that moment; a process that is
    copied can be described, and a call that takes a buffer finds the pool
    non-empty: that [MemPool::pop_one] refills an empty pool is not covered. *)
Inductive race_step (cow : bool) (fuel : nat) : race W → race W → Prop :=
  | call_moves i key at_ at' g g' cs w w' :
      cs !! i = Some (key, at_) →
      (∀ target d, at_ = AtSnapshot target d → ∃ ls, prepare_ready fuel w d ls) →
      (∀ target process, at_ = AtBundle target process → mp_pool (g_mem_pool g) ≠ []) →
      prepare_step (snapshot_as cow fuel) key at_ g w = Ret ((at', g'), w') →
      race_step cow fuel (mkRace g cs) (mkRace g' (<[i := (key, at')]> cs)).

(** ** A call on its own is [add_myself]. *)
Lemma ProcessBundler_new_registry (g : Sps W) sp t w b g' w' :
  ProcessBundler_new g sp t w = Ret ((b, g'), w') → registered_processes g' = registered_processes g.
Proof. unfold ProcessBundler_new. intros E. inv_io E. destruct a0. inv_io E. destruct a0. by injection E as _ <- _. Qed.

Lemma new_from_dc_target_pool_registry (g : Sps W) t d g' :
  new_from_dc_target_pool g = Ret (t, d, g') → registered_processes g' = registered_processes g ∧ g_mem g' = g_mem g ∧
    g_mem_pool g' = g_mem_pool g ∧ g_mac_id g' = g_mac_id g.
Proof. unfold new_from_dc_target_pool. cbn. destruct (last _); [|done]. by intros [= _ _ <-]. Qed.

Lemma prepare_steps_add_myself snapshot key (g : Sps W) w :
  prepare_steps 5 snapshot key AtCheck g w =
  ('(r, g) ← add_myself snapshot g key; mret (Prepared r, g)) w.
Proof.
  unfold add_myself. cbn [prepare_steps prepare_step]. rewrite (io_bind_run _ _ _ _ _ eq_refl). cbv beta iota.
  case_decide as Hk; [reflexivity|]. apply eq_None_not_Some in Hk. cbn [prepare_step].
  unfold mbind, io_bind, lift. destruct (new_from_dc_target_pool g) as [[[t d] g1]| | |] eqn:E1; [|reflexivity..].
  apply new_from_dc_target_pool_registry in E1 as (E1 & _). cbn. unfold mbind, io_bind.
  destruct (snapshot d w) as [[sp w1]| | |]; [|reflexivity..]. cbn. unfold mbind, io_bind.
  destruct (ProcessBundler_new g1 sp t w1) as [[[b g2] w2]| | |] eqn:E2; [|reflexivity..]. cbn.
  unfold mbind, io_bind, insert_bundler. by rewrite (ProcessBundler_new_registry _ _ _ _ _ _ _ E2), E1, Hk.
Qed.

(** ** Calls for different keys *)
Definition with_registry (g : Sps W) (V : gmap Z (ProcessBundler W)) : Sps W :=
  mkSps (g_mem g) (g_mem_pool g) (g_dc_targets g) (g_mac_id g) V.

(** What a call knows about its key: [g0] is the state of the start. *)
Definition stage_ok (g0 g : Sps W) (key : Z) (at_ : prepare_at W) : Prop :=
  match at_ with
  | AtCheck => registered_processes g !! key = registered_processes g0 !! key
  | Prepared None => is_Some (registered_processes g0 !! key) ∧ registered_processes g !! key = registered_processes g0 !! key
  | Prepared (Some n) => registered_processes g0 !! key = None ∧
      ∃ b, registered_processes g !! key = Some b ∧ get_serialize_buf_sz b = n
  | AtBundle _ sp => ParentDescriptor_valid (descriptor sp) ∧
      registered_processes g !! key = None ∧ registered_processes g0 !! key = None
  | _ => registered_processes g !! key = None ∧ registered_processes g0 !! key = None
  end.

(** The bundles that are registered or on their way to be *)
Definition bundles (g : Sps W) (cs : list (Z * prepare_at W)) (V : gmap Z (ProcessBundler W)) : Prop :=
  ∀ k b, V !! k = Some b ↔ registered_processes g !! k = Some b ∨ (k, AtInsert b) ∈ cs.

Record race_inv (g0 : Sps W) (r : race W) : Prop := {
  ri_keys : NoDup (calls r).*1;
  ri_bundles : ∃ V, bundles (race_sps r) (calls r) V ∧ sps_inv (with_registry (race_sps r) V);
  ri_stage k at_ : (k, at_) ∈ calls r → stage_ok g0 (race_sps r) k at_;
  ri_rest k : k ∉ (calls r).*1 → registered_processes (race_sps r) !! k = registered_processes g0 !! k;
}.

Lemma keyed_insert_elem {A} (cs : list (Z * A)) i key x y k z : NoDup cs.*1 → cs !! i = Some (key, x) →
  (k, z) ∈ <[i := (key, y)]> cs ↔ (k = key ∧ z = y) ∨ (k ≠ key ∧ (k, z) ∈ cs).
Proof.
  intros Hnd Hi. pose proof (lookup_lt_Some _ _ _ Hi) as Hlt. rewrite list_elem_of_lookup. split.
  - intros (j & Hj). apply list_lookup_insert_Some in Hj as [(<- & [= -> ->] & _)|(Hne & Hj)]; [by left|right].
    split; [|by apply list_elem_of_lookup; exists j]. intros ->. apply Hne.
    apply (NoDup_lookup _ i j key Hnd); rewrite list_lookup_fmap; [by rewrite Hi|by rewrite Hj].
  - intros [[-> ->]|[Hne (j & Hj)%list_elem_of_lookup]]; [exists i; by apply list_lookup_insert_eq|].
    exists j. rewrite list_lookup_insert_ne; [done|]. intros ->. rewrite Hi in Hj. by injection Hj as [= -> ->].
Qed.

Lemma keyed_insert_keys {A} (cs : list (Z * A)) i key x y : cs !! i = Some (key, x) → (<[i := (key, y)]> cs).*1 = cs.*1.
Proof. intros Hi. rewrite list_fmap_insert. apply list_insert_id. by rewrite list_lookup_fmap, Hi. Qed.

Lemma stage_ok_same (g0 g g' : Sps W) k at_ : registered_processes g' !! k = registered_processes g !! k →
  stage_ok g0 g k at_ → stage_ok g0 g' k at_.
Proof. intros E. destruct at_ as [| | | | |[n|]]; cbn; by rewrite E. Qed.

(** One call changes at most its own key. *)
Lemma race_inv_moved g0 g cs i key at_ at' g' V : race_inv g0 (mkRace g cs) → cs !! i = Some (key, at_) →
  (∀ k, k ≠ key → registered_processes g' !! k = registered_processes g !! k) → stage_ok g0 g' key at' →
  bundles g' (<[i := (key, at')]> cs) V → sps_inv (with_registry g' V) →
  race_inv g0 (mkRace g' (<[i := (key, at')]> cs)).
Proof.
  intros [Hnd _ Hst Hrest] Hi Hg Hat HV Hinv. cbn in *. split; cbn.
  - by rewrite (keyed_insert_keys _ _ _ _ _ Hi).
  - by exists V.
  - intros k a [[-> ->]|[Hne Hin]]%(keyed_insert_elem cs i key at_ at' k a Hnd Hi); [done|].
    eapply stage_ok_same; [by apply Hg|by apply Hst].
  - intros k. rewrite (keyed_insert_keys _ _ _ _ _ Hi). intros Hk. rewrite Hg; [by apply Hrest|].
    intros ->. apply Hk. apply list_elem_of_fmap. exists (key, at_). split; [done|by eapply list_elem_of_lookup_2].
Qed.

Abbreviation encoded_len d := (Z.of_nat (length (ParentDescriptor_encode d))).

(** Bundling a process: the last buffer of the pool is filled. *)
Lemma ProcessBundler_new_ok (g : Sps W) sp t xs x w :
  ParentDescriptor_valid (descriptor sp) → buf_ok (g_mem g) (msg_bytes x) → mp_pool (g_mem_pool g) = xs ++ [x] →
  let len := (encoded_len (descriptor sp) + 8)%Z in
  ∃ m', ProcessBundler_new g sp t w = Ret ((mkProcessBundler sp x len [t],
      mkSps m' (mkMemPool xs (mp_capacity (g_mem_pool g)) (mp_context (g_mem_pool g))) (g_dc_targets g) (g_mac_id g)
        (registered_processes g)), w) ∧
    frame (g_mem g) m' (bm_ptr (msg_bytes x)) (bm_len (msg_bytes x)) ∧
    ((len ≤ bm_len (msg_bytes x))%Z → at_mem m' (bm_ptr (msg_bytes x)) (ParentDescriptor_encode (descriptor sp))).
Proof.
  intros Hv Hb Hp len. assert (Hvs : ∀ v : VMADescriptor, valid v → need v = Z.of_nat (@size_of _ dl_vma)) by done.
  destruct (serialize_any (g_mem g) (descriptor sp) (msg_bytes x) Hv Hb) as (r & m' & Es & Hf & Hfit & _).
  exists m'. split_and!; [|done|by intros H; apply Hfit].
  assert (El : parent_buf_len (get_descriptor_ref sp) = Ret len) by (apply (ParentDescriptor_buf_len_ok Hvs _ Hv)).
  unfold ProcessBundler_new. pure El. step (pop_one_ok (g_mem_pool g) xs x w Hp). by pure Es.
Qed.

(** *** What a step does to the bundles *)
Definition inserting (at_ : prepare_at W) : Prop := match at_ with AtInsert _ => True | _ => False end.

Lemma keyed_elem {A} (cs : list (Z * A)) i key x k z : NoDup cs.*1 → cs !! i = Some (key, x) →
  (k, z) ∈ cs ↔ (k = key ∧ z = x) ∨ (k ≠ key ∧ (k, z) ∈ cs).
Proof. intros Hnd Hi. rewrite <- (keyed_insert_elem cs i key x x k z Hnd Hi). by rewrite list_insert_id. Qed.

Lemma bundles_kept g g' cs i key at_ at' V : NoDup cs.*1 → cs !! i = Some (key, at_) → ¬ inserting at_ → ¬ inserting at' →
  registered_processes g' = registered_processes g → bundles g cs V → bundles g' (<[i := (key, at')]> cs) V.
Proof.
  intros Hnd Hi H1 H2 Hg HV k b. rewrite Hg, (HV k b), (keyed_insert_elem cs i key at_ at' k _ Hnd Hi).
  pose proof (keyed_elem cs i key at_ k (AtInsert b) Hnd Hi).
  assert (AtInsert b ≠ at_) by (by intros <-). assert (AtInsert b ≠ at') by (by intros <-). tauto.
Qed.

Lemma bundles_bundled g g' cs i key t sp b V : NoDup cs.*1 → cs !! i = Some (key, AtBundle t sp) →
  registered_processes g !! key = None → registered_processes g' = registered_processes g → bundles g cs V →
  V !! key = None ∧ bundles g' (<[i := (key, AtInsert b)]> cs) (<[key := b]> V).
Proof.
  intros Hnd Hi Hk Hg HV. split.
  - apply eq_None_not_Some. intros [b' [Hb|Hb]%HV]; [congruence|].
    by apply (keyed_elem cs i key _ key _ Hnd Hi) in Hb as [[_ ?]|[? _]].
  - intros k b'. rewrite Hg, (keyed_insert_elem cs i key _ _ k _ Hnd Hi), lookup_insert_Some, (HV k b').
    destruct (decide (k = key)) as [->|Hne]; [|naive_solver]. rewrite Hk. naive_solver.
Qed.

Lemma bundles_inserted g g' cs i key b r V : NoDup cs.*1 → cs !! i = Some (key, AtInsert b) →
  registered_processes g !! key = None → registered_processes g' = <[key := b]> (registered_processes g) → bundles g cs V →
  bundles g' (<[i := (key, Prepared r)]> cs) V.
Proof.
  intros Hnd Hi Hk Hg HV k b'. rewrite Hg, (keyed_insert_elem cs i key _ _ k _ Hnd Hi), lookup_insert_Some, (HV k b').
  rewrite (keyed_elem cs i key _ k _ Hnd Hi). destruct (decide (k = key)) as [->|Hne]; [|naive_solver]. rewrite Hk. naive_solver.
Qed.

Lemma sps_inv_same (g g' : Sps W) : g_mem g' = g_mem g → g_mem_pool g' = g_mem_pool g →
  registered_processes g' = registered_processes g → sps_inv g → sps_inv g'.
Proof. intros E1 E2 E3 [H1 H2 H3 H4 H5]. split; rewrite ?E1, ?E2, ?E3; done. Qed.

Lemma race_step_inv cow fuel g0 r r' : race_inv g0 r → race_step cow fuel r r' → race_inv g0 r'.
Proof.
  intros Hri. destruct 1 as [i key at_ at' g g' cs w w' Hi Hready Hpool E].
  destruct (ri_bundles _ _ Hri) as (V & HV & Hinv). pose proof (ri_keys _ _ Hri) as Hnd.
  pose proof (ri_stage _ _ Hri key at_ (list_elem_of_lookup_2 _ _ _ Hi)) as Hst. cbn in HV, Hinv, Hnd, Hst.
  destruct at_ as [| |t d|t sp|b|n]; cbn [prepare_step] in E.
  - injection E as <- <- _. apply (race_inv_moved g0 g cs i key AtCheck _ g V); try done.
    + case_decide as Hk; cbn in Hst |- *; rewrite <- Hst; [done|]. by apply eq_None_not_Some in Hk.
    + apply (bundles_kept g g cs i key AtCheck); try done; [by intros []|by case_decide; intros []].
  - apply io_bind_Ret in E as ([[t d] g1] & w1 & Et & E). injection E as <- <- _. unfold lift in Et.
    destruct (new_from_dc_target_pool g) as [x| | |] eqn:En; [|done..]. injection Et as -> _.
    apply new_from_dc_target_pool_registry in En as (E1 & E2 & E3 & E4).
    apply (race_inv_moved g0 g cs i key AtTarget _ g1 V); try done; [by rewrite E1|by cbn; rewrite E1| |].
    + apply (bundles_kept g g1 cs i key AtTarget); try done; by intros [].
    + by eapply sps_inv_same; [..|exact Hinv].
  - destruct (Hready t d eq_refl) as (ls & [Hmm Hf Hres Hpub Hls Hmem Hsz]).
    apply io_bind_Ret in E as (sp & w1 & Es & E). injection E as <- <- _.
    destruct (snapshot_taken cow fuel d w ls Hmm Hf Hres Hls Hmem) as (sp' & w2 & Es' & Hsn).
    assert (sp' = sp) as -> by (unfold snapshot_as in Es; destruct cow; congruence).
    apply (race_inv_moved g0 g cs i key (AtSnapshot t d) _ g V); try done.
    + split; [by eapply snapshot_valid|done].
    + apply (bundles_kept g g cs i key (AtSnapshot t d)); try done; by intros [].
  - destruct Hst as (Hv & Hk & Hk0). destruct (exists_last (Hpool t sp eq_refl)) as (xs & x & Hx).
    assert (Hb : buf_ok (g_mem g) (msg_bytes x)) by (apply (si_pool _ Hinv); cbn; rewrite Hx; apply elem_of_app; right; left).
    destruct (ProcessBundler_new_ok g sp t xs x w Hv Hb Hx) as (m' & En & Hfr & Hat).
    apply io_bind_Ret in E as ([b g1] & w1 & Eb & E). rewrite En in Eb. injection Eb as <- <- _. injection E as <- <- _.
    destruct (bundles_bundled g (mkSps m' (mkMemPool xs (mp_capacity (g_mem_pool g)) (mp_context (g_mem_pool g))) (g_dc_targets g)
      (g_mac_id g) (registered_processes g)) cs i key t sp (mkProcessBundler sp x (encoded_len (descriptor sp) + 8)%Z [t]) V)
      as [HVk HV']; try done.
    eapply (race_inv_moved g0 g cs i key (AtBundle t sp)); try done.
    by apply (sps_inv_insert (with_registry g V) xs x (g_dc_targets g) key sp m').
  - destruct Hst as [Hk Hk0]. unfold insert_bundler in E. rewrite Hk in E.
    injection E as <- <- _. eapply (race_inv_moved g0 g cs i key (AtInsert b) _ _ V); try done.
    + intros k Hne. cbn. by rewrite lookup_insert_ne.
    + split; [done|]. exists b. cbn. by rewrite lookup_insert_eq.
    + by apply (bundles_inserted g _ cs i key b).
  - injection E as <- <- _. by rewrite list_insert_id.
Qed.

Lemma sps_inv_sub (g : Sps W) V : registered_processes g ⊆ V → sps_inv (with_registry g V) → sps_inv g.
Proof.
  intros Hsub [H1 H2 H3 H4 H5]. assert (HV : ∀ k b, registered_processes g !! k = Some b → V !! k = Some b).
  { intros k b Hb. exact (lookup_weaken _ _ _ _ Hb Hsub). }
  split; cbn in *; [done|done|eauto..].
Qed.

Lemma race_inv_start g keys : sps_inv g → NoDup keys → race_inv g (mkRace g ((λ k, (k, AtCheck)) <$> keys)).
Proof.
  intros Hinv Hnd. split; cbn.
  - by rewrite <- list_fmap_compose, list_fmap_id.
  - exists (registered_processes g). split; [|by destruct g]. intros k b. split; [by left|].
    intros [|Hin]; [done|]. by apply list_elem_of_fmap in Hin as (? & ? & _).
  - intros k a Hin. by apply list_elem_of_fmap in Hin as (? & [= -> ->] & _).
  - done.
Qed.

Lemma reachable_race_inv cow fuel g0 r r' : race_inv g0 r → rtc (race_step cow fuel) r r' → race_inv g0 r'.
Proof. intros Hr Hs. induction Hs as [|r1 r2 r3 Hstep _ IH]; [done|]. by eapply IH, race_step_inv. Qed.

Lemma race_step_keys cow fuel r r' : rtc (race_step cow fuel) r r' → (calls r').*1 = (calls r).*1.
Proof.
  induction 1 as [|r1 r2 r3 Hstep _ IH]; [done|]. rewrite IH. destruct Hstep as [i key at_ at' g g' cs w w' Hi _ _ _].
  exact (keyed_insert_keys _ _ _ _ _ Hi).
Qed.

(** C9: Prepares under different keys do not disturb each other, although nothing
    locks the registry and the pools from one access to the next.  However their
    steps, each an access to the globals, interleave, as long as the processes
    can be described and the buffer pool does not run empty: the buffers stay
    disjoint and what is published stays intact; a call that returned success is
    registered, unless its key was taken before, with the length of its
    descriptor and a buffer that holds the descriptor if it fits; and all other
    keys are as they were. *)
Theorem distinct_prepares_safe cow fuel g0 keys r :
  sps_inv g0 → NoDup keys → rtc (race_step cow fuel) (mkRace g0 ((λ k, (k, AtCheck)) <$> keys)) r →
  sps_inv (race_sps r) ∧
  (∀ k, k ∉ keys → registered_processes (race_sps r) !! k = registered_processes g0 !! k) ∧
  (∀ k, (k, Prepared None) ∈ calls r → is_Some (registered_processes g0 !! k) ∧
    registered_processes (race_sps r) !! k = registered_processes g0 !! k) ∧
  (∀ k n, (k, Prepared (Some n)) ∈ calls r → registered_processes g0 !! k = None ∧
    ∃ d buf len, query_descriptor (race_sps r) k = Some d ∧ query_descriptor_buf (race_sps r) k = Some (buf, len) ∧
      UDMsg_len buf = n ∧ parent_buf_len d = Ret len ∧
      ((len ≤ n)%Z → parent_deserialize (g_mem (race_sps r)) (UDMsg_get_bytes buf) = Ret (Some d))).
Proof.
  intros Hinv Hnd Hs. pose proof (reachable_race_inv _ _ _ _ _ (race_inv_start g0 keys Hinv Hnd) Hs) as [_ (V & HV & HinvV) Hst Hrest].
  assert (Hg : sps_inv (race_sps r)).
  { apply (sps_inv_sub _ V); [|done]. apply map_subseteq_spec. intros k b Hb. apply HV. by left. }
  assert (Hkeys : (calls r).*1 = keys) by (rewrite (race_step_keys _ _ _ _ Hs); cbn; by rewrite <- list_fmap_compose, list_fmap_id).
  rewrite Hkeys in Hrest. split_and!; [done|done|by intros k Hin; apply (Hst _ _ Hin)|]. intros k n Hin.
  destruct (Hst _ _ Hin) as (H0 & b & Hb & <-). split; [done|].
  exists (published b), (serialized_buf b), (serialized_buf_len b). unfold query_descriptor, query_descriptor_buf. rewrite Hb.
  destruct (registered_readable _ k b Hg Hb) as [H1 H2]. done.
Qed.

(** ** Calls for one key *)
Lemma move cow fuel i key at_ at' (g g' : Sps W) cs cs' w w' r :
  cs !! i = Some (key, at_) → (∀ target d, at_ = AtSnapshot target d → ∃ ls, prepare_ready fuel w d ls) →
  (∀ target process, at_ = AtBundle target process → mp_pool (g_mem_pool g) ≠ []) →
  prepare_step (snapshot_as cow fuel) key at_ g w = Ret ((at', g'), w') → <[i := (key, at')]> cs = cs' →
  rtc (race_step cow fuel) (mkRace g' cs') r → rtc (race_step cow fuel) (mkRace g cs) r.
Proof. intros H1 H2 H3 H4 <- Hr. eapply rtc_l; [by eapply call_moves|exact Hr]. Qed.

(** The second half of a call, from the copying of the process on. *)
Lemma finish_prepare fuel (g : Sps W) key i cs t d w ls xs x wd wd' :
  cs !! i = Some (key, AtSnapshot t d) → prepare_ready fuel w d ls → mp_pool (g_mem_pool g) = xs ++ [x] →
  buf_ok (g_mem g) (msg_bytes x) →
  (∀ b, registered_processes g !! key = Some b → ShadowProcess_drop (pb_process b) wd = Ret ((), wd')) →
  ∃ sp w' m' len, new_copy fuel d w = Ret (sp, w') ∧ snapshot_of w w' d (descriptor sp) ∧
    frame (g_mem g) m' (bm_ptr (msg_bytes x)) (bm_len (msg_bytes x)) ∧
    let g' := mkSps m' (mkMemPool xs (mp_capacity (g_mem_pool g)) (mp_context (g_mem_pool g))) (g_dc_targets g) (g_mac_id g)
      (<[key := mkProcessBundler sp x len [t]]> (registered_processes g)) in
    rtc (race_step false fuel) (mkRace g cs) (mkRace g' (<[i := (key, Prepared (Some (UDMsg_len x)))]> cs)).
Proof.
  intros Hi Hready Hx Hb Hdrop. pose proof Hready as [Hmm Hf Hres Hpub Hls Hmem Hsz].
  destruct (snapshot_taken false fuel d w ls Hmm Hf Hres Hls Hmem) as (sp & w' & Es & Hsn).
  destruct (snapshot_valid _ _ _ _ _ Hpub Hls Hsn Hsz) as [Hv _].
  destruct (ProcessBundler_new_ok g sp t xs x w' Hv Hb Hx) as (m' & En & Hfr & _).
  exists sp, w', m', (encoded_len (descriptor sp) + 8)%Z. split_and!; [done|done|done|]. cbv zeta.
  pose proof (lookup_lt_Some _ _ _ Hi) as Hlt.
  eapply (move false fuel i key (AtSnapshot t d) (AtBundle t sp) g g _ _ w w'); [done|by intros ? ? [= <- <-]; exists ls|done| |done|].
  { cbn [prepare_step]. by step Es. }
  eapply (move false fuel i key (AtBundle t sp) (AtInsert _) g _ _ _ w' w'); [by apply list_lookup_insert_eq|done| | |done|].
  { intros ? ? _. rewrite Hx. by destruct xs. }
  { cbn [prepare_step]. by step En. }
  rewrite list_insert_insert_eq. set (b := mkProcessBundler _ _ _ _). set (g1 := mkSps m' _ _ _ _).
  assert (Eins : ∃ u u', insert_bundler g1 key b u = Ret (sps_insert g1 key b, u')).
  { unfold insert_bundler. cbn. destruct (registered_processes g !! key) as [old|] eqn:Eo; [|by exists w, w].
    exists wd, wd'. by step (Hdrop old eq_refl). }
  destruct Eins as (u & u' & Eins).
  eapply (move false fuel i key (AtInsert b) _ g1 _ _ _ u u'); [by apply list_lookup_insert_eq|done|done| |done|].
  { cbn [prepare_step]. by step Eins. }
  rewrite list_insert_insert_eq. apply rtc_refl.
Qed.

Lemma copy_droppable fuel d w ls sp w' : prepare_ready fuel w d ls → new_copy fuel d w = Ret (sp, w') →
  ∃ w'', ShadowProcess_drop sp w' = Ret ((), w'').
Proof.
  intros [Hmm Hf Hres _ Hls Hmem _] E.
  destruct (new_copy_snapshot fuel d w ls Hmm Hf Hres Hls Hmem) as (sp' & w1 & ps & E' & _ & _ & _ & Hal & _ & _ & _ & Hdrop).
  rewrite E in E'. injection E' as <- <-. destruct (Hdrop w') as (w'' & Ed & _); [rewrite Hal; set_solver|]. by exists w''.
Qed.

(** Both calls have passed the check and have their targets. *)
Lemma both_pass_check fuel (g : Sps W) k1 k2 ts t1 t2 (w : W) :
  registered_processes g !! k1 = None → registered_processes g !! k2 = None → g_dc_targets g = ts ++ [t2; t1] →
  rtc (race_step false fuel) (mkRace g [(k1, AtCheck); (k2, AtCheck)])
    (mkRace (mkSps (g_mem g) (g_mem_pool g) ts (g_mac_id g) (registered_processes g))
      [(k1, AtSnapshot (tm_target t1) (target_descriptor (g_mac_id g) t1));
       (k2, AtSnapshot (tm_target t2) (target_descriptor (g_mac_id g) t2))]).
Proof.
  intros H1 H2 Ht. assert (Ec : ∀ k, registered_processes g !! k = None →
    prepare_step (snapshot_as false fuel) k AtCheck g w = Ret ((AtTarget, g), w)).
  { intros k Hk. cbn. rewrite decide_False; [done|]. rewrite Hk. by intros []. }
  eapply (move false fuel 0 k1 AtCheck AtTarget g g _ _ w w); [done|done|done|by apply Ec|done|].
  eapply (move false fuel 1 k2 AtCheck AtTarget g g _ _ w w); [done|done|done|by apply Ec|done|]. cbn.
  eapply (move false fuel 0 k1 AtTarget _ g _ _ _ w w); [done|done|done| |done|].
  { cbn [prepare_step]. by pure (new_from_dc_target_pool_ok g (ts ++ [t2]) t1 ltac:(by rewrite Ht, <- app_assoc)). }
  eapply (move false fuel 1 k2 AtTarget _ _ _ _ _ w w); [done|done|done| |done|].
  { cbn [prepare_step]. 
    by pure (new_from_dc_target_pool_ok (mkSps (g_mem g) (g_mem_pool g) (ts ++ [t2]) (g_mac_id g) (registered_processes g)) ts t2 eq_refl). }
  apply rtc_refl.
Qed.

(** Two calls whose checks come before either insertion both succeed. *)
Lemma two_prepares fuel (g : Sps W) k1 k2 xs x1 x2 ts t1 t2 w1 w2 ls1 ls2 :
  sps_inv g → registered_processes g !! k1 = None → registered_processes g !! k2 = None →
  mp_pool (g_mem_pool g) = xs ++ [x2; x1] → g_dc_targets g = ts ++ [t2; t1] →
  let d1 := target_descriptor (g_mac_id g) t1 in let d2 := target_descriptor (g_mac_id g) t2 in
  prepare_ready fuel w1 d1 ls1 → prepare_ready fuel w2 d2 ls2 →
  ∃ b1 sp w2' len g', new_copy fuel d2 w2 = Ret (sp, w2') ∧ snapshot_of w2 w2' d2 (descriptor sp) ∧
    rtc (race_step false fuel) (mkRace g [(k1, AtCheck); (k2, AtCheck)])
      (mkRace g' [(k1, Prepared (Some (UDMsg_len x1))); (k2, Prepared (Some (UDMsg_len x2)))]) ∧
    registered_processes g' = <[k2 := mkProcessBundler sp x2 len [tm_target t2]]> (<[k1 := b1]> (registered_processes g)).
Proof.
  intros Hinv Hk1 Hk2 Hx Ht d1 d2 Hr1 Hr2.
  assert (Hb1 : buf_ok (g_mem g) (msg_bytes x1)) by (apply (si_pool g Hinv); rewrite Hx; set_solver).
  assert (Hb2 : buf_ok (g_mem g) (msg_bytes x2)) by (apply (si_pool g Hinv); rewrite Hx; set_solver).
  pose proof (both_pass_check fuel g k1 k2 ts t1 t2 w1 Hk1 Hk2 Ht) as Hstart. fold d1 d2 in Hstart.
  destruct (finish_prepare fuel (mkSps (g_mem g) (g_mem_pool g) ts (g_mac_id g) (registered_processes g)) k1 0
    [(k1, AtSnapshot (tm_target t1) d1); (k2, AtSnapshot (tm_target t2) d2)] (tm_target t1) d1 w1 ls1 (xs ++ [x2]) x1 w1 w1)
    as (sp1 & w1' & m1 & len1 & E1 & _ & Hf1 & Hs1); [done|done|cbn; by rewrite Hx, <- app_assoc|done|cbn; by rewrite Hk1|].
  destruct (copy_droppable _ _ _ _ _ _ Hr1 E1) as (wd & Ed).
  cbv zeta in Hs1. cbn [g_mem g_mem_pool g_dc_targets g_mac_id registered_processes] in Hs1, Hf1. cbn in Hs1.
  match type of Hs1 with rtc _ _ (mkRace ?g1 ?cs) =>
    destruct (finish_prepare fuel g1 k2 1 cs (tm_target t2) d2 w2 ls2 xs x2 w1' wd)
      as (sp2 & w2' & m2 & len2 & E2 & Hsn & _ & Hs2); [done|done|done|by eapply buf_ok_frame| |] end.
  { cbn. intros b [[<- <-]|[_ Hb]]%lookup_insert_Some; [done|congruence]. }
  eexists _, sp2, w2', len2, _. split; [exact E2|]. split; [exact Hsn|].
  split; [etrans; [exact Hstart|]; etrans; [exact Hs1|exact Hs2]|reflexivity].
Qed.

(** C37: Two processes that prepare under the same free key at the same time: both
    calls can pass the check and both return success.  The process that inserts
    last has replaced the image of the other, so the children of both are given
    its pages, and whichever of the two files is closed first takes the image
    of both away. *)
Theorem same_key_prepared_twice fuel (g : Sps W) key xs x1 x2 ts t1 t2 w1 w2 ls1 ls2 :
  sps_inv g → registered_processes g !! key = None →
  mp_pool (g_mem_pool g) = xs ++ [x2; x1] → g_dc_targets g = ts ++ [t2; t1] →
  let d1 := target_descriptor (g_mac_id g) t1 in let d2 := target_descriptor (g_mac_id g) t2 in
  prepare_ready fuel w1 d1 ls1 → prepare_ready fuel w2 d2 ls2 →
  ∃ sp w2' g', new_copy fuel d2 w2 = Ret (sp, w2') ∧ snapshot_of w2 w2' d2 (descriptor sp) ∧
    rtc (race_step false fuel) (mkRace g [(key, AtCheck); (key, AtCheck)])
      (mkRace g' [(key, Prepared (Some (UDMsg_len x1))); (key, Prepared (Some (UDMsg_len x2)))]) ∧
    query_descriptor g' key = Some (descriptor sp) ∧
    (∀ w g'' w', unregister g' key w = Ret (g'', w') → query_descriptor g'' key = None).
Proof.
  intros Hinv Hk Hx Ht d1 d2 Hr1 Hr2.
  destruct (two_prepares fuel g key key xs x1 x2 ts t1 t2 w1 w2 ls1 ls2) as (b1 & sp & w2' & len & g' & E & Hsn & Hs & Hg); [done..|].
  exists sp, w2', g'. unfold query_descriptor. rewrite Hg, lookup_insert_eq. split_and!; [done..|].
  intros w g'' w' Eu. apply unregister_result in Eu as ->. cbn. by rewrite lookup_delete_eq.
Qed.
End Interleaving.

(** ** On the reference machine: two buffers, two targets and two processes *)
Definition example_target (t : Z) : DCTargetMeta := mkDCTargetMeta (dt := ref_DcTargets) t 0 7 3 (0, 0)%Z.

Definition two_targets : Sps ref_machine :=
  mkSps (kr := ref_KRdmaKit) (g_mem (example_sps 512)) (g_mem_pool (example_sps 512)) [example_target 12; example_target 11] 4 ∅.

Lemma two_targets_inv : sps_inv (dl := word_layout) two_targets.
Proof. by apply (sps_inv_same (example_sps 512)); [..|apply example_sps_inv]. Qed.

Lemma example_ready_at t : is_u32 t → prepare_ready (dl := word_layout) 2 example_process
  (target_descriptor (dt := ref_DcTargets) 4 (example_target t)) [[4194304; 4202496]%Z].
Proof.
  intros Ht. destruct example_ready as [H1 H2 H3 _ H5 H6 _]. split; try done. apply example_publishable.
  repeat constructor; cbn; unfold is_u32, is_u64 in *; lia.
Qed.

Lemma same_key_prepared_twice_witness :
  ∃ sp g', rtc (race_step (dl := word_layout) (vc := linux_VmConsts) false 2) (mkRace two_targets [(5, AtCheck); (5, AtCheck)]%Z)
      (mkRace g' [(5, Prepared (Some 512)); (5, Prepared (Some 512))]%Z) ∧ query_descriptor g' 5 = Some (descriptor sp) ∧
    mac_id (machine_info (descriptor sp)) = 4%Z ∧ dct_num (machine_info (descriptor sp)) = 12%Z.
Proof.
  destruct (same_key_prepared_twice (dl := word_layout) (dl_ok := word_layout_ok) (vc := linux_VmConsts) 2 two_targets 5 []
    (example_msg 512) (example_msg 0) [] (example_target 11) (example_target 12) example_process example_process
    [[4194304; 4202496]%Z] [[4194304; 4202496]%Z]) as (sp & w2' & g' & _ & [Hd _] & Hs & Hq & _).
  - exact two_targets_inv.
  - reflexivity.
  - reflexivity.
  - reflexivity.
  - apply example_ready_at. unfold is_u32. lia.
  - apply example_ready_at. unfold is_u32. lia.
  - exists sp, g'. split; [exact Hs|]. split; [exact Hq|]. rewrite Hd. split; reflexivity.
Defined.

Lemma distinct_prepares_safe_witness :
  ∃ g' d, rtc (race_step (dl := word_layout) (vc := linux_VmConsts) false 2) (mkRace two_targets ((λ k, (k, AtCheck)) <$> [5; 6]%Z))
      (mkRace g' [(5, Prepared (Some 512)); (6, Prepared (Some 512))]%Z) ∧
    query_descriptor g' 6 = Some d ∧ sps_inv (dl := word_layout) g' ∧ registered_processes g' !! 7%Z = None.
Proof.
  destruct (two_prepares (dl := word_layout) (dl_ok := word_layout_ok) (vc := linux_VmConsts) 2 two_targets 5 6 []
    (example_msg 512) (example_msg 0) [] (example_target 11) (example_target 12) example_process example_process
    [[4194304; 4202496]%Z] [[4194304; 4202496]%Z] two_targets_inv eq_refl eq_refl eq_refl eq_refl
    (example_ready_at 11 ltac:(unfold is_u32; lia)) (example_ready_at 12 ltac:(unfold is_u32; lia)))
    as (_ & _ & _ & _ & g' & _ & _ & Hs & _).
  destruct (distinct_prepares_safe (dl := word_layout) (dl_ok := word_layout_ok) (vc := linux_VmConsts) false 2 two_targets [5; 6]%Z _
    two_targets_inv ltac:(by apply (bool_decide_unpack _)) Hs) as (Hinv & Hrest & _ & Hdone).
  destruct (Hdone 6%Z 512%Z ltac:(right; left)) as (_ & d & buf & len & Hq & _).
  exists g', d. split; [exact Hs|]. split; [exact Hq|]. split; [exact Hinv|]. apply (Hrest 7%Z). by apply (bool_decide_unpack _).
Defined.
