(* ===== verification/Locks.v ===== *)
(** * Values behind a lock ([mitosis/src/lock_bundler.rs])

    A [LockBundler] keeps a value behind the kernel's mutex and gives access to
    it through [lock], which runs a closure while the mutex is held.  The other
    files model such a call as one step on the value.  This file justifies that:
    threads that access the value statement by statement, interleaved in any
    way, do what they would do if every call were one step.  The proof is a
    simulation in which a call takes effect when the mutex is released. *)

From S2P Require Import Prelude Rdma Machine RemotePaging.

(** [LinuxMutex] of the crate [rust-kernel-linux-util] over the kernel's
    [struct mutex]: [mutex_new] is the struct before [mutex_init], and
    [mutex_lock i m] is what thread [i] makes of it when it gets the lock. *)
Class KMutex := {
  mutex : Type;
  mutex_new : mutex;
  mutex_init : mutex → mutex;
  mutex_lock : nat → mutex → option mutex;
  mutex_unlock : nat → mutex → mutex;
  mutex_owner : mutex → option nat;
}.

(** The kernel's documentation: only one task can hold the mutex at a time, only
    the owner unlocks it, and a free mutex can be taken. *)
Class KMutexOk (km : KMutex) : Prop := {
  mutex_init_free : mutex_owner (mutex_init mutex_new) = None;
  mutex_lock_owner i m m' : mutex_lock i m = Some m' → mutex_owner m = None ∧ mutex_owner m' = Some i;
  mutex_lock_free i m : mutex_owner m = None → is_Some (mutex_lock i m);
  mutex_unlock_free i m : mutex_owner m = Some i → mutex_owner (mutex_unlock i m) = None;
}.

Section Locks.
Context {km : KMutex} {T R : Type}.

(** ** The code of threads *)

(** The body of a closure [FnOnce(&mut T) -> R]: it changes the value and goes
    on with what it saw, until it returns. *)
Inductive code : Type :=
  | Done (r : R)
  | Access (f : T → T) (k : T → code).

(** What the body does when nobody interferes *)
Fixpoint exec (c : code) (v : T) : T * R :=
  match c with
  | Done r => (v, r)
  | Access f k => exec (k v) (f v)
  end.

(** A thread calls [lock] a number of times; the next call may depend on what
    the earlier ones returned. *)
Inductive prog : Type :=
  | Stop
  | Lock (f : code) (k : R → prog).

(** ** [LockBundler] *)
Record LockBundler := mkLockBundler { lb_mutex : mutex; lb_value : T }.

Definition LockBundler_new (inner : T) : LockBundler :=
  let res := mkLockBundler mutex_new inner in
  mkLockBundler (mutex_init (lb_mutex res)) (lb_value res).

(** A thread outside a call, or inside one with the rest of the closure to run. *)
Inductive thread : Type :=
  | Outside (p : prog)
  | Inside (c : code) (k : R → prog).

(** What thread [i] does next, with the result when a call returns; [None] when
    it waits for the mutex or has stopped.  [LockBundler::lock] only passes its
    closure on to [LinuxMutex::lock_f], of the kernel bindings: that it takes the
    mutex, runs the closure on the value and gives the mutex back are the steps
    here. *)
Definition thread_step (i : nat) (lb : LockBundler) (t : thread) : option (LockBundler * thread * option R) :=
  match t with
  | Outside Stop => None
  | Outside (Lock f k) => (λ m, (mkLockBundler m (lb_value lb), Inside f k, None)) <$> mutex_lock i (lb_mutex lb)
  | Inside (Access f k') k => Some (mkLockBundler (lb_mutex lb) (f (lb_value lb)), Inside (k' (lb_value lb)) k, None)
  | Inside (Done r) k => Some (mkLockBundler (mutex_unlock i (lb_mutex lb)) (lb_value lb), Outside (k r), Some r)
  end.

(** All threads, with the results of the calls that have returned, latest last. *)
Record locked := mkLocked { bundler : LockBundler; threads : list thread; returns : list (nat * R) }.

Inductive locked_step : locked → locked → Prop :=
  | thread_steps i lb ts log t lb' t' r :
      ts !! i = Some t → thread_step i lb t = Some (lb', t', r) →
      locked_step (mkLocked lb ts log)
        (mkLocked lb' (<[i := t']> ts) (log ++ match r with Some r => [(i, r)] | None => [] end)).

Definition locked_start (v : T) (ps : list prog) : locked := mkLocked (LockBundler_new v) (Outside <$> ps) [].

(** ** The specification: every call is one step. *)
Record atomic := mkAtomic { value : T; progs : list prog; results : list (nat * R) }.

Inductive atomic_step : atomic → atomic → Prop :=
  | call_steps i v ps log f k v' r :
      ps !! i = Some (Lock f k) → exec f v = (v', r) →
      atomic_step (mkAtomic v ps log) (mkAtomic v' (<[i := k r]> ps) (log ++ [(i, r)])).
End Locks.
Arguments code : clear implicits.
Arguments prog : clear implicits.
Arguments thread : clear implicits.
Arguments LockBundler {km} T.
Arguments locked {km} T R.
Arguments atomic : clear implicits.

(** ** The simulation *)
Section Serial.
Context {km : KMutex} {km_ok : KMutexOk km} {T R : Type}.
Implicit Types (s : locked T R) (a : atomic T R) (ps : list (prog T R)).

(** The mutex is free and the two machines agree, or one thread is in the middle
    of a call that the atomic machine has yet to do. *)
Inductive sim : locked T R → atomic T R → Prop :=
  | sim_free m v ps log : mutex_owner m = None →
      sim (mkLocked (mkLockBundler m v) (Outside <$> ps) log) (mkAtomic v ps log)
  | sim_held m v v0 ps log i f c k : mutex_owner m = Some i → ps !! i = Some (Lock f k) → exec c v = exec f v0 →
      sim (mkLocked (mkLockBundler m v) (<[i := Inside c k]> (Outside <$> ps)) log) (mkAtomic v0 ps log).

Lemma outside_lookup ps i t : (Outside <$> ps) !! i = Some t → ∃ p, t = Outside p ∧ ps !! i = Some p.
Proof. rewrite list_lookup_fmap. destruct (ps !! i) as [p|]; [|done]. intros [= <-]. by exists p. Qed.

(** A thread outside a call moves only by taking the mutex. *)
Lemma outside_step i lb (p : prog T R) lb' t' r : thread_step i lb (Outside p) = Some (lb', t', r) →
  mutex_owner (lb_mutex lb) = None ∧ r = None ∧ lb_value lb' = lb_value lb ∧ mutex_owner (lb_mutex lb') = Some i ∧
  ∃ f k, p = Lock f k ∧ t' = Inside f k.
Proof.
  destruct p as [|f k]; cbn; [done|]. destruct (mutex_lock i (lb_mutex lb)) as [m|] eqn:E; [|done]. cbn. intros [= <- <- <-].
  apply mutex_lock_owner in E as [? ?]. naive_solver.
Qed.

Lemma locked_step_sim s s' a : locked_step s s' → sim s a → ∃ a', rtc atomic_step a a' ∧ sim s' a'.
Proof.
  destruct 1 as [i lb ts log t lb' t' r Ht Hstep]. inversion 1 as [m v ps log' Hm|m v v0 ps log' j f c k Hm Hj Hexec]; subst.
  - apply outside_lookup in Ht as (p & -> & Hp).
    apply outside_step in Hstep as (_ & -> & Hv & Hm' & f & k & -> & ->). destruct lb' as [m' v']. cbn in *. subst v'.
    exists (mkAtomic v ps log). split; [done|]. rewrite app_nil_r. by eapply sim_held.
  - destruct (decide (i = j)) as [->|Hne].
    + rewrite list_lookup_insert_eq in Ht by (rewrite length_fmap; by eapply lookup_lt_Some). injection Ht as <-.
      rewrite list_insert_insert_eq. destruct c as [r0|f' k']; injection Hstep as <- <- <-; cbn in *.
      * exists (mkAtomic v (<[j := k r0]> ps) (log ++ [(j, r0)])). split; [apply rtc_once; by apply (call_steps j v0 ps log f k)|].
        rewrite <- list_fmap_insert. apply sim_free. by apply mutex_unlock_free.
      * exists (mkAtomic v0 ps log). split; [done|]. rewrite app_nil_r. by eapply sim_held.
    + rewrite list_lookup_insert_ne in Ht by done. apply outside_lookup in Ht as (p & -> & _).
      apply outside_step in Hstep as [Hfree _]. cbn in Hfree. congruence.
Qed.

Lemma reachable_sim v ps s : rtc locked_step (locked_start v ps) s →
  ∃ a, rtc atomic_step (mkAtomic v ps []) a ∧ sim s a.
Proof.
  assert (H0 : sim (locked_start v ps) (mkAtomic v ps [])) by (apply sim_free; apply mutex_init_free).
  revert H0. generalize (locked_start v ps) (mkAtomic v ps []). intros s0 a0 H0 Hs. revert a0 H0.
  induction Hs as [s|s1 s2 s3 Hstep _ IH]; intros a0 H0; [by exists a0|].
  destruct (locked_step_sim _ _ _ Hstep H0) as (a1 & Ha & H1). destruct (IH a1 H1) as (a & ? & ?).
  exists a. split; [by etrans|done].
Qed.

(** ** Termination: each thread has only so much to do. *)
Definition smaller (t' t : thread T R) : Prop := ∃ i lb lb' r, thread_step i lb t = Some (lb', t', r).

Lemma smaller_Acc t : Acc smaller t.
Proof.
  assert (Hp : ∀ p, Acc smaller (Outside p)).
  { induction p as [|f k IH]; constructor; intros t' (i & lb & lb' & r & Hstep); cbn in Hstep; [discriminate|].
    destruct (mutex_lock _ _) as [m|]; [|discriminate]. injection Hstep as _ <- _. clear m i lb lb'.
    induction f as [r0|g k' IHk]; constructor; intros t' (i & lb & lb' & r' & Hstep); cbn in Hstep; injection Hstep as _ <- _; eauto. }
  destruct t as [p|c k]; [apply Hp|].
  induction c as [r0|g k' IHk]; constructor; intros t' (i & lb & lb' & r' & Hstep); cbn in Hstep; injection Hstep as _ <- _; eauto.
Qed.

(** One element of a list gets smaller. *)
Definition one_smaller (ts' ts : list (thread T R)) : Prop :=
  ∃ i t t', ts !! i = Some t ∧ smaller t' t ∧ ts' = <[i := t']> ts.

Lemma one_smaller_Acc ts : Acc one_smaller ts.
Proof.
  induction ts as [|t ts IH]; [by constructor; intros ? (i & ? & ? & ? & _)|].
  revert ts IH. induction (smaller_Acc t) as [t _ IHt]. intros ts IHts. induction IHts as [ts Hts IH].
  constructor. intros ts' ([|i] & u & u' & Hu & Hs & ->); cbn in *.
  - injection Hu as ->. apply IHt; [exact Hs|by constructor].
  - apply IH. by exists i, u, u'.
Qed.

Lemma locked_step_Acc s : Acc (λ s' s, locked_step s s') s.
Proof.
  remember (threads s) as ts eqn:E. revert s E. induction (one_smaller_Acc ts) as [ts _ IH]. intros s ->.
  constructor. intros s' Hs. refine (IH (threads s') _ s' eq_refl).
  destruct Hs as [i lb ts log t lb' t' r Ht Hstep]. exists i, t, t'. split_and!; [done|by exists i, lb, lb', r|done].
Qed.

Lemma all_stopped ps : Forall (eq Stop) ps ∨ ∃ i f k, ps !! i = Some (Lock f k).
Proof.
  induction ps as [|[|f k] ps IH]; [by left| |by right; exists 0, f, k].
  destruct IH as [IH|(i & f & k & Hi)]; [left; by constructor|right; by exists (S i), f, k].
Qed.

(** A state that [sim] relates to an atomic one is final or can move. *)
Lemma sim_progress s a : sim s a → (∃ s', locked_step s s') ∨ (threads s = Outside <$> progs a ∧ Forall (eq Stop) (progs a)).
Proof.
  destruct 1 as [m v ps log Hm|m v v0 ps log i f c k Hm Hi _]; cbn.
  - destruct (all_stopped ps) as [|(i & f & k & Hi)]; [by right|left].
    destruct (mutex_lock_free i m Hm) as [m' Hm']. eexists.
    apply (thread_steps i _ _ _ (Outside (Lock f k)) (mkLockBundler m' v) (Inside f k) None).
    + by rewrite list_lookup_fmap, Hi.
    + cbn. by rewrite Hm'.
  - left. assert (Ht : <[i := Inside c k]> (Outside <$> ps) !! i = Some (Inside c k)).
    { apply list_lookup_insert_eq. rewrite length_fmap. by eapply lookup_lt_Some. }
    destruct c as [r|g k']; eexists; by eapply (thread_steps i).
Qed.
End Serial.

Section Theorems.
Context {km : KMutex} {km_ok : KMutexOk km} {T R : Type}.

Lemma sim_inside (s : locked T R) a i c k : sim s a → threads s !! i = Some (Inside c k) →
  mutex_owner (lb_mutex (bundler s)) = Some i.
Proof.
  destruct 1 as [m v ps log Hm|m v v0 ps log j f c' k' Hm Hj _]; cbn.
  - by intros (? & ? & _)%outside_lookup.
  - destruct (decide (i = j)) as [->|Hne]; [done|]. rewrite list_lookup_insert_ne by done. by intros (? & ? & _)%outside_lookup.
Qed.

Lemma sim_outside (s : locked T R) a : sim s a → (∀ i c k, threads s !! i ≠ Some (Inside c k)) →
  threads s = Outside <$> progs a ∧ lb_value (bundler s) = value a.
Proof.
  destruct 1 as [m v ps log Hm|m v v0 ps log i f c k Hm Hi _]; [done|]. intros Hout. destruct (Hout i c k). cbn.
  apply list_lookup_insert_eq. rewrite length_fmap. by eapply lookup_lt_Some.
Qed.

Lemma sim_returns (s : locked T R) a : sim s a → returns s = results a.
Proof. by destruct 1. Qed.

(** C13: Calls of [LockBundler::lock] are atomic.  However the accesses of threads
    to a locked value interleave, at most one thread is inside a closure, the
    results of the calls that have returned are the results of the same calls
    executed whole and one after another, and when no call is under way the
    value and what the threads still have to do are those of that execution. *)
Theorem lock_serializable (v : T) (ps : list (prog T R)) s :
  rtc locked_step (locked_start v ps) s →
  (∀ i j ci ki cj kj, threads s !! i = Some (Inside ci ki) → threads s !! j = Some (Inside cj kj) → i = j) ∧
  ∃ a, rtc atomic_step (mkAtomic v ps []) a ∧ returns s = results a ∧
    ((∀ i c k, threads s !! i ≠ Some (Inside c k)) →
      threads s = Outside <$> progs a ∧ lb_value (bundler s) = value a).
Proof.
  intros (a & Ha & Hsim)%reachable_sim. split.
  - intros i j ci ki cj kj Hi%(sim_inside _ a) Hj%(sim_inside _ a); [congruence|done..].
  - exists a. split_and!; [done|by apply sim_returns|by apply sim_outside].
Qed.

(** Calls of [lock] end: no schedule goes on forever, and a state from which no
    thread can move has every thread at the end of its program and the mutex
    free; in particular nobody waits for a lock that is never released. *)
Theorem lock_calls_end (v : T) (ps : list (prog T R)) s :
  rtc locked_step (locked_start v ps) s →
  Acc (λ s' s, locked_step s s') s ∧
  ((∀ s', ¬ locked_step s s') →
    threads s = replicate (length (threads s)) (Outside Stop) ∧ mutex_owner (lb_mutex (bundler s)) = None).
Proof.
  intros (a & _ & Hsim)%reachable_sim. split; [apply locked_step_Acc|]. intros Hstuck.
  destruct (sim_progress s a Hsim) as [[s' Hs]|[Hts Hstop]]; [by destruct (Hstuck s')|]. split.
  - rewrite Hts. clear -Hstop. induction Hstop as [|? ps <- _ IH]; cbn; [done|by f_equal].
  - destruct Hsim as [m v0 ps' log Hm|m v1 v0 ps' log i f c k Hm Hi _]; [done|].
    apply Forall_lookup_1 with (i := i) (x := Lock f k) in Hstop; [done|exact Hi].
Qed.
End Theorems.

(** ** The pool of prefetch connections

    [dc_pool_service_async] is a [DCPool] behind a lock: a child that is resumed
    pops a connection, and its handler pushes the drained connection back when
    the file is closed. *)
Section AsyncPool.
Context {W : Type} {kr : KRdmaKit W} {km : KMutex} {km_ok : KMutexOk km}.

Inductive pool_reply : Type :=
  | Popped (qp : option DCConn)
  | Pushed (qp : DCConn).

(** [lock(|p| p.pop_one_qp())]: [Vec::pop] looks at the length before it takes
    the last element out. *)
Definition lock_pop_one_qp : code (DCPool W) pool_reply :=
  Access id (λ p, match dc_conns p with
    | [] => Done (Popped None)
    | _ :: _ => Access (λ p, snd (pop_one_qp p)) (λ p, Done (Popped (fst (pop_one_qp p))))
    end).

(** [lock(|p| p.push_one_qp(qp))] *)
Definition lock_push_one_qp (qp : DCConn) : code (DCPool W) pool_reply :=
  Access (λ p, push_one_qp p qp) (λ _, Done (Pushed qp)).

Lemma exec_pop p : exec lock_pop_one_qp p = (snd (pop_one_qp p), Popped (fst (pop_one_qp p))).
Proof. destruct p as [[|c cs] nics]; done. Qed.

Lemma pop_one_qp_conns (p : DCPool W) :
  match fst (pop_one_qp p) with
  | None => dc_conns p = [] ∧ dc_conns (snd (pop_one_qp p)) = []
  | Some c => dc_conns p = dc_conns (snd (pop_one_qp p)) ++ [c]
  end.
Proof.
  destruct p as [cs nics]. cbn. destruct cs as [|c cs _] using rev_ind; [done|].
  by rewrite last_snoc, length_app, Nat.add_sub, take_app_length.
Qed.

(** What a process does with the pool: it takes connections, and gives back only
    those it has.  A connection is cloned on its way, so it is its queue pair
    that tells which one it is. *)
Inductive borrows : list QueuePair → prog (DCPool W) pool_reply → Prop :=
  | borrows_stop h : borrows h Stop
  | borrows_pop h k : borrows h (k (Popped None)) → (∀ c, borrows (dc c :: h) (k (Popped (Some c)))) →
      borrows h (Lock lock_pop_one_qp k)
  | borrows_push h h' c k : h ≡ₚ dc c :: h' → borrows h' (k (Pushed c)) → borrows h (Lock (lock_push_one_qp c) k).

(** The queue pairs that are out after the calls of a log. *)
Inductive lent : list (nat * pool_reply) → list QueuePair → Prop :=
  | lent_nil : lent [] []
  | lent_none log i qs : lent log qs → lent (log ++ [(i, Popped None)]) qs
  | lent_pop log i c qs : lent log qs → dc c ∉ qs → lent (log ++ [(i, Popped (Some c))]) (dc c :: qs)
  | lent_push log i c qs qs' : lent log qs → qs ≡ₚ dc c :: qs' → lent (log ++ [(i, Pushed c)]) qs'.

(** Every queue pair of the start is in the pool or with one process. *)
Definition accounted (all : list QueuePair) (a : atomic (DCPool W) pool_reply) : Prop :=
  ∃ hs qs, Forall2 borrows hs (progs a) ∧ lent (results a) qs ∧ qs ≡ₚ concat hs ∧ qs ++ (dc <$> dc_conns (value a)) ≡ₚ all.

Lemma concat_insert {A} (ls : list (list A)) i l l' : ls !! i = Some l → ∃ rest,
  concat ls ≡ₚ l ++ rest ∧ concat (<[i := l']> ls) ≡ₚ l' ++ rest.
Proof.
  intros Hi. exists (concat (take i ls) ++ concat (drop (S i) ls)). split.
  - rewrite <- (take_drop_middle ls i l Hi) at 1. rewrite concat_app. cbn. solve_Permutation.
  - rewrite insert_take_drop by (by eapply lookup_lt_Some). rewrite concat_app. cbn. solve_Permutation.
Qed.

Lemma accounted_step all a a' : NoDup all → atomic_step a a' → accounted all a → accounted all a'.
Proof.
  intros Hnd. destruct 1 as [i v ps log f k v' r Hi Hexec]. intros (hs & qs & Hhs & Hlent & Hqs & Hall).
  cbn [value progs results] in *. destruct (Forall2_lookup_r _ _ _ _ _ Hhs Hi) as (h & Hh & Hb).
  assert (Hnext : ∀ h', borrows h' (k r) → Forall2 borrows (<[i := h']> hs) (<[i := k r]> ps)).
  { intros h' Hb'. by apply Forall2_insert. }
  inversion Hb as [| ? k' H1 H2|? h' c k' Hperm H1]; subst.
  - rewrite exec_pop in Hexec. apply pair_equal_spec in Hexec as [<- <-]. pose proof (pop_one_qp_conns v) as Hpop.
    destruct (fst (pop_one_qp v)) as [c|].
    + destruct (concat_insert hs i h (dc c :: h) Hh) as (rest & E1 & E2). exists (<[i := dc c :: h]> hs), (dc c :: qs).
      cbn [value progs results]. rewrite Hpop, fmap_app in Hall. split_and!; [apply Hnext, H2| | |].
      * constructor; [done|]. rewrite <- Hall, app_assoc in Hnd. apply NoDup_app in Hnd as (_ & Hdis & _).
        intros Hc. apply (Hdis (dc c)); set_solver.
      * rewrite E2, Hqs, E1. done.
      * rewrite <- Hall. cbn. solve_Permutation.
    + destruct Hpop as [Hv Hv']. exists (<[i := h]> hs), qs. cbn [value progs results]. rewrite Hv'. rewrite Hv in Hall.
      split_and!; [by apply Hnext|by constructor|by rewrite list_insert_id|done].
  - injection Hexec as <- <-. destruct (concat_insert hs i h h' Hh) as (rest & E1 & E2).
    exists (<[i := h']> hs), (h' ++ rest). cbn. rewrite fmap_app.
    assert (Hout : qs ≡ₚ dc c :: h' ++ rest) by (by rewrite Hqs, E1, Hperm).
    split_and!; [by apply Hnext|by apply (lent_push log i c qs)|done|]. rewrite <- Hall, Hout. cbn. solve_Permutation.
Qed.

Lemma lent_snoc l x qs : lent (l ++ [x]) qs → ∃ qs1, lent l qs1 ∧
  match snd x with
  | Popped None => qs = qs1
  | Popped (Some c) => (dc c ∉ qs1) ∧ qs = dc c :: qs1
  | Pushed c => qs1 ≡ₚ dc c :: qs
  end.
Proof.
  inversion 1 as [E|? ? ? ? E|? ? ? ? ? ? E|? ? ? ? ? ? ? E]; [by destruct (app_cons_not_nil _ _ _ E)|..];
    apply app_inj_tail in E as [-> <-]; eexists; cbn; eauto.
Qed.

Lemma lent_prefix l1 l2 qs : lent (l1 ++ l2) qs → ∃ qs1, lent l1 qs1.
Proof.
  revert qs. induction l2 as [|x l2 IH] using rev_ind; intros qs; [rewrite app_nil_r; by exists qs|].
  rewrite app_assoc. intros (qs1 & Hl & _)%lent_snoc. by apply (IH qs1).
Qed.

(** A queue pair stays out until it is given back. *)
Lemma lent_stays l1 i c l2 qs : lent ((l1 ++ [(i, Popped (Some c))]) ++ l2) qs →
  (∃ k c', (k, Pushed c') ∈ l2 ∧ dc c' = dc c) ∨ dc c ∈ qs.
Proof.
  revert qs. induction l2 as [|[j r] l2 IH] using rev_ind; intros qs.
  - rewrite app_nil_r. intros (qs1 & _ & _ & ->)%lent_snoc. right. set_solver.
  - rewrite app_assoc. intros (qs1 & Hl & Hr)%lent_snoc. cbn in Hr.
    destruct (IH qs1 Hl) as [(k & c' & Hk & Hc)|Hc]; [left; exists k, c'; set_solver|]. destruct r as [[c'|]|c'].
    + destruct Hr as [_ ->]. right. set_solver.
    + subst. by right.
    + rewrite Hr in Hc. apply elem_of_cons in Hc as [Hc|]; [|by right]. left. exists j, c'. set_solver.
Qed.

Lemma accounted_reachable (pool : DCPool W) ps a : NoDup (dc <$> dc_conns pool) → Forall (borrows []) ps →
  rtc atomic_step (mkAtomic pool ps []) a → accounted (dc <$> dc_conns pool) a.
Proof.
  intros Hnd Hps Ha. assert (H0 : accounted (dc <$> dc_conns pool) (mkAtomic pool ps [])).
  { exists ((λ _, []) <$> ps), []. cbn. split_and!; [|constructor| |done].
    - apply Forall2_fmap_l. by apply Forall_Forall2_diag.
    - clear. by induction ps. }
  revert H0. generalize (mkAtomic pool ps []) Ha. clear Ha. intros a0 Ha.
  induction Ha as [|a0 a1 a2 Hstep _ IH]; [done|]. intros H0. by eapply IH, accounted_step.
Qed.

(** C32: A prefetch connection is with one child at a time.  However the processes
    that take connections from the locked pool and give them back interleave, a
    queue pair that was handed out is not handed out again before it has been
    given back, and when no call is under way the pool and the processes
    together have exactly the queue pairs of the start. *)
Theorem connection_lent_once (pool : DCPool W) ps s :
  NoDup (dc <$> dc_conns pool) → Forall (borrows []) ps → rtc locked_step (locked_start pool ps) s →
  (∀ l1 l2 l3 i j c c', returns s = (l1 ++ [(i, Popped (Some c))]) ++ l2 ++ (j, Popped (Some c')) :: l3 → dc c' = dc c →
    ∃ k c'', (k, Pushed c'') ∈ l2 ∧ dc c'' = dc c) ∧
  ((∀ i c k, threads s !! i ≠ Some (Inside c k)) →
    ∃ hs ps', threads s = Outside <$> ps' ∧ Forall2 borrows hs ps' ∧
      concat hs ++ (dc <$> dc_conns (lb_value (bundler s))) ≡ₚ dc <$> dc_conns pool).
Proof.
  intros Hnd Hps (a & Ha & Hsim)%reachable_sim.
  destruct (accounted_reachable pool ps a Hnd Hps Ha) as (hs & qs & Hhs & Hlent & Hqs & Hall). split.
  - intros l1 l2 l3 i j c c'. rewrite (sim_returns _ _ Hsim). intros E Hc. rewrite E in Hlent.
    rewrite (cons_middle _ l2 l3), 2!app_assoc in Hlent. apply lent_prefix in Hlent as (qs1 & Hlent).
    apply lent_snoc in Hlent as (qs2 & Hlent & Hnot & _). rewrite Hc in Hnot.
    by destruct (lent_stays l1 i c l2 qs2 Hlent).
  - intros Hout. destruct (sim_outside s a Hsim Hout) as [Hts ->]. exists hs, (progs a). by rewrite <- Hqs.
Qed.

(** A child: it is resumed, which takes a connection if there is one, and when
    its file is closed the connection is cloned and given back. *)
Definition child_life (rest : prog (DCPool W) pool_reply) : prog (DCPool W) pool_reply :=
  Lock lock_pop_one_qp (λ r, match r with
    | Popped (Some c) => Lock (lock_push_one_qp (DCConn_clone c)) (λ _, rest)
    | _ => rest
    end).

Lemma child_life_borrows h rest : borrows h rest → borrows h (child_life rest).
Proof. intros Hr. constructor; [done|]. intros c. by apply (borrows_push _ h). Qed.
End AsyncPool.

(** ** A schedule of the reference mutex *)
Section Schedule.
Context {km : KMutex} {T R : Type}.

(** The threads move in the given order. *)
Fixpoint run_schedule (sched : list nat) (s : locked T R) : option (locked T R) :=
  match sched with
  | [] => Some s
  | i :: sched =>
      t ← threads s !! i;
      '(lb, t, r) ← thread_step i (bundler s) t;
      run_schedule sched (mkLocked lb (<[i := t]> (threads s)) (returns s ++ match r with Some r => [(i, r)] | None => [] end))
  end.

Lemma run_schedule_steps sched s s' : run_schedule sched s = Some s' → rtc locked_step s s'.
Proof.
  revert s. induction sched as [|i sched IH]; intros [lb ts log]; cbn; [by intros [= ->]|].
  destruct (ts !! i) as [t|] eqn:Ht; cbn; [|done]. destruct (thread_step i lb t) as [[[lb' t'] r]|] eqn:E; cbn; [|done].
  intros H. eapply rtc_l; [by apply (thread_steps i _ _ _ t)|by apply IH].
Qed.
End Schedule.

(** The owner, if any; before [mutex_init] the memory is arbitrary. *)
#[export] Instance ref_KMutex : KMutex := {|
  mutex := option nat;
  mutex_new := Some 0;
  mutex_init := λ _, None;
  mutex_lock := λ i m, match m with None => Some (Some i) | Some _ => None end;
  mutex_unlock := λ _ _, None;
  mutex_owner := id;
|}.
#[export] Instance ref_KMutexOk : KMutexOk ref_KMutex.
Proof. split; cbn; [done| | |done]; intros i [j|]; naive_solver. Qed.

(** One connection and two children, whose calls overlap. *)
Definition one_conn : DCPool ref_machine := mkDCPool [mkDCConn (kr := ref_KRdmaKit) 9%Z 3] [0%Z].
Definition two_children : list (prog (DCPool ref_machine) (pool_reply (kr := ref_KRdmaKit))) :=
  [child_life Stop; child_life (child_life Stop)].

(** The first child has the connection while the second is resumed without one;
    a third one gets it after the first has gone. *)
Definition overlapping : list nat := [0; 0; 0; 0; 1; 1; 1; 0; 0; 0; 1; 1; 1; 1].

Definition is_outside {T R} (t : thread T R) : bool := match t with Outside _ => true | Inside _ _ => false end.

Lemma all_outside {km : KMutex} {T R} (s : locked T R) : forallb is_outside (threads s) = true →
  ∀ i c k, threads s !! i ≠ Some (Inside c k).
Proof. rewrite forallb_forall. intros Ho i c k Hi. by specialize (Ho _ (proj1 (list_elem_of_In _ _) (list_elem_of_lookup_2 _ _ _ Hi))). Qed.

Lemma overlapping_run :
  match run_schedule overlapping (locked_start one_conn two_children) with
  | Some s => fst <$> returns s = [0; 1; 0; 1] ∧ forallb is_outside (threads s) = true
  | None => False
  end.
Proof. vm_compute. split; reflexivity. Qed.

Lemma overlapping_reached :
  ∃ s, rtc locked_step (locked_start one_conn two_children) s ∧ fst <$> returns s = [0; 1; 0; 1] ∧
    (∀ i c k, threads s !! i ≠ Some (Inside c k)).
Proof.
  generalize overlapping_run. destruct (run_schedule overlapping _) as [s|] eqn:E; [|intros []]. intros [Hr Ho].
  exists s. split; [exact (run_schedule_steps _ _ _ E)|]. split; [exact Hr|exact (all_outside s Ho)].
Qed.

Lemma lock_serializable_witness :
  ∃ s, rtc locked_step (locked_start one_conn two_children) s ∧ fst <$> returns s = [0; 1; 0; 1] ∧
    ∃ a, rtc atomic_step (mkAtomic one_conn two_children []) a ∧ returns s = results a ∧
      lb_value (bundler s) = value a.
Proof.
  destruct overlapping_reached as (s & Hs & Hr & Ho). exists s. split; [exact Hs|]. split; [exact Hr|].
  destruct (lock_serializable one_conn two_children _ Hs) as [_ (a & Ha & Hra & Hout)].
  exists a. split; [exact Ha|]. split; [exact Hra|exact (proj2 (Hout Ho))].
Defined.

Lemma lock_calls_end_witness :
  ∃ s, rtc locked_step (locked_start one_conn two_children) s ∧ Acc (λ s' s, locked_step s s') s.
Proof.
  destruct overlapping_reached as (s & Hs & _). exists s. split; [exact Hs|].
  exact (proj1 (lock_calls_end one_conn two_children s Hs)).
Defined.

Lemma connection_lent_once_witness :
  ∃ s, rtc locked_step (locked_start one_conn two_children) s ∧ fst <$> returns s = [0; 1; 0; 1] ∧
    ∃ hs ps', threads s = Outside <$> ps' ∧ Forall2 borrows hs ps' ∧
      concat hs ++ (dc <$> dc_conns (lb_value (bundler s))) ≡ₚ [9%Z].
Proof.
  destruct overlapping_reached as (s & Hs & Hr & Ho). exists s. split; [exact Hs|]. split; [exact Hr|].
  assert (Hb : Forall (borrows []) two_children) by (repeat apply Forall_cons_2; [..|apply Forall_nil_2]; repeat apply child_life_borrows; constructor).
  exact (proj2 (connection_lent_once one_conn two_children s (NoDup_singleton _) Hb Hs) Ho).
Defined.
