(* ===== verification/Worker.v ===== *)
(** * The RPC threads ([Service::worker] of [rpc_service.rs])

    After its set-up ([Startup.worker_setup]) a thread polls its hook until the
    kernel asks it to stop, and gives up the processor when it has polled long
    enough.  The theorems: the loop ends when the thread is to stop, whatever the
    messages do, as long as each poll returns; and a thread whose receive buffers
    are used up by bad messages serves nobody any more. *)

From S2P Require Import Prelude Future Rdma Machine Bytes Descriptors ShadowProcess Datagram ShadowService Rpc RpcSpec RpcCall RpcHandlers CallerPool RcPool Startup.

(** ** The kernel's threads *)
Class KThread (W : Type) := {
  should_stop : io W bool;
  yield_now : io W () }.

Section Worker.
Context {W : Type} {kt : KTimerApi W} {kr : KRdmaKit W} {cm : UdCm W} {po : PortApi W} {rl : RpcLayout} {th : KThread W}.

Definition YIELD_THRESHOLD : Z := 10000.
Definition YIELD_TIME_USEC : Z := 2000.

(** [dma] is what the card does to memory until the next poll, [poll_fuel] the
    fuel for the poll's own waits; errors are only logged. *)
Fixpoint worker_loop (fuel poll_fuel : nat) (dma : mem → mem) (m : mem) (rpc_server : RPCHook W) (counter : Z) (timer : KTimer) :
    io W (RPCHook W * mem) :=
  match fuel with
  | 0 => λ _, NoFuel
  | S fuel =>
      stop ← should_stop;
      if (stop : bool) then mret (rpc_server, m) else
      '(_, rpc_server, m) ← RPCHook_poll poll_fuel (dma m) rpc_server;
      counter ← lift (u64_add counter 1);
      '(counter, timer) ←
        (if (YIELD_THRESHOLD <? counter)%Z then
           passed ← get_passed_usec timer;
           timer ← (if (YIELD_TIME_USEC <? passed)%Z then yield_now ≫= λ _, KTimer_reset timer else mret timer);
           mret (0%Z, timer)
         else mret (counter, timer));
      worker_loop fuel poll_fuel dma m rpc_server counter timer
  end.
End Worker.

Section WorkerThread.
Context {W : Type} {kt : KTimerApi W} {kr : KRdmaKit W} {kn : Kernel W} {cm : UdCm W} {po : PortApi W} {dt : DcTargets} {rk : RcKit W}.
Context {sk : SetupKit W} {sf : StartFeatures} {rl : RpcLayout} {rp : ReplyLayout} {th : KThread W}.

(** The whole thread: set-up, the counter of ready threads, the loop. *)
Definition worker (served : Sps W * list DCTarget * list (Z * (Z * Z))) (fuel poll_fuel : nat) (dma : mem → mem) (m : mem)
    (arg : ThreadCTX) : io (module (W := W)) (Z * mem) :=
  rpc_server ← worker_setup served arg;
  modify (λ s, thread_up s (th_id arg) rpc_server) ≫= λ _,
  timer ← dev KTimer_new;
  '(_, m) ← dev (worker_loop fuel poll_fuel dma m rpc_server 0 timer);
  mret (0%Z, m).
End WorkerThread.

(** ** What the loop relies on

    [rounds]: how often the thread is yet to be told to go on, which only asking
    changes.  The scheduler and the timer leave the card's receive queues alone. *)
Class KThreadOk (W : Type) {kt : KTimerApi W} {kr : KRdmaKit W} {ro : RecvOk W} {th : KThread W} := {
  rounds : W → nat;
  should_stop_ok w : ∃ w', should_stop w = Ret (bool_decide (rounds w = 0), w') ∧ rounds w' = pred (rounds w) ∧
    ∀ qp, posted_recv qp w' = posted_recv qp w;
  yield_now_ok w : ∃ w', yield_now w = Ret ((), w') ∧ rounds w' = rounds w ∧ ∀ qp, posted_recv qp w' = posted_recv qp w;
  timer_reset_quiet t w t' w' : KTimer_reset t w = Ret (t', w') →
    rounds w' = rounds w ∧ ∀ qp, posted_recv qp w' = posted_recv qp w;
  timer_read_quiet t w p w' : get_passed_usec t w = Ret (p, w') →
    rounds w' = rounds w ∧ ∀ qp, posted_recv qp w' = posted_recv qp w;
  poll_recv_rounds qp n w r w' : poll_recv_cq qp n w = Ret (r, w') → rounds w' = rounds w }.

Section WorkerSpec.
Context {W : Type} {kt : KTimerApi W} {kt_ok : KTimerOk W} {kr : KRdmaKit W} {ro : RecvOk W} {cm : UdCm W} {po : PortApi W}.
Context {rl : RpcLayout} {th : KThread W} {th_ok : KThreadOk W}.

(** [waiting] messages have come for [qp]; more may come at any time, and while
    there is one and a buffer for it, a poll delivers one. *)
Record mail (qp : QueuePair) (waiting : W → nat) : Prop := {
  ml_poll w r w' : poll_recv_cq qp 1 w = Ret (r, w') → waiting w ≠ 0 → posted_recv qp w ≠ [] →
    (∃ wc, r = Ok [wc]) ∧ waiting w ≤ S (waiting w');
  ml_stop w b w' : should_stop w = Ret (b, w') → waiting w ≤ waiting w';
  ml_yield w w' : yield_now w = Ret ((), w') → waiting w ≤ waiting w';
  ml_reset t w t' w' : KTimer_reset t w = Ret (t', w') → waiting w ≤ waiting w';
  ml_read t w p w' : get_passed_usec t w = Ret (p, w') → waiting w ≤ waiting w' }.

Context {qp0 : QueuePair} {waiting : W → nat} (Hmail : mail qp0 waiting).

(** [w'] is later than [w], with the receive queues as they were. *)
Definition quiet (w w' : W) : Prop :=
  rounds w' = rounds w ∧ (∀ qp, posted_recv qp w' = posted_recv qp w) ∧ waiting w ≤ waiting w'.

(** The thread has asked whether it is to stop. *)
Definition asked (w w' : W) : Prop :=
  rounds w' = pred (rounds w) ∧ (∀ qp, posted_recv qp w' = posted_recv qp w) ∧ waiting w ≤ waiting w'.

#[export] Instance quiet_preorder : PreOrder quiet.
Proof.
  split; [by intros w|]. intros w1 w2 w3 (H1 & H2 & H3) (H4 & H5 & H6). split_and!; [lia| |lia]. intros qp. by rewrite H5, H2.
Qed.

Lemma yield_quiet w : ∃ w', yield_now w = Ret ((), w') ∧ quiet w w'.
Proof. destruct (yield_now_ok w) as (w' & E & H1 & H2). exists w'. split_and!; [done|]. split_and!; [done|done|by apply (ml_yield _ _ Hmail)]. Qed.

Lemma reset_quiet t w t' w' : KTimer_reset t w = Ret (t', w') → quiet w w'.
Proof. intros E. destruct (timer_reset_quiet _ _ _ _ E). split_and!; [done|done|by eapply (ml_reset _ _ Hmail)]. Qed.

Lemma read_quiet t w p w' : get_passed_usec t w = Ret (p, w') → quiet w w'.
Proof. intros E. destruct (timer_read_quiet _ _ _ _ E). split_and!; [done|done|by eapply (ml_read _ _ Hmail)]. Qed.

(** The end of a round: the counter stays within its bound. *)
Lemma yield_part_ok counter timer w :
  (0 ≤ counter ≤ YIELD_THRESHOLD)%Z →
  ∃ c t w', (counter ← lift (u64_add counter 1);
      (if (YIELD_THRESHOLD <? counter)%Z then
         passed ← get_passed_usec timer;
         timer ← (if (YIELD_TIME_USEC <? passed)%Z then yield_now ≫= λ _, KTimer_reset timer else mret timer);
         mret (0%Z, timer)
       else mret (counter, timer))) w = Ret ((c, t), w') ∧
    (0 ≤ c ≤ YIELD_THRESHOLD)%Z ∧ quiet w w'.
Proof.
  intros Hc. unfold YIELD_THRESHOLD in *. rewrite u64_add_Ret by (unfold is_u64; lia).
  assert (El : (lift (Ret (counter + 1)%Z) : io W Z) w = Ret ((counter + 1)%Z, w)) by done. step El.
  destruct (Z.ltb_spec 10000 (counter + 1)); [|eexists _, _, w; split; [done|]; split; [lia|done]].
  destruct (get_passed_usec_ok timer w) as (w1 & E1 & _). pose proof (read_quiet _ _ _ _ E1) as Hq1. step E1.
  destruct (YIELD_TIME_USEC <? _)%Z.
  - destruct (yield_quiet w1) as (w2 & E2 & Hq2). destruct (KTimer_reset_ok timer w2) as (t' & w3 & E3 & _).
    pose proof (reset_quiet _ _ _ _ E3) as Hq3. exists 0%Z, t', w3. split.
    + erewrite io_bind_run; [|by rewrite (io_bind_run _ _ _ _ _ E2)]. done.
    + split; [lia|]. etransitivity; [exact Hq1|]. by etransitivity.
  - eexists _, _, w1. split; [done|]. by split.
Qed.

(** A condition that each round keeps holds when the loop ends. *)
Lemma worker_loop_ok (P : mem → RPCHook W → W → Prop) poll_fuel dma fuel m hook counter timer w :
  (∀ m hook w w', P m hook w → quiet w w' → P m hook w') →
  (∀ m hook w w1, P m hook w → rounds w ≠ 0 → asked w w1 → ∃ r hook' m' w',
    RPCHook_poll poll_fuel (dma m) hook w1 = Ret ((r, hook', m'), w') ∧ rounds w' = rounds w1 ∧ P m' hook' w') →
  P m hook w → rounds w < fuel → (0 ≤ counter ≤ YIELD_THRESHOLD)%Z →
  ∃ hook' m' w1 w', worker_loop fuel poll_fuel dma m hook counter timer w = Ret ((hook', m'), w') ∧
    P m' hook' w1 ∧ rounds w1 = 0 ∧ asked w1 w'.
Proof.
  intros Hst Hpoll. revert m hook counter timer w.
  induction fuel as [|fuel IH]; intros m hook counter timer w HP Hf Hc; [lia|]. cbn [worker_loop].
  destruct (should_stop_ok w) as (w1 & E1 & Hr1 & Hq1). step E1.
  assert (Ha : asked w w1) by (split_and!; [done|done|by eapply (ml_stop _ _ Hmail)]).
  case_bool_decide as H0; [by exists hook, m, w, w1|].
  destruct (Hpoll m hook w w1 HP H0 Ha) as (r & hook' & m' & w2 & E2 & Hr2 & HP2). step E2.
  destruct (yield_part_ok counter timer w2 Hc) as (c & t & w3 & E3 & Hc' & Hq3).
  destruct (IH m' hook' c t w3) as (hook'' & m'' & w5 & w4 & E4 & HP4); [by eapply Hst|destruct Hq3; lia|done|].
  exists hook'', m'', w5, w4. split; [|done]. apply io_bind_Ret in E3 as (cc & w2' & El & E3).
  rewrite (io_bind_run _ _ _ _ _ El), (io_bind_run _ _ _ _ _ E3). done.
Qed.

(** ** Bad messages use up the buffers *)
Section Starving.
Context {rl_ok : RpcLayoutOk}.

(** The buffer holds a request of a session that is not connected. *)
Definition stray (hook : RPCHook W) (m : mem) (msg : UDMsg W) : Prop :=
  ∃ id rpc_id args, hook_sessions hook !! id = None ∧ is_u64 id ∧ is_u64 rpc_id ∧ is_u64 (Z.of_nat (length args)) ∧
    received m (msg_bytes msg) (gen_call_stub id rpc_id (Z.of_nat (length args))) args.

(** Polling the receiver polls the card once. *)
Lemma receiver_poll_inv (t t' : UDReceiver W) r w w' : poll t w = Ret ((r, t'), w') →
  recv_inner t' = recv_inner t ∧ ∃ rc, poll_recv_cq (ud (recv_inner t)) 1 w = Ret (rc, w') ∧ ((∃ wc, rc = Ok [wc]) → ∃ msg, r = Ok (Ready msg)).
Proof.
  intros E. unfold poll, UDReceiver_Future in E. apply io_bind_Ret in E as (r1 & w1 & E1 & E).
  destruct r1 as [[|wc l]|e]; [injection E as <- <- <-|destruct (msg_queues t); [done|injection E as <- <- <-]|injection E as <- <- <-];
    (split; [done|]; eexists; split; [exact E1|]); intros [? ?]; eauto; done.
Qed.

(** One poll, when every message that can have come is stray: nothing happens,
    or the first buffer is gone; and that one is, if a message waits. *)
Lemma poll_stray fuel m hook w :
  ReceiverInv (transport hook) w → ud (recv_inner (transport hook)) = qp0 → (∀ msg, msg ∈ msg_queues (transport hook) → stray hook m msg) →
  ∃ r t w' lost, RPCHook_poll fuel m hook w = Ret ((r, hook_set_transport hook t, m), w') ∧ rounds w' = rounds w ∧
    ReceiverInv t w' ∧ ud (recv_inner t) = qp0 ∧ msg_queues (transport hook) = lost ++ msg_queues t ∧ length lost ≤ 1 ∧
    (waiting w ≠ 0 → msg_queues (transport hook) ≠ [] → length lost = 1 ∧ waiting w ≤ S (waiting w')).
Proof.
  intros Hinv Hqp Hs. destruct (UDReceiver_poll_ok (transport hook) w Hinv) as (r & t & w' & E & Hinv' & Hq).
  destruct (receiver_poll_inv _ _ _ _ _ E) as (Hin & rc & Erc & Hrc). pose proof (poll_recv_rounds _ _ _ _ _ Erc) as Hr. rewrite Hqp in Erc.
  assert (Hw : waiting w ≠ 0 → msg_queues (transport hook) ≠ [] → (∃ msg, r = Ok (Ready msg)) ∧ waiting w ≤ S (waiting w')).
  { intros H0 Hne. destruct (ml_poll _ _ Hmail _ _ _ Erc H0) as [Hwc Hle]; [|by split; [apply Hrc|]].
    unfold ReceiverInv in Hinv. rewrite Hqp in Hinv. rewrite Hinv. by destruct (msg_queues (transport hook)). }
  destruct r as [[msg|]|e].
  - destruct Hq as [Hq _]. destruct (Hs msg) as (id & rpc_id & args & Hid & H1 & H2 & H3 & Hrec); [rewrite Hq; left|].
    eexists _, t, w', [msg]. split; [exact (RPCHook_poll_not_connected fuel m hook w id rpc_id args msg t w' Hid H1 H2 H3 E Hrec)|].
    split_and!; [done|done|congruence|done|done|]. intros H0 Hne. by split; [|apply Hw].
  - eexists _, t, w', []. split; [unfold RPCHook_poll; by step E|]. split_and!; [done|done|congruence|done|cbn; lia|].
    intros H0 Hne. by destruct (Hw H0 Hne) as [[? ?] _].
  - eexists _, t, w', []. split; [unfold RPCHook_poll; by step E|]. split_and!; [done|done|congruence|done|cbn; lia|].
    intros H0 Hne. by destruct (Hw H0 Hne) as [[? ?] _].
Qed.

(** C39: Bad messages starve a thread.  While all messages that come in are requests
    of sessions that are not connected, the thread runs until it is to stop, its
    sessions stay as they were, and it never gets a receive buffer back: the
    buffers that it and the card have left are a tail of those at the start.  At
    most one buffer is lost per round; and on a card that delivers a waiting
    message to each poll while there is a buffer ([mail]), at least as many as
    there are messages waiting at the start, unless the rounds or the buffers run
    out first.  So as
    many such messages as there are buffers, and as many rounds, leave the thread
    and the card without any buffer. *)
Theorem worker_starves fuel poll_fuel dma m hook counter timer w :
  ReceiverInv (transport hook) w → ud (recv_inner (transport hook)) = qp0 →
  (∀ n msg, msg ∈ msg_queues (transport hook) → stray hook (Nat.iter (S n) dma m) msg) →
  rounds w < fuel → (0 ≤ counter ≤ YIELD_THRESHOLD)%Z →
  ∃ hook' n w' lost,
    worker_loop fuel poll_fuel dma m hook counter timer w = Ret ((hook', Nat.iter n dma m), w') ∧
    hook_sessions hook' = hook_sessions hook ∧
    msg_queues (transport hook) = lost ++ msg_queues (transport hook') ∧ ReceiverInv (transport hook') w' ∧
    length lost ≤ rounds w ∧ Nat.min (rounds w) (Nat.min (waiting w) (length (msg_queues (transport hook)))) ≤ length lost.
Proof.
  intros Hinv Hqp Hs Hf Hc. set (bufs := length (msg_queues (transport hook))).
  set (P := λ m' hook' w', ∃ n t lost, m' = Nat.iter n dma m ∧ hook' = hook_set_transport hook t ∧ ud (recv_inner t) = qp0 ∧
    msg_queues (transport hook) = lost ++ msg_queues t ∧ ReceiverInv t w' ∧ length lost + rounds w' ≤ rounds w ∧
    Nat.min (rounds w) (Nat.min (waiting w) bufs) ≤ length lost + Nat.min (rounds w') (Nat.min (waiting w') (length (msg_queues t)))).
  destruct (worker_loop_ok P poll_fuel dma fuel m hook counter timer w) as
    (hook' & m' & w1 & w' & E & (n & t & lost & -> & -> & _ & Hq & Hi & Hup & Hlow) & H0 & Ha & Hpr & _).
  - intros m1 h1 w1 w2 (n & t & lost & Hm & Hh & Ht & Hq & Hi & Hup & Hlow) (Hr & Hpr & Hw). exists n, t, lost. split_and!; try done.
    + unfold ReceiverInv in *. by rewrite Hpr.
    + lia.
    + lia.
  - intros m1 h1 w1 w2 (n & t & lost & -> & -> & Ht & Hq & Hi & Hup & Hlow) H0 (Hr & Hpr & Hw).
    destruct (poll_stray poll_fuel (dma (Nat.iter n dma m)) (hook_set_transport hook t) w2) as (r & t' & w3 & l' & E & Hr' & Hi' & Ht' & Hq' & Hl' & Hwait).
    + unfold ReceiverInv in *. cbn. by rewrite Hpr.
    + done.
    + intros msg Hmsg. apply (Hs n). rewrite Hq. apply elem_of_app. by right.
    + exists r, (hook_set_transport hook t'), (dma (Nat.iter n dma m)), w3. split; [exact E|]. split; [done|].
      cbn in Hq', Hwait. exists (S n), t', (lost ++ l'). rewrite length_app. split_and!; try done.
      * by rewrite Hq, Hq', app_assoc.
      * lia.
      * rewrite Hq' in Hlow, Hwait. rewrite length_app in Hlow.
        destruct (decide (waiting w2 = 0)) as [Hz|H1]; [lia|]. destruct (decide (l' ++ msg_queues t' = [])) as [Hnil|H2].
        { apply (f_equal length) in Hnil. rewrite length_app in Hnil. cbn in Hnil. lia. }
        destruct (Hwait H1 H2). lia.
  - exists 0, (transport hook), []. split_and!; try done; by destruct hook.
  - done.
  - done.
  - exists (hook_set_transport hook t), n, w', lost. split_and!; try done; [unfold ReceiverInv in *; cbn; by rewrite Hpr|lia|lia].
Qed.
End Starving.
End WorkerSpec.

(** ** On the reference machine: a thread that is stopped after six rounds *)
Definition ref_set_rounds (n : nat) (w : ref_machine) : ref_machine :=
  mkRef (ref_clock w) (ref_alive w) (ref_sq w) (ref_landed w) (ref_rq w) (ref_inbox w)
    (ref_pages w) (ref_next_mr w) (ref_cpu w) (ref_tsk w) (ref_memory w) (ref_hints w) (ref_sent w) (ref_devs w) n.

#[export] Instance ref_KThread : KThread ref_machine := {|
  should_stop := λ w, Ret (bool_decide (ref_rounds w = 0), ref_set_rounds (pred (ref_rounds w)) w);
  yield_now := λ w, Ret ((), ref_tick w) |}.

Lemma ref_poll_recv_cases qp w r w' : ref_poll_recv qp w = Ret (r, w') →
  (∃ k u q, ref_arrived w qp = S k ∧ ref_recv_queue w qp = u :: q ∧ r = Ok [0%Z] ∧
    w' = ref_set_rq (<[qp := q]> (ref_rq w)) (<[qp := k]> (ref_inbox w)) w) ∨
  (ref_arrived w qp = 0 ∨ ref_recv_queue w qp = []) ∧ w' = w.
Proof. unfold ref_poll_recv. destruct (ref_arrived w qp), (ref_recv_queue w qp); intros [= <- <-]; eauto 10. Qed.

#[export] Instance ref_KThreadOk : KThreadOk ref_machine.
Proof.
  refine {| rounds := ref_rounds |}.
  - intros w. eexists. by split_and!.
  - intros w. eexists. by split_and!.
  - by intros t w t' w' [= <- <-].
  - by intros t w p w' [= <- <-].
  - intros qp n w r w' E. by destruct (ref_poll_recv_cases qp w r w' E) as [(k & u & q & _ & _ & _ & ->)|[_ ->]].
Defined.

Lemma ref_mail (qp : Z) : mail (qp : @QueuePair _ ref_KRdmaKit) (λ w, ref_arrived w qp).
Proof.
  split.
  - intros w r w' E H0 Hp. destruct (ref_poll_recv_cases qp w r w' E) as [(k & u & q & Hk & _ & -> & ->)|[[?|?] _]]; [|done|done].
    split; [by eexists|]. rewrite Hk. unfold ref_arrived. cbn. by rewrite lookup_insert_eq.
  - by intros w b w' [= _ <-].
  - by intros w w' [= <-].
  - by intros t w t' w' [= _ <-].
  - by intros t w p w' [= _ <-].
Qed.

(** One buffer, and a stray request in it: the thread ends without buffers. *)
Definition ref_stray : mem :=
  default ∅ (store ref_memory0 1064 (to_bytes (Pod := header_Pod (RpcLayout := word_RpcLayout)) (gen_call_stub 9 4 0) ++ [])).

Lemma ref_stray_ok : stray (rl := word_RpcLayout) ref_hook ref_stray (ref_buf 1024).
Proof.
  destruct (store_ok ref_memory0 1064 (to_bytes (Pod := header_Pod (RpcLayout := word_RpcLayout)) (gen_call_stub 9 4 0) ++ []))
    as (m & E & Hat & _); [eapply alloc_sub; [apply ref_memory0_alloc|done|done]|].
  exists 9%Z, 4%Z, []. unfold ref_stray. rewrite E. clear E. split_and!; [done|done|done|done|].
  split_and!; [exact Hat|by exists 128%Z|done].
Qed.

Lemma iter_id {A} (n : nat) (x : A) : Nat.iter n id x = x.
Proof. induction n as [|n IH]; [done|exact IH]. Qed.

Lemma worker_starves_witness :
  ∃ hook' m' w', worker_loop (rl := word_RpcLayout) 10 1 id ref_stray ref_hook 0 (0%Z : @KTimer _ ref_KTimer) ref_called =
      Ret ((hook', m'), w') ∧
    hook_sessions hook' = hook_sessions ref_hook ∧ msg_queues (transport hook') = [] ∧ ReceiverInv (transport hook') w'.
Proof.
  destruct (worker_starves (rl := word_RpcLayout) (ref_mail 7) (rl_ok := word_RpcLayoutOk) 10 1 id ref_stray ref_hook 0
    (0%Z : @KTimer _ ref_KTimer) ref_called) as (hook' & n & w' & lost & E & Hs & Hq & Hi & _ & Hlow).
  - by vm_compute.
  - reflexivity.
  - intros n msg Hm. apply list_elem_of_singleton in Hm as ->. rewrite iter_id. apply ref_stray_ok.
  - vm_compute. lia.
  - unfold YIELD_THRESHOLD. lia.
  - exists hook', (Nat.iter n id ref_stray), w'. split; [exact E|]. split; [exact Hs|]. split; [|exact Hi].
    change (1 ≤ length lost) in Hlow. apply (f_equal length) in Hq. rewrite length_app in Hq. cbn in Hq. apply nil_length_inv. lia.
Defined.
