(* ===== verification/EagerFetch.v ===== *)
(** * Eager resume ([descriptors/child.rs], feature [eager-resume])

    Instead of waiting for faults, all pages of a VMA are read when the child is
    resumed, twelve at a time, with only the last request of a batch signaled. *)

From Stdlib Require Import Sorted.
From S2P Require Import Prelude Future Rdma Machine PageStructures PageHeap RemotePageTable Descriptors ChildWire RemotePaging.

Section EagerFetch.
Context {W : Type} {kt : KTimerApi W} {kr : KRdmaKit W} {kn : Kernel W} {x86 : X86Crate}.
(** [pmem_vm_insert_page(vma, addr, page)], with the VMA's protection word *)
Context (pmem_vm_insert_page : Z → Z → Z → Z → io W Z).

(** [batch_read_remote_pages]: [n] is the length of the whole list and [i] the
    index of the head of [addrs]. *)
Fixpoint batch_read_loop (fuel : nat) (pool : DCPool W) (h : heap) (self : ChildDescriptor)
    (access_info : AccessInfo W) (n i : nat) (addrs : list Z) : io W (list (option Z)) :=
  match addrs with
  | [] => mret []
  | remote_va :: addrs =>
      remote_pa ← lift (lookup_pg_table h self remote_va);
      match remote_pa with
      | None => res ← batch_read_loop fuel pool h self access_info n (S i) addrs; mret (None :: res)
      | Some src =>
          new_page_p ← pmem_alloc_page PMEM_GFP_HIGHUSER;
          let new_page_va := pmem_page_to_virt new_page_p in
          let signaled := i =? n - 1 in
          pool_idx ← pmem_get_current_cpu;
          dc_qp ← lift (unwrap (get_dc_qp pool pool_idx));
          mr ← lift (unwrap (mr_new_from_raw (qp_ctx (dc dc_qp)) new_page_va 4096));
          DCConn_post dc_qp (mkDCReqPayload mr (0, 4096)%Z signaled READ (ai_rkey access_info) src
            (access_handler access_info)) ≫= λ _,
          result ← (if i =? n - 1 then
              timeout_dc ← TimeoutWRef_new dc_qp TIMEOUT_USEC;
              '(r, _) ← block_on fuel timeout_dc;
              match r with
              | Ok _ => mret (Ok ())
              | Err e => if is_elapsed e then mret (Err TimeoutError)
                         else e ← lift (unwrap (into_inner e)); mret (Err e)
              end
            else mret (Ok ()));
          match result with
          | Ok _ =>
              res ← batch_read_loop fuel pool h self access_info n (S i) addrs; mret (Some new_page_p :: res)
          | Err _ =>
              pmem_free_page new_page_p ≫= λ _,
              res ← batch_read_loop fuel pool h self access_info n (S i) addrs; mret (None :: res)
          end
      end
  end.

Definition batch_read_remote_pages (fuel : nat) (pool : DCPool W) (h : heap) (self : ChildDescriptor)
    (addr_list : list Z) (access_info : AccessInfo W) : io W (list (option Z)) :=
  batch_read_loop fuel pool h self access_info (length addr_list) 0 addr_list.

(** The state [eager_fetch_vma] updates: the protection word of the VMA and
    the set of pages fetched so far. *)
Record EagerState := mkEagerState { vm_page_prot : Z; eager_fetched_pages : gset Z }.

Fixpoint install_pages (vma : Z) (addr_buf : list Z) (i : nat) (page_list : list (option Z))
    (st : EagerState) : io W EagerState :=
  match page_list with
  | [] => mret st
  | None :: pages => install_pages vma addr_buf (S i) pages st
  | Some new_page_p :: pages =>
      addr ← lift (unwrap (addr_buf !! i));
      let prot := Z.lor (vm_page_prot st) (Z.shiftl 1 52) in
      pmem_vm_insert_page vma prot addr new_page_p ≫= λ _,
      install_pages vma addr_buf (S i) pages
        (mkEagerState prot ({[new_page_p]} ∪ eager_fetched_pages st))
  end.

Definition fetch_batch (fuel : nat) (pool : DCPool W) (h : heap) (self : ChildDescriptor) (vma : Z)
    (access_info : AccessInfo W) (addr_buf : list Z) (st : EagerState) : io W EagerState :=
  page_list ← batch_read_remote_pages fuel pool h self addr_buf access_info;
  install_pages vma addr_buf 0 page_list st.

Definition BATCH_LEN : nat := 12.

Fixpoint eager_loop (fuel : nat) (pool : DCPool W) (h : heap) (self : ChildDescriptor) (vma : Z)
    (access_info : AccessInfo W) (addrs addr_buf : list Z) (st : EagerState) : io W EagerState :=
  match addrs with
  | [] => if decide (addr_buf = []) then mret st
          else fetch_batch fuel pool h self vma access_info addr_buf st
  | addr :: addrs =>
      let addr_buf := if length addr_buf <? BATCH_LEN then addr_buf ++ [addr] else addr_buf in
      if BATCH_LEN =? length addr_buf then
        st ← fetch_batch fuel pool h self vma access_info addr_buf st;
        eager_loop fuel pool h self vma access_info addrs [] st
      else eager_loop fuel pool h self vma access_info addrs addr_buf st
  end.

(** [(start..end).step_by(4096)] *)
Definition step_by_page (start stop : Z) : list Z :=
  (λ k, start + 4096 * Z.of_nat k)%Z <$> seq 0 (Z.to_nat ((stop - start + 4095) / 4096)).

Definition eager_fetch_vma (fuel : nat) (pool : DCPool W) (h : heap) (self : ChildDescriptor)
    (vma_des : VMADescriptor) (vma : Z) (access_info : AccessInfo W) (st : EagerState) : io W EagerState :=
  size ← lift (get_sz vma_des);
  let start := get_start vma_des in
  stop ← lift (u64_add start size);
  eager_loop fuel pool h self vma access_info (step_by_page start stop) [] st.
End EagerFetch.

(** ** The batches *)
Section Batches.
Context {A : Type}.

(** [l] cut into pieces of [n], the last one shorter. *)
Fixpoint chunks_from (n : nat) (l buf : list A) : list (list A) :=
  match l with
  | [] => match buf with [] => [] | _ => [buf] end
  | a :: l => if length buf + 1 =? n then (buf ++ [a]) :: chunks_from n l [] else chunks_from n l (buf ++ [a])
  end.

Lemma chunks_from_concat n l buf : concat (chunks_from n l buf) = buf ++ l.
Proof.
  revert buf. induction l as [|a l IH]; intros buf; cbn.
  - destruct buf; cbn; by rewrite ?app_nil_r.
  - destruct (length buf + 1 =? n); cbn; rewrite IH; by rewrite <- app_assoc.
Qed.

Lemma chunks_from_length n l buf :
  length buf < n → Forall (λ c, 1 ≤ length c ≤ n) (chunks_from n l buf).
Proof.
  revert buf. induction l as [|a l IH]; intros buf Hb; cbn.
  - destruct buf; [constructor|]. apply Forall_singleton. cbn in *. lia.
  - destruct (Nat.eqb_spec (length buf + 1) n).
    + apply Forall_cons. rewrite length_app. cbn. split; [lia|]. apply IH. cbn. lia.
    + apply IH. rewrite length_app. cbn. lia.
Qed.
End Batches.

Section EagerProperties.
Context {W : Type} {kt : KTimerApi W} {kr : KRdmaKit W} {kn : Kernel W} {x86 : X86Crate}.
Context (pmem_vm_insert_page : Z → Z → Z → Z → io W Z).

(** One batch after the other. *)
Fixpoint run_batches (f : list Z → EagerState → io W EagerState) (bs : list (list Z)) (st : EagerState) :
    io W EagerState :=
  match bs with
  | [] => mret st
  | b :: bs => st ← f b st; run_batches f bs st
  end.

Lemma eager_loop_batches fuel pool h self vma ai addrs buf st w :
  length buf < BATCH_LEN →
  eager_loop pmem_vm_insert_page fuel pool h self vma ai addrs buf st w =
  run_batches (fetch_batch pmem_vm_insert_page fuel pool h self vma ai) (chunks_from BATCH_LEN addrs buf) st w.
Proof.
  revert buf st w. induction addrs as [|a addrs IH]; intros buf st w Hb; cbn [eager_loop chunks_from].
  - destruct buf as [|b buf]; [done|]. cbn [run_batches]. rewrite decide_False by done.
    unfold mbind, io_bind. by destruct (fetch_batch _ _ _ _ _ _ _ _ st w) as [[]| | |].
  - rewrite (proj2 (Nat.ltb_lt _ _)) by done. rewrite length_app. cbn [length].
    destruct (Nat.eqb_spec BATCH_LEN (length buf + 1)) as [E|E].
    + rewrite (proj2 (Nat.eqb_eq _ _)) by done. cbn [run_batches]. unfold mbind, io_bind.
      destruct (fetch_batch _ _ _ _ _ _ _ _ st w) as [[st' w']| | |]; try done. apply IH. unfold BATCH_LEN. cbn. lia.
    + rewrite (proj2 (Nat.eqb_neq _ _)) by done. apply IH. rewrite length_app. cbn. lia.
Qed.

Lemma step_by_page_elem start stop a :
  a ∈ step_by_page start stop ↔ (start ≤ a < stop ∧ (4096 | a - start))%Z.
Proof.
  unfold step_by_page. rewrite list_elem_of_fmap. setoid_rewrite elem_of_seq. split.
  - intros (k & -> & Hk). split; [|by exists (Z.of_nat k); lia].
    pose proof (Z.mul_div_le (stop - start + 4095) 4096). lia.
  - intros ([H1 H2] & [k Hk]). exists (Z.to_nat k). split; [lia|].
    assert (k < (stop - start + 4095) / 4096)%Z; [|lia].
    pose proof (Z.mul_succ_div_gt (stop - start + 4095) 4096). lia.
Qed.

Lemma step_by_page_sorted start stop : StronglySorted Z.lt (step_by_page start stop).
Proof.
  unfold step_by_page. generalize (Z.to_nat ((stop - start + 4095) / 4096)) as n. generalize 0 as s.
  intros s n. revert s. induction n as [|n IH]; intros s; cbn; constructor; [apply IH|].
  apply Forall_fmap, Forall_forall. intros k Hk%elem_of_seq. cbn. lia.
Qed.

(** C11: Eager resume of a VMA is a sequence of batch reads of at most twelve
    addresses each, which together name every page of the VMA exactly once and in
    ascending order.  The VMA's end is not below its start. *)
Theorem eager_fetch_covers_vma fuel pool h self des vma ai st :
  (0 ≤ get_start des ≤ get_end des)%Z → is_u64 (get_end des) →
  ∃ batches,
    (∀ w, eager_fetch_vma pmem_vm_insert_page fuel pool h self des vma ai st w =
      run_batches (fetch_batch pmem_vm_insert_page fuel pool h self vma ai) batches st w) ∧
    Forall (λ b, 1 ≤ length b ≤ 12) batches ∧ StronglySorted Z.lt (concat batches) ∧
    ∀ a, a ∈ concat batches ↔ (get_start des ≤ a < get_end des ∧ (4096 | a - get_start des))%Z.
Proof.
  intros Hr Hu. unfold is_u64 in Hu.
  exists (chunks_from BATCH_LEN (step_by_page (get_start des) (get_end des)) []).
  split_and!; [|by apply chunks_from_length; unfold BATCH_LEN; cbn; lia| |].
  - intros w. unfold eager_fetch_vma, get_sz. rewrite u64_sub_Ret by (unfold get_end, get_start, is_u64 in *; lia).
    unfold mbind, io_bind, lift. cbv zeta. rewrite u64_add_Ret by (unfold get_end, get_start, is_u64 in *; lia).
    rewrite <- eager_loop_batches by (unfold BATCH_LEN; cbn; lia).
    by replace (get_start des + ((range des).2 - (range des).1))%Z with (get_end des) by (unfold get_end, get_start; lia).
  - rewrite chunks_from_concat. apply step_by_page_sorted.
  - intros a. rewrite chunks_from_concat. apply step_by_page_elem.
Qed.
End EagerProperties.

Section UnawaitedBatch.
Context {W : Type} {kt : KTimerApi W} {kt_ok : KTimerOk W} {kr : KRdmaKit W} {nic : NicOk W}.
Context {kn : Kernel W} {kn_ok : KernelOk W} {x86 : X86Crate}.

(** Nothing has completed and no completion will be reported for what was added. *)
Definition only_unsignaled_added (w w' : W) : Prop :=
  ∀ qp, ∃ l, outstanding qp w' = outstanding qp w ++ l ∧ Forall (λ u, wr_signaled u = false) l.

Lemma only_unsignaled_trans w1 w2 w3 :
  only_unsignaled_added w1 w2 → only_unsignaled_added w2 w3 → only_unsignaled_added w1 w3.
Proof.
  intros H1 H2 qp. destruct (H1 qp) as (l1 & E1 & F1), (H2 qp) as (l2 & E2 & F2).
  exists (l1 ++ l2). rewrite E2, E1, app_assoc. by split; [|apply Forall_app].
Qed.

Lemma only_unsignaled_same w w' :
  (∀ qp, outstanding qp w' = outstanding qp w) → only_unsignaled_added w w'.
Proof. intros H qp. exists []. by rewrite app_nil_r. Qed.

(** One mapped address that is not the last of the batch. *)
Lemma post_unsignaled_ok (conn : DCConn) ai mr pa w :
  ∃ r w', DCConn_post conn (mkDCReqPayload mr (0, 4096)%Z false READ (ai_rkey ai) pa (access_handler ai)) w
      = Ret (r, w') ∧ allocated w' = allocated w ∧ only_unsignaled_added w w'.
Proof.
  destruct (post_dc_read_ok (dc conn) (access_handler ai) mr (0, 4096)%Z false pa (ai_rkey ai) w)
    as (r & w' & E & _ & Hq & Hframe).
  exists r, w'. split; [exact E|]. split; [by eapply post_dc_read_pages|]. intros qp.
  destruct (Hframe qp) as [->|Hsame]; [|by exists []; rewrite app_nil_r].
  eexists. split; [exact Hq|]. destruct r; repeat constructor.
Qed.

(** What a batch hands out for an address: the page allocated for it if it is
    mapped, whether or not anything has arrived in it. *)
Definition handed_out (h : heap) (self : ChildDescriptor) (w w' : W) (va : Z) (r : option Z) : Prop :=
  (lookup_pg_table h self va = Ret None ∧ r = None) ∨
  ∃ pa p, lookup_pg_table h self va = Ret (Some pa) ∧ r = Some p ∧ p ∈ allocated w' ∧ (p ∉ allocated w).

Lemma handed_out_mono h self w0 w1 w2 va r :
  allocated w0 ⊆ allocated w1 → handed_out h self w1 w2 va r → handed_out h self w0 w2 va r.
Proof. intros Hs [?|(pa & p & ? & ? & ? & ?)]; [by left|right; exists pa, p; set_solver]. Qed.

Lemma batch_loop_unawaited fuel pool h self ai n i addrs w :
  pool_covers pool → i + length addrs = n →
  (∀ va, va ∈ addrs → ∃ pa, lookup_pg_table h self va = Ret pa) →
  (∀ va, last addrs = Some va → lookup_pg_table h self va = Ret None) →
  size (allocated w) + length addrs ≤ mem_pages →
  ∃ res w', batch_read_loop fuel pool h self ai n i addrs w = Ret (res, w') ∧
    Forall2 (handed_out h self w w') addrs res ∧ only_unsignaled_added w w' ∧ allocated w ⊆ allocated w'.
Proof.
  intros Hc. revert i w. induction addrs as [|va addrs IH]; intros i w Hn Hlk Hlast Hsz.
  { exists [], w. split_and!; [done|constructor|by apply only_unsignaled_same|done]. }
  cbn [batch_read_loop length] in *.
  destruct (Hlk va) as [pa Epa]; [apply list_elem_of_here|]. rewrite Epa.
  assert (Hlk' : ∀ va, va ∈ addrs → ∃ pa, lookup_pg_table h self va = Ret pa) by (intros; apply Hlk; by right).
  assert (Hlast' : ∀ va, last addrs = Some va → lookup_pg_table h self va = Ret None).
  { intros v Hv. apply Hlast. destruct addrs; [done|exact Hv]. }
  unfold mbind at 1, io_bind at 1, lift at 1. destruct pa as [pa|].
  - destruct addrs as [|va2 addrs]; [by rewrite (Hlast va eq_refl) in Epa|].
    destruct (alloc_page_ok PMEM_GFP_HIGHUSER w) as (p & w1 & E1 & Hp & Ha1 & _ & _ & _ & _ & Hq1); [lia|].
    rewrite (io_bind_run _ _ _ _ _ E1). cbv zeta. destruct (current_cpu_ok w1) as (c & Ec & _).
    rewrite (io_bind_run _ _ _ _ _ Ec). destruct (Hc w1 c Ec) as (conn & ->).
    destruct (mr_new_from_raw_ok (qp_ctx (dc conn)) (pmem_page_to_virt p) 4096) as (mr & Emr & _).
    unfold mbind at 1, io_bind at 1, lift at 1, unwrap at 1. rewrite Emr.
    unfold mbind at 1, io_bind at 1, lift at 1, unwrap at 1. cbn [length] in *.
    rewrite (proj2 (Nat.eqb_neq i (n - 1))) by lia.
    destruct (post_unsignaled_ok conn ai mr pa w1) as (r & w2 & E2 & Ha2 & Hu2).
    rewrite (io_bind_run _ _ _ _ _ E2). unfold mbind at 1, io_bind at 1, mret at 1, io_ret at 1.
    destruct (IH (S i) w2) as (res & w' & E' & Hres & Hu & Hsub); [lia|done|done| |].
    { rewrite Ha2, Ha1, size_union by set_solver. rewrite size_singleton. lia. }
    rewrite (io_bind_run _ _ _ _ _ E'). exists (Some p :: res), w'. rewrite Ha2, Ha1 in Hsub.
    split_and!; [done| | |set_solver].
    + constructor; [right; exists pa, p; set_solver|].
      eapply Forall2_impl; [exact Hres|]. intros v r' Hv. eapply handed_out_mono; [|exact Hv]. set_solver.
    + eapply only_unsignaled_trans; [by apply only_unsignaled_same|]. by eapply only_unsignaled_trans.
  - destruct (IH (S i) w) as (res & w' & E' & Hres & Hu & Hsub); [lia|done|done|lia|].
    rewrite (io_bind_run _ _ _ _ _ E'). exists (None :: res), w'. split_and!; [done| |done|done].
    constructor; [by left|done].
Qed.

(** A batch whose last address is unmapped is not waited for: the only request
    that would be signaled is not made, and the pages of the other addresses are
    handed out although no completion has been seen, nor will be reported, for
    any of their reads. *)
Theorem batch_unmapped_end_unawaited fuel pool h self ai addrs va w :
  pool_covers pool → (∀ v, v ∈ addrs → ∃ pa, lookup_pg_table h self v = Ret pa) →
  lookup_pg_table h self va = Ret None → size (allocated w) + length addrs < mem_pages →
  ∃ res w', batch_read_remote_pages fuel pool h self (addrs ++ [va]) ai w = Ret (res, w') ∧
    Forall2 (handed_out h self w w') (addrs ++ [va]) res ∧ only_unsignaled_added w w'.
Proof.
  intros Hc Hlk Hva Hsz. unfold batch_read_remote_pages.
  destruct (batch_loop_unawaited fuel pool h self ai (length (addrs ++ [va])) 0 (addrs ++ [va]) w)
    as (res & w' & E & Hres & Hu & _); [done|done| | | |by exists res, w'].
  - intros v Hv. apply elem_of_app in Hv as [Hv|Hv]; [by apply Hlk|].
    apply list_elem_of_singleton in Hv as ->. by exists None.
  - intros v. rewrite last_snoc. by intros [= <-].
  - rewrite length_app. cbn. lia.
Qed.
End UnawaitedBatch.

(** A VMA of fourteen pages *)
Lemma eager_fetch_covers_vma_witness :
  ∃ batches,
    eager_fetch_vma (W := ref_machine) (x86 := x86_reference) (λ _ _ _ _ w, Ret (0%Z, w)) ref_fuel ref_pool two_pages.1 ref_child
      (mkVMADescriptor (8388608, 8445952) 3 9 false)%Z 0 ref_ai (mkEagerState 0 ∅) ref_boot =
    run_batches (fetch_batch (W := ref_machine) (x86 := x86_reference) (λ _ _ _ _ w, Ret (0%Z, w)) ref_fuel ref_pool two_pages.1 ref_child 0 ref_ai)
      batches (mkEagerState 0 ∅) ref_boot ∧
    Forall (λ b, 1 ≤ length b ≤ 12) batches ∧ StronglySorted Z.lt (concat batches) ∧
    (8388608%Z ∈ concat batches) ∧ (8441856%Z ∈ concat batches) ∧ ¬ (8445952%Z ∈ concat batches).
Proof.
  destruct (eager_fetch_covers_vma (W := ref_machine) (x86 := x86_reference) (λ _ _ _ _ w, Ret (0%Z, w))
    ref_fuel ref_pool two_pages.1 ref_child (mkVMADescriptor (8388608, 8445952) 3 9 false)%Z 0 ref_ai
    (mkEagerState 0 ∅)) as (batches & E & Hl & Hs & Hin); [cbn; lia|unfold is_u64; cbn; lia|].
  exists batches. split; [apply E|]. split; [exact Hl|]. split; [exact Hs|]. split; [|split].
  - apply Hin. cbn. split; [lia|]. by exists 0%Z.
  - apply Hin. cbn. split; [lia|]. by exists 13%Z.
  - rewrite Hin. cbn. lia.
Defined.

Lemma batch_unmapped_end_unawaited_witness :
  ∃ p w', batch_read_remote_pages (x86 := x86_reference) ref_fuel ref_pool two_pages.1 ref_child
      [4096; 8192]%Z ref_ai ref_boot = Ret ([Some p; None], w') ∧
    only_unsignaled_added ref_boot w' ∧ p ∈ allocated w'.
Proof.
  destruct (batch_unmapped_end_unawaited (x86 := x86_reference) ref_fuel ref_pool two_pages.1 ref_child ref_ai
    [4096%Z] 8192 ref_boot ref_pool_covers) as (res & w' & E & Hres & Hu).
  - intros v Hv. apply list_elem_of_singleton in Hv as ->. exists (Some 40960%Z). by vm_compute.
  - by vm_compute.
  - vm_compute. lia.
  - apply Forall2_cons_inv_l in Hres as (r1 & res1 & H1 & Hres & ->).
    apply Forall2_cons_inv_l in Hres as (r2 & res2 & H2 & Hres & ->).
    apply Forall2_nil_inv_l in Hres as ->.
    assert (L1 : lookup_pg_table (x86 := x86_reference) two_pages.1 ref_child 4096 = Ret (Some 40960%Z)) by (by vm_compute).
    assert (L2 : lookup_pg_table (x86 := x86_reference) two_pages.1 ref_child 8192 = Ret None) by (by vm_compute).
    destruct H1 as [[H1 _]|(pa & p & _ & -> & Hp & _)]; [rewrite L1 in H1; discriminate H1|].
    destruct H2 as [[_ ->]|(pa2 & p2 & H2 & _)]; [|rewrite L2 in H2; discriminate H2].
    exists p, w'. change ([4096%Z] ++ [8192%Z]) with [4096; 8192]%Z in E. split; [exact E|]. split; [exact Hu|exact Hp].
Defined.
