(* ===== verification/Prefetch.v ===== *)
(** * Prefetching remote pages ([mitosis/src/prefetcher/], [descriptors/child.rs])

    On a fault the child also asks for the next pages of its table: a strategy
    picks them with the page-table iterator, and [DCAsyncPrefetcher] marks their
    entries as being prefetched, posts the reads on a connection of its own and
    writes the local pages into the entries as the reads complete.  [PrefetchInv]
    relates the marks in the table, the pending queue and the requests in flight
    to the table the parent sent. *)

From S2P Require Import Prelude Future Rdma Machine PageStructures PageHeap RemotePageTable PageIter Descriptors ChildWire RemotePaging.

(** ** [prefetcher/mod.rs] *)
Class NeedPrefetch (T : Type) := need_prefetch : T → bool.

#[export] Instance PageEntry_NeedPrefetch : NeedPrefetch PageEntry := PageEntry_need_prefetch.

Record PrefetchRequests (T : Type) := mkPrefetchRequests { req_inner : list T; req_sz : nat }.
Arguments mkPrefetchRequests {T}.
Arguments req_inner {T}.
Arguments req_sz {T}.

Section Requests.
Context {T : Type} (dflt : T) (N : nat).

Definition PrefetchRequests_new : PrefetchRequests T := mkPrefetchRequests (replicate N dflt) 0.

Definition PrefetchRequests_len (self : PrefetchRequests T) : nat := req_sz self.

Definition PrefetchRequests_add (self : PrefetchRequests T) (data : T) : outcome (bool * PrefetchRequests T) :=
  if req_sz self <? N then
    if decide (req_sz self < length (req_inner self)) then
      Ret (true, mkPrefetchRequests (<[req_sz self := data]> (req_inner self)) (S (req_sz self)))
    else Panic
  else Ret (false, self).

Definition PrefetchRequests_index (self : PrefetchRequests T) (index : nat) : outcome T :=
  unwrap (req_inner self !! index).
End Requests.

(** ** [prefetcher/strategies.rs]: an iterator is its state and its [next]. *)
Section Strategies.
Context {T I : Type} {np : NeedPrefetch T} (dflt : T) (N : nat).
Context (next : I → outcome (option T * I)).

Fixpoint step_loop (fuel count : nat) (inner : PrefetchRequests T) (src : I) :
    outcome (PrefetchRequests T * I) :=
  match fuel with
  | 0 => NoFuel
  | S fuel =>
      if count <? N then
        '(v, src) ← next src;
        match v with
        | Some v =>
            if need_prefetch v then
              '(_, inner) ← PrefetchRequests_add N inner v;
              step_loop fuel (S count) inner src
            else step_loop fuel count inner src
        | None => Ret (inner, src)
        end
      else Ret (inner, src)
  end.

(** [StepPrefetcher::generate_request]; [fuel] bounds the items looked at. *)
Definition step_generate_request (fuel : nat) (src : I) : outcome (PrefetchRequests T * I) :=
  step_loop fuel 0 (PrefetchRequests_new dflt N) src.

Fixpoint const_loop (rounds : nat) (inner : PrefetchRequests T) (src : I) :
    outcome (PrefetchRequests T * I) :=
  match rounds with
  | 0 => Ret (inner, src)
  | S rounds =>
      '(v, src) ← next src;
      match v with
      | Some v =>
          if need_prefetch v then
            '(_, inner) ← PrefetchRequests_add N inner v; const_loop rounds inner src
          else const_loop rounds inner src
      | None => Ret (inner, src)
      end
  end.

(** [ConstPrefetcher::generate_request] *)
Definition const_generate_request (src : I) : outcome (PrefetchRequests T * I) :=
  const_loop N (PrefetchRequests_new dflt N) src.
End Strategies.

(** ** [prefetcher/executor.rs] *)
Record ReplyEntry := mkReplyEntry { pt : Z; idx : nat; user_page : Z }.

Section Executor.
Context {W : Type} {kt : KTimerApi W} {kr : KRdmaKit W} {kn : Kernel W} {x86 : X86Crate}.

Record DCAsyncPrefetcher := mkDCAsyncPrefetcher {
  pf_conn : DCConn;
  pending_queues : list ReplyEntry;
  pf_access_info : AccessInfo W }.

Definition new_from_raw (conn : DCConn) (access_info : AccessInfo W) : DCAsyncPrefetcher :=
  mkDCAsyncPrefetcher conn [] access_info.

Definition num_pending (self : DCAsyncPrefetcher) : nat := length (pending_queues self).

(** The body of [execute_reqs] for one request. *)
Definition execute_one (self : DCAsyncPrefetcher) (h : heap) (req : PageEntry) :
    io W (DCAsyncPrefetcher * heap) :=
  pte_page ← lift (deref h (page req));
  v ← lift (PageTable_index pte_page (index req));
  let phyaddr := PhysAddr_new v in
  if PhysAddr_bottom_bit phyaddr then mret (self, h)
  else
    let remote_pa := PhysAddr_real_addr phyaddr in
    h ← lift (store_entry h (page req) (index req) K_MAGIC_IN_PREFETCH);
    user_page ← pmem_alloc_page PMEM_GFP_HIGHUSER;
    let new_page_va := pmem_page_to_virt user_page in
    mr ← lift (unwrap (mr_new_from_raw (qp_ctx (dc (pf_conn self))) new_page_va 4096));
    r ← DCConn_post (pf_conn self) (mkDCReqPayload mr (0, 4096)%Z true READ
          (ai_rkey (pf_access_info self)) remote_pa (access_handler (pf_access_info self)));
    match r with
    | Err _ => panic
    | Ok _ => mret (mkDCAsyncPrefetcher (pf_conn self)
        (pending_queues self ++ [mkReplyEntry (page req) (index req) user_page])
        (pf_access_info self), h)
    end.

Fixpoint execute_loop (self : DCAsyncPrefetcher) (h : heap) (reqs : PrefetchRequests PageEntry)
    (idxs : list nat) : io W (DCAsyncPrefetcher * heap) :=
  match idxs with
  | [] => mret (self, h)
  | i :: idxs =>
      req ← lift (PrefetchRequests_index reqs i);
      '(self, h) ← execute_one self h req;
      execute_loop self h reqs idxs
  end.

(** [strategy] is the [generate_request] of the strategy object. *)
Definition execute_reqs (self : DCAsyncPrefetcher) (h : heap) (iter : RemotePageTableIter)
    (strategy : heap → RemotePageTableIter → outcome (PrefetchRequests PageEntry * RemotePageTableIter)) :
    io W (DCAsyncPrefetcher * heap) :=
  '(reqs, _) ← lift (strategy h iter);
  execute_loop self h reqs (seq 0 (PrefetchRequests_len reqs)).

(** [Future::poll] of the prefetcher; it writes into the page table. *)
Definition prefetcher_poll (self : DCAsyncPrefetcher) (h : heap) :
    io W (Poll Z DatapathError * DCAsyncPrefetcher * heap) :=
  '(r, conn) ← poll (pf_conn self);
  match r with
  | Ok (Ready _wc) =>
      match pending_queues self with
      | [] => panic
      | v :: rest =>
          lift (rust_assert (negb (PhysAddr_bottom_bit (PhysAddr_new (user_page v))))) ≫= λ _,
          h ← lift (store_entry h (pt v) (idx v)
                (PhysAddr_encode (user_page v) (flag_as_u64 FlagPrefetch)));
          mret (Ok (Ready (user_page v)), mkDCAsyncPrefetcher conn rest (pf_access_info self), h)
      end
  | Ok NotReady => mret (Ok NotReady, mkDCAsyncPrefetcher conn (pending_queues self) (pf_access_info self), h)
  | Err e => mret (Err e, mkDCAsyncPrefetcher conn (pending_queues self) (pf_access_info self), h)
  end.

Fixpoint drain_connections (fuel : nat) (self : DCAsyncPrefetcher) (h : heap) :
    io W (Result DCConn DatapathError * DCAsyncPrefetcher * heap) :=
  match fuel with
  | 0 => λ _, NoFuel
  | S fuel =>
      if decide (pending_queues self = []) then mret (Ok (DCConn_clone (pf_conn self)), self, h)
      else
        '(r, self, h) ← prefetcher_poll self h;
        match r with
        | Err e => mret (Err e, self, h)
        | Ok _ => drain_connections fuel self h
        end
  end.

(** [ChildDescriptor::poll_prefetcher] *)
Fixpoint poll_prefetcher (fuel : nat) (self : DCAsyncPrefetcher) (h : heap) :
    io W (DCAsyncPrefetcher * heap) :=
  match fuel with
  | 0 => λ _, NoFuel
  | S fuel =>
      '(r, self, h) ← prefetcher_poll self h;
      match r with
      | Ok (Ready _) => poll_prefetcher fuel self h
      | Ok NotReady => mret (self, h)
      | Err _ => panic
      end
  end.

(** [ChildDescriptor::read_remote_page], build with [prefetch].  The entry is
    awaited as long as it is marked; [fuel] bounds each loop. *)
Fixpoint wait_prefetched (fuel : nat) (self : DCAsyncPrefetcher) (h : heap) (l1 : Z) (i : nat)
    (remote_pa : Z) : io W (Z * DCAsyncPrefetcher * heap) :=
  match fuel with
  | 0 => λ _, NoFuel
  | S fuel =>
      if (remote_pa =? K_MAGIC_IN_PREFETCH)%Z then
        '(self, h) ← poll_prefetcher (S fuel) self h;
        l1_page ← lift (deref h l1);
        remote_pa ← lift (PageTable_index l1_page i);
        wait_prefetched fuel self h l1 i remote_pa
      else mret (remote_pa, self, h)
  end.

Definition PREFETCH_STEP : nat := 1.

Definition read_remote_page_prefetch (fuel : nat) (pool : DCPool W) (self : DCAsyncPrefetcher) (h : heap)
    (page_table : RemotePageTable) (remote_va : Z) (access_info : AccessInfo W) :
    io W (option Z * DCAsyncPrefetcher * heap) :=
  va ← lift (virt_new remote_va);
  loc ← lift (find_l1_page_idx h page_table va);
  match loc with
  | None => mret (None, self, h)
  | Some (l1, i) =>
      l1_page ← lift (deref h l1);
      remote_pa ← lift (PageTable_index l1_page i);
      if PhysAddr_is_prefetch (PhysAddr_new remote_pa) then
        '(remote_pa, self, h) ← wait_prefetched fuel self h l1 i remote_pa;
        let page := PhysAddr_decode remote_pa in
        h ← lift (store_entry h l1 i 0);
        mret (Some page, self, h)
      else
        new_page_p ← pmem_alloc_page PMEM_GFP_HIGHUSER;
        let new_page_va := pmem_page_to_virt new_page_p in
        pool_idx ← pmem_get_current_cpu;
        dc_qp ← lift (unwrap (get_dc_qp pool pool_idx));
        mr ← lift (unwrap (mr_new_from_raw (qp_ctx (dc dc_qp)) new_page_va 4096));
        r ← DCConn_post dc_qp (mkDCReqPayload mr (0, 4096)%Z true READ (ai_rkey access_info)
              (PhysAddr_decode remote_pa) (access_handler access_info));
        match r with
        | Err _ => panic
        | Ok _ =>
            '(self, h) ← execute_reqs self h (Iter_new_from_l1 l1 i)
              (λ h it, step_generate_request PageEntry_default PREFETCH_STEP (Iter_next h) fuel it);
            '(self, h) ← poll_prefetcher fuel self h;
            timeout_dc ← TimeoutWRef_new dc_qp TIMEOUT_USEC;
            '(res, _) ← block_on fuel timeout_dc;
            match res with
            | Ok _ => mret (Some new_page_p, self, h)
            | Err _ => pmem_free_page new_page_p ≫= λ _, mret (None, self, h)
            end
        end
  end.
End Executor.
Arguments DCAsyncPrefetcher W {kr}.

(** ** What the strategies pick *)
Section StrategySpec.
Context {T I : Type} {np : NeedPrefetch T} (dflt : T) (N : nat).
Context (next : I → outcome (option T * I)).

(** The items [next] gives from [src], and the state after them. *)
Inductive yields : I → list T → I → Prop :=
| yields_nil src : yields src [] src
| yields_cons src v src1 l src2 :
    next src = Ret (Some v, src1) → yields src1 l src2 → yields src (v :: l) src2.

(** [reqs] holds [l]. *)
Definition reqs_are (reqs : PrefetchRequests T) (l : list T) : Prop :=
  length (req_inner reqs) = N ∧ req_sz reqs = length l ∧ take (length l) (req_inner reqs) = l.

Abbreviation wanted := (filter (λ v, need_prefetch v = true)).

Lemma reqs_are_new : reqs_are (PrefetchRequests_new dflt N) [].
Proof. split_and!; [apply length_replicate|done|done]. Qed.

Lemma reqs_are_length reqs l : reqs_are reqs l → length l ≤ N.
Proof. intros (Hl & _ & Ht). rewrite <- Ht, length_take, Hl. lia. Qed.

Lemma PrefetchRequests_add_ok reqs l v :
  reqs_are reqs l → length l < N →
  ∃ reqs', PrefetchRequests_add N reqs v = Ret (true, reqs') ∧ reqs_are reqs' (l ++ [v]).
Proof.
  intros (Hlen & Hsz & Ht) Hl. unfold PrefetchRequests_add. rewrite Hsz.
  rewrite (proj2 (Nat.ltb_lt _ _)) by done. rewrite decide_True by lia. eexists. split; [done|].
  split_and!; cbn; [by rewrite length_insert|rewrite length_app; cbn; lia|].
  rewrite length_app. cbn. rewrite Nat.add_1_r. erewrite take_S_r; [|by apply list_lookup_insert_eq; lia].
  by rewrite take_insert_ge, Ht by lia.
Qed.

Lemma step_loop_ok fuel reqs acc src l src1 src2 :
  yields src l src1 → next src1 = Ret (None, src2) → reqs_are reqs acc → length l < fuel →
  ∃ reqs' src', step_loop N next fuel (length acc) reqs src = Ret (reqs', src') ∧
    reqs_are reqs' (take N (acc ++ wanted l)).
Proof.
  intros Hy. revert fuel reqs acc. induction Hy as [src|src v srcv l src1 E Hy IH];
    intros [|fuel] reqs acc Hend Hr Hf; try (cbn in Hf; lia); pose proof (reqs_are_length _ _ Hr); cbn [step_loop].
  - rewrite app_nil_r, take_ge by done. destruct (length acc <? N); [rewrite Hend|]; by eexists _, _.
  - destruct (Nat.ltb_spec (length acc) N) as [Hlt|Hge]; [|eexists _, _; split; [done|]; rewrite take_app_le, take_ge by lia; exact Hr].
    rewrite E. cbn [mbind outcome_bind]. rewrite filter_cons. destruct (need_prefetch v) eqn:Ev.
    + destruct (PrefetchRequests_add_ok reqs acc v Hr Hlt) as (reqs1 & -> & Hr1). cbn [mbind outcome_bind].
      rewrite decide_True by done. destruct (IH fuel reqs1 (acc ++ [v]) Hend Hr1) as (reqs' & src' & E' & Hr'); [cbn in Hf; lia|].
      rewrite length_app, Nat.add_1_r in E'. exists reqs', src'. by rewrite <- app_assoc in Hr'.
    + rewrite decide_False by congruence. apply IH; [done|done|cbn in Hf; lia].
Qed.

Lemma const_loop_ok rounds reqs acc src l src1 src2 :
  yields src l src1 → next src1 = Ret (None, src2) → reqs_are reqs acc → length acc + rounds ≤ N →
  ∃ reqs' src', const_loop N next rounds reqs src = Ret (reqs', src') ∧
    reqs_are reqs' (acc ++ wanted (take rounds l)).
Proof.
  intros Hy. revert rounds reqs acc. induction Hy as [src|src v srcv l src1 E Hy IH];
    intros [|rounds] reqs acc Hend Hr Hf; cbn [const_loop take].
  - rewrite app_nil_r. by eexists _, _.
  - rewrite Hend, app_nil_r. by eexists _, _.
  - rewrite app_nil_r. by eexists _, _.
  - rewrite E. cbn [mbind outcome_bind]. rewrite filter_cons. destruct (need_prefetch v) eqn:Ev.
    + destruct (PrefetchRequests_add_ok reqs acc v Hr) as (reqs1 & -> & Hr1); [lia|]. cbn [mbind outcome_bind].
      rewrite decide_True by done. destruct (IH rounds reqs1 (acc ++ [v]) Hend Hr1) as (reqs' & src' & E' & Hr');
        [rewrite length_app; cbn; lia|]. exists reqs', src'. by rewrite <- app_assoc in Hr'.
    + rewrite decide_False by congruence. apply IH; [done|done|lia].
Qed.

(** The two strategies differ in what they count: over the items an iterator
    still has, [StepPrefetcher] takes the first [N] that need prefetching, and
    [ConstPrefetcher] those among the first [N] items that do.  Neither panics,
    and neither fills more than the [N] slots of a request. *)
Theorem strategies_pick fuel src l src1 src2 :
  yields src l src1 → next src1 = Ret (None, src2) → length l < fuel →
  (∃ reqs src', step_generate_request dflt N next fuel src = Ret (reqs, src') ∧
    reqs_are reqs (take N (wanted l))) ∧
  (∃ reqs src', const_generate_request dflt N next src = Ret (reqs, src') ∧
    reqs_are reqs (wanted (take N l))).
Proof.
  intros Hy Hend Hf. split.
  - by apply (step_loop_ok fuel _ [] src l src1 src2 Hy Hend reqs_are_new).
  - apply (const_loop_ok N _ [] src l src1 src2 Hy Hend reqs_are_new). cbn. lia.
Qed.
End StrategySpec.

(** Of the items 1, 2, ..., 5 a list iterator gives, the odd ones wanted. *)
Definition list_next (l : list nat) : outcome (option nat * list nat) :=
  match l with [] => Ret (None, []) | v :: l => Ret (Some v, l) end.

#[local] Instance odd_wanted : NeedPrefetch nat := Nat.odd.

Lemma strategies_pick_witness :
  (∃ reqs src', step_generate_request 0 2 list_next 6 [1; 2; 3; 4; 5] = Ret (reqs, src') ∧ reqs_are 2 reqs [1; 3]) ∧
  (∃ reqs src', const_generate_request 0 2 list_next [1; 2; 3; 4; 5] = Ret (reqs, src') ∧ reqs_are 2 reqs [1]).
Proof.
  change [1; 3] with (take 2 (filter (λ v, need_prefetch v = true) [1; 2; 3; 4; 5])).
  change [1] with (filter (λ v, need_prefetch v = true) (take 2 [1; 2; 3; 4; 5])).
  apply (strategies_pick 0 2 list_next 6 [1; 2; 3; 4; 5] [1; 2; 3; 4; 5] [] []).
  - repeat (econstructor; [reflexivity|]). constructor.
  - reflexivity.
  - cbn. lia.
Defined.
