(* ===== verification/PrefetchInv.v ===== *)
(** * The prefetcher keeps its page table straight

    The invariant of [DCAsyncPrefetcher]: every entry marked as being prefetched
    has exactly one pending reply and one request in flight, in the same order,
    that reads the remote page the parent recorded there; every prefetched page
    sits in the entry it was read for.  Executing requests and polling keep it,
    and a drained prefetcher leaves a table that can be dropped. *)

From S2P Require Import Prelude Future Rdma Machine PageStructures PageHeap RemotePageTable PageIter Descriptors ChildWire RemotePaging Prefetch.
Import PhysAddrFacts.

(** ** Entries by page number *)
Lemma page_location h r m n p :
  pt_inv h → Rep h r m → is_vpn n → tab h r 3 (n / 512) = Some p →
  ∃ t e, h !! p = Some t ∧ entries t !! Z.to_nat (n mod 512) = Some e ∧
    m !! n = (if decide (e = 0%Z) then None else Some e) ∧
    ∀ v, ∃ h', store_entry h p (Z.to_nat (n mod 512)) v = Ret h' ∧ pt_inv h' ∧
      Rep h' r (store_page n v m) ∧ others_kept h h' r ∧ dom h' = dom h ∧
      ∀ q, tab h' r 3 q = tab h r 3 q.
Proof.
  intros Hinv HR Hn Hp. pose proof (rep_root _ _ _ HR) as Hroot.
  destruct (tab_table h Hinv r Hroot 3 (n / 512) p ltac:(lia) Hp) as (t & Ht & Hd).
  assert (Hl : level t = One) by (destruct (level t); cbn in Hd; lia || done).
  assert (Hi : Z.to_nat (n mod 512) < ENTRY_COUNT)
    by (pose proof (Z.mod_pos_bound n 512); unfold ENTRY_COUNT; lia).
  destruct (table_entry h p t _ (inv_wf _ Hinv) Ht Hi) as [e He].
  assert (Hpath : vpn_path n = path_of 3 (n / 512) ++ [Z.to_nat (n mod 512)]) by (by rewrite vpn_path_of).
  exists t, e. split_and!; [done..| |].
  - rewrite (rep_lookup _ _ _ HR n Hn), Hpath, walk_snoc. unfold tab in Hp. rewrite Hp. cbn.
    by apply (child_entry h p t).
  - intros v. exists (stored h p t (Z.to_nat (n mod 512)) v).
    pose proof (λ r' m' HR', stored_Rep h r r' n _ _ p t v m' (inv_wf _ Hinv) Hroot Hn Hpath Hp Ht Hl HR') as Hst.
    split_and!.
    + unfold store_entry. rewrite (deref_Some _ _ _ Ht). cbn. unfold PageTable_index_mut.
      by rewrite decide_True by (by eapply lookup_lt_Some).
    + destruct Hinv. split; [by apply stored_wf|by apply stored_inner].
    + specialize (Hst r m HR). by rewrite decide_True in Hst.
    + intros r' m' Hne HR'. specialize (Hst r' m' HR'). by rewrite decide_False in Hst.
    + unfold stored. rewrite dom_insert_L. assert (p ∈ dom h) by (by apply elem_of_dom). set_solver.
    + intros q. unfold tab. destruct Hroot as (t4 & Ht4 & Hl4).
      apply (stored_walk_tables h p t _ v (inv_wf _ Hinv) Ht Hl r t4); [done|]. rewrite path_of_length, Hl4. cbn. lia.
Qed.

(** ** The flag bits of the three states of an entry *)
Lemma bottom_bit_magic : PhysAddr_bottom_bit (PhysAddr_new K_MAGIC_IN_PREFETCH) = true.
Proof. done. Qed.

Lemma bottom_bit_page p : (8 | p)%Z → PhysAddr_bottom_bit (PhysAddr_new p) = false.
Proof. intros H. unfold PhysAddr_bottom_bit. rewrite is_prefetch_testbit. by apply aligned8_testbit. Qed.

Definition fetched_entry (p : Z) : Z := PhysAddr_encode p (flag_as_u64 FlagPrefetch).

Lemma bottom_bit_fetched p : (8 | p)%Z → PhysAddr_bottom_bit (PhysAddr_new (fetched_entry p)) = true.
Proof.
  intros H. unfold PhysAddr_bottom_bit, fetched_entry. rewrite is_prefetch_testbit.
  by rewrite encode_flag_testbit by (done || lia).
Qed.

Lemma fetched_entry_pos p : (0 < p)%Z → (0 < fetched_entry p)%Z.
Proof. intros Hp. apply encode_pos; [done|]. unfold is_u64. cbn. lia. Qed.

(** A fetched page is more than the mark of a fetch under way. *)
Lemma fetched_entry_magic p : (0 < p)%Z → (8 | p)%Z → fetched_entry p ≠ K_MAGIC_IN_PREFETCH.
Proof.
  intros Hp H8 E. assert (Hb : ∀ i, (3 ≤ i)%Z → Z.testbit p i = false).
  { intros i Hi. apply (f_equal (λ z, Z.testbit z i)) in E. unfold fetched_entry in E.
    rewrite encode_testbit in E by lia. unfold K_MAGIC_IN_PREFETCH in E. change (flag_as_u64 FlagPrefetch) with 1%Z in E. rewrite !(Z.bits_above_log2 1) in E by (cbn; lia).
    by apply orb_false_elim in E as [? _]. }
  assert (p = 0%Z); [|lia]. apply Z.bits_inj_0. intros i.
  destruct (decide (i < 0)%Z); [by apply Z.testbit_neg_r|].
  destruct (decide (i < 3)%Z); [by apply aligned8_testbit; [|lia]|]. apply Hb. lia.
Qed.

Section PrefetchInv.
Context {W : Type} {kt : KTimerApi W} {kt_ok : KTimerOk W} {kr : KRdmaKit W} {nic : NicOk W}.
Context {kn : Kernel W} {kn_ok : KernelOk W}.

(** A fetch of page number [f_no] into the local page [f_page] by request [f_wr]. *)
Record fetch := mkFetch { f_no : Z; f_page : Z; f_wr : Wr W }.

(** The request reads the page the parent recorded, without its flag bits,
    into the page of the fetch. *)
Record fetch_ok (m0 : gmap Z Z) (ai : AccessInfo W) (f : fetch) : Prop := {
  fo_entry : ∃ e mr, m0 !! f_no f = Some e ∧ PhysAddr_bottom_bit (PhysAddr_new e) = false ∧
    get_virt_addr mr = pmem_page_to_virt (f_page f) ∧
    f_wr f = mkWr _ _ READ (Some (access_handler ai)) mr (0, 4096)%Z true (PhysAddr_decode e) (ai_rkey ai);
  fo_vpn : is_vpn (f_no f);
  fo_page : (0 < f_page f)%Z ∧ (8 | f_page f)%Z ∧ is_u64 (f_page f);
}.

(** [m] is [m0] with the fetches that are done in their entries and those in
    flight marked. *)
Record marked (m0 : gmap Z Z) (dn fl : list fetch) (m : gmap Z Z) : Prop := {
  mk_flight f : f ∈ fl → m !! f_no f = Some K_MAGIC_IN_PREFETCH;
  mk_done f : f ∈ dn → m !! f_no f = Some (fetched_entry (f_page f));
  mk_rest n : n ∉ f_no <$> (dn ++ fl) → m !! n = m0 !! n;
}.

(** The reply the prefetcher has queued for a fetch in flight. *)
Definition queued (h : heap) (r : Z) (e : ReplyEntry) (f : fetch) : Prop :=
  user_page e = f_page f ∧ idx e = Z.to_nat (f_no f mod 512) ∧ tab h r 3 (f_no f / 512) = Some (pt e).

Record PrefetchInv (m0 : gmap Z Z) (r : Z) (self : DCAsyncPrefetcher W) (h : heap) (w : W)
    (dn fl : list fetch) (m : gmap Z Z) : Prop := {
  pi_heap : pt_inv h;
  pi_rep : Rep h r m;
  pi_marked : marked m0 dn fl m;
  pi_fetches : Forall (fetch_ok m0 (pf_access_info self)) (dn ++ fl);
  pi_nos : NoDup (f_no <$> (dn ++ fl));
  pi_pages : NoDup (f_page <$> (dn ++ fl));
  pi_alloc : ∀ f, f ∈ dn ++ fl → f_page f ∈ allocated w;
  pi_queue : outstanding (dc (pf_conn self)) w = f_wr <$> fl;
  pi_pending : Forall2 (queued h r) (pending_queues self) fl;
}.

Lemma queued_tab h h' r e f : (∀ q, tab h' r 3 q = tab h r 3 q) → queued h r e f → queued h' r e f.
Proof. intros Ht (H1 & H2 & H3). split_and!; [done..|by rewrite Ht]. Qed.

Lemma pending_tab h h' r q fl :
  (∀ q, tab h' r 3 q = tab h r 3 q) → Forall2 (queued h r) q fl → Forall2 (queued h' r) q fl.
Proof. intros Ht Hq. eapply Forall2_impl; [exact Hq|]. intros e f. by apply queued_tab. Qed.

Lemma marked_add m0 dn fl m f :
  marked m0 dn fl m → f_no f ∉ f_no <$> (dn ++ fl) →
  marked m0 dn (fl ++ [f]) (<[f_no f := K_MAGIC_IN_PREFETCH]> m).
Proof.
  intros [H1 H2 H3] Hn. split.
  - intros g [Hg|Hg%list_elem_of_singleton]%elem_of_app; [|subst; apply lookup_insert_eq].
    destruct (decide (f_no f = f_no g)) as [->|]; [apply lookup_insert_eq|]. rewrite lookup_insert_ne by done. by apply H1.
  - intros g Hg. rewrite lookup_insert_ne; [by apply H2|]. intros E. apply Hn. rewrite E.
    apply list_elem_of_fmap_2, elem_of_app. by left.
  - intros n Hno. rewrite app_assoc, fmap_app in Hno. cbn in Hno. rewrite lookup_insert_ne by set_solver.
    apply H3. set_solver.
Qed.

Lemma marked_done m0 dn fl m f :
  marked m0 dn (f :: fl) m → NoDup (f_no <$> (dn ++ f :: fl)) →
  marked m0 (dn ++ [f]) fl (<[f_no f := fetched_entry (f_page f)]> m).
Proof.
  intros [H1 H2 H3] Hnd. rewrite fmap_app in Hnd. apply NoDup_app in Hnd as (_ & Hd & Hf).
  cbn in Hf. apply NoDup_cons in Hf as [Hf _]. split.
  - intros g Hg. rewrite lookup_insert_ne; [apply H1; by right|]. intros E. apply Hf. rewrite E. by apply list_elem_of_fmap_2.
  - intros g [Hg|Hg%list_elem_of_singleton]%elem_of_app; [|subst; apply lookup_insert_eq].
    rewrite lookup_insert_ne; [by apply H2|]. intros E. apply (Hd (f_no g)); [by apply list_elem_of_fmap_2|].
    rewrite <- E. left.
  - intros n Hno. rewrite <- app_assoc in Hno. cbn in Hno. rewrite lookup_insert_ne; [by apply H3|].
    intros <-. apply Hno. rewrite fmap_app. apply elem_of_app. right. left.
Qed.

(** A page whose entry has its bottom bit clear has not been touched. *)
Lemma marked_clear m0 ai dn fl m n v :
  marked m0 dn fl m → Forall (fetch_ok m0 ai) (dn ++ fl) → m !! n = Some v →
  PhysAddr_bottom_bit (PhysAddr_new v) = false → (n ∉ f_no <$> (dn ++ fl)) ∧ m0 !! n = Some v.
Proof.
  intros [H1 H2 H3] Hok Hv Hb.
  assert (Hn : n ∉ f_no <$> (dn ++ fl)).
  { intros (f & -> & Hf)%list_elem_of_fmap. rewrite Forall_forall in Hok. destruct (Hok f Hf) as [_ _ (_ & H8 & _)].
    apply elem_of_app in Hf as [Hf|Hf].
    - rewrite (H2 f Hf) in Hv. injection Hv as <-. by rewrite bottom_bit_fetched in Hb.
    - rewrite (H1 f Hf) in Hv. injection Hv as <-. done. }
  by rewrite <- H3.
Qed.

(** Posting succeeds: the send queue has room. *)
Definition posts_succeed : Prop := ∀ qp ep mr range sig raddr key w r w',
  post_send_dc_read qp ep mr range sig raddr key w = Ret (r, w') → r = Ok ().

(** One request: an entry already fetched or being fetched is left alone, any
    other is marked and its read posted. *)
Lemma execute_one_ok m0 r self h w dn fl m n req :
  posts_succeed → PrefetchInv m0 r self h w dn fl m → size (allocated w) < mem_pages →
  is_vpn n → is_Some (m0 !! n) → tab h r 3 (n / 512) = Some (page req) → index req = Z.to_nat (n mod 512) →
  ∃ self' h' w' fl' m', execute_one self h req w = Ret ((self', h'), w') ∧
    PrefetchInv m0 r self' h' w' dn fl' m' ∧ size (allocated w') ≤ S (size (allocated w)) ∧
    pf_conn self' = pf_conn self ∧ pf_access_info self' = pf_access_info self ∧
    others_kept h h' r ∧ (∀ q, tab h' r 3 q = tab h r 3 q).
Proof.
  intros Hpost Hpi Hfree Hn Hm0 Htab Hidx. pose proof Hpi as [Hinv HR Hm Hok Hnos Hpgs Hal Hq Hpend].
  destruct (page_location h r m n (page req) Hinv HR Hn Htab) as (t & v & Ht & Hv & Hmn & Hst).
  unfold execute_one. rewrite Hidx, (deref_Some _ _ _ Ht). unfold mbind at 1, io_bind at 1, lift at 1.
  rewrite (PageTable_index_Some _ _ _ Hv). unfold mbind at 1, io_bind at 1, lift at 1. cbv zeta.
  destruct (PhysAddr_bottom_bit (PhysAddr_new v)) eqn:Hb.
  { exists self, h, w, fl, m. split_and!; [done|done|lia|done|done|by intros r' m' _|done]. }
  destruct (decide (v = 0%Z)) as [->|Hne].
  { (* an unmapped entry: the page was not touched, so the parent had none either *)
    exfalso. destruct (decide (n ∈ f_no <$> (dn ++ fl))) as [(f & -> & Hf)%list_elem_of_fmap|Hnf].
    - apply elem_of_app in Hf as [Hf|Hf]; [by rewrite (mk_done _ _ _ _ Hm f Hf) in Hmn|by rewrite (mk_flight _ _ _ _ Hm f Hf) in Hmn].
    - rewrite (mk_rest _ _ _ _ Hm n Hnf) in Hmn. rewrite Hmn in Hm0. by destruct Hm0. }
  destruct (marked_clear _ _ _ _ _ _ _ Hm Hok Hmn Hb) as [Hnf Hm0n].
  destruct (Hst K_MAGIC_IN_PREFETCH) as (h1 & -> & Hinv1 & HR1 & Hoth & _ & Htabs).
  unfold mbind at 1, io_bind at 1, lift at 1.
  destruct (alloc_page_ok PMEM_GFP_HIGHUSER w Hfree) as (p & w1 & E1 & Hp & Ha1 & Hu64 & Hp0 & H8 & _ & Hq1).
  rewrite (io_bind_run _ _ _ _ _ E1).
  destruct (mr_new_from_raw_ok (qp_ctx (dc (pf_conn self))) (pmem_page_to_virt p) 4096) as (mr & Emr & Hva).
  rewrite Emr. unfold unwrap, mbind at 1, io_bind at 1, lift at 1. unfold DCConn_post. cbn [dc_op dc_endpoint dc_mr dc_range dc_signaled dc_raddr dc_rkey].
  edestruct (post_dc_read_ok (dc (pf_conn self)) (access_handler (pf_access_info self)) mr (0, 4096)%Z true
    (PhysAddr_real_addr (PhysAddr_new v)) (ai_rkey (pf_access_info self)) w1) as (rp & w2 & E2 & _ & Hq2 & _).
  rewrite (io_bind_run _ _ _ _ _ E2). pose proof (Hpost _ _ _ _ _ _ _ _ _ _ E2) as ->.
  set (f := mkFetch n p (mkWr _ _ READ (Some (access_handler (pf_access_info self))) mr (0, 4096)%Z true
    (PhysAddr_decode v) (ai_rkey (pf_access_info self)))).
  pose proof (post_dc_read_pages _ _ _ _ _ _ _ _ _ _ E2) as Ha2. rewrite Ha1 in Ha2.
  eexists _, h1, w2, (fl ++ [f]), _. split; [done|]. split; [|split_and!; [|done|done|done|done]].
  - split; cbn [pf_access_info pf_conn pending_queues].
    + exact Hinv1.
    + exact HR1.
    + by apply (marked_add m0 dn fl m f).
    + rewrite app_assoc. apply Forall_app. split; [done|]. apply Forall_singleton.
      split; [exists v, mr; done|done|]. unfold is_u64 in Hu64. cbn. split_and!; [lia|done|exact Hu64].
    + rewrite app_assoc, fmap_app. cbn. apply NoDup_app. split_and!; [done|set_solver|apply NoDup_singleton].
    + rewrite app_assoc, fmap_app. cbn. apply NoDup_app. split_and!; [done| |apply NoDup_singleton].
      intros p' (g & -> & Hg)%list_elem_of_fmap Hp'%list_elem_of_singleton. apply Hp. rewrite <- Hp'. by apply Hal.
    + rewrite app_assoc, Ha2. intros g [Hg|Hg%list_elem_of_singleton]%elem_of_app; [apply Hal in Hg; set_solver|subst g; cbn; set_solver].
    + rewrite Hq2, Hq1, Hq, fmap_app. done.
    + apply Forall2_app; [by eapply pending_tab|]. apply Forall2_cons_2; [|by apply Forall2_nil_2].
      split_and!; [done|done|]. etransitivity; [apply Htabs|exact Htab].
  - rewrite Ha2, size_union by set_solver. rewrite size_singleton. lia.
Qed.

(** A request names an entry of a page the parent recorded. *)
Definition req_ok (m0 : gmap Z Z) (h : heap) (r : Z) (req : PageEntry) : Prop :=
  ∃ n, is_vpn n ∧ is_Some (m0 !! n) ∧ tab h r 3 (n / 512) = Some (page req) ∧ index req = Z.to_nat (n mod 512).

Lemma execute_loop_ok m0 r self h w dn fl m reqs idxs l :
  posts_succeed → PrefetchInv m0 r self h w dn fl m → size (allocated w) + length idxs ≤ mem_pages →
  Forall (λ i, i < length l) idxs → take (length l) (req_inner reqs) = l → Forall (req_ok m0 h r) l →
  ∃ self' h' w' fl' m', execute_loop self h reqs idxs w = Ret ((self', h'), w') ∧
    PrefetchInv m0 r self' h' w' dn fl' m' ∧ size (allocated w') ≤ length idxs + size (allocated w) ∧
    pf_conn self' = pf_conn self ∧ pf_access_info self' = pf_access_info self ∧
    others_kept h h' r ∧ (∀ q, tab h' r 3 q = tab h r 3 q).
Proof.
  intros Hpost Hpi Hfree Hidx Hl Hreq. revert self h w fl m Hpi Hfree Hreq.
  induction idxs as [|i idxs IH]; intros self h w fl m Hpi Hfree Hreq.
  { exists self, h, w, fl, m. split_and!; [done|done|lia|done|done|by intros r' m' _|done]. }
  apply Forall_cons in Hidx as [Hi Hidx]. cbn [length] in Hfree.
  destruct (lookup_lt_is_Some_2 l i Hi) as [req Hreqi].
  assert (Hr : req_inner reqs !! i = Some req) by (by rewrite <- Hl, lookup_take_lt in Hreqi).
  rewrite Forall_forall in Hreq. destruct (Hreq req) as (n & Hn & Hm0 & Ht & Hx); [by eapply list_elem_of_lookup_2|].
  destruct (execute_one_ok m0 r self h w dn fl m n req Hpost Hpi) as
    (self1 & h1 & w1 & fl1 & m1 & E1 & Hpi1 & Hs1 & Hc1 & Ha1 & Ho1 & Ht1); [lia|done..|].
  destruct (IH Hidx self1 h1 w1 fl1 m1 Hpi1) as (self' & h' & w' & fl' & m' & E' & Hpi' & Hs' & Hc' & Ha' & Ho' & Ht'); [lia| |].
  { apply Forall_forall. intros req' Hin. destruct (Hreq req' Hin) as (n' & ? & ? & ? & ?). exists n'. by rewrite Ht1. }
  exists self', h', w', fl', m'. cbn [execute_loop length]. unfold PrefetchRequests_index. rewrite Hr.
  unfold unwrap, mbind at 1, io_bind at 1, lift at 1. rewrite (io_bind_run _ _ _ _ _ E1).
  split_and!; [done|done|lia|congruence|congruence| |intros q; by rewrite Ht'].
  intros r' m'' Hne HR. by apply Ho', Ho1.
Qed.

(** The items an iterator still has are the pages after its position. *)
Lemma iter_yields k h r m it pos :
  pt_inv h → Rep h r m → iter_pos h r it pos → size (pages_after m pos) ≤ k →
  ∃ l it1 it2, yields (Iter_next h) it l it1 ∧ Iter_next h it1 = Ret (None, it2) ∧ length l ≤ k ∧
    Forall (λ pe, ∃ n, entry_at h r m n pe) l.
Proof.
  intros Hinv HR. revert it pos. induction k as [|k IH]; intros it pos Hpos Hk;
    destruct (Iter_next_ok h Hinv r m HR it pos Hpos) as (res & it' & E & Hres); destruct res as [pe|].
  - destruct Hres as (n & Hn & Hat & _ & _). pose proof (pages_after_lt m pos n _ Hn (proj1 Hat)). lia.
  - exists [], it, it'. split_and!; [constructor|done|cbn; lia|constructor].
  - destruct Hres as (n & Hn & Hat & _ & Hpos'). pose proof (pages_after_lt m pos n _ Hn (proj1 Hat)).
    destruct (IH it' n Hpos') as (l & it1 & it2 & Hy & Hend & Hl & HF); [lia|].
    exists (pe :: l), it1, it2. split_and!; [by econstructor|done|cbn; lia|constructor; [by exists n|done]].
  - exists [], it, it'. split_and!; [constructor|done|cbn; lia|constructor].
Qed.

Lemma marked_dom m0 ai dn fl m :
  marked m0 dn fl m → Forall (fetch_ok m0 ai) (dn ++ fl) → dom m = dom m0.
Proof.
  intros [H1 H2 H3] Hok. rewrite Forall_forall in Hok. apply set_eq. intros n. rewrite !elem_of_dom.
  destruct (decide (n ∈ f_no <$> (dn ++ fl))) as [(f & -> & Hf)%list_elem_of_fmap|Hn]; [|by rewrite H3].
  destruct (Hok f Hf) as [(e & mr & He & _) _ _]. rewrite He.
  apply elem_of_app in Hf as [Hf|Hf]; [rewrite (H2 f Hf)|rewrite (H1 f Hf)]; split; by eauto.
Qed.

(** [execute_reqs] with the strategy the fault handler uses. *)
Definition step_strategy (fuel N : nat) (h : heap) (it : RemotePageTableIter) :=
  step_generate_request PageEntry_default N (Iter_next h) fuel it.

Lemma execute_reqs_ok fuel N m0 r self h w dn fl m it pos :
  posts_succeed → PrefetchInv m0 r self h w dn fl m → size (allocated w) + N ≤ mem_pages →
  iter_pos h r it pos → size m0 < fuel →
  ∃ self' h' w' fl' m', execute_reqs self h it (step_strategy fuel N) w = Ret ((self', h'), w') ∧
    PrefetchInv m0 r self' h' w' dn fl' m' ∧ size (allocated w') ≤ N + size (allocated w) ∧
    pf_conn self' = pf_conn self ∧ pf_access_info self' = pf_access_info self ∧
    others_kept h h' r ∧ (∀ q, tab h' r 3 q = tab h r 3 q).
Proof.
  intros Hpost Hpi Hfree Hpos Hfuel. pose proof Hpi as [Hinv HR Hm Hok _ _ _ _ _].
  pose proof (marked_dom _ _ _ _ _ Hm Hok) as Hdom.
  assert (Hsz : size (pages_after m pos) ≤ size m0).
  { rewrite <- (size_dom m0), <- Hdom, size_dom. apply map_subseteq_size, map_filter_subseteq. }
  destruct (iter_yields (size m0) h r m it pos Hinv HR Hpos Hsz) as (l & it1 & it2 & Hy & Hend & Hl & HF).
  destruct (step_loop_ok N (Iter_next h) fuel _ [] it l it1 it2 Hy Hend (reqs_are_new PageEntry_default N))
    as (reqs & it' & E & Hlen & Hreq & Htake); [lia|].
  set (l' := take N ([] ++ filter (λ v, need_prefetch v = true) l)) in *.
  assert (Hl' : length l' ≤ N) by (unfold l'; rewrite length_take; lia).
  destruct (execute_loop_ok m0 r self h w dn fl m reqs (seq 0 (length l')) l' Hpost Hpi)
    as (self' & h' & w' & fl' & m' & E' & Hpi' & Hs' & Hrest).
  - rewrite length_seq. lia.
  - apply Forall_forall. intros i Hi%elem_of_seq. lia.
  - done.
  - apply Forall_forall. intros pe Hpe. unfold l' in Hpe. apply elem_of_take in Hpe as (i & Hpe & _).
    apply list_elem_of_lookup_2, list_elem_of_filter in Hpe as [_ Hpe]. rewrite Forall_forall in HF.
    destruct (HF pe Hpe) as (n & Hn & Ht & Hi). exists n.
    split_and!; [apply (rep_domain _ _ _ HR); by eauto| |done|done].
    apply elem_of_dom. rewrite <- Hdom. apply elem_of_dom. by eauto.
  - exists self', h', w', fl', m'. split; [|rewrite length_seq in Hs'; split_and!; [done|lia|apply Hrest..]].
    unfold execute_reqs, step_strategy, step_generate_request. cbn [length] in E. rewrite E.
    unfold mbind at 1, io_bind at 1, lift at 1. unfold PrefetchRequests_len. by rewrite Hreq.
Qed.

Lemma fetches_signaled m0 ai fl : Forall (fetch_ok m0 ai) fl → all_signaled (f_wr <$> fl).
Proof.
  intros Hok. apply Forall_fmap. eapply Forall_impl; [exact Hok|].
  intros f [(e & mr & _ & _ & _ & Hw) _ _]. cbn. by rewrite Hw.
Qed.

(** What a poll does: nothing, or the oldest fetch in flight is done. *)
Lemma prefetcher_poll_ok m0 r self h w dn fl m :
  PrefetchInv m0 r self h w dn fl m →
  ∃ res self' h' w', prefetcher_poll self h w = Ret ((res, self', h'), w') ∧
    allocated w' = allocated w ∧ pf_conn self' = pf_conn self ∧ pf_access_info self' = pf_access_info self ∧
    others_kept h h' r ∧ (∀ q, tab h' r 3 q = tab h r 3 q) ∧
    match res with
    | Ok (Ready p) => ∃ f fl', fl = f :: fl' ∧ p = f_page f ∧
        PrefetchInv m0 r self' h' w' (dn ++ [f]) fl' (<[f_no f := fetched_entry (f_page f)]> m)
    | _ => PrefetchInv m0 r self' h' w' dn fl m
    end.
Proof.
  intros Hpi. pose proof Hpi as [Hinv HR Hm Hok Hnos Hpgs Hal Hq Hpend].
  pose proof Hok as Hsig. apply Forall_app in Hsig as [_ Hsig%fetches_signaled].
  destruct (DCConn_poll_ok (pf_conn self) w) as (res & w' & E & _ & Hres); [by rewrite Hq|].
  pose proof (DCConn_poll_pages _ _ _ _ _ E) as Ha. unfold prefetcher_poll. rewrite (io_bind_run _ _ _ _ _ E).
  assert (Hsame : outstanding (dc (pf_conn self)) w' = outstanding (dc (pf_conn self)) w →
    PrefetchInv m0 r (mkDCAsyncPrefetcher (pf_conn self) (pending_queues self) (pf_access_info self)) h w' dn fl m).
  { intros Hs. split; cbn; [done..|by rewrite Ha|by rewrite Hs|done]. }
  destruct res as [[wc|]|e]; [| |].
  - destruct Hres as (_ & wr & rest & Hout & Hout' & _). rewrite Hq in Hout.
    destruct fl as [|f fl]; [done|]. cbn in Hout. injection Hout as <- <-.
    apply Forall2_cons_inv_r in Hpend as (v & q & (Hpg & Hx & Htab) & Hpend & Eq). rewrite Eq.
    assert (Hf : fetch_ok m0 (pf_access_info self) f) by (apply Forall_app in Hok as [_ Hok]; by apply Forall_cons in Hok as [? _]).
    destruct Hf as [_ Hn (Hpos & H8 & _)]. rewrite Hpg, (bottom_bit_page _ H8).
    unfold mbind at 1, io_bind at 1, lift at 1, rust_assert at 1. cbn [negb].
    destruct (page_location h r m (f_no f) (pt v) Hinv HR Hn Htab) as (t & e & _ & _ & _ & Hst).
    destruct (Hst (fetched_entry (f_page f))) as (h' & Es & Hinv' & HR' & Hoth & _ & Htabs).
    fold (fetched_entry (f_page f)). rewrite Hx, Es. unfold mbind at 1, io_bind at 1, lift at 1.
    eexists (Ok (Ready (f_page f))), _, h', w'. split; [done|]. split_and!; [done..|].
    exists f, fl. split_and!; [done|done|]. unfold store_page in HR'.
    pose proof (fetched_entry_pos _ Hpos). rewrite decide_False in HR' by lia.
    split; cbn [pf_access_info pf_conn pending_queues].
    + exact Hinv'.
    + exact HR'.
    + by apply marked_done.
    + by rewrite <- app_assoc.
    + by rewrite <- app_assoc.
    + by rewrite <- app_assoc.
    + rewrite <- app_assoc, Ha. exact Hal.
    + exact Hout'.
    + by eapply pending_tab.
  - eexists (Ok NotReady), _, h, w'. split; [done|]. split_and!; [done..|by intros r' m' _|done|by apply Hsame].
  - eexists (Err e), _, h, w'. split; [done|]. split_and!; [done..|by intros r' m' _|done|by apply Hsame].
Qed.
End PrefetchInv.
Arguments fetch W {kr}.
