(* ===== verification/PrefetchRead.v ===== *)
(** * Faults and the prefetcher

    Histories of a prefetcher, draining it before its table is dropped, and the
    page fault of a child built with prefetching: a page that was prefetched is
    handed out once, taken out of the table, and it is the page the prefetch of
    the faulting address was told to read into. *)

From S2P Require Import Prelude Future Bytes Rdma Machine Datagram Rpc RpcSpec RpcCall PageStructures PageHeap RemotePageTable PageIter PageDrop Descriptors ChildWire RemotePaging Prefetch PrefetchInv.
Import PhysAddrFacts.

Section PrefetchRead.
Context {W : Type} {kt : KTimerApi W} {kt_ok : KTimerOk W} {kr : KRdmaKit W} {nic : NicOk W}.
Context {kn : Kernel W} {kn_ok : KernelOk W}.

(** The card answers: while a completion is due it comes within [K] polls. *)
Context {live : W → Prop} {lag : W → nat} {K : nat} (Hlc : LiveCard live lag K).

(** How many polls it takes at most until [fl] is done *)
Definition polls_left (fl : list (fetch W)) (w : W) : nat := length fl * (K + 1) + lag w.

Lemma conn_poll_inv (conn : DCConn) w r conn' w' :
  poll conn w = Ret ((r, conn'), w') → ∃ rp, poll_send_cq (dc conn) 1 w = Ret (rp, w') ∧
  match r with
  | Ok (Ready _) => ∃ wc l, rp = Ok (wc :: l)
  | Ok NotReady => rp = Ok []
  | Err e => rp = Err e
  end.
Proof.
  unfold poll, DCConn_Future. intros E. apply io_bind_Ret in E as (a & w1 & E & H).
  destruct a as [[|wc l]|e]; injection H as <- _ <-; eauto.
Qed.

Lemma prefetcher_poll_inv (self : DCAsyncPrefetcher W) h w res self' h' w' :
  prefetcher_poll self h w = Ret ((res, self', h'), w') → ∃ r, poll_send_cq (dc (pf_conn self)) 1 w = Ret (r, w') ∧
  match res with
  | Ok (Ready _) => True
  | Ok NotReady => r = Ok []
  | Err e => r = Err e
  end.
Proof.
  unfold prefetcher_poll. intros E. apply io_bind_Ret in E as ([r c] & w1 & E & H).
  destruct (conn_poll_inv _ _ _ _ _ E) as (rp & Ep & Hrp). destruct r as [[wc|]|e].
  - destruct (pending_queues self) as [|v q]; [done|].
    unfold mbind, io_bind, lift in H. destruct (rust_assert _); [|done..].
    destruct (store_entry _ _ _ _); [|done..]. injection H as <- _ _ <-. eauto.
  - injection H as <- _ _ <-. eauto.
  - injection H as <- _ _ <-. eauto.
Qed.

(** One poll on a card that answers *)
Lemma live_poll m0 r self h w dn fl m :
  live w → PrefetchInv m0 r self h w dn fl m →
  ∃ res self' h' w' dn' fl' m', prefetcher_poll self h w = Ret ((Ok res, self', h'), w') ∧ live w' ∧
    PrefetchInv m0 r self' h' w' dn' fl' m' ∧ dn' ++ fl' = dn ++ fl ∧ allocated w' = allocated w ∧
    pf_conn self' = pf_conn self ∧ others_kept h h' r ∧ (∀ q, tab h' r 3 q = tab h r 3 q) ∧
    (fl = [] ∨ polls_left fl' w' < polls_left fl w) ∧
    match res with Ready _ => length fl = S (length fl') | NotReady => fl' = fl end.
Proof.
  intros Hl Hpi.
  destruct (prefetcher_poll_ok m0 r self h w dn fl m Hpi) as (res & self1 & h1 & w1 & E & Ha & Hc & _ & Ho & Ht & Hres).
  destruct (prefetcher_poll_inv _ _ _ _ _ _ _ E) as (rp & Ep & Hrp).
  destruct (lc_poll _ _ _ Hlc _ _ _ _ Hl Ep) as (Hl1 & [l ->] & Hlag). pose proof (lc_lag _ _ _ Hlc w1 Hl1) as HN.
  destruct res as [[p|]|e]; [..|by exfalso].
  - destruct Hres as (f & fl1 & -> & -> & Hpi1). exists (Ready (f_page f)), self1, h1, w1, (dn ++ [f]), fl1. eexists.
    split_and!; [exact E|done|exact Hpi1|by rewrite <- app_assoc|done|done|done|done| |done].
    right. unfold polls_left. cbn [length]. lia.
  - exists NotReady, self1, h1, w1, dn, fl, m. split_and!; try done. destruct (Hlag Hrp) as [H0|Hlt]; [left|right; unfold polls_left; lia].
    rewrite (pi_queue _ _ _ _ _ _ _ _ Hpi) in H0. destruct fl as [|f fl]; [done|]. exfalso.
    pose proof (pi_fetches _ _ _ _ _ _ _ _ Hpi) as Hok. apply Forall_app in Hok as [_ Hok]. apply Forall_cons in Hok as [[(e & mr & _ & _ & _ & Hw) _ _] _].
    change (f_wr <$> f :: fl) with ([f_wr f] ++ (f_wr <$> fl)) in H0. by rewrite nsig_app, nsig_one, Hw in H0.
Qed.

(** *** Polling until nothing is ready *)
Lemma poll_prefetcher_ok fuel m0 r self h w dn fl m :
  live w → PrefetchInv m0 r self h w dn fl m → length fl < fuel →
  ∃ self' h' w' dn' fl' m', poll_prefetcher fuel self h w = Ret ((self', h'), w') ∧ live w' ∧
    PrefetchInv m0 r self' h' w' dn' fl' m' ∧ dn' ++ fl' = dn ++ fl ∧ allocated w' = allocated w ∧
    others_kept h h' r ∧ (∀ q, tab h' r 3 q = tab h r 3 q) ∧ (fl' = [] ∨ polls_left fl' w' < polls_left fl w).
Proof.
  revert self h w dn fl m. induction fuel as [|fuel IH]; intros self h w dn fl m Hl Hpi Hf; [lia|].
  destruct (live_poll m0 r self h w dn fl m Hl Hpi) as
    (res & self1 & h1 & w1 & dn1 & fl1 & m1 & E & Hl1 & Hpi1 & Ha & Hal & Hc & Ho & Ht & Hless & Hres).
  cbn [poll_prefetcher]. rewrite (io_bind_run _ _ _ _ _ E). destruct res as [p|].
  - destruct (IH self1 h1 w1 dn1 fl1 m1 Hl1 Hpi1) as (self' & h' & w' & dn' & fl' & m' & E' & Hl' & Hpi' & Ha' & Hal' & Ho' & Ht' & Hless'); [lia|].
    exists self', h', w', dn', fl', m'. split_and!; [exact E'|done|done|congruence|congruence| |intros q; by rewrite Ht'|].
    + intros r' mm Hne HR. by apply Ho', Ho.
    + destruct Hless as [->|Hless]; [by cbn in Hres|]. destruct Hless'; [by left|right; lia].
  - subst fl1. exists self1, h1, w1, dn1, fl, m1. by split_and!.
Qed.

(** *** Histories *)
Lemma PrefetchInv_new m0 r conn ai h w :
  pt_inv h → Rep h r m0 → outstanding (dc conn) w = [] → PrefetchInv m0 r (new_from_raw conn ai) h w [] [] m0.
Proof.
  intros Hinv HR Hq. split; cbn; [done|done|split; [by intros f ?%elem_of_nil..|done]|constructor|constructor|constructor| |done|constructor].
  by intros f ?%elem_of_nil.
Qed.

Inductive pf_op := OpFetchAfter (n : Z) | OpPollOnce.

(** [execute_reqs] as the fault handler calls it, from the entry of page [n]. *)
Definition run_pf_op (fuel N : nat) (r : Z) (self : DCAsyncPrefetcher W) (h : heap) (o : pf_op) :
    io W (DCAsyncPrefetcher W * heap) :=
  match o with
  | OpFetchAfter n =>
      l1 ← lift (unwrap (tab h r 3 (n / 512)));
      execute_reqs self h (Iter_new_from_l1 l1 (Z.to_nat (n mod 512))) (step_strategy fuel N)
  | OpPollOnce => '(_, self, h) ← prefetcher_poll self h; mret (self, h)
  end.


Lemma iter_from_page h r n l1 :
  is_vpn n → tab h r 3 (n / 512) = Some l1 → iter_pos h r (Iter_new_from_l1 l1 (Z.to_nat (n mod 512))) n.
Proof.
  intros Hn Ht. pose proof (proj1 (is_vpn_bound n) Hn) as Hb. clear Hn. rename Hb into Hn. rewrite tab_bound_S in Hn.
  pose proof (Z.mod_pos_bound n 512). pose proof (Z.div_mod n 512). exists (n / 512)%Z. cbn [cur_page cur_idx Iter_new_from_l1].
  split_and!; [apply Z.div_pos; lia|apply Z.div_lt_upper_bound; lia|done|lia|lia|lia].
Qed.

Definition pf_op_ok (m0 : gmap Z Z) (o : pf_op) : Prop :=
  match o with OpFetchAfter n => is_Some (m0 !! n) | OpPollOnce => True end.

Lemma page_tab h r m n : pt_inv h → Rep h r m → is_Some (m !! n) → ∃ l1, tab h r 3 (n / 512) = Some l1.
Proof.
  intros Hinv HR Hs. pose proof (rep_domain _ _ _ HR n Hs) as Hn. destruct Hs as [e He].
  rewrite (Rep_tab h r m n HR Hn), tab_S in He. destruct (tab h r 3 (n / 512)) as [l1|]; [by exists l1|done].
Qed.

Lemma run_pf_op_ok fuel N m0 r self h w dn fl m o :
  posts_succeed → PrefetchInv m0 r self h w dn fl m → pf_op_ok m0 o →
  size (allocated w) + N ≤ mem_pages → size m0 < fuel →
  ∃ self' h' w' dn' fl' m', run_pf_op fuel N r self h o w = Ret ((self', h'), w') ∧
    PrefetchInv m0 r self' h' w' dn' fl' m' ∧ size (allocated w') ≤ N + size (allocated w) ∧ others_kept h h' r.
Proof.
  intros Hpost Hpi Ho Hfree Hfuel. pose proof Hpi as [Hinv HR Hm Hok _ _ _ _ _]. destruct o as [n|]; cbn [run_pf_op pf_op_ok] in *.
  - pose proof (marked_dom _ _ _ _ _ Hm Hok) as Hdom.
    assert (Hs : is_Some (m !! n)) by (apply elem_of_dom; rewrite Hdom; by apply elem_of_dom).
    destruct (page_tab h r m n Hinv HR Hs) as [l1 Ht]. rewrite Ht.
    destruct (execute_reqs_ok fuel N m0 r self h w dn fl m _ n Hpost Hpi Hfree
      (iter_from_page h r n l1 (rep_domain _ _ _ HR n Hs) Ht) Hfuel)
      as (self' & h' & w' & fl' & m' & E & Hpi' & Hs' & _ & _ & Hoth & _).
    exists self', h', w', dn, fl', m'. split_and!; try done; exact E.
  - destruct (prefetcher_poll_ok m0 r self h w dn fl m Hpi) as (res & self1 & h1 & w1 & E & Ha & _ & _ & Hoth & _ & Hres).
    rewrite (io_bind_run _ _ _ _ _ E). destruct res as [[p|]|e].
    + destruct Hres as (f & fl1 & -> & -> & Hpi1). do 6 eexists. split; [done|]. split; [exact Hpi1|]. rewrite Ha. by split; [lia|].
    + do 6 eexists. split; [done|]. split; [exact Hres|]. rewrite Ha. by split; [lia|].
    + do 6 eexists. split; [done|]. split; [exact Hres|]. rewrite Ha. by split; [lia|].
Qed.


(** *** Draining and dropping *)
Lemma freed_pages_of dn (m : gmap Z Z) :
  NoDup (f_no <$> dn) → Forall (λ f : fetch W, (0 < f_page f)%Z ∧ (8 | f_page f)%Z ∧ is_u64 (f_page f)) dn →
  (∀ f, f ∈ dn → m !! f_no f = Some (fetched_entry (f_page f))) →
  (∀ n e, n ∉ f_no <$> dn → m !! n = Some e → PhysAddr_bottom_bit (PhysAddr_new e) = false) →
  omap (freed_page ∘ snd) (map_to_list m) ≡ₚ f_page <$> dn.
Proof.
  revert m. induction dn as [|f dn IH]; intros m Hnd Hok Hdn Hrest.
  - assert (H : ∀ l : list (Z * Z), (∀ n e, (n, e) ∈ l → PhysAddr_bottom_bit (PhysAddr_new e) = false) →
      omap (freed_page ∘ snd) l = []).
    { induction l as [|[n e] l IHl]; intros Hl; [done|]. cbn. unfold freed_page.
      change (PhysAddr_is_prefetch (PhysAddr_new e)) with (PhysAddr_bottom_bit (PhysAddr_new e)).
      rewrite (Hl n e) by left. apply IHl. intros n' e' Hin. apply (Hl n'). by right. }
    rewrite H; [done|]. intros n e Hin%elem_of_map_to_list. apply (Hrest n e); [apply not_elem_of_nil|done].
  - cbn in Hnd. apply NoDup_cons in Hnd as [Hf Hnd]. apply Forall_cons in Hok as [(Hpos & H8 & Hu) Hok].
    rewrite <- (map_to_list_delete m (f_no f) (fetched_entry (f_page f))) by (apply Hdn; left).
    cbn. unfold freed_page at 1. pose proof (bottom_bit_fetched _ H8) as Hb. unfold PhysAddr_bottom_bit in Hb. rewrite Hb.
    unfold fetched_entry at 1. rewrite decode_encode by (done || unfold is_u64; cbn; lia). constructor.
    apply IH; [done|done| |].
    + intros g Hg. rewrite lookup_delete_ne; [apply Hdn; by right|]. intros E. apply Hf. rewrite E. by apply list_elem_of_fmap_2.
    + intros n e Hn He. apply lookup_delete_Some in He as [Hne He]. apply (Hrest n); [|done]. cbn. set_solver.
Qed.

Lemma drain_ok fuel m0 r self h w dn fl m :
  live w → PrefetchInv m0 r self h w dn fl m → polls_left fl w < fuel →
  ∃ self' h' w' m', drain_connections fuel self h w = Ret ((Ok (DCConn_clone (pf_conn self)), self', h'), w') ∧
    PrefetchInv m0 r self' h' w' (dn ++ fl) [] m' ∧ allocated w' = allocated w ∧ others_kept h h' r.
Proof.
  revert self h w dn fl m. induction fuel as [|fuel IH]; intros self h w dn fl m Hl Hpi Hf; [lia|].
  cbn [drain_connections]. pose proof (pi_pending _ _ _ _ _ _ _ _ Hpi) as Hpend.
  destruct (decide (pending_queues self = [])) as [E|E].
  { rewrite E in Hpend. apply Forall2_nil_inv_l in Hpend as ->. exists self, h, w, m. rewrite app_nil_r.
    split_and!; [done|done|done|by intros r' m' _]. }
  destruct (live_poll m0 r self h w dn fl m Hl Hpi) as
    (res & self1 & h1 & w1 & dn1 & fl1 & m1 & E1 & Hl1 & Hpi1 & Ha & Hal & Hc & Ho & _ & Hless & _).
  rewrite (io_bind_run _ _ _ _ _ E1). destruct Hless as [->|Hless]; [by apply Forall2_nil_inv_r in Hpend|].
  destruct (IH self1 h1 w1 dn1 fl1 m1 Hl1 Hpi1) as (self' & h' & w' & m' & E' & Hpi' & Ha' & Ho'); [lia|].
  exists self', h', w', m'. rewrite Hc in E'. rewrite Ha in Hpi'. split_and!; [exact E'|exact Hpi'|congruence|].
  intros r' mm Hne HR. by apply Ho', Ho.
Qed.

(** C10: A child that exits drains its prefetcher and drops its table.  On a card
    whose polls do not fail and that answers each request within [K] of them
    (the loop has no timeout of its own), draining ends, also when polls in
    between find nothing; no entry is left marked, so the drop does not panic,
    and it frees each page the prefetcher allocated and the child did not take,
    once. *)
Theorem drained_table_drops fuel m0 self h w dn fl m pt0 :
  live w → PrefetchInv m0 (l4_page_table pt0) self h w dn fl m → length fl * (K + 1) + K < fuel →
  (∀ n e, m0 !! n = Some e → PhysAddr_bottom_bit (PhysAddr_new e) = false) →
  ∃ self' h1 w' h' freed,
    drain_connections fuel self h w = Ret ((Ok (DCConn_clone (pf_conn self)), self', h1), w') ∧
    RemotePageTable_drop h1 pt0 = Ret (h', freed) ∧ pt_inv h' ∧
    freed ≡ₚ f_page <$> (dn ++ fl) ∧ NoDup freed ∧ others_kept h h' (l4_page_table pt0).
Proof.
  intros Hw Hpi Hf Hm0.
  destruct (drain_ok fuel m0 _ self h w dn fl m Hw Hpi) as (self' & h1 & w' & m' & E & Hpi' & _ & Ho);
    [pose proof (lc_lag _ _ _ Hlc w Hw); unfold polls_left; lia|].
  destruct Hpi' as [Hinv' HR' Hm' Hok' Hnos' Hpgs' _ _ _]. rewrite app_nil_r in *.
  assert (Hclear : ∀ n e, n ∉ f_no <$> (dn ++ fl) → m' !! n = Some e → PhysAddr_bottom_bit (PhysAddr_new e) = false).
  { intros n e Hn He. apply (Hm0 n). rewrite <- (mk_rest _ _ _ _ Hm' n); [done|]. by rewrite app_nil_r. }
  destruct (RemotePageTable_drop_ok h1 pt0 m' Hinv' HR') as (h' & freed & Ed & Hinv2 & _ & _ & Hfreed & Ho2).
  { intros n Hn. destruct (decide (n ∈ f_no <$> (dn ++ fl))) as [(f & -> & Hin)%list_elem_of_fmap|Hnin].
    - rewrite (mk_done _ _ _ _ Hm' f Hin) in Hn. rewrite Forall_forall in Hok'. destruct (Hok' f Hin) as [_ _ (Hpos & H8 & _)].
      injection Hn as Hn. by apply (fetched_entry_magic (f_page f)).
    - by apply (Hclear n _ Hnin) in Hn. }
  exists self', h1, w', h', freed.
  assert (Hperm : freed ≡ₚ f_page <$> (dn ++ fl)).
  { rewrite Hfreed. apply freed_pages_of; [done| |by apply (mk_done _ _ _ _ Hm')|done].
    eapply Forall_impl; [exact Hok'|]. by intros f []. }
  split_and!; [done|done|done|done|by rewrite Hperm|]. intros r' mm Hne HR. by apply Ho2, Ho.
Qed.

(** *** Taking a prefetched page out of the table *)
Definition without (n : Z) (l : list (fetch W)) : list (fetch W) := filter (λ g, f_no g ≠ n) l.

Lemma without_elem n l g : g ∈ without n l ↔ g ∈ l ∧ f_no g ≠ n.
Proof. unfold without. rewrite list_elem_of_filter. tauto. Qed.

Lemma NoDup_without {A} (k : fetch W → A) n l : NoDup (k <$> l) → NoDup (k <$> without n l).
Proof.
  intros H. eapply sublist_NoDup; [exact H|]. apply fmap_sublist, sublist_filter.
Qed.

Lemma without_fresh n l : n ∉ f_no <$> l → without n l = l.
Proof.
  intros H. unfold without. induction l as [|g l IH]; [done|]. rewrite filter_cons.
  rewrite decide_True by (intros <-; apply H; left). f_equal. apply IH. set_solver.
Qed.

Lemma taken_ok m0 r self h w dn fl m f :
  PrefetchInv m0 r self h w dn fl m → f ∈ dn →
  ∃ l1 h', tab h r 3 (f_no f / 512) = Some l1 ∧ store_entry h l1 (Z.to_nat (f_no f mod 512)) 0 = Ret h' ∧
    PrefetchInv (delete (f_no f) m0) r self h' w (without (f_no f) dn) fl (delete (f_no f) m) ∧ others_kept h h' r.
Proof.
  intros Hpi Hf. destruct Hpi as [Hinv HR Hm Hok Hnos Hpgs Hal Hq Hpend].
  assert (Hmf : m !! f_no f = Some (fetched_entry (f_page f))) by (by apply (mk_done _ _ _ _ Hm)).
  destruct (page_tab h r m (f_no f) Hinv HR ltac:(by eauto)) as [l1 Ht].
  destruct (page_location h r m (f_no f) l1 Hinv HR (rep_domain _ _ _ HR _ ltac:(by eauto)) Ht)
    as (t & e & _ & _ & _ & Hst). destruct (Hst 0%Z) as (h' & Es & Hinv' & HR' & Ho & _ & Htabs).
  unfold store_page in HR'. rewrite decide_True in HR' by done.
  assert (Hfl : f_no f ∉ f_no <$> fl).
  { intros (g & Eg & Hg)%list_elem_of_fmap. rewrite fmap_app in Hnos. apply NoDup_app in Hnos as (_ & Hd & _).
    apply (Hd (f_no f)); [by apply list_elem_of_fmap_2|]. rewrite Eg. by apply list_elem_of_fmap_2. }
  assert (Hwo : without (f_no f) dn ++ fl = without (f_no f) (dn ++ fl)).
  { unfold without. rewrite filter_app. f_equal. symmetry. by apply without_fresh. }
  exists l1, h'. split_and!; [done|done| |done]. split; rewrite ?Hwo.
  - exact Hinv'.
  - exact HR'.
  - split.
    + intros g Hg. rewrite lookup_delete_ne; [by apply (mk_flight _ _ _ _ Hm)|]. intros E. apply Hfl. rewrite E. by apply list_elem_of_fmap_2.
    + intros g [Hg Hne]%without_elem. rewrite lookup_delete_ne by done. by apply (mk_done _ _ _ _ Hm).
    + rewrite Hwo. intros n Hn. destruct (decide (n = f_no f)) as [->|Hne]; [by rewrite !lookup_delete_eq|].
      rewrite !lookup_delete_ne by done. apply (mk_rest _ _ _ _ Hm). intros (g & -> & Hg)%list_elem_of_fmap.
      apply Hn, list_elem_of_fmap_2. by apply without_elem.
  - apply Forall_forall. intros g [Hg Hne]%without_elem. rewrite Forall_forall in Hok.
    destruct (Hok g Hg) as [(e' & mr & He & Hrest) Hv Hp]. split; [|done|done]. exists e', mr.
    by rewrite lookup_delete_ne.
  - by apply NoDup_without.
  - by apply NoDup_without.
  - intros g [Hg _]%without_elem. by apply Hal.
  - exact Hq.
  - by eapply pending_tab.
Qed.

(** *** A fault on a page that is, or is being, prefetched *)
Context {x86 : X86Crate} {x86_ok : X86CrateOk}.

Lemma fault_location h r m self va :
  pt_inv h → Rep h (l4_page_table self) m → r = l4_page_table self → (0 ≤ va < 2 ^ 47)%Z → is_Some (m !! vpn va) →
  ∃ l1, find_l1_page_idx h self va = Ret (Some (l1, Z.to_nat (vpn va mod 512))) ∧ tab h r 3 (vpn va / 512) = Some l1.
Proof.
  intros Hinv HR -> Hva Hs. destruct (page_tab h _ m (vpn va) Hinv HR Hs) as [l1 Ht]. exists l1. split; [|done].
  assert (Hu : is_u64 va) by (unfold is_u64; lia).
  rewrite find_l1_page_idx_walk by (done || apply Hinv || apply HR).
  pose proof (path_vpn va Hu) as Hp. rewrite vpn_path_of in Hp by apply vpn_range.
  change [p4_index va; p3_index va; p2_index va; p1_index va] with
    ([p4_index va; p3_index va; p2_index va] ++ [p1_index va]) in Hp.
  cbn [path_of] in Hp. apply app_inj_tail in Hp as [Hp ->]. rewrite Hp. unfold tab in Ht. cbn [path_of] in Ht. by rewrite Ht.
Qed.

Lemma read_entry h r m n l1 e :
  pt_inv h → Rep h r m → m !! n = Some e → tab h r 3 (n / 512) = Some l1 →
  ∃ t, deref h l1 = Ret t ∧ PageTable_index t (Z.to_nat (n mod 512)) = Ret e.
Proof.
  intros Hinv HR He Ht. destruct (page_location h r m n l1 Hinv HR (rep_domain _ _ _ HR _ ltac:(by eauto)) Ht)
    as (t & e' & Ht1 & He' & Hm & _). rewrite He in Hm. destruct (decide (e' = 0%Z)); [done|]. injection Hm as <-.
  exists t. by rewrite (deref_Some _ _ _ Ht1), (PageTable_index_Some _ _ _ He').
Qed.

Lemma wait_prefetched_ok fuel m0 r self h w dn fl m f l1 e :
  live w → PrefetchInv m0 r self h w dn fl m → f ∈ dn ++ fl →
  tab h r 3 (f_no f / 512) = Some l1 → m !! f_no f = Some e → polls_left fl w + 1 < fuel →
  ∃ self' h' w' dn' fl' m',
    wait_prefetched fuel self h l1 (Z.to_nat (f_no f mod 512)) e w = Ret ((fetched_entry (f_page f), self', h'), w') ∧
    PrefetchInv m0 r self' h' w' dn' fl' m' ∧ f ∈ dn' ∧ dn' ++ fl' = dn ++ fl ∧ allocated w' = allocated w ∧
    others_kept h h' r ∧ tab h' r 3 (f_no f / 512) = Some l1.
Proof.
  revert self h w dn fl m e. induction fuel as [|fuel IH]; intros self h w dn fl m e Hl Hpi Hf Ht He Hfuel; [lia|].
  pose proof Hpi as [_ _ Hm Hok _ _ _ _ _]. pose proof (proj1 (Forall_forall _ _) Hok f Hf) as [_ _ (Hpos & H8 & _)].
  cbn [wait_prefetched]. apply elem_of_app in Hf as [Hf|Hf].
  - rewrite (mk_done _ _ _ _ Hm f Hf) in He. injection He as <-.
    rewrite (proj2 (Z.eqb_neq _ _)) by (by apply fetched_entry_magic).
    exists self, h, w, dn, fl, m. split_and!; try done. by intros r' m' _.
  - rewrite (mk_flight _ _ _ _ Hm f Hf) in He. injection He as <-. rewrite Z.eqb_refl.
    destruct (poll_prefetcher_ok (S fuel) m0 r self h w dn fl m Hl Hpi) as
      (self1 & h1 & w1 & dn1 & fl1 & m1 & E & Hl1 & Hpi1 & Ha & Hal & Ho & Htabs & Hless); [unfold polls_left in *; lia|].
    rewrite (io_bind_run _ _ _ _ _ E). rewrite <- Htabs in Ht.
    assert (Hf1 : f ∈ dn1 ++ fl1) by (rewrite Ha; apply elem_of_app; by right).
    assert (He1 : ∃ e1, m1 !! f_no f = Some e1).
    { pose proof (pi_marked _ _ _ _ _ _ _ _ Hpi1) as Hm1. apply elem_of_app in Hf1 as [?|?]; eexists; [by apply (mk_done _ _ _ _ Hm1)|by apply (mk_flight _ _ _ _ Hm1)]. }
    destruct He1 as [e1 He1].
    destruct (read_entry h1 r m1 _ l1 _ (pi_heap _ _ _ _ _ _ _ _ Hpi1) (pi_rep _ _ _ _ _ _ _ _ Hpi1) He1 Ht) as (t & Ed & Ei).
    rewrite Ed. unfold mbind at 1, io_bind at 1, lift at 1. rewrite Ei. unfold mbind at 1, io_bind at 1, lift at 1.
    destruct (IH self1 h1 w1 dn1 fl1 m1 e1 Hl1 Hpi1 Hf1 Ht He1) as (self' & h' & w' & dn' & fl' & m' & E' & Hpi' & Hf' & Ha' & Hal' & Ho' & Ht').
    { destruct Hless as [->|Hless]; [|lia]. pose proof (lc_lag _ _ _ Hlc w1 Hl1). assert (K + 1 ≤ length fl * (K + 1)) by (destruct fl; [by apply elem_of_nil in Hf|cbn; lia]).
      unfold polls_left in *. cbn. lia. }
    exists self', h', w', dn', fl', m'. split_and!; [exact E'|done|done|congruence|congruence| |done].
    intros r' mm Hne HR. by apply Ho', Ho.
Qed.

(** C4: A fault on a page that has been prefetched, or whose prefetch is in flight,
    ends on a card whose polls do not fail and that answers each request within
    [K] of them: the fault handler, which has no timeout here, waits for the
    prefetch as long as it must, also when polls in between find nothing, and
    hands out the local page the prefetch was told to read into.  The entry is
    cleared, so the page is handed out once and the table no longer owns it; the
    invariant goes on holding for all other pages, no page is allocated or
    freed, and no other table changes. *)
Theorem prefetched_page_handed_out fuel pool self h pt0 va ai w m0 dn fl m f :
  live w → PrefetchInv m0 (l4_page_table pt0) self h w dn fl m →
  (0 ≤ va < 2 ^ 47)%Z → f ∈ dn ++ fl → f_no f = vpn va → length fl * (K + 1) + K + 1 < fuel →
  ∃ self' h' w' dn' fl' m',
    read_remote_page_prefetch fuel pool self h pt0 va ai w = Ret ((Some (f_page f), self', h'), w') ∧
    PrefetchInv (delete (vpn va) m0) (l4_page_table pt0) self' h' w' dn' fl' m' ∧ m' !! vpn va = None ∧
    (∀ g, g ∈ dn' ++ fl' ↔ g ∈ dn ++ fl ∧ f_no g ≠ vpn va) ∧
    allocated w' = allocated w ∧ others_kept h h' (l4_page_table pt0).
Proof.
  intros Hw Hpi Hva Hf Hno Hfuel. pose proof Hpi as [Hinv HR Hm Hok Hnos _ _ _ _].
  pose proof (proj1 (Forall_forall _ _) Hok f Hf) as [_ _ (Hpos & H8 & Hu)].
  assert (He : ∃ e, m !! f_no f = Some e ∧ PhysAddr_is_prefetch (PhysAddr_new e) = true).
  { apply elem_of_app in Hf as [Hf|Hf].
    - eexists. split; [by apply (mk_done _ _ _ _ Hm)|]. by apply bottom_bit_fetched.
    - eexists. split; [by apply (mk_flight _ _ _ _ Hm)|done]. }
  destruct He as (e & He & Hb). destruct (fault_location h _ m pt0 va Hinv HR eq_refl Hva) as (l1 & El & Ht); [by rewrite <- Hno; eauto|].
  rewrite <- Hno in El, Ht. destruct (read_entry h _ m _ l1 e Hinv HR He Ht) as (t & Ed & Ei).
  destruct (wait_prefetched_ok fuel m0 _ self h w dn fl m f l1 e Hw Hpi Hf Ht He) as
    (self1 & h1 & w1 & dn1 & fl1 & m1 & E1 & Hpi1 & Hf1 & Hl1 & Ha1 & Ho1 & Ht1);
    [pose proof (lc_lag _ _ _ Hlc w Hw); unfold polls_left; lia|].
  destruct (taken_ok m0 _ self1 h1 w1 dn1 fl1 m1 f Hpi1 Hf1) as (l1' & h2 & Ht1' & Es & Hpi2 & Ho2).
  rewrite Ht1 in Ht1'. injection Ht1' as <-. rewrite <- Hno.
  exists self1, h2, w1, (without (f_no f) dn1), fl1, (delete (f_no f) m1).
  split; [|split_and!; [exact Hpi2|apply lookup_delete_eq| |done|intros r' mm Hne HR'; by apply Ho2, Ho1]].
  - unfold read_remote_page_prefetch. rewrite virt_new_low by done. unfold mbind at 1, io_bind at 1, lift at 1.
    rewrite El. unfold mbind at 1, io_bind at 1, lift at 1. rewrite Ed. unfold mbind at 1, io_bind at 1, lift at 1.
    rewrite Ei. unfold mbind at 1, io_bind at 1, lift at 1. rewrite Hb. rewrite (io_bind_run _ _ _ _ _ E1). cbv zeta.
    rewrite Es. unfold mbind at 1, io_bind at 1, lift at 1. unfold fetched_entry.
    by rewrite decode_encode by (done || unfold is_u64; cbn; lia).
  - assert (Hfl : f_no f ∉ f_no <$> fl1).
    { intros (g & Eg & Hg)%list_elem_of_fmap. rewrite <- Hl1, fmap_app in Hnos. apply NoDup_app in Hnos as (_ & Hd & _).
      apply (Hd (f_no f)); [by apply list_elem_of_fmap_2|]. rewrite Eg. by apply list_elem_of_fmap_2. }
    intros g. rewrite <- Hl1, !elem_of_app, without_elem. split; [|tauto]. intros [[? ?]|Hg]; [tauto|].
    split; [by right|]. intros E. apply Hfl. rewrite <- E. by apply list_elem_of_fmap_2.
Qed.
End PrefetchRead.

(** ** An example: one page of [two_pages] is being prefetched *)
Abbreviation two_pages_map := (<[(2 ^ 28)%Z := 8192%Z]> (<[1%Z := 40960%Z]> (∅ : gmap Z Z))).

Definition ref_prefetcher : DCAsyncPrefetcher ref_machine := new_from_raw (mkDCConn (kr := ref_KRdmaKit) 11%Z 0%Z) ref_ai.

Lemma ref_posts_succeed : posts_succeed (W := ref_machine).
Proof. by intros qp ep mr range sig raddr key w r w' [= <- _]. Qed.

(** The prefetch the fault handler starts when page 1 faults. *)
Definition ref_fetching : outcome (DCAsyncPrefetcher ref_machine * heap * ref_machine) :=
  run_pf_op 3 1 (l4_page_table two_pages.2) ref_prefetcher two_pages.1 (OpFetchAfter 1) ref_boot.

Lemma two_pages_inv :
  PrefetchInv two_pages_map (l4_page_table two_pages.2) ref_prefetcher two_pages.1 ref_boot [] [] two_pages_map.
Proof.
  destruct two_pages_ok as [Hinv Hok]. by apply PrefetchInv_new; [|apply (ok_rep _ _ _ Hok)|].
Qed.

Lemma ref_fetching_ok : ∃ self h w f m, ref_fetching = Ret ((self, h), w) ∧
  PrefetchInv two_pages_map (l4_page_table two_pages.2) self h w [] [f] m ∧
  f_no f = (2 ^ 28)%Z ∧ f_page f = 64%Z ∧ ref_alive w = true.
Proof.
  destruct (run_pf_op_ok 3 1 two_pages_map _ _ _ _ _ _ _ (OpFetchAfter 1) ref_posts_succeed two_pages_inv)
    as (self & h & w & dn & fl & m & E & Hpi & _); [by eexists|by vm_compute; lia|by vm_compute; lia|].
  assert (H : match ref_fetching with
    | Ret (s, _, w) => user_page <$> pending_queues s = [64%Z] ∧ ref_alive w = true ∧ elements (ref_pages w) = [64%Z] ∧
        ref_sq w = {[11 := [(READ, Some 3, (4096, 4096), (0, 4096), true, (8192, 77))]]}%Z ∧ dc (pf_conn s) = 11%Z
    | _ => False end) by (vm_compute; auto 6).
  unfold ref_fetching in *. rewrite E in *. destruct H as (Hp & Ha & Hpg & Hq & Hc).
  pose proof Hpi as [Hinv HR Hm Hok Hnos Hpgs Hal Hout Hpend].
  rewrite Hc in Hout. cbn in Hout. unfold ref_outstanding, ref_queue in Hout. rewrite Hq, lookup_singleton_eq in Hout. cbn in Hout.
  destruct fl as [|f [|]]; [done| |done]. cbn in Hout. injection Hout as Ewr.
  apply Forall2_cons_inv_r in Hpend as (v & q & (Hup & _) & _ & Eq). rewrite Eq in Hp. cbn in Hp. injection Hp as Hup' _.
  assert (Hf : f_page f = 64%Z) by congruence.
  assert (dn = []) as ->.
  { destruct dn as [|g dn]; [done|]. exfalso. assert (Hg : f_page g ∈ elements (ref_pages w)) by (apply elem_of_elements, Hal; left).
    rewrite Hpg, list_elem_of_singleton in Hg. cbn in Hpgs. apply NoDup_cons in Hpgs as [Hn _]. apply Hn. rewrite Hg, <- Hf, fmap_app.
    apply elem_of_app. right. left. }
  exists self, h, w, f, m. split_and!; [done|done| |done|].
  - cbn in Hok. apply Forall_cons in Hok as [Hok _]. destruct Hok as [(e & mr & He & _ & _ & Hw) _ _]. rewrite <- Ewr in Hw.
    apply (f_equal wr_raddr) in Hw. cbn in Hw. apply lookup_insert_Some in He as [[<- _]|[_ He]]; [done|].
    apply lookup_insert_Some in He as [[_ <-]|[_ He]]; [by vm_compute in Hw|by rewrite lookup_empty in He].
  - exact Ha.
Qed.


Lemma drained_table_drops_witness :
  ∃ self h w f m self' h1 w' h' freed,
    PrefetchInv two_pages_map (l4_page_table two_pages.2) self h w [] [f] m ∧
    drain_connections (W := ref_machine) 2 self h w = Ret ((Ok (DCConn_clone (pf_conn self)), self', h1), w') ∧
    RemotePageTable_drop h1 two_pages.2 = Ret (h', freed) ∧ freed = [64%Z].
Proof.
  destruct ref_fetching_ok as (self & h & w & f & m & _ & Hpi & _ & Hf & Hl).
  destruct (drained_table_drops ref_LiveCard 2 two_pages_map self h w [] [f] m two_pages.2 Hl Hpi) as (self' & h1 & w' & h' & freed & E & Ed & _ & Hperm & _).
  - cbn. lia.
  - intros n e. rewrite !lookup_insert_Some, lookup_empty. by intros [[_ <-]|[_ [[_ <-]|[_ ?]]]].
  - exists self, h, w, f, m, self', h1, w', h', freed. split_and!; [done..|]. cbn in Hperm. rewrite Hf in Hperm.
    by apply Permutation_singleton_r in Hperm.
Defined.

Lemma prefetched_page_handed_out_witness :
  ∃ self h w f m self' h' w',
    PrefetchInv two_pages_map (l4_page_table two_pages.2) self h w [] [f] m ∧
    read_remote_page_prefetch (W := ref_machine) (x86 := x86_reference) 3 ref_pool self h two_pages.2 (2 ^ 40) ref_ai w =
      Ret ((Some 64%Z, self', h'), w').
Proof.
  destruct ref_fetching_ok as (self & h & w & f & m & _ & Hpi & Hno & Hf & Hl).
  destruct (prefetched_page_handed_out (x86 := x86_reference) ref_LiveCard 3 ref_pool self h two_pages.2 (2 ^ 40) ref_ai w
    two_pages_map [] [f] m f Hl Hpi) as (self' & h' & w' & _ & _ & _ & E & _).
  - lia.
  - left.
  - by rewrite Hno.
  - cbn. lia.
  - exists self, h, w, f, m, self', h', w'. rewrite <- Hf. done.
Defined.
