(* ===== verification/FlatTable.v ===== *)
(** * The flat page table and pairs ([descriptors/page_table.rs], [pair.rs])

    [FlatPageTable] maps virtual to physical addresses with a hash map.  The
    order in which [hashbrown] iterates is not specified: it is the class
    [HashIter], of which only that it visits every entry once is used.  A
    [Pair] is copied as it lies in memory. *)

From S2P Require Import Prelude Bytes Descriptors.

(** ** The iteration order of [hashbrown] *)
Class HashIter := { hash_iter : gmap Z Z → list (Z * Z) }.

Class HashIterOk {hi : HashIter} : Prop := {
  hash_iter_ok m : hash_iter m ≡ₚ map_to_list m }.

(** ** [FlatPageTable] *)
Record FlatPageTable := mkFlatPageTable { page_map : gmap Z Z }.

#[export] Instance FlatPageTable_eq_dec : EqDecision FlatPageTable.
Proof. solve_decision. Defined.

Definition FlatPageTable_new : FlatPageTable := mkFlatPageTable ∅.

Definition flat_add_one (self : FlatPageTable) (v p : Z) : FlatPageTable :=
  mkFlatPageTable (<[v := p]> (page_map self)).

Definition flat_len (self : FlatPageTable) : Z := Z.of_nat (size (page_map self)).

Definition translate (self : FlatPageTable) (vaddr : Z) : option Z := page_map self !! vaddr.

(** [size_of::<VirtAddrType>()] and [size_of::<PhyAddrType>()] are 8. *)
Definition calculate_serialization_buf_len (self : FlatPageTable) (len : Z) : outcome Z :=
  entries ← u64_mul (8 + 8) len;
  u64_add entries 8.

Definition FlatPageTable_buf_len (self : FlatPageTable) : outcome Z :=
  calculate_serialization_buf_len self (flat_len self).

Fixpoint write_pairs (m : mem) (cur : BytesMut) (es : list (Z * Z)) : outcome mem :=
  match es with
  | [] => Ret m
  | (vaddr, paddr) :: es =>
      '(r, m) ← @memcpy_serialize_at Z pod_u64 m cur 0 vaddr;
      sz0 ← unwrap r;
      '(r, m) ← @memcpy_serialize_at Z pod_u64 m cur sz0 paddr;
      sz1 ← unwrap r;
      off ← u64_add sz0 sz1;
      cur ← unwrap (truncate_header cur off);
      write_pairs m cur es
  end.

Definition FlatPageTable_serialize {hi : HashIter} (m : mem) (self : FlatPageTable) (bytes : BytesMut)
    : outcome (bool * mem) :=
  need ← FlatPageTable_buf_len self;
  if (BytesMut_len bytes <? need)%Z then Ret (false, m)
  else
    cur ← unwrap (truncate_header bytes 0);
    '(r, m) ← @memcpy_serialize_at Z pod_u64 m cur 0 (flat_len self);
    sz ← unwrap r;
    cur ← unwrap (truncate_header cur sz);
    m ← write_pairs m cur (hash_iter (page_map self));
    Ret (true, m).

(** The loop [for _ in 0..count]. *)
Fixpoint read_pairs (m : mem) (cur : BytesMut) (count : nat) (res : gmap Z Z) : outcome (option (gmap Z Z)) :=
  match count with
  | 0 => Ret (Some res)
  | S count =>
      r ← @memcpy_deserialize_at Z pod_u64 m cur 0;
      x ←? r;
      let '(sz0, virt) := x in
      r ← @memcpy_deserialize_at Z pod_u64 m cur sz0;
      x ←? r;
      let '(sz1, phy) := x in
      off ← u64_add sz0 sz1;
      cur' ←? truncate_header cur off;
      read_pairs m cur' count (<[virt := phy]> res)
  end.

Definition FlatPageTable_deserialize (m : mem) (bytes : BytesMut) : outcome (option FlatPageTable) :=
  r ← @memcpy_deserialize Z pod_u64 m bytes;
  x ←? r;
  let '(off, count) := x in
  cur ←? truncate_header bytes off;
  r ← read_pairs m cur (Z.to_nat count) ∅;
  res ←? r;
  Ret (Some (mkFlatPageTable res)).

#[export] Instance FlatPageTable_Serialize {hi : HashIter} : Serialize FlatPageTable := {|
  serialize := FlatPageTable_serialize;
  deserialize := FlatPageTable_deserialize;
  serialization_buf_len := FlatPageTable_buf_len;
|}.

(** ** [Pair] *)
Record Pair (K V : Type) := mkPair { pair_k : K; pair_v : V }.
#[global] Arguments mkPair {_ _}.
#[global] Arguments pair_k {_ _}.
#[global] Arguments pair_v {_ _}.

Section Pair.
Context {K V : Type} {pod : Pod (Pair K V)}.

Definition get_0 (self : Pair K V) : K := pair_k self.
Definition get_1 (self : Pair K V) : V := pair_v self.
Definition get_pair (self : Pair K V) : K * V := (pair_k self, pair_v self).

Definition Pair_buf_len (self : Pair K V) : outcome Z := Ret (Z.of_nat (size_of (Pair K V))).

Definition Pair_serialize (m : mem) (self : Pair K V) (bytes : BytesMut) : outcome (bool * mem) :=
  need ← Pair_buf_len self;
  if (BytesMut_len bytes <? need)%Z then Ret (false, m)
  else m ← write_unaligned m (get_ptr bytes) self; Ret (true, m).

(** The value copied first is only a check of the length. *)
Definition Pair_deserialize (m : mem) (bytes : BytesMut) : outcome (option (Pair K V)) :=
  cur ←? truncate_header bytes 0;
  r ← memcpy_deserialize_at (Pair K V) m cur 0;
  _ ←? r;
  v ← read_unaligned (Pair K V) m (get_ptr cur);
  Ret (Some v).

#[export] Instance Pair_Serialize : Serialize (Pair K V) := {|
  serialize := Pair_serialize;
  deserialize := Pair_deserialize;
  serialization_buf_len := Pair_buf_len;
|}.
End Pair.

(** ** The wire format of the table *)
Definition pair_bytes (e : Z * Z) : list Z := le_bytes 8 e.1 ++ le_bytes 8 e.2.

Definition pair_ok (e : Z * Z) : Prop := is_u64 e.1 ∧ is_u64 e.2.

Definition pairs_bytes (es : list (Z * Z)) : list Z := concat (pair_bytes <$> es).

Definition FlatPageTable_encode {hi : HashIter} (self : FlatPageTable) : list Z :=
  le_bytes 8 (flat_len self) ++ pairs_bytes (hash_iter (page_map self)).

(** Addresses fit their types and the image the address space. *)
Definition FlatPageTable_valid (self : FlatPageTable) : Prop :=
  map_Forall (λ a p, pair_ok (a, p)) (page_map self) ∧ is_u64 (16 * flat_len self + 8).

#[export] Instance FlatPageTable_Spec {hi : HashIter} : SerializeSpec FlatPageTable := {|
  valid := FlatPageTable_valid;
  encode := FlatPageTable_encode;
  need self := (16 * flat_len self + 8)%Z;
|}.

Lemma pairs_length es : length (pairs_bytes es) = 16 * length es.
Proof.
  unfold pairs_bytes. induction es as [|e es IH]; [done|]. cbn [fmap list_fmap concat length].
  rewrite length_app, IH. cbn. lia.
Qed.

(** *** One word through a cursor *)
Lemma put_word m b off z :
  buf_ok m b → (8 | off)%Z → (0 ≤ off)%Z → (off + 8 ≤ bm_len b)%Z →
  ∃ m', @memcpy_serialize_at Z pod_u64 m b off z = Ret (Some 8%Z, m') ∧
    at_mem m' (bm_ptr b + off) (le_bytes 8 z) ∧ frame m m' (bm_ptr b + off) 8.
Proof.
  intros Hb H8 H0 Hl. unfold memcpy_serialize_at. rewrite truncate_header_advance by lia.
  destruct (buf_ok_advance m b off Hb H8) as (Ha & H8' & _); [lia|].
  apply (memcpy_serialize_ok (pod_ok := pod_u64_ok) ltac:(done) m (advance b off) z); [done..|]. cbn. lia.
Qed.

Lemma get_word m b off z :
  (8 | bm_ptr b)%Z → (8 | off)%Z → (0 ≤ off)%Z → (off + 8 ≤ bm_len b)%Z → is_u64 z →
  at_mem m (bm_ptr b + off) (le_bytes 8 z) →
  @memcpy_deserialize_at Z pod_u64 m b off = Ret (Some (8%Z, z)).
Proof.
  intros Hb H8 H0 Hl Hz Hat. unfold memcpy_deserialize_at. rewrite truncate_header_advance by lia.
  apply (memcpy_deserialize_ok (pod_ok := pod_u64_ok) ltac:(done) m (advance b off) z); [done| |done|].
  - by apply Z.divide_add_r.
  - cbn. lia.
Qed.

Lemma eight_eight : u64_add 8 8 = Ret 16%Z.
Proof. by apply u64_add_Ret. Qed.

Lemma write_pairs_ok m b es :
  buf_ok m b → (16 * Z.of_nat (length es) ≤ bm_len b)%Z →
  ∃ m', write_pairs m b es = Ret m' ∧ at_mem m' (bm_ptr b) (pairs_bytes es) ∧
    frame m m' (bm_ptr b) (16 * Z.of_nat (length es)).
Proof.
  revert m b. induction es as [|[v p] es IH]; intros m b Hb Hl.
  { exists m. split_and!; [done|apply at_mem_nil|apply frame_refl]. }
  cbn [length] in Hl. rewrite Nat2Z.inj_succ in Hl. cbn [write_pairs].
  destruct (put_word m b 0 v Hb) as (m1 & E1 & A1 & F1); [by exists 0%Z|lia..|]. rewrite Z.add_0_r in A1, F1.
  destruct (put_word m1 b 8 p) as (m2 & E2 & A2 & F2); [by eapply buf_ok_frame|done|lia..|].
  destruct (IH m2 (advance b 16)) as (m3 & E3 & A3 & F3).
  { apply buf_ok_advance; [|by exists 2%Z|lia]. do 2 (eapply buf_ok_frame; [eassumption|]). done. }
  { cbn. lia. }
  exists m3. cbn in A3, F3. rewrite E1. cbn [mbind outcome_bind unwrap]. rewrite E2. cbn [mbind outcome_bind unwrap].
  rewrite eight_eight. cbn [mbind outcome_bind]. rewrite truncate_header_advance by lia. cbn [unwrap mbind outcome_bind].
  split; [done|]. split.
  - change (pairs_bytes ((v, p) :: es)) with ((le_bytes 8 v ++ le_bytes 8 p) ++ pairs_bytes es).
    rewrite <- app_assoc. rewrite !at_mem_app, !le_bytes_length. split_and!.
    + eapply at_mem_frame; [exact F3|eapply at_mem_frame; [exact F2|exact A1|]|]; rewrite le_bytes_length; lia.
    + eapply at_mem_frame; [exact F3|exact A2|]. rewrite le_bytes_length. lia.
    + by replace (bm_ptr b + Z.of_nat 8 + Z.of_nat 8)%Z with (bm_ptr b + 16)%Z by lia.
  - eapply frame_trans; [|eapply frame_trans]; eapply frame_weaken; eauto; cbn [length]; lia.
Qed.

(** Reading the pairs back inserts them, the last occurrence of an address winning. *)
Lemma read_pairs_ok m b es res :
  Forall pair_ok es → (8 | bm_ptr b)%Z → at_mem m (bm_ptr b) (pairs_bytes es) →
  (16 * Z.of_nat (length es) ≤ bm_len b)%Z →
  read_pairs m b (length es) res = Ret (Some (foldl (λ r e, <[e.1 := e.2]> r) res es)).
Proof.
  revert b res. induction es as [|[v p] es IH]; intros b res Hok H8 Hat Hl; [done|].
  apply Forall_cons in Hok as [[Hv Hp] Hok]. cbn [length] in Hl. rewrite Nat2Z.inj_succ in Hl. cbn in Hv, Hp.
  change (pairs_bytes ((v, p) :: es)) with ((le_bytes 8 v ++ le_bytes 8 p) ++ pairs_bytes es) in Hat.
  rewrite <- app_assoc in Hat. apply at_mem_app in Hat as [A1 Hat]. apply at_mem_app in Hat as [A2 A3].
  rewrite !le_bytes_length in *. change (Z.of_nat 8) with 8%Z in *. cbn [read_pairs length].
  rewrite (get_word m b 0 v); [|done|by exists 0%Z|lia..|done|by rewrite Z.add_0_r]. cbn [mbind outcome_bind].
  rewrite (get_word m b 8 p); [|done..|lia|lia|done|done]. cbn [mbind outcome_bind].
  rewrite eight_eight. cbn [mbind outcome_bind]. rewrite truncate_header_advance by lia.
  rewrite IH; [done|done| | |]; cbn.
  - apply Z.divide_add_r; [done|by exists 2%Z].
  - by replace (bm_ptr b + 16)%Z with (bm_ptr b + 8 + 8)%Z by lia.
  - lia.
Qed.

Section FlatLaws.
Context {hi : HashIter} {hi_ok : HashIterOk}.

Lemma hash_iter_length self : Z.of_nat (length (hash_iter (page_map self))) = flat_len self.
Proof. unfold flat_len. by rewrite hash_iter_ok, length_map_to_list. Qed.

Lemma insert_all (t : gmap Z Z) : foldl (λ r e, <[e.1 := e.2]> r) ∅ (hash_iter t) = t.
Proof.
  transitivity (list_to_map (M := gmap Z Z) (reverse (hash_iter t))).
  { generalize (hash_iter t). intros l. induction l as [|e l IH] using rev_ind; [done|].
    rewrite foldl_app, reverse_snoc. cbn. by rewrite IH. }
  rewrite <- (list_to_map_to_list t) at 2. apply list_to_map_proper.
  - rewrite fmap_reverse, reverse_Permutation, hash_iter_ok. apply NoDup_fst_map_to_list.
  - by rewrite reverse_Permutation, hash_iter_ok.
Qed.

Lemma hash_iter_pair_ok self : FlatPageTable_valid self → Forall pair_ok (hash_iter (page_map self)).
Proof.
  intros [Hv _]. rewrite hash_iter_ok. apply Forall_forall. intros [a p] Hin%elem_of_map_to_list. by apply Hv.
Qed.

Lemma flat_encode_length self : Z.of_nat (length (FlatPageTable_encode self)) = (16 * flat_len self + 8)%Z.
Proof.
  unfold FlatPageTable_encode. rewrite length_app, pairs_length, le_bytes_length, <- hash_iter_length. lia.
Qed.

Lemma flat_buf_len_ok self : FlatPageTable_valid self → FlatPageTable_buf_len self = Ret (16 * flat_len self + 8)%Z.
Proof.
  intros [_ Hu]. unfold FlatPageTable_buf_len, calculate_serialization_buf_len, u64_mul. unfold is_u64 in Hu.
  assert (0 ≤ flat_len self)%Z by (unfold flat_len; lia).
  rewrite u64_checked_Ret by (unfold is_u64; lia). cbn [mbind outcome_bind]. by rewrite u64_add_Ret.
Qed.

#[export] Instance FlatPageTable_SerializeOk : SerializeOk FlatPageTable.
Proof.
  split; cbn [valid encode need serialize deserialize serialization_buf_len FlatPageTable_Spec FlatPageTable_Serialize].
  - apply flat_buf_len_ok.
  - intros x _. by rewrite flat_encode_length.
  - intros m x b Hv Hl. unfold FlatPageTable_serialize. rewrite flat_buf_len_ok by done. cbn [mbind outcome_bind].
    by rewrite (proj2 (Z.ltb_lt _ _)).
  - intros m x b Hv Hb Hl. unfold FlatPageTable_serialize, BytesMut_len. rewrite flat_buf_len_ok by done.
    pose proof Hb as (_ & _ & H0). assert (0 ≤ flat_len x)%Z by (unfold flat_len; lia).
    cbn [mbind outcome_bind]. rewrite (proj2 (Z.ltb_ge _ _)) by done. rewrite truncate_header_0 by done.
    cbn [unwrap mbind outcome_bind].
    destruct (put_word m b 0 (flat_len x) Hb) as (m1 & E1 & A1 & F1); [by exists 0%Z|lia..|]. rewrite Z.add_0_r in A1, F1.
    rewrite E1. cbn [unwrap mbind outcome_bind]. rewrite truncate_header_advance by lia. cbn [unwrap mbind outcome_bind].
    destruct (write_pairs_ok m1 (advance b 8) (hash_iter (page_map x))) as (m2 & E2 & A2 & F2).
    { apply buf_ok_advance; [by eapply buf_ok_frame|done|lia]. }
    { rewrite hash_iter_length. cbn. lia. }
    rewrite E2. exists m2. cbn in A2, F2. rewrite hash_iter_length in F2. split; [done|]. rewrite flat_encode_length. split.
    + unfold FlatPageTable_encode. apply at_mem_app. rewrite le_bytes_length. split; [|done].
      eapply at_mem_frame; [exact F2|exact A1|]. rewrite le_bytes_length. lia.
    + eapply frame_trans; eapply frame_weaken; eauto; lia.
  - intros m x b Hv H8 Hat Hl. rewrite flat_encode_length in Hl. assert (0 ≤ flat_len x)%Z by (unfold flat_len; lia).
    unfold FlatPageTable_encode in Hat. apply at_mem_app in Hat as [A1 A2]. rewrite le_bytes_length in A2.
    unfold FlatPageTable_deserialize.
    rewrite (memcpy_deserialize_ok (pod_ok := pod_u64_ok) ltac:(done) m b (flat_len x));
      [|destruct Hv as [_ Hu]; unfold is_u64 in *; lia|done..|cbn; lia].
    cbn [mbind outcome_bind]. change (Z.of_nat (@size_of Z pod_u64)) with 8%Z. rewrite truncate_header_advance by lia.
    rewrite <- hash_iter_length, Nat2Z.id, read_pairs_ok; [by rewrite insert_all; destruct x| | | |].
    + by apply hash_iter_pair_ok.
    + by apply Z.divide_add_r.
    + done.
    + rewrite hash_iter_length. cbn. lia.
Qed.

#[export] Instance FlatPageTable_Exact : SerializeExact FlatPageTable.
Proof.
  split; intros x _; cbn [need encode FlatPageTable_Spec]; [by rewrite flat_encode_length|].
  apply Z.divide_add_r; [|done]. exists (2 * flat_len x)%Z. lia.
Qed.
End FlatLaws.

(** A flat page table written to a buffer of the announced length and read back
    is the same table, whatever order each of the two hash maps iterates in; bytes
    outside the image are left alone, and a shorter buffer is refused untouched. *)
Theorem flat_roundtrip {hi : HashIter} {hi_ok : HashIterOk} m self b :
  FlatPageTable_valid self → buf_ok m b →
  if (bm_len b <? 16 * flat_len self + 8)%Z then FlatPageTable_serialize m self b = Ret (false, m)
  else ∃ m', FlatPageTable_serialize m self b = Ret (true, m') ∧ FlatPageTable_deserialize m' b = Ret (Some self) ∧
    frame m m' (bm_ptr b) (16 * flat_len self + 8).
Proof.
  intros Hv Hb. destruct (Z.ltb_spec (bm_len b) (16 * flat_len self + 8)) as [Hl|Hl].
  - exact (@serialize_short FlatPageTable _ _ FlatPageTable_SerializeOk m self b Hv Hl).
  - destruct (@serialize_ok FlatPageTable _ _ FlatPageTable_SerializeOk m self b Hv Hb Hl) as (m' & E & Hat & Hf). exists m'.
    cbn [encode FlatPageTable_Spec] in *. split_and!; [done| |by rewrite <- flat_encode_length].
    apply (@deserialize_ok FlatPageTable _ _ FlatPageTable_SerializeOk m' self b); [done|by destruct Hb as (_ & ? & _)|done|].
    cbn [encode FlatPageTable_Spec]. by rewrite flat_encode_length.
Qed.

(** *** What an arbitrary buffer gives *)
Lemma alloc_load m p n : alloc m p (Z.of_nat n) → ∃ bs, load m p n = Some bs ∧ length bs = n.
Proof.
  revert p. induction n as [|n IH]; intros p Ha; cbn; [by exists []|].
  destruct (Ha p) as [x Hx]; [lia|]. rewrite Hx. cbn.
  destruct (IH (p + 1)%Z) as (bs & E & Hl); [intros q Hq; apply Ha; lia|]. rewrite E. cbn. exists (x :: bs). cbn. by rewrite Hl.
Qed.

Lemma any_word m b off :
  buf_ok m b → (8 | off)%Z → (0 ≤ off)%Z → (off + 8 ≤ bm_len b)%Z →
  ∃ z, @memcpy_deserialize_at Z pod_u64 m b off = Ret (Some (8%Z, z)).
Proof.
  intros (Ha & H8 & _) Ho H0 Hl. unfold memcpy_deserialize_at. rewrite truncate_header_advance by lia.
  unfold memcpy_deserialize, BytesMut_len. cbn [bm_ptr bm_len advance]. change (Z.of_nat (@size_of Z pod_u64)) with 8%Z.
  rewrite (proj2 (Z.leb_le _ _)) by lia. rewrite (aligned_8 Z) by (done || by apply Z.divide_add_r).
  destruct (alloc_load m (bm_ptr b + off) 8) as (bs & E & _); [apply (alloc_sub m (bm_ptr b) (bm_len b)); [done|lia|lia]|].
  exists (of_le bs). unfold read_unaligned. change (@size_of Z pod_u64) with 8. rewrite E. done.
Qed.

Lemma no_word m b off : (bm_len b < off + 8)%Z → @memcpy_deserialize_at Z pod_u64 m b off = Ret None.
Proof.
  intros Hl. unfold memcpy_deserialize_at, truncate_header. destruct (off <=? bm_len b)%Z; [|done].
  unfold memcpy_deserialize, BytesMut_len. cbn [bm_len]. change (Z.of_nat (@size_of Z pod_u64)) with 8%Z. by rewrite (proj2 (Z.leb_gt _ _)) by lia.
Qed.

Lemma read_pairs_any m b n res :
  buf_ok m b → if (bm_len b <? 16 * Z.of_nat n)%Z then read_pairs m b n res = Ret None
               else ∃ r, read_pairs m b n res = Ret (Some r).
Proof.
  revert b res. induction n as [|n IH]; intros b res Hb.
  { destruct Hb as (_ & _ & ?). rewrite (proj2 (Z.ltb_ge _ _)) by lia. by eexists. }
  cbn [read_pairs]. destruct (Z.lt_ge_cases (bm_len b) 8) as [H1|H1].
  { rewrite no_word by lia. by rewrite (proj2 (Z.ltb_lt _ _)) by lia. }
  destruct (any_word m b 0 Hb) as [v ->]; [by exists 0%Z|lia..|]. cbn [mbind outcome_bind].
  destruct (Z.lt_ge_cases (bm_len b) 16) as [H2|H2].
  { rewrite no_word by lia. by rewrite (proj2 (Z.ltb_lt _ _)) by lia. }
  destruct (any_word m b 8 Hb) as [p ->]; [done|lia..|]. cbn [mbind outcome_bind].
  rewrite eight_eight. cbn [mbind outcome_bind]. rewrite truncate_header_advance by lia.
  specialize (IH (advance b 16) (<[v := p]> res)). cbn [bm_len advance] in IH.
  replace (bm_len b <? 16 * Z.of_nat (S n))%Z with (bm_len b - 16 <? 16 * Z.of_nat n)%Z
    by (destruct (Z.ltb_spec (bm_len b - 16) (16 * Z.of_nat n)); symmetry; [apply Z.ltb_lt|apply Z.ltb_ge]; lia).
  apply IH, buf_ok_advance; [done|by exists 2%Z|lia].
Qed.

(** Reading a table never touches memory outside the buffer: on any aligned
    readable buffer the reader returns, and it returns a table exactly when the
    number of pairs the first word announces fits in what follows it. *)
Theorem flat_deserialize_bounded m b :
  buf_ok m b →
  ∃ r, FlatPageTable_deserialize m b = Ret r ∧
    (is_Some r ↔ ∃ count, @memcpy_deserialize Z pod_u64 m b = Ret (Some (8%Z, count)) ∧
                          (8 + 16 * Z.of_nat (Z.to_nat count) ≤ bm_len b)%Z).
Proof.
  intros Hb. unfold FlatPageTable_deserialize.
  assert (Eat : @memcpy_deserialize_at Z pod_u64 m b 0 = @memcpy_deserialize Z pod_u64 m b).
  { unfold memcpy_deserialize_at. rewrite truncate_header_0; [done|]. by destruct Hb as (_ & _ & ?). }
  destruct (Z.lt_ge_cases (bm_len b) 8) as [H1|H1].
  { rewrite <- Eat, no_word by lia. exists None. split; [done|]. split; [by intros []|]. by intros (? & ? & _). }
  destruct (any_word m b 0 Hb) as [count E]; [by exists 0%Z|lia..|]. rewrite <- Eat, E. cbn [mbind outcome_bind].
  rewrite truncate_header_advance by lia.
  pose proof (read_pairs_any m (advance b 8) (Z.to_nat count) ∅) as Hr. cbn [bm_len advance] in Hr.
  destruct (Z.ltb_spec (bm_len b - 8) (16 * Z.of_nat (Z.to_nat count))) as [Hl|Hl].
  - rewrite Hr by (apply buf_ok_advance; [done|done|lia]). exists None. split; [done|]. split; [by intros []|].
    intros (c & [= <-] & ?). lia.
  - destruct Hr as [r ->]; [apply buf_ok_advance; [done|done|lia]|]. exists (Some (mkFlatPageTable r)). split; [done|].
    split; [|by eexists]. intros _. exists count. split; [done|lia].
Qed.

(** *** Pairs *)
Section PairLaws.
Context {K V : Type} {pod : Pod (Pair K V)} {v : Pair K V → Prop} {pod_ok : PodOk (Pair K V) v}.
Context (Hal : (align_of (Pair K V) | 8)%Z).

Lemma Pair_SerializeOk : @SerializeOk (Pair K V) Pair_Serialize (Pod_spec (v := v)).
Proof.
  split; cbn [valid encode need serialize deserialize serialization_buf_len Pod_spec Pair_Serialize].
  - done.
  - intros x _. by rewrite to_bytes_length.
  - intros m x b _ Hl. unfold Pair_serialize, Pair_buf_len, BytesMut_len. cbn [mbind outcome_bind].
    by rewrite (proj2 (Z.ltb_lt _ _)).
  - intros m x b _ (Ha & _ & _) Hl. unfold Pair_serialize, Pair_buf_len, BytesMut_len. cbn [mbind outcome_bind].
    rewrite (proj2 (Z.ltb_ge _ _)) by done. unfold write_unaligned, get_ptr.
    destruct (store_ok m (bm_ptr b) (to_bytes x)) as (m' & E & Hat & Hf).
    { rewrite to_bytes_length. apply (alloc_sub m (bm_ptr b) (bm_len b)); [done|lia|lia]. }
    rewrite E. by exists m'.
  - intros m x b Hv H8 Hat Hl. rewrite to_bytes_length in Hl. unfold Pair_deserialize, memcpy_deserialize_at.
    rewrite !truncate_header_0 by lia. rewrite (memcpy_deserialize_ok Hal m b x) by done. cbn [mbind outcome_bind].
    unfold get_ptr. by rewrite (read_unaligned_ok m _ x).
Qed.
End PairLaws.

(** *** Instances *)

(** An order that is not the order of the keys. *)
Definition rev_HashIter : HashIter := {| hash_iter m := reverse (map_to_list m) |}.

Lemma rev_HashIterOk : @HashIterOk rev_HashIter.
Proof. split. intros m. cbn. by rewrite reverse_Permutation. Qed.

Definition example_flat : FlatPageTable :=
  flat_add_one (flat_add_one (flat_add_one FlatPageTable_new 4096 8192) 12288 20480) 8192 4096.

Definition zero_region (p n : Z) : mem := list_to_map ((λ i, (p + Z.of_nat i, 0)%Z) <$> seq 0 (Z.to_nat n)).

Lemma zero_region_ok p n : (8 | p)%Z → (0 ≤ n)%Z → buf_ok (zero_region p n) (mkBytesMut p n).
Proof.
  intros H8 Hn. split_and!; [|done..]. cbn. intros q Hq. unfold zero_region.
  exists 0%Z. apply elem_of_list_to_map_1'.
  - intros z Hz. apply list_elem_of_fmap in Hz as (i & [= _ ->] & _). done.
  - apply list_elem_of_fmap. exists (Z.to_nat (q - p)). split; [f_equal; lia|]. apply elem_of_seq. lia.
Qed.

Lemma example_flat_valid : FlatPageTable_valid example_flat.
Proof. split; [apply (bool_decide_unpack _); vm_compute; exact I|by vm_compute]. Qed.

Lemma flat_roundtrip_witness :
  ∃ m', @FlatPageTable_serialize rev_HashIter (zero_region 4096 64) example_flat (mkBytesMut 4096 64) = Ret (true, m') ∧
    FlatPageTable_deserialize m' (mkBytesMut 4096 64) = Ret (Some example_flat).
Proof.
  pose proof (@flat_roundtrip rev_HashIter rev_HashIterOk (zero_region 4096 64) example_flat (mkBytesMut 4096 64)
    example_flat_valid (zero_region_ok 4096 64 ltac:(by exists 512%Z) ltac:(lia))) as (m' & E & D & _).
  exists m'. exact (conj E D).
Defined.

Lemma flat_deserialize_bounded_witness :
  ∃ r, FlatPageTable_deserialize (zero_region 4096 64) (mkBytesMut 4096 64) = Ret r.
Proof.
  destruct (flat_deserialize_bounded (zero_region 4096 64) (mkBytesMut 4096 64)
    (zero_region_ok 4096 64 ltac:(by exists 512%Z) ltac:(lia))) as (r & E & _). by exists r.
Defined.
