(* ===== verification/LocalDevice.v ===== *)
(** * The local memory device ([os-network/src/remote_memory/local.rs])

    The device that reads and writes the machine's own memory, the same
    interface as the RDMA devices; location, key and size are not looked at. *)

From S2P Require Import Prelude Bytes FlatTable.

Definition local_read (m : mem) (addr : Z) (to : BytesMut) : outcome (Result () () * mem) :=
  '(_, m) ← BytesMut_copy m to (from_raw addr (BytesMut_len to)) 0;
  Ret (Ok (), m).

Definition local_write (m : mem) (addr : Z) (payload : BytesMut) : outcome (Result () () * mem) :=
  '(_, m) ← BytesMut_copy m (from_raw addr (BytesMut_len payload)) payload 0;
  Ret (Ok (), m).

(** What is written to local memory is read back, into any buffer of that size:
    both operations succeed, the reader's buffer holds the payload, and besides
    the two ranges memory is as before. *)
Theorem local_device_roundtrip m addr payload to bs :
  bm_len payload = Z.of_nat (length bs) → bm_len to = bm_len payload → at_mem m (bm_ptr payload) bs →
  alloc m addr (bm_len payload) → alloc m (bm_ptr to) (bm_len to) →
  (bm_ptr payload + bm_len payload ≤ addr ∨ addr + bm_len payload ≤ bm_ptr payload)%Z →
  (bm_ptr to + bm_len to ≤ addr ∨ addr + bm_len to ≤ bm_ptr to)%Z →
  ∃ m1 m2, local_write m addr payload = Ret (Ok (), m1) ∧ local_read m1 addr to = Ret (Ok (), m2) ∧
    at_mem m2 (bm_ptr to) bs ∧ frame m m1 addr (bm_len payload) ∧ frame m1 m2 (bm_ptr to) (bm_len to).
Proof.
  intros Hl Ht Hat Ha Hb Hd1 Hd2.
  destruct (BytesMut_copy_ok m (from_raw addr (bm_len payload)) payload bs 0) as (m1 & E1 & A1 & F1);
    [cbn; lia|done|done|done|cbn; lia|]. cbn in A1, F1.
  destruct (BytesMut_copy_ok m1 to (from_raw addr (bm_len to)) bs 0) as (m2 & E2 & A2 & F2);
    [lia|cbn; lia|done| |cbn; lia|].
  { cbn. by eapply frame_alloc_range. }
  exists m1, m2. unfold local_write, local_read, BytesMut_len. rewrite E1, E2. done.
Qed.

Lemma local_device_roundtrip_witness :
  ∃ m1 m2, local_write (zero_region 64 64) 80 (mkBytesMut 64 8) = Ret (Ok (), m1) ∧
    local_read m1 80 (mkBytesMut 96 8) = Ret (Ok (), m2) ∧ at_mem m2 96 (replicate 8 0%Z).
Proof.
  destruct (zero_region_ok 64 64) as (Ha & _ & _); [by exists 8%Z|lia|]. cbn in Ha.
  destruct (local_device_roundtrip (zero_region 64 64) 80 (mkBytesMut 64 8) (mkBytesMut 96 8) (replicate 8 0%Z))
    as (m1 & m2 & E1 & E2 & Hat & _); cbn [bm_ptr bm_len]; [reflexivity|reflexivity| | | |lia|lia|].
  - intros i b Hi. apply lookup_replicate in Hi as [-> Hi].
    do 8 (destruct i as [|i]; [vm_compute; reflexivity|]). lia.
  - eapply alloc_sub; [exact Ha|lia|lia].
  - eapply alloc_sub; [exact Ha|lia|lia].
  - exists m1, m2. exact (conj E1 (conj E2 Hat)).
Defined.
