(* ===== verification/FlatDump.v ===== *)
(** * Dumping an address space to a flat page table

    The visitors of [kern_wrappers/vma_iters.rs] that read page tables without
    changing them, [VMADumpIter] and [VMATraverseIter], and
    [Task::generate_mm] of [task.rs], which dumps every VMA of the caller into
    one [FlatPageTable].  The theorem: the table holds exactly the mapped pages
    of the address space, each with its frame. *)

From Stdlib Require Import Sorted.
From S2P Require Import Prelude Future Rdma Bytes Descriptors FlatTable Task RefTask Machine PageStructures ShadowProcess ShadowSpec RefPages.

(** ** The visitors *)
Record VMADumpIter := mkVMADumpIter { flat_page_table : FlatPageTable; count : Z }.

Record VMATraverseIter := mkVMATraverseIter { mappings : list (Z * Z) }.

Section Visitors.
Context {W : Type} {ta : TaskApi W} {pa : PagesApi W}.

Definition VMADumpIter_new (pt : FlatPageTable) : VMADumpIter := mkVMADumpIter pt 0.

(** A duplicate entry is only reported in the log. *)
Definition dump_handle_pte_entry (addr : Z) (engine : VMADumpIter) : io W VMADumpIter :=
  phy_addr ← pmem_get_phy_from_pte addr;
  let pt := if (0 <? phy_addr)%Z then flat_add_one (flat_page_table engine) addr phy_addr
            else flat_page_table engine in
  n ← lift (u64_add (count engine) 1);
  mret (mkVMADumpIter pt n).

(** The count, and the visitor with the table it borrows. *)
Definition VMADumpIter_execute (self : VMADumpIter) (vma : Z) : io W (Z * VMADumpIter) :=
  self ← engine_walk dump_handle_pte_entry vma self;
  mret (count self, self).

Definition VMATraverseIter_new : VMATraverseIter := mkVMATraverseIter [].

Definition traverse_handle_pte_entry (addr : Z) (engine : VMATraverseIter) : io W VMATraverseIter :=
  phy_addr ← pmem_get_phy_from_pte addr;
  mret (mkVMATraverseIter (mappings engine ++ [(addr, phy_addr)])).

Definition VMATraverseIter_execute (self : VMATraverseIter) (vma : Z) : io W VMATraverseIter :=
  engine_walk traverse_handle_pte_entry vma (mkVMATraverseIter []).

(** ** [Task::generate_mm] *)
Fixpoint dump_vmas (fuel : nat) (cur : Z) (pt : FlatPageTable) (vmas : list VMADescriptor) (total_counts : Z) :
    io W (list VMADescriptor * FlatPageTable) :=
  match fuel with
  | 0 => λ _, NoFuel
  | S fuel =>
      '(vma, cur) ← VMAIter_next cur;
      match vma with
      | None => mret (vmas, pt)
      | Some vma =>
          d ← VMA_generate_descriptor vma;
          '(n, it) ← VMADumpIter_execute (VMADumpIter_new pt) vma;
          total_counts ← lift (u64_add total_counts n);
          dump_vmas fuel cur (flat_page_table it) (vmas ++ [d]) total_counts
      end
  end.

Definition generate_mm (fuel : nat) : io W (list VMADescriptor * FlatPageTable) :=
  cur ← VMAIter_new;
  dump_vmas fuel cur FlatPageTable_new [] 0.
End Visitors.

(** ** What the walks collect *)
Section DumpSpec.
Context {W : Type} {ta : TaskApi W} {tok : TaskOk W} {pa : PagesApi W} {kn : Kernel W}.
Context {kt : KTimerApi W} {kt_ok : KTimerOk W} {kr : KRdmaKit W} {nic : NicOk W} {kn_ok : KernelOk W}.
Context {pok : PagesOk W}.
Implicit Types o : osview PageData.

Definition dump_entry o (t : FlatPageTable) (a : Z) : FlatPageTable :=
  if decide (is_mapped o a) then flat_add_one t a (frame_of o a) else t.

Lemma walk_dump_ok l it w :
  (0 ≤ count it)%Z → (count it + Z.of_nat (length l) < 2 ^ 64)%Z →
  walk_entries dump_handle_pte_entry l it w =
    Ret (mkVMADumpIter (foldl (dump_entry (os w)) (flat_page_table it) l) (count it + Z.of_nat (length l)), w).
Proof.
  revert it. induction l as [|a l IH]; intros [t n] H0 Hn; cbn [count flat_page_table length] in *.
  { cbn. by rewrite Z.add_0_r. }
  cbn [walk_entries]. unfold dump_handle_pte_entry at 1, pmem_get_phy_from_pte. cbn [count flat_page_table].
  assert (E : (phy_addr ← (v ← pte_val a; mret (phy_of_pte v));
      let pt := if (0 <? phy_addr)%Z then flat_add_one t a phy_addr else t in
      n ← lift (u64_add n 1); mret (mkVMADumpIter pt n)) w = Ret (mkVMADumpIter (dump_entry (os w) t a) (n + 1), w)).
  { erewrite io_bind_run; [|by step (pte_val_ok a w)]. cbv beta zeta. rewrite u64_add_Ret by (unfold is_u64; lia).
    unfold dump_entry, is_mapped, frame_of. cbn. by case_decide; [rewrite (proj2 (Z.ltb_lt _ _))|rewrite (proj2 (Z.ltb_ge _ _)) by lia]. }
  step E. rewrite IH; cbn [count flat_page_table]; [|lia..]. do 3 f_equal. lia.
Qed.

Lemma walk_traverse_ok l it w :
  walk_entries traverse_handle_pte_entry l it w =
    Ret (mkVMATraverseIter (mappings it ++ ((λ a, (a, frame_of (os w) a)) <$> l)), w).
Proof.
  revert it. induction l as [|a l IH]; intros [ms]; cbn [walk_entries mappings]; [cbn; by rewrite app_nil_r|].
  assert (E : traverse_handle_pte_entry a (mkVMATraverseIter ms) w = Ret (mkVMATraverseIter (ms ++ [(a, frame_of (os w) a)]), w)).
  { unfold traverse_handle_pte_entry, pmem_get_phy_from_pte. erewrite io_bind_run; [|by step (pte_val_ok a w)]. done. }
  step E. rewrite IH. cbn [mappings fmap list_fmap]. by rewrite <- app_assoc.
Qed.

Lemma dump_lookup o l t a :
  translate (foldl (dump_entry o) t l) a = if decide (a ∈ l ∧ is_mapped o a) then Some (frame_of o a) else translate t a.
Proof.
  revert t. induction l as [|b l IH]; intros t; cbn [foldl].
  { rewrite decide_False; [done|]. by intros [?%elem_of_nil _]. }
  rewrite IH. case_decide as H1; case_decide as H2; [done|destruct H2; destruct H1; split; [by right|done]| |].
  - destruct H2 as [[->|]%elem_of_cons Hm]; [|tauto]. unfold dump_entry, translate, flat_add_one. rewrite decide_True by done.
    cbn. by rewrite lookup_insert_eq.
  - unfold dump_entry. case_decide as Hm; [|done]. unfold translate, flat_add_one. cbn. apply lookup_insert_ne.
    intros ->. apply H2. split; [left|done].
Qed.

(** Distinct addresses of a range are at most as many as the range is long. *)
Lemma sorted_range_length s e (l : list Z) :
  StronglySorted Z.lt l → (∀ a, a ∈ l → (s ≤ a < e)%Z) → (s ≤ e)%Z → (Z.of_nat (length l) ≤ e - s)%Z.
Proof.
  intros Hs. revert s. induction Hs as [|x l Hl IH Hx]; intros s Hr Hse; [cbn; lia|].
  pose proof (Hr x ltac:(left)). rewrite Forall_forall in Hx.
  specialize (IH (x + 1)%Z). cbn [length]. rewrite Nat2Z.inj_succ.
  assert (Z.of_nat (length l) ≤ e - (x + 1))%Z; [|lia]. apply IH; [|lia].
  intros a Ha. specialize (Hx a Ha). specialize (Hr a ltac:(by right)). lia.
Qed.

(** The pages of an area, as its dump sees them. *)
Definition area_page o (v : VmArea.t) (a : Z) : Prop :=
  (4096 | a)%Z ∧ (VmArea.vm_start v ≤ a < VmArea.vm_end v)%Z ∧ is_mapped o a.

Lemma execute_ok w p v t :
  mm_inv w → (p, v) ∈ areas w →
  ∃ n it, VMADumpIter_execute (VMADumpIter_new t) p w = Ret ((n, it), w) ∧
    (0 ≤ n ≤ VmArea.vm_end v - VmArea.vm_start v)%Z ∧
    (∀ a, area_page (os w) v a → translate (flat_page_table it) a = Some (frame_of (os w) a)) ∧
    (∀ a, ¬ area_page (os w) v a → translate (flat_page_table it) a = translate t a).
Proof.
  intros Hinv Hin. pose proof (areas_ok w Hinv) as (_ & _ & Ho). destruct (ordered_elem _ _ _ Ho Hin) as [Hr He].
  destruct (walk_ok (VmArea.vm_start v) (VmArea.vm_end v) w) as (k & E & Hs & Hk & Hall).
  assert (Hlen : (Z.of_nat (length k) ≤ VmArea.vm_end v - VmArea.vm_start v)%Z).
  { apply sorted_range_length; [done| |lia]. intros a Ha. by apply Hk. }
  unfold VMADumpIter_execute, engine_walk.
  eexists _, _. split.
  { erewrite io_bind_run; [done|]. step (vm_area_read_ok w p v Hinv Hin). step E.
    apply walk_dump_ok; cbn; lia. }
  cbn [count flat_page_table VMADumpIter_new]. split; [lia|].
  assert (Hp : page_addrs (os w) v (filter (is_mapped (os w)) k)) by by eapply walk_page_addrs.
  assert (Ha : ∀ a, (a ∈ k ∧ is_mapped (os w) a) ↔ area_page (os w) v a).
  { intros a. destruct Hp as [_ Hp]. specialize (Hp a). rewrite list_elem_of_filter in Hp. unfold area_page. tauto. }
  split; intros a Hpa; rewrite dump_lookup; case_decide as Hd; [done|by rewrite Ha in Hd|by rewrite Ha in Hd|done].
Qed.

(** [a] is a mapped page of one of the areas. *)
Definition page_in o (l : list (Z * VmArea.t)) (a : Z) : Prop := Exists (λ x, area_page o x.2 a) l.

#[local] Instance area_page_dec o v a : Decision (area_page o v a).
Proof.
  unfold area_page. assert (Decision (4096 | a)%Z); [|apply _].
  destruct (decide (a mod 4096 = 0)%Z) as [H|H]; [left|right]; by rewrite <- Z.mod_divide.
Defined.

#[local] Instance page_in_dec o l a : Decision (page_in o l a).
Proof. unfold page_in. apply _. Defined.

Lemma dump_vmas_ok fuel w l1 l2 t ds n :
  mm_inv w → areas w = l1 ++ l2 → length l2 < fuel → ordered l2 →
  (0 ≤ n < 2 ^ 64)%Z → Forall (λ x, (n ≤ VmArea.vm_start x.2)%Z) l2 →
  ∃ pt, dump_vmas fuel (head_ptr l2) t ds n w = Ret ((ds ++ (area_desc <$> l2.*2), pt), w) ∧
    (∀ a, page_in (os w) l2 a → translate pt a = Some (frame_of (os w) a)) ∧
    (∀ a, ¬ page_in (os w) l2 a → translate pt a = translate t a).
Proof.
  intros Hinv. revert l1 t ds n fuel. induction l2 as [|[p v] l2 IH]; intros l1 t ds n [|fuel] El Hf Hord Hn Hlow;
    try (cbn in Hf; lia); cbn [dump_vmas head_ptr].
  { step (VMAIter_next_end w). exists t. cbn. rewrite app_nil_r. split_and!; [done| |done]. by intros a ?%Exists_nil. }
  step (VMAIter_next_ok w l1 p v l2 Hinv El).
  assert (Hin : (p, v) ∈ areas w) by (rewrite El; apply elem_of_app; right; left).
  step (generate_descriptor_ok w p v Hinv Hin).
  destruct (execute_ok w p v t Hinv Hin) as (k & it & E & Hk & Hyes & Hno). step E.
  destruct Hord as (Hr & He & Hlt & Hord). apply Forall_cons in Hlow as [Hl0 _]. cbn [snd] in Hl0.
  rewrite u64_add_Ret by (unfold is_u64; lia).
  destruct (IH (l1 ++ [(p, v)]) (flat_page_table it) (ds ++ [area_desc v]) (n + k)%Z fuel) as (pt & E' & Hy' & Hn').
  - by rewrite El, <- app_assoc.
  - cbn in Hf. lia.
  - done.
  - lia.
  - eapply Forall_impl; [exact Hlt|]. intros x Hx. cbn in *. lia.
  - exists pt. split_and!.
    + etransitivity; [exact E'|]. cbn. by rewrite <- app_assoc.
    + intros a Ha. destruct (decide (page_in (os w) l2 a)) as [H2|H2]; [by apply Hy'|]. rewrite Hn' by done.
      apply Exists_cons in Ha as [Ha|]; [|done]. by apply Hyes.
    + intros a Ha. unfold page_in in Ha. rewrite Exists_cons in Ha. rewrite Hn' by tauto. apply Hno. tauto.
Qed.

(** C26: [Task::generate_mm] returns, with fuel for the caller's VMAs, their
    descriptors in order and a flat table that holds exactly the mapped pages of
    these VMAs, each with its frame: entries without a page are left out, no page
    is missed, and neither counter overflows.  The process is not changed. *)
Theorem generate_mm_complete fuel w :
  mm_inv w → length (areas w) < fuel →
  ∃ pt, generate_mm fuel w = Ret ((area_desc <$> (areas w).*2, pt), w) ∧
    ∀ a f, translate pt a = Some f ↔
      f = frame_of (os w) a ∧ (0 < f)%Z ∧ (4096 | a)%Z ∧
      ∃ p v, (p, v) ∈ areas w ∧ (VmArea.vm_start v ≤ a < VmArea.vm_end v)%Z.
Proof.
  intros Hinv Hf. pose proof (areas_ok w Hinv) as (_ & _ & Hord). unfold generate_mm, VMAIter_new. step (get_mmap_ok w Hinv).
  destruct (dump_vmas_ok fuel w [] (areas w) FlatPageTable_new [] 0 Hinv eq_refl Hf Hord) as (pt & E & Hy & Hn); [lia| |].
  { apply Forall_forall. intros [p v] Hx. destruct (ordered_elem _ _ _ Hord Hx). cbn. lia. }
  exists pt. split; [done|]. intros a f. split.
  - intros Ht. destruct (decide (page_in (os w) (areas w) a)) as [Hp|Hp].
    + rewrite Hy in Ht by done. injection Ht as <-. apply Exists_exists in Hp as ([p v] & Hx & H4 & Hr & Hm). split_and!; eauto.
    + by rewrite Hn in Ht.
  - intros (-> & Hm & H4 & p & v & Hx & Hr). apply Hy, Exists_exists. exists (p, v). split; [done|]. by split.
Qed.

(** [VMATraverseIter::execute] lists each page-table entry of the area once, by
    increasing address, those without a page with frame 0 (unlike the dump it does
    not filter them), and forgets what an earlier run collected. *)
Theorem traverse_lists_entries w p v self :
  mm_inv w → (p, v) ∈ areas w →
  ∃ l, VMATraverseIter_execute self p w = Ret (mkVMATraverseIter ((λ a, (a, frame_of (os w) a)) <$> l), w) ∧
    StronglySorted Z.lt l ∧ (∀ a, a ∈ l → (VmArea.vm_start v ≤ a < VmArea.vm_end v)%Z ∧ (4096 | a)%Z) ∧
    page_addrs (os w) v (filter (is_mapped (os w)) l).
Proof.
  intros Hinv Hin. destruct (walk_ok (VmArea.vm_start v) (VmArea.vm_end v) w) as (k & E & Hs & Hk & Hall).
  exists k. split_and!; [|done|done|by eapply walk_page_addrs]. unfold VMATraverseIter_execute, engine_walk.
  step (vm_area_read_ok w p v Hinv Hin). step E. by rewrite walk_traverse_ok.
Qed.
End DumpSpec.

(** ** The theorems at a concrete process *)
Lemma generate_mm_complete_witness :
  ∃ pt, generate_mm 5 example_process = Ret ((area_desc <$> (areas example_process).*2, pt), example_process) ∧
    translate pt 4194304 = Some (frame_of (os example_process) 4194304) ∧ translate pt 4198400 = None.
Proof.
  destruct (generate_mm_complete 5 example_process example_process_inv ltac:(vm_compute; lia)) as (pt & E & Ht).
  exists pt. split; [exact E|]. split.
  - apply Ht. split; [reflexivity|]. split; [vm_compute; reflexivity|]. split; [exists 1024%Z; reflexivity|].
    exists 1%Z, example_area. split; [left|clear; cbn; lia].
  - destruct (translate pt 4198400) as [f|] eqn:Ef; [|reflexivity]. exfalso. apply Ht in Ef as (-> & Hm & _).
    assert (Hx : is_mapped (os example_process) 4198400) by exact Hm. apply example_process_mapped in Hx. lia.
Defined.

Lemma traverse_lists_entries_witness :
  ∃ l, VMATraverseIter_execute (mkVMATraverseIter [(0, 0)%Z]) 1 example_process =
    Ret (mkVMATraverseIter ((λ a, (a, frame_of (os example_process) a)) <$> l), example_process).
Proof.
  destruct (traverse_lists_entries example_process 1 example_area (mkVMATraverseIter [(0, 0)%Z])
    example_process_inv ltac:(left)) as (l & E & _). exists l. exact E.
Defined.
