(* ===== verification/Areas.v ===== *)
(** * More of the wrappers of memory areas ([kern_wrappers/mm.rs], [vma.rs])

    [MemoryDescriptor::get_vma_area], which walks the list of areas to an index,
    and the flags a [VMA] is mapped with, next to those its descriptor gives. *)

From S2P Require Import Prelude Descriptors Task RefTask Machine ShadowProcess ShadowSpec RefPages Future Rdma.

Section Areas.
Context {W : Type} {ta : TaskApi W} {vc : VmConsts}.

(** Reading the link of the null pointer is undefined. *)
Fixpoint vma_area_loop (n : nat) (cur : Z) : io W Z :=
  match n with
  | 0 => mret cur
  | S n => if (cur =? 0)%Z then λ _, UB else v ← vm_area_read cur; vma_area_loop n (VmArea.vm_next v)
  end.

Definition get_vma_area (idx : nat) : io W (option Z) :=
  cur ← get_mmap;
  cur ← vma_area_loop idx cur;
  mret (if (cur =? 0)%Z then None else Some cur).

Definition VMA_is_stack (self : Z) : io W bool :=
  flags ← VMA_get_raw_flags self; mret (flags_contains flags VM_STACK).

Definition VMA_get_mmap_flags (self : Z) : io W Z :=
  let ret := 0%Z in
  flags ← VMA_get_raw_flags self;
  let ret := if flags_contains flags VM_READ then Z.lor ret PROT_READ else ret in
  flags ← VMA_get_raw_flags self;
  let ret := if flags_contains flags VM_WRITE then Z.lor ret PROT_WRITE else ret in
  flags ← VMA_get_raw_flags self;
  let ret := if flags_contains flags VM_EXEC then Z.lor ret PROT_EXEC else ret in
  stack ← VMA_is_stack self;
  mret (if (stack : bool) then Z.lor ret PROT_GROWSUP else ret).
End Areas.

Section AreasSpec.
Context {W : Type} {ta : TaskApi W} {tok : TaskOk W} {vc : VmConsts}.

Lemma vma_area_loop_ok w l1 l2 n :
  mm_inv w → areas w = l1 ++ l2 →
  vma_area_loop n (head_ptr l2) w = if decide (n ≤ length l2) then Ret (head_ptr (drop n l2), w) else UB.
Proof.
  intros Hinv. revert l1 l2. induction n as [|n IH]; intros l1 l2 El; cbn [vma_area_loop]; [by rewrite decide_True by lia|].
  pose proof (areas_ok w Hinv) as (_ & Hl & _). rewrite El in Hl. apply linked_app in Hl.
  destruct l2 as [|[p v] l2]; [by rewrite decide_False by (cbn; lia)|]. cbn [head_ptr]. destruct Hl as (Hp & Hn & _).
  rewrite (proj2 (Z.eqb_neq _ _)) by done. step (vm_area_read_ok w p v Hinv ltac:(rewrite El; apply elem_of_app; right; left)).
  rewrite Hn, (IH (l1 ++ [(p, v)])) by (by rewrite El, <- app_assoc). cbn [length drop].
  destruct (decide (n ≤ length l2)); [by rewrite decide_True by lia|by rewrite decide_False by lia].
Qed.

(** [get_vma_area(idx)] is the [idx]-th area of the process and [None] when there
    are exactly [idx] of them; with a larger index it follows the null pointer
    behind the last area. *)
Theorem get_vma_area_by_index w idx :
  mm_inv w →
  get_vma_area idx w = if decide (idx ≤ length (areas w)) then Ret ((areas w).*1 !! idx, w) else UB.
Proof.
  intros Hinv. unfold get_vma_area. step (get_mmap_ok w Hinv).
  pose proof (vma_area_loop_ok w [] (areas w) idx Hinv eq_refl) as E. case_decide as Hi.
  - step E. pose proof (areas_ok w Hinv) as (_ & Hl & _). rewrite <- (take_drop idx (areas w)) in Hl. apply linked_app in Hl.
    rewrite list_lookup_fmap. destruct (drop idx (areas w)) as [|[p v] l2] eqn:Ed; cbn [head_ptr].
    + rewrite lookup_ge_None_2; [done|]. apply (f_equal length) in Ed. rewrite length_drop in Ed. cbn in Ed. lia.
    + destruct Hl as (Hp & _). rewrite (proj2 (Z.eqb_neq _ _)) by done.
      rewrite <- (Nat.add_0_r idx), <- lookup_drop, Ed. done.
  - unfold mbind, io_bind. by rewrite E.
Qed.

(** The protection an area is mapped with is the one its descriptor tells the
    child to map it with: [VMA::get_mmap_flags] and [VMADescriptor::get_mmap_flags]
    agree through [generate_descriptor]. *)
Theorem mmap_flags_agree w p v :
  mm_inv w → (p, v) ∈ areas w →
  ∃ d flags, VMA_generate_descriptor p w = Ret (d, w) ∧ VMA_get_mmap_flags p w = Ret (flags, w) ∧ get_mmap_flags d = flags.
Proof.
  intros Hinv Hin. assert (Ef : VMA_get_raw_flags p w = Ret (VmArea.vm_flags v, w)).
  { unfold VMA_get_raw_flags. by step (vm_area_read_ok w p v Hinv Hin). }
  eexists _, _. split; [by apply generate_descriptor_ok|]. split; [|reflexivity].
  unfold VMA_get_mmap_flags, VMA_is_stack. do 3 step Ef. erewrite io_bind_run; [|by step Ef]. done.
Qed.
End AreasSpec.

Lemma get_vma_area_by_index_witness :
  get_vma_area 0 example_process = Ret (Some 1%Z, example_process) ∧ get_vma_area 1 example_process = Ret (None, example_process) ∧
  get_vma_area 2 example_process = UB.
Proof.
  rewrite !(get_vma_area_by_index _ _ example_process_inv). done.
Defined.

Lemma mmap_flags_agree_witness :
  ∃ d flags, VMA_generate_descriptor 1 example_process = Ret (d, example_process) ∧
    VMA_get_mmap_flags (vc := linux_VmConsts) 1 example_process = Ret (flags, example_process) ∧
    get_mmap_flags (H := linux_VmConsts) d = flags.
Proof. apply (mmap_flags_agree (vc := linux_VmConsts) example_process 1 example_area example_process_inv). left. Defined.
