(* ===== verification/Client.v ===== *)
(** * The clients of the system calls ([mitosis-user-libs])

    The C client ([mitosis-c-client/include/syscall.h]) and the Rust client
    issue [ioctl]s on the module's device file.  A call runs through the system
    call service ([syscalls.rs]) to the handler of that file; a request struct
    lies on the caller's stack and is copied from there by the kernel.  The
    theorems say which request the handler runs for each call of the client,
    and what becomes of 64-bit keys on the way. *)

From S2P Require Import Prelude Future Rdma Machine PageStructures PageHeap RemotePageTable PageCopy PageDrop Bytes Descriptors ParentWire ChildWire Task RefTask ShadowProcess ShadowSpec RefPages Datagram ShadowService ShadowCopy ShadowCow RemoteFork Rpc RpcSpec RpcCall RemotePaging RpcHandlers CallerPool AddressSpace PageFault PageCache SysCalls FlatTable.

(** [_copy_from_user] in a process whose memory is the argument; it copies all
    bytes of a range that is mapped. *)
Class UserMemory (W : Type) := { user_api : mem → UserApi W }.

Class UserMemoryOk (W : Type) {um : UserMemory W} : Prop := {
  copy_from_user_ok um p bs buf w : at_mem um p bs →
    @copy_from_user W (user_api um) buf p (Z.of_nat (length bs)) w = Ret (bs, w) }.

(** The requests as they lie in memory (x86-64 C ABI). *)
Definition connect_req_bytes (r : connect_req_t) : list Z :=
  le_bytes 4 (cr_machine_id r) ++ le_bytes 4 (cr_nic_id r) ++ le_bytes 8 (cr_gid r).

Definition resume_req_bytes (r : resume_remote_req_t) : list Z :=
  le_bytes 4 (rq_machine_id r) ++ le_bytes 4 (rq_handler_id r).

(** ** [mitosis-protocol] *)
Module Protocol.
Definition CALL_NIL : Z := 0.
Definition CALL_CONNECT : Z := 3.
Definition CALL_PREPARE : Z := 4.
Definition CALL_RESUME_LOCAL : Z := 5.
Definition CALL_RESUME_LOCAL_W_RPC : Z := 6.
Definition CALL_RESUME_REMOTE : Z := 7.
End Protocol.

(** The C library turns the errors [-4095..-1] of a system call into -1; the
    result is an [int]. *)
Definition as_i32 (z : Z) : Z := ((z + 2 ^ 31) mod 2 ^ 32 - 2 ^ 31)%Z.
Definition libc_result (r : Z) : Z := if ((-4095 <=? r) && (r <? 0))%Z%bool then (-1)%Z else as_i32 r.

Section Client.
Context {W : Type} {kt : KTimerApi W} {kr : KRdmaKit W} {kn : Kernel W} {ta : TaskApi W} {vc : VmConsts} {pa : PagesApi W}.
Context {fa : FaultApi W} {cm : UdCm W} {po : PortApi W}.
Context {vm : Vmalloc} {x86 : X86Crate} {dt : DcTargets} {dl : DescriptorLayout} {rl : RpcLayout} {rp : ReplyLayout}.
Context {ft : Features} {us : UserMemory W}.
Context (fuel : nat) (dma : mem → mem) (dma_read : UDMsg W → mem → mem).

(** The files a process has open on the device, by descriptor, and the module. *)
Record device := mkDevice { d_files : gmap Z (MitosisSysCallHandler W); d_globals : Globals W }.

(** *** [SysCallsHandler]: the service delegates to the handler. *)
Definition SysCallsHandler_open (file : Z) : MitosisSysCallHandler W := handler_open file.

Definition SysCallsHandler_ioctrl (um : mem) (g : Globals W) (self : MitosisSysCallHandler W) (cmd arg : Z) :
    io W (Z * MitosisSysCallHandler W * Globals W) :=
  ioctrl (us := user_api um) fuel dma dma_read g self cmd arg.

(** [ioctl(2)]; a descriptor that is not open is an error. *)
Definition ioctl (um : mem) (s : device) (sd cmd arg : Z) : io W (Z * device) :=
  match d_files s !! sd with
  | None => mret ((-1)%Z, s)
  | Some self =>
      '(r, self, g) ← SysCallsHandler_ioctrl um (d_globals s) self cmd arg;
      mret (libc_result r, mkDevice (<[sd := self]> (d_files s)) g)
  end.

(** *** The C client; [req] is the address of the local variable. *)
Definition ioctl_status (um : mem) (s : device) (sd cmd arg : Z) : io W (Z * device) :=
  '(r, s) ← ioctl um s sd cmd arg;
  mret (if (r =? -1)%Z then (-1)%Z else 0%Z, s).

(** [open] of the device: the kernel's descriptor and file, or an error. *)
Definition sopen (s : device) (opened : option (Z * Z)) : Z * device :=
  match opened with
  | None => ((-1)%Z, s)
  | Some (fd, file) => (fd, mkDevice (<[fd := SysCallsHandler_open file]> (d_files s)) (d_globals s))
  end.

Definition call_nil (um : mem) (s : device) (sd : Z) : io W (Z * device) := ioctl_status um s sd LibMITOSISCmd.Nil 0.

Definition call_connect (um : mem) (req : Z) (s : device) (sd addr mac_id nic_id : Z) : io W (Z * device) :=
  um ← lift (or_ub (store um req (connect_req_bytes (mkConnectReq mac_id nic_id addr))));
  ioctl_status um s sd LibMITOSISCmd.Connect req.

Definition fork_prepare (um : mem) (s : device) (sd key : Z) : io W (Z * device) := ioctl_status um s sd LibMITOSISCmd.Prepare key.

Definition fork_prepare_ping (um : mem) (s : device) (sd key : Z) : io W (Z * device) :=
  ioctl_status um s sd LibMITOSISCmd.PreparePing key.

Definition fork_resume_local (um : mem) (s : device) (sd key : Z) : io W (Z * device) :=
  ioctl_status um s sd LibMITOSISCmd.ResumeLocal key.

(** The [unsigned long] arguments become [unsigned int] fields. *)
Definition fork_resume_remote (um : mem) (req : Z) (s : device) (sd mac_id handler_id : Z) : io W (Z * device) :=
  um ← lift (or_ub (store um req (resume_req_bytes (mkResumeReq (as_u32 mac_id) (as_u32 handler_id)))));
  ioctl_status um s sd LibMITOSISCmd.ResumeRemote req.

Definition nil_rpc (um : mem) (req : Z) (s : device) (sd mac_id handler_id : Z) : io W (Z * device) :=
  um ← lift (or_ub (store um req (resume_req_bytes (mkResumeReq (as_u32 mac_id) (as_u32 handler_id)))));
  ioctl_status um s sd LibMITOSISCmd.NilRPC req.

(** *** The Rust client: [Errno::result] makes -1 an error. *)
Definition Errno_result (r : Z) : Result Z () := if (r =? -1)%Z then Err () else Ok r.

Definition ioctl_write (nr : Z) (um : mem) (s : device) (fd data : Z) : io W (Result Z () * device) :=
  '(r, s) ← ioctl um s fd nr data; mret (Errno_result r, s).

Definition mitosis_syscall_nil : mem → device → Z → Z → io W (Result Z () * device) := ioctl_write Protocol.CALL_NIL.
Definition mitosis_syscall_prepare : mem → device → Z → Z → io W (Result Z () * device) := ioctl_write Protocol.CALL_PREPARE.

(** [data] is the address of a local 0. *)
Definition MClient_nil (um : mem) (data : Z) (s : device) (fd : Z) : io W (Result Z () * device) :=
  um ← lift (or_ub (store um data (le_bytes 8 0)));
  mitosis_syscall_nil um s fd data.

Definition MClient_prepare (um : mem) (s : device) (fd key : Z) : io W (Result Z () * device) :=
  mitosis_syscall_prepare um s fd key.

Definition MClient_test (um : mem) (data : Z) (s : device) (fd cmd : Z) : io W (Result Z () * device) :=
  um ← lift (or_ub (store um data (le_bytes 8 0)));
  ioctl_write (as_u32 (as_u64 cmd)) um s fd data.
End Client.
#[global] Arguments device W {kr dt}.

(** ** What the handler is asked to do *)
Section ClientSpec.
Context {W : Type} {kt : KTimerApi W} {kr : KRdmaKit W} {kn : Kernel W} {ta : TaskApi W} {vc : VmConsts} {pa : PagesApi W}.
Context {fa : FaultApi W} {cm : UdCm W} {po : PortApi W}.
Context {vm : Vmalloc} {x86 : X86Crate} {dt : DcTargets} {dl : DescriptorLayout} {rl : RpcLayout} {rp : ReplyLayout}.
Context {ft : Features} {us : UserMemory W} {us_ok : UserMemoryOk W}.
Context (fuel : nat) (dma : mem → mem) (dma_read : UDMsg W → mem → mem).
Implicit Types (s : device W) (self : MitosisSysCallHandler W) (g : Globals W) (um : mem).

(** The client's view of a handler's run: its new state, and 0 or -1. *)
Definition answer s (sd : Z) (x : Z * MitosisSysCallHandler W * Globals W) : Z * device W :=
  (if (libc_result x.1.1 =? -1)%Z then (-1)%Z else 0%Z, mkDevice (<[sd := x.1.2]> (d_files s)) x.2).

Lemma io_bind_assoc {A B C} (m : io W A) (k : A → io W B) (h : B → io W C) w :
  ((m ≫= k) ≫= h) w = (m ≫= λ a, k a ≫= h) w.
Proof. unfold mbind, io_bind. by destruct (m w) as [[a w1]| | |]. Qed.

Lemma io_bind_ext {A B} (m : io W A) (k k' : A → io W B) w : (∀ a w', k a w' = k' a w') → (m ≫= k) w = (m ≫= k') w.
Proof. intros H. unfold mbind, io_bind. destruct (m w) as [[a w1]| | |]; [apply H|done..]. Qed.

Lemma ioctl_status_run um s sd self cmd arg w :
  d_files s !! sd = Some self →
  ioctl_status fuel dma dma_read um s sd cmd arg w =
    (ioctrl (us := user_api um) fuel dma dma_read (d_globals s) self cmd arg ≫= λ x, mret (answer s sd x)) w.
Proof.
  intros Hsd. unfold ioctl_status, ioctl. rewrite Hsd. unfold SysCallsHandler_ioctrl. rewrite io_bind_assoc.
  apply io_bind_ext. by intros [[r self'] g'] w'.
Qed.

Lemma fork_prepare_run um s sd self key w x w' :
  d_files s !! sd = Some self → syscall_prepare fuel (d_globals s) self key false w = Ret (x, w') →
  fork_prepare fuel dma dma_read um s sd key w = Ret (answer s sd x, w').
Proof. intros Hsd E. unfold fork_prepare. rewrite (ioctl_status_run _ _ _ self) by done. exact (io_bind_run _ _ _ _ _ E). Qed.

Lemma resume_req_roundtrip m h : is_u32 m → is_u32 h → resume_req_of (resume_req_bytes (mkResumeReq m h)) = mkResumeReq m h.
Proof.
  intros Hm Hh. unfold resume_req_of, resume_req_bytes. cbn [rq_machine_id rq_handler_id].
  rewrite take_app_length', drop_app_length' by (by rewrite le_bytes_length).
  rewrite take_ge by (by rewrite le_bytes_length). by rewrite !le_bytes_roundtrip.
Qed.

Lemma connect_req_roundtrip m n a :
  is_u32 m → is_u32 n → is_u64 a → connect_req_of (connect_req_bytes (mkConnectReq m n a)) = mkConnectReq m n a.
Proof.
  intros Hm Hn Ha. unfold connect_req_of, connect_req_bytes. cbn [cr_machine_id cr_nic_id cr_gid].
  rewrite take_app_length', drop_app_length' by (by rewrite le_bytes_length).
  rewrite take_app_length' by (by rewrite le_bytes_length). rewrite app_assoc, drop_app_length' by (by rewrite length_app, !le_bytes_length).
  rewrite take_ge by (by rewrite le_bytes_length). by rewrite !le_bytes_roundtrip.
Qed.

Lemma read_resume_req_ok um p m h w :
  is_u32 m → is_u32 h → at_mem um p (resume_req_bytes (mkResumeReq m h)) →
  read_resume_req (us := user_api um) p w = Ret (mkResumeReq m h, w).
Proof.
  intros Hm Hh Hat. unfold read_resume_req. step (copy_from_user_ok um p _ (replicate 8 0%Z) w Hat).
  by rewrite resume_req_roundtrip.
Qed.

(** Commands that carry a [resume_remote_req_t]. *)
Lemma send_resume_req um req s sd self cmd mac h w (F : Z → Z → io W (Z * MitosisSysCallHandler W * Globals W)) :
  d_files s !! sd = Some self → alloc um req 8 →
  (∀ um' w, ioctrl (us := user_api um') fuel dma dma_read (d_globals s) self cmd req w =
    (read_resume_req (us := user_api um') req ≫= λ r, F (rq_machine_id r) (rq_handler_id r)) w) →
  (um ← lift (or_ub (store um req (resume_req_bytes (mkResumeReq (as_u32 mac) (as_u32 h)))));
   ioctl_status fuel dma dma_read um s sd cmd req) w =
  (F (as_u32 mac) (as_u32 h) ≫= λ x, mret (answer s sd x)) w.
Proof.
  intros Hsd Hal HF. destruct (store_ok um req (resume_req_bytes (mkResumeReq (as_u32 mac) (as_u32 h)))) as (um' & E & Hat & _); [done|].
  rewrite E. assert (El : (lift (or_ub (Some um')) : io W mem) w = Ret (um', w)) by done. rewrite (io_bind_run _ _ _ _ _ El).
  rewrite (ioctl_status_run _ _ _ self) by done. unfold mbind at 1, io_bind at 1. rewrite HF.
  by rewrite (io_bind_run _ _ _ _ _ (read_resume_req_ok um' req _ _ w (as_u32_range _) (as_u32_range _) Hat)).
Qed.

(** Each call of the C client on an open descriptor runs the handler's operation
    for it, with the request as the kernel reads it back from the caller's stack:
    a key to prepare arrives whole, machine and handler of a resume arrive modulo
    2^32, and the caller sees 0 or -1.  [fork_resume_local] panics the kernel. *)
Theorem client_requests um req s sd self mac h w :
  d_files s !! sd = Some self → alloc um req 8 →
  (∀ key, fork_prepare fuel dma dma_read um s sd key w =
    (syscall_prepare fuel (d_globals s) self key false ≫= λ x, mret (answer s sd x)) w) ∧
  (∀ key, fork_prepare_ping fuel dma dma_read um s sd key w =
    (syscall_prepare fuel (d_globals s) self key true ≫= λ x, mret (answer s sd x)) w) ∧
  (∀ key, fork_resume_local fuel dma dma_read um s sd key w = Panic) ∧
  fork_resume_remote fuel dma dma_read um req s sd mac h w =
    (syscall_resume_w_rpc fuel dma dma_read (d_globals s) self (as_u32 mac) (as_u32 h) ≫= λ x, mret (answer s sd x)) w ∧
  nil_rpc fuel dma dma_read um req s sd mac h w =
    ('(r, g) ← syscall_nil_rpc fuel dma (d_globals s) (as_u32 mac) (as_u32 h); mret (answer s sd (r, self, g))) w.
Proof.
  intros Hsd Hal. split_and!.
  - intros key. unfold fork_prepare. by rewrite (ioctl_status_run _ _ _ self).
  - intros key. unfold fork_prepare_ping. by rewrite (ioctl_status_run _ _ _ self).
  - intros key. unfold fork_resume_local. by rewrite (ioctl_status_run _ _ _ self).
  - unfold fork_resume_remote. by apply (send_resume_req _ _ _ _ self _ _ _ _ (syscall_resume_w_rpc fuel dma dma_read (d_globals s) self)).
  - unfold nil_rpc. rewrite (send_resume_req _ _ _ _ self _ _ _ _
      (λ m k, '(r, g) ← syscall_nil_rpc fuel dma (d_globals s) m k; mret (r, self, g))) by done.
    rewrite io_bind_assoc. apply io_bind_ext. by intros [r g] w'.
Qed.

(** [call_connect] with a valid GID of 39 characters connects to exactly that
    machine, GID and card: the request and the string survive the two copies
    into the kernel. *)
Theorem client_connect um req s sd self addr gid mac nic w :
  d_files s !! sd = Some self → is_u32 mac → is_u32 nic → is_u64 addr →
  length gid = 39 → utf8 gid = true → at_mem um addr gid → alloc um req 16 → (addr + 39 ≤ req ∨ req + 16 ≤ addr)%Z →
  call_connect fuel dma dma_read um req s sd addr mac nic w =
    ('(r, g) ← syscall_connect_session fuel dma (d_globals s) mac gid nic; mret (answer s sd (r, self, g))) w.
Proof.
  intros Hsd Hm Hn Ha Hl Hu Hg Hal Hd. unfold call_connect.
  destruct (store_ok um req (connect_req_bytes (mkConnectReq mac nic addr))) as (um' & E & Hat & Hf); [done|].
  rewrite E. assert (El : (lift (or_ub (Some um')) : io W mem) w = Ret (um', w)) by done. rewrite (io_bind_run _ _ _ _ _ El).
  rewrite (ioctl_status_run _ _ _ self) by done.
  assert (Hg' : at_mem um' addr gid) by (eapply at_mem_frame; [exact Hf|exact Hg|rewrite Hl; exact Hd]).
  transitivity ((('(r, g) ← syscall_connect_session fuel dma (d_globals s) mac gid nic; mret (r, self, g)) ≫= λ x, mret (answer s sd x)) w).
  - unfold mbind at 1, io_bind at 1. unfold ioctrl. cbn -[copy_from_user replicate connect_req_of connect_req_bytes from_utf8 syscall_connect_session].
    rewrite (io_bind_run _ _ _ _ _ (copy_from_user_ok um' req _ (replicate 16 0%Z) w Hat)). cbv zeta.
    rewrite connect_req_roundtrip by done. cbn [cr_gid cr_machine_id cr_nic_id].
    pose proof (copy_from_user_ok um' addr gid (replicate 39 0%Z) w Hg') as Ec. rewrite Hl in Ec. rewrite (io_bind_run _ _ _ _ _ Ec).
    unfold from_utf8. rewrite Hu. done.
  - rewrite io_bind_assoc. apply io_bind_ext. by intros [r g] w'.
Qed.

(** A process that [fork_prepare] prepared is registered under the whole key it
    gave, a key that was free, but a resume under that key asks for the key modulo
    2^32: of two processes prepared under keys that agree there, the client can
    only ever resume the one with the small key. *)
Theorem client_keys um s sd self key w s' w' :
  d_files s !! sd = Some self → fork_prepare fuel dma dma_read um s sd key w = Ret ((0%Z, s'), w') →
  registered_processes (g_sps (d_globals s)) !! key = None ∧
  (∃ b, registered_processes (g_sps (d_globals s')) = <[key := b]> (registered_processes (g_sps (d_globals s)))) ∧
  ∀ um2 req s2 sd2 mac w2, fork_resume_remote fuel dma dma_read um2 req s2 sd2 mac key w2 =
    fork_resume_remote fuel dma dma_read um2 req s2 sd2 mac (key mod 2 ^ 32) w2.
Proof.
  intros Hsd E. unfold fork_prepare in E. rewrite (ioctl_status_run _ _ _ self) in E by done.
  apply io_bind_Ret in E as ([[r self'] g'] & w1 & E1 & E). injection E as Er <- _.
  change (syscall_prepare fuel (d_globals s) self key false w = Ret ((r, self', g'), w1)) in E1.
  assert (r = 0%Z) as ->.
  { unfold syscall_prepare in E1. destruct (prepared_key _); [injection E1 as <- <- <- <-; done|].
    apply io_bind_Ret in E1 as ([res sps] & w2 & _ & E1). destruct res; injection E1 as <- <- <- <-; done. }
  apply prepare_registry in E1. rewrite decide_True in E1 by done. destruct E1 as (_ & Hf & Hb & _).
  split_and!; [done|done|]. intros. unfold fork_resume_remote, as_u32. by rewrite Z.mod_mod.
Qed.
End ClientSpec.

(** ** On the reference machine *)
#[export] Instance ref_UserMemory : UserMemory ref_machine :=
  {| user_api um := {| copy_from_user := λ buf p n w, Ret (default buf (load um p (Z.to_nat n)), w) |} |}.

#[export] Instance ref_UserMemoryOk : UserMemoryOk ref_machine.
Proof. split. intros um p bs buf w Hat. cbn. by rewrite Nat2Z.id, load_at. Qed.

Definition example_device : device ref_machine := mkDevice {[7%Z := handler_open 3]} example_globals.

Lemma client_requests_witness :
  fork_resume_local (vc := linux_VmConsts) (vm := area32) (x86 := x86_reference) (dl := word_layout) (rl := word_RpcLayout)
    (rp := word_ReplyLayout) 2 id (λ _, id) (zero_region 4096 64) example_device 7 5 example_process = Panic.
Proof.
  destruct (client_requests (vc := linux_VmConsts) (vm := area32) (x86 := x86_reference) (dl := word_layout) (rl := word_RpcLayout)
    (rp := word_ReplyLayout) 2 id (λ _, id) (zero_region 4096 64) 4096 example_device 7 (handler_open 3) 1 5 example_process eq_refl)
    as (_ & _ & H & _); [|exact (H 5%Z)].
  intros q Hq. apply (proj1 (zero_region_ok 4096 64 ltac:(by exists 512%Z) ltac:(lia))). cbn. lia.
Defined.

(** A GID of 39 characters at 4096, the request at 4160. *)
Definition example_stack : mem := default ∅ (store (zero_region 4096 80) 4096 (replicate 39 48%Z)).

Lemma example_stack_ok : at_mem example_stack 4096 (replicate 39 48%Z) ∧ alloc example_stack 4160 16.
Proof.
  destruct (zero_region_ok 4096 80) as (Ha & _ & _); [by exists 512%Z|lia|]. cbn in Ha.
  destruct (store_ok (zero_region 4096 80) 4096 (replicate 39 48%Z)) as (m & E & Hat & Hf).
  { intros q Hq. apply Ha. rewrite length_replicate in Hq. lia. }
  unfold example_stack. rewrite E. cbn. split; [done|]. intros q Hq. apply (frame_alloc_range _ _ _ _ 4096 80 Hf Ha). lia.
Qed.

Lemma client_connect_witness :
  ∃ o, call_connect (vc := linux_VmConsts) (vm := area32) (x86 := x86_reference) (dl := word_layout) (rl := word_RpcLayout)
    (rp := word_ReplyLayout) 2 id (λ _, id) example_stack 4160 example_device 7 4096 1 0 example_process = o ∧
    ('(r, g) ← syscall_connect_session (rl := word_RpcLayout) 2 id example_globals 1 (replicate 39 48%Z) 0;
     mret (answer example_device 7 (r, handler_open 3, g))) example_process = o.
Proof.
  destruct example_stack_ok as [Hat Hal]. eexists. split; [|reflexivity].
  apply (client_connect (vc := linux_VmConsts) (vm := area32) (x86 := x86_reference) (dl := word_layout) (rl := word_RpcLayout)
    (rp := word_ReplyLayout) 2 id (λ _, id) example_stack 4160 example_device 7 (handler_open 3) 4096 (replicate 39 48%Z) 1 0 example_process);
    [reflexivity|by vm_compute..|exact Hat|exact Hal|lia].
Defined.

(** The process prepares itself under 2^32 + 5, and is resumed as 5. *)
Lemma client_keys_witness :
  ∃ s' w', fork_prepare (vc := linux_VmConsts) (vm := area32) (x86 := x86_reference) (dl := word_layout) (rl := word_RpcLayout)
      (rp := word_ReplyLayout) 2 id (λ _, id) ∅ example_device 7 4294967301 example_process = Ret ((0%Z, s'), w') ∧
    is_Some (registered_processes (g_sps (d_globals s')) !! 4294967301%Z) ∧
    registered_processes (g_sps (d_globals s')) !! 5%Z = None.
Proof.
  destruct (add_myself_ok (dl := word_layout) (dl_ok := word_layout_ok) (vc := linux_VmConsts) true 2 (example_sps 512) example_process
    4294967301 [example_msg 0] (example_msg 512) [] (mkDCTargetMeta (dt := ref_DcTargets) 11%Z 0 7 3 (0, 0)%Z) [[4194304; 4202496]%Z])
    as (sp & g' & w' & E & _); [by apply example_sps_inv|done|done|done|exact example_ready|].
  assert (Ep : fork_prepare (vc := linux_VmConsts) (vm := area32) (x86 := x86_reference) (dl := word_layout) (rl := word_RpcLayout)
      (rp := word_ReplyLayout) 2 id (λ _, id) ∅ example_device 7 4294967301 example_process =
    Ret (answer example_device 7 (0%Z, set_status (handler_open 3) (mkCallerData (kr := ref_KRdmaKit) false (Some 4294967301%Z) 0 None),
      set_sps example_globals g'), w')).
  { apply (fork_prepare_run 2 id (λ _, id) ∅ example_device 7 (handler_open 3)); [reflexivity|].
    apply (prepare_run 2 example_globals (handler_open 3) 4294967301 false example_process 512 g' w'); [reflexivity|exact E]. }
  eexists _, _. split; [exact Ep|].
  destruct (client_keys (vc := linux_VmConsts) (vm := area32) (x86 := x86_reference) (dl := word_layout) (rl := word_RpcLayout)
    (rp := word_ReplyLayout) 2 id (λ _, id) ∅ example_device 7 (handler_open 3) 4294967301 example_process _ w' eq_refl Ep)
    as (_ & (b & Hb) & _). clear E Ep.
  rewrite Hb. split; [by rewrite lookup_insert_eq|]. by rewrite lookup_insert_ne.
Defined.
