(* ===== verification/LeanContainer.v ===== *)
(** * The lean container library ([mitosis-lean-container/lib/core/lean_container.c])

    The C functions that start, pause and stop a container, as interaction
    trees over the system calls they make.  A local [char buf[256]] that is
    written past its end is the event [Undefined] (as is signed overflow); a variable that is read before
    it has been written is [None]. *)

From stdpp Require Import pretty strings.
From ITree Require Import ITree.
From S2P Require Import Prelude.

#[export] Instance itree_mbind {E} : MBind (itree E) := λ A B f m, ITree.bind m f.
#[export] Instance itree_mret {E} : MRet (itree E) := λ A x, go (RetF x).

Inductive errno := EEXIST | ENOENT | EOTHER.
#[export] Instance errno_eq_dec : EqDecision errno.
Proof. solve_decision. Defined.

(** ** System calls *)
Variant sysE : Type → Type :=
| Open (path : string) (for_writing : bool) : sysE Z
| Read (fd n : Z) : sysE (Z * list Z)
| Write (fd : Z) (buf : list Z) : sysE Z
| Close (fd : Z) : sysE Z
| Mkdir (path : string) : sysE (Z * errno)
| Rmdir (path : string) : sysE (Z * errno)
| Chdir (path : string) : sysE Z
| Chroot (path : string) : sysE Z
| Mount (target : string) : sysE Z
| Umount2 (target : string) : sysE Z
| Pipe : sysE (Z * (Z * Z))
| Fork : sysE Z
| Waitpid (pid : Z) : sysE Z
| Unshare : sysE Z
| Setns (fd : Z) : sysE Z
| Kill (pid : Z) : sysE Z
| Prctl : sysE Z
| Execve (path : string) (argv envp : list string) : sysE Z
| Pause : sysE ()
| Exit (status : Z) : sysE Empty_set
| AssertFail : sysE Empty_set
| Undefined : sysE Empty_set.

Abbreviation code := (itree sysE).

Definition sys {A} (e : sysE A) : code A := trigger e.
Definition noreturn {A} (e : sysE Empty_set) : code A := x ← sys e; match (x : Empty_set) with end.

(** ** Strings and bytes *)
Definition BUF_SIZE : nat := 256.

(** [sprintf] into a local buffer of [BUF_SIZE] characters *)
Definition sprintf (s : string) : code string :=
  if (String.length s <? BUF_SIZE)%nat then mret s else noreturn Undefined.

Definition str_bytes (s : string) : list Z := (λ a, Z.of_N (Ascii.N_of_ascii a)) <$> String.list_ascii_of_string s.

(** A [pid_t] in memory: four bytes, little-endian, two's complement *)
Definition pid_bytes (pid : Z) : list Z := (λ i, Z.land (Z.shiftr pid (8 * i)) 255) <$> [0; 1; 2; 3]%Z.

Definition bytes_pid (bs : list Z) : Z :=
  let u := foldr (λ b acc, b + 256 * acc)%Z 0%Z bs in if (u <? 2 ^ 31)%Z then u else (u - 2 ^ 32)%Z.

(** [read(fd, &v, sizeof(v))] of a [pid_t]: fewer bytes leave [v] unset. *)
Definition read_pid (fd : Z) : code (option Z) :=
  '(_, bs) ← sys (Read fd 4); mret (if (length bs =? 4)%nat then Some (bytes_pid bs) else None).

Definition DEFAULT_NUMA_COUNT : Z := 2.
Definition DEFAULT_CPU_COUNT : Z := 48.

(** ** Paths *)
Definition cgroup_root (group : string) : string := "/sys/fs/cgroup/" +:+ group +:+ "/mitosis/".

Definition cgroup_directory_prefix : list string :=
  cgroup_root <$> ["hugetlb"; "perf_event"; "net_cls,net_prio"; "pids"; "devices"; "freezer"; "cpu,cpuacct"; "cpuset"; "blkio"; "memory"; "systemd"].

Definition cpuset_cgroup_directory_prefix : string := cgroup_root "cpuset".
Definition memory_cgroup_directory_prefix : string := cgroup_root "memory".
Definition freezer_cgroup_directory_prefix : string := cgroup_root "freezer".

Definition namespaces : list string := ["uts"; "pid"; "ipc"; "mnt"].
Definition namespace_path (kind : string) (namespace : Z) : string := "/proc/" +:+ pretty namespace +:+ "/ns/" +:+ kind.

(** ** Utility functions *)
Fixpoint set_namespace_loop (kinds : list string) (namespace : Z) : code Z :=
  match kinds with
  | [] => mret 0%Z
  | kind :: kinds =>
      buf ← sprintf (namespace_path kind namespace);
      fd ← sys (Open buf false);
      if (fd <? 0)%Z then mret (-1)%Z
      else
        ret ← sys (Setns fd);
        if (ret <? 0)%Z then mret (-1)%Z
        else _ ← sys (Close fd); set_namespace_loop kinds namespace
  end.
Definition set_namespace (namespace : Z) : code Z := set_namespace_loop namespaces namespace.

Definition cgroup_file_name (prefix name : string) : code string :=
  path_buf ← sprintf (prefix +:+ name);
  sprintf (path_buf +:+ "/cgroup.procs").

(** Open a file, make a text, write it to the file and close that: -1 unless
    all of the text was written. *)
Definition write_text (path : string) (text : code string) : code Z :=
  fd ← sys (Open path true);
  if (fd <? 0)%Z then mret (-1)%Z
  else
    buf ← text;
    let len := Z.of_nat (String.length buf) in
    ret ← sys (Write fd (str_bytes buf));
    _ ← sys (Close fd);
    mret (if (ret =? len)%Z then 0 else -1)%Z.

Definition write_pid (pid : Z) (cgroupfs_path : string) : code Z :=
  buf ← sprintf (pretty pid);
  write_text cgroupfs_path (mret buf).

Definition set_numa_cpuset (cpuset_root : string) (numa_start numa_end : Z) : code Z :=
  path_buf ← sprintf (cpuset_root +:+ "/cpuset.mems");
  write_text path_buf (sprintf (pretty numa_start +:+ "-" +:+ pretty numa_end)).

Definition set_cpu_number_cpuset (cpuset_root : string) (cpu_start cpu_end : Z) : code Z :=
  path_buf ← sprintf (cpuset_root +:+ "/cpuset.cpus");
  write_text path_buf (sprintf (pretty cpu_start +:+ "-" +:+ pretty cpu_end)).

Definition set_mitosis_root_cpuset : code Z :=
  path ← sprintf cpuset_cgroup_directory_prefix;
  ret ← set_numa_cpuset path 0 (DEFAULT_NUMA_COUNT - 1);
  if (ret <? 0)%Z then mret ret
  else
    ret ← set_cpu_number_cpuset path 0 (DEFAULT_CPU_COUNT - 1);
    if (ret <? 0)%Z then mret ret else mret 0%Z.

Definition set_cpuset_cgroup (name : string) (cpu_start cpu_end numa_start numa_end : Z) : code Z :=
  cpuset_root ← sprintf (cpuset_cgroup_directory_prefix +:+ name);
  let '(cpu_start, cpu_end) :=
    if ((cpu_start <? 0) || (cpu_end <? 0) || (cpu_end <? cpu_start))%Z then (0, DEFAULT_CPU_COUNT - 1)%Z else (cpu_start, cpu_end) in
  let '(numa_start, numa_end) :=
    if ((numa_start <? 0) || (numa_end <? 0) || (numa_start <? numa_end))%Z then (0, DEFAULT_NUMA_COUNT - 1)%Z else (numa_start, numa_end) in
  ret ← set_cpu_number_cpuset cpuset_root cpu_start cpu_end;
  if (ret <? 0)%Z then mret ret
  else
    ret ← set_numa_cpuset cpuset_root numa_start numa_end;
    if (ret <? 0)%Z then mret ret else mret 0%Z.

Definition write_memory_limit (memory_cgroup_root : string) (memory_in_bytes : Z) : code Z :=
  buf ← sprintf (pretty memory_in_bytes);
  path_buf ← sprintf (memory_cgroup_root +:+ "/memory.limit_in_bytes");
  write_text path_buf (mret buf).

Definition set_memory_cgroup (name : string) (memory_in_mb : Z) : code Z :=
  if (memory_in_mb <=? 0)%Z then mret 0%Z
  else
    memory_cgroup_path ← sprintf (memory_cgroup_directory_prefix +:+ name);
    let memory_in_bytes := (memory_in_mb * 1024 * 1024)%Z in
    if (memory_in_bytes <? 2 ^ 63)%Z then write_memory_limit memory_cgroup_path memory_in_bytes else noreturn Undefined.

(** ** Namespaces kept for later containers *)
Definition pause_forever {A} : code A := ITree.forever (sys Pause).

Definition unshare_and_fork (pipefd : Z * Z) (rootfs : option string) : code () :=
  _ ← sys (Close pipefd.1);
  ret ← (match rootfs with Some rootfs => sys (Chroot rootfs) | None => mret 0%Z end);
  if (ret <? 0)%Z then mret ()
  else
    let finish pid :=
      _ ← sys (Write pipefd.2 (pid_bytes pid));
      _ ← sys (Close pipefd.2);
      noreturn (Exit 0) in
    ret ← sys Unshare;
    if (ret <? 0)%Z then finish (-1)%Z
    else
      pid ← sys Fork;
      if (pid <? 0)%Z then finish pid
      else if (pid =? 0)%Z then
        _ ← sys (Close pipefd.2);
        _ ← (match rootfs with Some _ => sys (Mount "/proc") | None => mret 0%Z end);
        pause_forever
      else finish pid.

Definition setup_cached_namespace (rootfs : option string) : code (option Z) :=
  '(r, pipefd) ← sys Pipe;
  if (r <? 0)%Z then mret (Some (-1)%Z)
  else
    pid ← sys Fork;
    if (pid =? 0)%Z then
      _ ← unshare_and_fork pipefd rootfs;
      noreturn AssertFail
    else
      _ ← sys (Close pipefd.2);
      target ← read_pid pipefd.1;
      _ ← sys (Waitpid pid);
      _ ← sys (Close pipefd.1);
      mret target.

Definition remove_cached_namespace (namespace : Z) (rootfs : option string) : code Z :=
  _ ← (match rootfs with Some rootfs => buf ← sprintf (rootfs +:+ "/proc"); sys (Umount2 buf) | None => mret 0%Z end);
  sys (Kill namespace).

(** ** Control groups *)
Fixpoint mkdir_loop (prefixes : list string) (name : string) : code Z :=
  match prefixes with
  | [] => mret 0%Z
  | prefix :: prefixes =>
      buf ← sprintf (prefix +:+ name);
      '(ret, e) ← sys (Mkdir buf);
      if (ret <? 0)%Z && bool_decide (e ≠ EEXIST) then mret (-1)%Z else mkdir_loop prefixes name
  end.

Fixpoint rmdir_loop (prefixes : list string) (name : string) : code Z :=
  match prefixes with
  | [] => mret 0%Z
  | prefix :: prefixes =>
      buf ← sprintf (prefix +:+ name);
      '(ret, e) ← sys (Rmdir buf);
      if (ret <? 0)%Z && bool_decide (e ≠ ENOENT) then mret (-1)%Z else rmdir_loop prefixes name
  end.

Definition init_cgroup : code Z :=
  r ← mkdir_loop cgroup_directory_prefix "";
  if (r <? 0)%Z then mret (-1)%Z else _ ← set_mitosis_root_cpuset; mret 0%Z.

Definition deinit_cgroup : code Z := rmdir_loop cgroup_directory_prefix "".

Record ContainerSpec := mkContainerSpec {
  cpu_start : Z; cpu_end : Z; memory_in_mb : Z; numa_start : Z; numa_end : Z }.

Definition add_lean_container_template (name : string) (spec : ContainerSpec) : code Z :=
  r ← mkdir_loop cgroup_directory_prefix name;
  if (r <? 0)%Z then mret (-1)%Z
  else
    _ ← set_cpuset_cgroup name (cpu_start spec) (cpu_end spec) (numa_start spec) (numa_end spec);
    _ ← set_memory_cgroup name (memory_in_mb spec);
    mret 0%Z.

Definition remove_lean_container_template (name : string) : code Z := rmdir_loop cgroup_directory_prefix name.

(** ** Starting a container *)
Definition close_both (pipefd : Z * Z) (r : Z) : code Z :=
  _ ← sys (Close pipefd.1); _ ← sys (Close pipefd.2); mret r.

Fixpoint write_pid_loop (prefixes : list string) (name : string) (pid : Z) : code Z :=
  match prefixes with
  | [] => mret 0%Z
  | prefix :: prefixes =>
      path_buf ← cgroup_file_name prefix name;
      ret ← write_pid pid path_buf;
      if (ret <? 0)%Z then mret (-1)%Z else write_pid_loop prefixes name pid
  end.

Definition setup_lean_container (name rootfs_path : string) (namespace : Z) : code Z :=
  '(r, pipefd) ← sys Pipe;
  if (r <? 0)%Z then mret (-1)%Z
  else
    r ← (if (namespace <? 0)%Z then sys Unshare else set_namespace namespace);
    if (r <? 0)%Z then close_both pipefd (-1)
    else
      pid ← sys Fork;
      if (pid <? 0)%Z then close_both pipefd (-1)
      else if (pid =? 0)%Z then
        ret ← sys (Chdir rootfs_path);
        if bool_decide (ret ≠ 0%Z) then close_both pipefd (-1)
        else
          ret ← sys (Chroot ".");
          if bool_decide (ret ≠ 0%Z) then close_both pipefd (-1)
          else _ ← sys (Read pipefd.1 1); close_both pipefd 0
      else
        ret ← write_pid_loop cgroup_directory_prefix name pid;
        if (ret <? 0)%Z then close_both pipefd (-1)
        else _ ← sys (Write pipefd.2 (str_bytes "a")); close_both pipefd pid.

Definition setup_lean_container_w_double_fork (name rootfs_path : string) (namespace : Z) : code (option Z) :=
  '(r, pipefd) ← sys Pipe;
  if (r <? 0)%Z then mret (Some (-1)%Z)
  else
    pid ← sys Fork;
    if (pid <? 0)%Z then mret (Some (-1)%Z)
    else if (pid =? 0)%Z then
      _ ← sys (Close pipefd.1);
      pid ← setup_lean_container name rootfs_path namespace;
      if (pid <? 0)%Z then mret (Some (-1)%Z)
      else if (pid =? 0)%Z then _ ← sys (Close pipefd.2); mret (Some 0%Z)
      else
        _ ← sys (Write pipefd.2 (pid_bytes pid));
        _ ← sys (Close pipefd.2);
        noreturn (Exit 0)
    else
      child ← read_pid pipefd.1;
      ret ← sys (Waitpid pid);
      if bool_decide (ret ≠ pid) then mret (Some (-1)%Z)
      else
        _ ← sys (Close pipefd.1);
        _ ← sys (Close pipefd.2);
        mret child.

(** ** The freezer *)
Inductive FreezerState := FREEZER_ERROR | FREEZER_FROZEN | FREEZER_FREEZING | FREEZER_THAWED.
#[export] Instance FreezerState_eq_dec : EqDecision FreezerState.
Proof. solve_decision. Defined.

Definition freezer_file (name : string) : code string :=
  buf ← sprintf (freezer_cgroup_directory_prefix +:+ name);
  sprintf (buf +:+ "/freezer.state").

(** [strncmp(lit, s, strlen(lit)) == 0] *)
Definition starts_with (lit : string) (s : list Z) : bool := bool_decide (take (String.length lit) s = str_bytes lit).

Section Freezer.
(** What the array [state] holds before the call. *)
Context (junk : list Z).

Definition get_container_state (name : string) : code FreezerState :=
  freezer_state ← freezer_file name;
  fd ← sys (Open freezer_state false);
  if (fd <? 0)%Z then mret FREEZER_ERROR
  else
    '(ret, data) ← sys (Read fd (Z.of_nat BUF_SIZE));
    _ ← sys (Close fd);
    if (ret <=? 0)%Z then mret FREEZER_ERROR
    else
      let state := data ++ drop (length data) junk in
      mret (if starts_with "FROZEN" state then FREEZER_FROZEN
            else if starts_with "FREEZING" state then FREEZER_FREEZING
            else if starts_with "THAWED" state then FREEZER_THAWED
            else FREEZER_ERROR).

Definition wait_until (name : string) (expected : FreezerState) : code Z :=
  ITree.iter (λ _ : (),
    s ← get_container_state name;
    mret (if decide (s = expected) then inr 0%Z else if decide (s = FREEZER_ERROR) then inr (-1)%Z else inl ())) ().

Definition set_freezer (name word : string) (expected : FreezerState) : code Z :=
  freezer_state ← freezer_file name;
  r ← write_text freezer_state (mret word);
  if (r <? 0)%Z then mret (-1)%Z else _ ← wait_until name expected; mret 0%Z.

Definition pause_container (name : string) : code Z := set_freezer name "FROZEN" FREEZER_FROZEN.
Definition unpause_container (name : string) : code Z := set_freezer name "THAWED" FREEZER_THAWED.
End Freezer.
