(* ===== verification/ContainerOs.v ===== *)
(** * Processes, pipes and files under the container library

    What the library's system calls do, as far as POSIX says it: processes with
    their descriptors, pipes, directories and a log of what happened.  Where the
    kernel may answer in more than one way, the answer is an input ([choice]) of
    the step function [exec], so that a run is a schedule of processes and
    choices.  No process handles signals.  A logic for trees ([wp]) follows, in
    which a pipe is given a protocol when its creator forks, and its soundness
    for every schedule ([wp_sound]). *)

From stdpp Require Import pretty strings.
From ITree Require Import ITree.
From S2P Require Import Prelude LeanContainer.

Inductive file := PipeRead (i : nat) | PipeWrite (i : nat) | File (path : string).
#[export] Instance file_eq_dec : EqDecision file.
Proof. solve_decision. Defined.

Inductive note :=
| Wrote (path : string) (data : list Z)
| Unshared (p : Z)
| Forked (p c : Z)
| Executed (p : Z) (path : string) (argv envp : list string).

Section Os.
Context {R : Type}.

(** A tree that has returned stands for its caller, which runs on; [Foreign] is
    a process that executes another program, of which only the end is modelled. *)
Inductive status := Run (t : itree' sysE R) | Foreign | Exited (status : Z) | Aborted | Killed | Broken.
Record proc := mkProc { p_status : status; p_fds : gmap Z file; p_parent : Z }.

Record os := mkOs {
  procs : gmap Z proc;
  pipes : gmap nat (list Z);
  dirs : gset string;
  log : list note }.

Record choice := mkChoice { c_ok : bool; c_num : Z; c_num2 : Z; c_data : list Z }.

Definition dead (st : status) : bool := match st with Run _ | Foreign => false | _ => true end.

Definition set_proc (s : os) (p : Z) (pr : proc) : os := mkOs (<[p := pr]> (procs s)) (pipes s) (dirs s) (log s).
Definition set_pipe (s : os) (i : nat) (b : list Z) : os := mkOs (procs s) (<[i := b]> (pipes s)) (dirs s) (log s).
Definition set_dirs (s : os) (d : gset string) : os := mkOs (procs s) (pipes s) d (log s).
Definition add_note (s : os) (n : note) : os := mkOs (procs s) (pipes s) (dirs s) (log s ++ [n]).
Definition kill_others (p : Z) (s : os) : os :=
  mkOs (map_imap (λ q pr, Some (if bool_decide (q = p) || dead (p_status pr) then pr else mkProc Killed ∅ (p_parent pr))) (procs s)) (pipes s) (dirs s) (log s).
Definition del_proc (s : os) (p : Z) : os := mkOs (delete p (procs s)) (pipes s) (dirs s) (log s).

Definition holds (f : file) (s : os) : Prop := map_Exists (λ _ pr, map_Exists (λ _ g, g = f) (p_fds pr)) (procs s).

#[export] Instance holds_dec f s : Decision (holds f s).
Proof. apply _. Defined.

(** A process whose parent is gone has been given to another one. *)
Definition orphan (pr : proc) (s : os) : Prop :=
  match procs s !! p_parent pr with Some pa => dead (p_status pa) = true | None => True end.

#[export] Instance orphan_dec pr s : Decision (orphan pr s).
Proof. unfold orphan. destruct (procs s !! p_parent pr); apply _. Defined.

(** A call that only succeeds or fails *)
Definition plain (ch : choice) : Z := if c_ok ch then 0 else -1.

(** One call of process [p], which holds [fds]; [None] when it has to wait. *)
Definition call (p : Z) (fds : gmap Z file) (parent : Z) (ch : choice) (s : os) {X} (e : sysE X) : (X → itree sysE R) → option os :=
  let on {X} (s : os) (fds : gmap Z file) (k : X → itree sysE R) (x : X) := Some (set_proc s p (mkProc (Run (observe (k x))) fds parent)) in
  let ends st := Some (set_proc s p (mkProc st ∅ parent)) in
  match e in sysE X return (X → itree sysE R) → option os with
  | Open path _ => λ k,
      if c_ok ch then
        if decide (0 ≤ c_num ch ∧ fds !! c_num ch = None)%Z then on s (<[c_num ch := File path]> fds) k (c_num ch) else None
      else on s fds k (-1)%Z
  | Read fd n => λ k,
      match fds !! fd with
      | Some (PipeRead i) =>
          match pipes s !! i with
          | Some [] => if decide (holds (PipeWrite i) s) then None else on s fds k (0%Z, [])
          | Some b => on (set_pipe s i (drop (Z.to_nat n) b)) fds k (Z.of_nat (length (take (Z.to_nat n) b)), take (Z.to_nat n) b)
          | None => None
          end
      | Some (File _) =>
          if c_ok ch then on s fds k (Z.of_nat (length (take (Z.to_nat n) (c_data ch))), take (Z.to_nat n) (c_data ch)) else on s fds k ((-1)%Z, [])
      | _ => on s fds k ((-1)%Z, [])
      end
  | Write fd buf => λ k,
      match fds !! fd with
      | Some (PipeWrite i) =>
          match pipes s !! i with
          | Some b => if decide (holds (PipeRead i) s) then on (set_pipe s i (b ++ buf)) fds k (Z.of_nat (length buf)) else ends Killed
          | None => None
          end
      | Some (File path) =>
          if c_ok ch then on (add_note s (Wrote path buf)) fds k (Z.of_nat (length buf))
          else if decide (c_num ch < Z.of_nat (length buf))%Z then on s fds k (c_num ch) else None
      | _ => on s fds k (-1)%Z
      end
  | Close fd => λ k,
      match fds !! fd with Some _ => on s (delete fd fds) k 0%Z | None => on s fds k (-1)%Z end
  | Mkdir path => λ k,
      if decide (path ∈ dirs s) then on s fds k ((-1)%Z, EEXIST)
      else if c_ok ch then on (set_dirs s ({[path]} ∪ dirs s)) fds k (0%Z, EOTHER) else on s fds k ((-1)%Z, EOTHER)
  | Rmdir path => λ k,
      if decide (path ∈ dirs s) then
        if c_ok ch then on (set_dirs s (dirs s ∖ {[path]})) fds k (0%Z, EOTHER) else on s fds k ((-1)%Z, EOTHER)
      else on s fds k ((-1)%Z, ENOENT)
  | Chdir _ | Chroot _ | Mount _ | Umount2 _ | Setns _ | Prctl => λ k, on s fds k (plain ch)
  | Execve path argv envp => λ k,
      if c_ok ch then Some (set_proc (add_note s (Executed p path argv envp)) p (mkProc Foreign fds parent)) else on s fds k (-1)%Z
  | Unshare => λ k, if c_ok ch then on (add_note s (Unshared p)) fds k 0%Z else on s fds k (-1)%Z
  | Pipe => λ k,
      let '(a, b) := (c_num ch, c_num2 ch) in
      if c_ok ch then
        if decide (0 ≤ a ∧ 0 ≤ b ∧ a ≠ b ∧ fds !! a = None ∧ fds !! b = None)%Z then
          let i := fresh (dom (pipes s)) in
          on (set_pipe s i []) (<[a := PipeRead i]> (<[b := PipeWrite i]> fds)) k (0%Z, (a, b))
        else None
      else on s fds k ((-1)%Z, (a, b))
  | Fork => λ k,
      let c := c_num ch in
      if c_ok ch then
        if decide (0 < c < 2 ^ 31 ∧ c ≠ p ∧ procs s !! c = None)%Z then
          on (set_proc (add_note s (Forked p c)) c (mkProc (Run (observe (k 0%Z))) fds p)) fds k c
        else None
      else on s fds k (-1)%Z
  | Waitpid pid => λ k,
      match procs s !! pid with
      | Some pr =>
          if decide (p_parent pr = p ∨ orphan pr s ∧ c_ok ch = true) then
            if dead (p_status pr) && bool_decide (pid ≠ p) then on (del_proc s pid) fds k pid else None
          else on s fds k (-1)%Z
      | None => on s fds k (-1)%Z
      end
  | Kill pid => λ k,
      if decide (pid = -1)%Z then if c_ok ch then on (kill_others p s) fds k 0%Z else on s fds k (-1)%Z else
      match procs s !! pid with
      | Some pr =>
          if decide (pid = p) then ends Killed
          else if c_ok ch then on (set_proc s pid (mkProc Killed ∅ (p_parent pr))) fds k 0%Z else on s fds k (-1)%Z
      | None => on s fds k (-1)%Z
      end
  | Pause => λ _, None
  | Exit c => λ _, ends (Exited c)
  | AssertFail => λ _, ends Aborted
  | Undefined => λ _, ends Broken
  end.

Definition exec (p : Z) (ch : choice) (s : os) : option os :=
  match procs s !! p with
  | Some (mkProc (Run t) fds parent) =>
      match t with
      | RetF _ => None
      | TauF t => Some (set_proc s p (mkProc (Run (observe t)) fds parent))
      | VisF e k => call p fds parent ch s e k
      end
  | Some (mkProc Foreign fds parent) => Some (set_proc s p (mkProc (Exited (c_num ch)) ∅ parent))
  | _ => None
  end.

Fixpoint runs (sched : list (Z * choice)) (s : os) : option os :=
  match sched with
  | [] => Some s
  | (p, ch) :: sched => s ← exec p ch s; runs sched s
  end.

Definition reaches (s s' : os) : Prop := ∃ sched, runs sched s = Some s'.

(** A process alone, with the descriptors [fds] *)
Definition boot (p : Z) (t : itree sysE R) (fds : gmap Z file) (d : gset string) : os :=
  mkOs {[p := mkProc (Run (observe t)) fds 0]} ∅ d [].
End Os.
Arguments status : clear implicits.
Arguments proc : clear implicits.
Arguments os : clear implicits.

(** ** The logic *)

(** What a pipe carries: messages of [p_len] bytes, each with a fact about the log. *)
Record prot := mkProt {
  p_len : nat;
  p_msg : list note → list Z → Prop;
  p_mono l l' m : l `prefix_of` l' → p_msg l m → p_msg l' m }.

(** A pipe belongs to its creator until that forks and fixes its protocol. *)
Inductive entry := Owned (p : Z) | Proto (P : prot).
Record world := mkWorld { w_pipes : gmap nat entry; w_log : list note }.

Definition noted (w : world) (n : note) : world := mkWorld (w_pipes w) (w_log w ++ [n]).
Definition own (p : Z) (i : nat) (w : world) : world := mkWorld (<[i := Owned p]> (w_pipes w)) (w_log w).
Definition assign (p : Z) (A : nat → prot) (w : world) : world :=
  mkWorld (map_imap (λ i e, Some (match e with Owned q => if decide (q = p) then Proto (A i) else e | Proto _ => e end)) (w_pipes w)) (w_log w).

(** What process [p] can rely on while the others run *)
Record le (p : Z) (w w' : world) : Prop := {
  le_owned i : w_pipes w !! i = Some (Owned p) → w_pipes w' !! i = Some (Owned p);
  le_proto i P : w_pipes w !! i = Some (Proto P) → w_pipes w' !! i = Some (Proto P);
  le_new i : w_pipes w' !! i = None → w_pipes w !! i = None;
  le_log : w_log w `prefix_of` w_log w';
  le_forks c : Forked p c ∈ w_log w' → Forked p c ∈ w_log w }.

Lemma le_refl p w : le p w w.
Proof. by split. Qed.
Lemma le_trans p w1 w2 w3 : le p w1 w2 → le p w2 w3 → le p w1 w3.
Proof. intros [] []. split; eauto. by etrans. Qed.
Lemma le_noted p w n : (∀ c, n ≠ Forked p c) → le p w (noted w n).
Proof.
  intros Hn. split; cbn; eauto; [by apply prefix_app_r|]. intros c [H|H%list_elem_of_singleton]%elem_of_app; [done|]. by destruct (Hn c).
Qed.
Lemma le_own p q i w : w_pipes w !! i = None → le p w (own q i w).
Proof.
  intros Hi. split; cbn; [| | |done|done].
  - intros j Hj. rewrite lookup_insert_ne by congruence. done.
  - intros j P Hj. rewrite lookup_insert_ne by congruence. done.
  - intros j [Hj _]%lookup_insert_None. done.
Qed.
Lemma le_assign p q A w : p ≠ q → le p w (assign q A w).
Proof.
  intros Hpq. split; cbn; [| | |done|done].
  - intros i Hi. rewrite map_lookup_imap, Hi. cbn. by rewrite decide_False.
  - intros i P Hi. by rewrite map_lookup_imap, Hi.
  - intros i Hi. rewrite map_lookup_imap in Hi. by destruct (w_pipes w !! i).
Qed.

(** When a process may execute another program, given the log so far *)
Class ExecSpec := may_exec : Z → string → list string → list string → list note → Prop.
#[export] Instance any_exec : ExecSpec | 100 := λ _ _ _ _ _, True.

Section Wp.
Context {R : Type} {es : ExecSpec} (Q : Z → R → gmap Z file → world → Prop).

(** One step of process [p] at [t]. *)
Definition wp_step (wp : Z → itree' sysE R → gmap Z file → world → Prop) (p : Z) (t : itree' sysE R) (F : gmap Z file) (w : world) : Prop :=
  match t with
  | RetF r => Q p r F w
  | TauF t => wp p (observe t) F w
  | VisF e k =>
      (match e in sysE X return (X → itree sysE R) → Prop with
      | Open path _ => λ k,
          (∀ fd, (0 ≤ fd)%Z → F !! fd = None → wp p (observe (k fd)) (<[fd := File path]> F) w) ∧ wp p (observe (k (-1)%Z)) F w
      | Read fd len => λ k,
          match F !! fd with
          | Some (PipeRead i) =>
              (w_pipes w !! i = Some (Owned p) ∨ ∃ P, w_pipes w !! i = Some (Proto P) ∧ len = Z.of_nat (p_len P) ∧ 0 < p_len P ∧
                ∀ m w', le p w w' → length m = p_len P → p_msg P (w_log w') m → wp p (observe (k (len, m))) F w') ∧
              ((∀ fd', F !! fd' ≠ Some (PipeWrite i)) → wp p (observe (k (0%Z, []))) F w)
          | Some (File _) => (∀ data, wp p (observe (k (Z.of_nat (length data), data))) F w) ∧ wp p (observe (k ((-1)%Z, []))) F w
          | _ => wp p (observe (k ((-1)%Z, []))) F w
          end
      | Write fd buf => λ k,
          match F !! fd with
          | Some (PipeWrite i) => ∃ P, w_pipes w !! i = Some (Proto P) ∧ length buf = p_len P ∧ p_msg P (w_log w) buf ∧
              wp p (observe (k (Z.of_nat (length buf)))) F w
          | Some (File path) =>
              (∀ w', le p w w' → wp p (observe (k (Z.of_nat (length buf)))) F (noted w' (Wrote path buf))) ∧
              ∀ r, (r < Z.of_nat (length buf))%Z → wp p (observe (k r)) F w
          | _ => wp p (observe (k (-1)%Z)) F w
          end
      | Close fd => λ k,
          match F !! fd with Some _ => wp p (observe (k 0%Z)) (delete fd F) w | None => wp p (observe (k (-1)%Z)) F w end
      | Mkdir _ | Rmdir _ | Chdir _ | Chroot _ | Mount _ | Umount2 _ | Setns _ | Waitpid _ | Prctl | Kill _ => λ k, ∀ x, wp p (observe (k x)) F w
      | Unshare => λ k,
          (∀ w', le p w w' → wp p (observe (k 0%Z)) F (noted w' (Unshared p))) ∧ wp p (observe (k (-1)%Z)) F w
      | Pipe => λ k,
          (∀ i a b w', le p w w' → w_pipes w' !! i = None → (0 ≤ a)%Z → (0 ≤ b)%Z → a ≠ b → F !! a = None → F !! b = None →
            wp p (observe (k (0%Z, (a, b)))) (<[a := PipeRead i]> (<[b := PipeWrite i]> F)) (own p i w')) ∧
          ∀ ab, wp p (observe (k ((-1)%Z, ab))) F w
      | Fork => λ k,
          (∀ c w', le p w w' → (0 < c < 2 ^ 31)%Z → c ≠ p → ∃ A, let w1 := noted (assign p A w') (Forked p c) in
            wp c (observe (k 0%Z)) F w1 ∧ wp p (observe (k c)) F w1) ∧
          wp p (observe (k (-1)%Z)) F w
      | Execve path argv envp => λ k, (∀ w', le p w w' → may_exec p path argv envp (w_log w')) ∧ wp p (observe (k (-1)%Z)) F w
      | Undefined => λ _, False
      | Pause | Exit _ | AssertFail => λ _, True
      end) k
  end.

(** Process [p] at [t] is safe for [n] steps: it never reaches undefined
    behaviour, keeps to the protocols, and when it returns [Q] holds. *)
Fixpoint wp (n : nat) : Z → itree' sysE R → gmap Z file → world → Prop :=
  match n with O => λ _ _ _ _, True | S n => wp_step (wp n) end.
End Wp.

Section WpLemmas.
Context {R : Type} {es : ExecSpec} (Q : Z → R → gmap Z file → world → Prop).
Context (Q_mono : ∀ p r F w w', le p w w' → Q p r F w → Q p r F w').

(** Every state can be weakened to a later world and to fewer steps. *)
Lemma wp_mono n p t F w w' : le p w w' → wp Q n p t F w → wp Q n p t F w'.
Proof.
  revert p t F w w'. induction n as [|n IH]; intros p t F w w' Hle; [done|]. cbn [wp].
  destruct t as [r|t|X e k]; cbn [wp_step]; [by apply Q_mono|by apply IH|].
  destruct e; try (by intros H x; eapply IH; eauto); try done.
  - intros [H1 H2]. split; [intros; eapply IH; eauto|eapply IH; eauto].
  - destruct (F !! fd) as [[i|i|path]|]; try (by apply IH).
    + intros [Hp He]. split; [|intros Hno; eapply IH; eauto].
      destruct Hp as [Ho|(P & HP & Hlen & Hpos & Hm)]; [left; by eapply le_owned|right]. exists P. split_and!; [by eapply le_proto|done|done|].
      intros m w2 Hle2. apply Hm. by eapply le_trans.
    + intros [H1 H2]. split; [intros; eapply IH; eauto|eapply IH; eauto].
  - destruct (F !! fd) as [[i|i|path]|]; try (by apply IH).
    + intros (P & HP & Hlen & Hm & H). exists P. split_and!; [by eapply le_proto|done|eapply p_mono; [exact (le_log _ _ _ Hle)|done]|eapply IH; eauto].
    + intros [H1 H2]. split; [|intros; eapply IH; eauto]. intros w2 Hle2. apply H1. by eapply le_trans.
  - destruct (F !! fd); by apply IH.
  - intros [H1 H2]. split; [|intros; eapply IH; eauto]. intros i a b w2 Hle2. apply H1. by eapply le_trans.
  - intros [H1 H2]. split; [|eapply IH; eauto]. intros c w2 Hle2. apply H1. by eapply le_trans.
  - intros [H1 H2]. split; [|eapply IH; eauto]. intros w2 Hle2. apply H1. by eapply le_trans.
  - intros [H1 H2]. split; [|eapply IH; eauto]. intros w2 Hle2. apply H1. by eapply le_trans.
Qed.

Lemma wp_down n p t F w : wp Q (S n) p t F w → wp Q n p t F w.
Proof.
  revert p t F w. induction n as [|n IH]; intros p t F w; [done|].
  change (wp_step Q (wp Q (S n)) p t F w → wp_step Q (wp Q n) p t F w). destruct t as [r|t|X e k]; cbn [wp_step]; [done|by apply IH|].
  destruct e; try (by intros H x; apply IH); try done.
  - intros [H1 H2]. split; [intros|]; by apply IH; auto.
  - destruct (F !! fd) as [[i|i|path]|]; try (by apply IH).
    + intros [Hp He]. split; [|intros; apply IH; auto]. destruct Hp as [Ho|(P & HP & Hlen & Hpos & Hm)]; [by left|right].
      exists P. split_and!; try done. intros; apply IH; auto.
    + intros [H1 H2]. split; [intros|]; by apply IH; auto.
  - destruct (F !! fd) as [[i|i|path]|]; try (by apply IH).
    + intros (P & HP & Hlen & Hm & H). exists P. split_and!; try done. by apply IH.
    + intros [H1 H2]. split; intros; apply IH; auto.
  - destruct (F !! fd); by apply IH.
  - intros [H1 H2]. split; intros; apply IH; auto.
  - intros [H1 H2]. split; [|by apply IH]. intros c w2 Hle2 Hc Hn. destruct (H1 c w2 Hle2 Hc Hn) as (A & Ha & Hb).
    exists A. split; by apply IH.
  - intros [H1 H2]. split; intros; apply IH; auto.
  - intros [H1 H2]. split; [done|by apply IH].
Qed.
End WpLemmas.

Lemma observe_bind {E R R'} (t : itree E R) (k : R → itree E R') : observe (ITree.bind t k) =
  match observe t with RetF r => observe (k r) | TauF t => TauF (ITree.bind t k) | VisF e h => VisF e (λ x, ITree.bind (h x) k) end.
Proof. unfold observe. cbn. unfold observe. by destruct (_observe t). Qed.

Lemma wp_bind {R R'} {es : ExecSpec} (Q : Z → R → gmap Z file → world → Prop) (Q' : Z → R' → gmap Z file → world → Prop) (k : R → itree sysE R') n p t F w :
  (∀ m p r F w, m ≤ n → Q p r F w → wp Q' m p (observe (k r)) F w) →
  wp Q n p (observe t) F w → wp Q' n p (observe (ITree.bind t k)) F w.
Proof.
  intros Hk. revert p t F w. induction n as [|n IH]; intros p t F w; [done|].
  specialize (IH (λ m p r F w Hm, Hk m p r F w (le_S _ _ Hm))). intros H. rewrite observe_bind.
  destruct (observe t) as [r|t'|X e h]; [by apply Hk|by apply IH|].
  destruct e; cbn [wp wp_step] in H |- *; try (by intros x; apply IH); try done.
  - destruct H as [H1 H2]. split; [intros|]; apply IH; auto.
  - destruct (F !! fd) as [[i|i|path]|]; try (by apply IH).
    + destruct H as [Hp He]. split; [|intros; apply IH; auto]. destruct Hp as [Ho|(P & HP & Hlen & Hpos & Hm)]; [by left|right].
      exists P. split_and!; try done. intros; apply IH; auto.
    + destruct H as [H1 H2]. split; [intros|]; apply IH; auto.
  - destruct (F !! fd) as [[i|i|path]|]; try (by apply IH).
    + destruct H as (P & HP & Hlen & Hm & H). exists P. split_and!; try done. by apply IH.
    + destruct H as [H1 H2]. split; intros; apply IH; auto.
  - destruct (F !! fd); by apply IH.
  - destruct H as [H1 H2]. split; intros; apply IH; auto.
  - destruct H as [H1 H2]. split; [|by apply IH]. intros c w2 Hle2 Hc Hn. destruct (H1 c w2 Hle2 Hc Hn) as (A & Ha & Hb).
    exists A. split; by apply IH.
  - destruct H as [H1 H2]. split; intros; apply IH; auto.
  - destruct H as [H1 H2]. split; [done|by apply IH].
Qed.

(** ** Soundness *)
Section Sound.
Context {R : Type} {es : ExecSpec} (Q : Z → R → gmap Z file → world → Prop).
Context (Q_mono : ∀ p r F w w', le p w w' → Q p r F w → Q p r F w').

Definition pipe_ok (l : list note) (b : option (list Z)) (e : option entry) : Prop :=
  match b, e with
  | None, None => True
  | Some b, Some (Owned _) => b = []
  | Some b, Some (Proto P) => ∃ ms, b = mjoin ms ∧ Forall (λ m, length m = p_len P ∧ p_msg P l m) ms
  | _, _ => False
  end.

Definition proc_ok (n : nat) (w : world) (p : Z) (pr : proc R) : Prop :=
  match p_status pr with Run t => wp Q n p t (p_fds pr) w | Broken => False | _ => True end.

Definition execs_ok (l : list note) : Prop :=
  ∀ l1 q path argv envp l2, l = l1 ++ Executed q path argv envp :: l2 → may_exec q path argv envp l1.

Record inv (n : nat) (s : os R) (w : world) : Prop := {
  inv_execs : execs_ok (log s);
  inv_log : w_log w = log s;
  inv_pipes i : pipe_ok (log s) (pipes s !! i) (w_pipes w !! i);
  inv_procs : map_Forall (proc_ok n w) (procs s) }.

Lemma execs_ok_snoc l x : execs_ok l → (∀ q path argv envp, x = Executed q path argv envp → may_exec q path argv envp l) → execs_ok (l ++ [x]).
Proof.
  intros Hl Hx l1 q path argv envp l2 E. destruct l2 as [|y l2 _] using rev_ind.
  - apply app_inj_tail in E as [-> ->]. by apply Hx.
  - rewrite app_comm_cons, app_assoc in E. apply app_inj_tail in E as [-> _]. by eapply Hl.
Qed.

Lemma pipe_ok_later l l' b e : l `prefix_of` l' → pipe_ok l b e → pipe_ok l' b e.
Proof.
  intros Hl. destruct b as [b|], e as [[q|P]|]; cbn; try done. intros (ms & -> & Hms). exists ms. split; [done|].
  eapply Forall_impl; [exact Hms|]. intros m [H1 H2]. split; [done|by eapply p_mono].
Qed.

Lemma proc_ok_later n w w' p pr : le p w w' → proc_ok (S n) w p pr → proc_ok n w' p pr.
Proof.
  unfold proc_ok. destruct (p_status pr); try done. intros Hle H. by eapply wp_mono, wp_down.
Qed.

Lemma inv_put n s w s1 w1 p pr :
  inv (S n) s w → (∀ q pr', q ≠ p → procs s1 !! q = Some pr' → procs s !! q = Some pr' ∨ proc_ok n w1 q pr') →
  execs_ok (log s1) → w_log w1 = log s1 → (∀ i, pipe_ok (log s1) (pipes s1 !! i) (w_pipes w1 !! i)) → (∀ q, q ≠ p → le q w w1) →
  proc_ok n w1 p pr → inv n (set_proc s1 p pr) w1.
Proof.
  intros [_ _ _ Hp] Hs1 Hx Hl Hpi Hle Hpr. split; [done|done|done|]. intros q pr'. cbn.
  intros [[<- <-]|[Hq Hlk]]%lookup_insert_Some; [done|]. destruct (Hs1 q pr' (not_eq_sym Hq) Hlk) as [Hs|]; [|done].
  eapply proc_ok_later; [by apply Hle|by apply Hp].
Qed.

(** A step that only changes the process itself. *)
Lemma inv_self n s w p pr : inv (S n) s w → proc_ok n w p pr → inv n (set_proc s p pr) w.
Proof.
  intros Hi Hpr. pose proof Hi as [Hx Hl Hpi _]. eapply inv_put; eauto. intros; apply le_refl.
Qed.

Lemma inv_noted n s w w1 p pr x : inv (S n) s w → w1 = noted w x → (∀ a b, x ≠ Forked a b) →
  (∀ q path argv envp, x = Executed q path argv envp → may_exec q path argv envp (log s)) →
  proc_ok n w1 p pr → inv n (set_proc (add_note s x) p pr) w1.
Proof.
  intros Hi -> Hno Hn Hpr. pose proof Hi as [Hx Hl Hpi _]. eapply inv_put; eauto; cbn.
  - by apply execs_ok_snoc.
  - by rewrite Hl.
  - intros i. eapply pipe_ok_later; [by apply prefix_app_r|apply Hpi].
  - intros q _. by apply le_noted.
Qed.

Lemma inv_pipe n s w i b p pr : inv (S n) s w → pipe_ok (log s) (Some b) (w_pipes w !! i) → proc_ok n w p pr → inv n (set_proc (set_pipe s i b) p pr) w.
Proof.
  intros Hi Hb Hpr. pose proof Hi as [Hx Hl Hpi _]. eapply inv_put; eauto; cbn; [|intros; apply le_refl].
  intros j. destruct (decide (i = j)) as [<-|Hj]; [by rewrite lookup_insert_eq|rewrite lookup_insert_ne by done; apply Hpi].
Qed.

Lemma inv_read n s w p st F pa ch k fd len s' : inv (S n) s w → procs s !! p = Some (mkProc st F pa) → wp Q (S n) p (VisF (Read fd len) k) F w →
  call p F pa ch s (Read fd len) k = Some s' → ∃ w', inv n s' w'.
Proof.
  intros Hi Hp0 Hwp E. cbn [call] in E. cbn [wp wp_step] in Hwp. exists w. destruct (F !! fd) as [[i|i|path]|].
  - destruct Hwp as [Hp He]. pose proof (inv_pipes _ _ _ Hi i) as Hpi.
    assert (Heof : pipes s !! i = Some [] → inv n s' w).
    { intros Eb. rewrite Eb in E. destruct (decide (holds (PipeWrite i) s)) as [|Hno]; [done|]. injection E as <-.
      apply inv_self; [done|]. apply He. intros fd' Hfd'. apply Hno. exists p, (mkProc st F pa). split; [done|]. by exists fd', (PipeWrite i). }
    destruct (pipes s !! i) as [b|] eqn:Eb; [|done]. destruct Hp as [Ho|(P & HP & -> & Hpos & Hm)].
    + rewrite Ho in Hpi. cbn in Hpi. subst b. by apply Heof.
    + rewrite HP in Hpi. destruct Hpi as (ms & -> & Hms). destruct ms as [|m ms]; [by apply Heof|]. clear Heof.
      rewrite Nat2Z.id in E. apply Forall_cons in Hms as [[Hlen Hmsg] Hms]. cbn in E.
      destruct (m ++ mjoin ms) as [|x l] eqn:El; [destruct m; [cbn in Hlen; lia|done]|]. rewrite <- El in E.
      rewrite take_app_length', drop_app_length' in E by done. injection E as <-.
      apply inv_pipe; [done|rewrite HP; by exists ms|]. unfold proc_ok. cbn. rewrite Hlen. apply Hm; [apply le_refl|done|].
      by rewrite (inv_log _ _ _ Hi).
  - injection E as <-. by apply inv_self.
  - destruct Hwp as [H1 H2]. destruct (c_ok ch); injection E as <-; (apply inv_self; [done|]); first [apply H1|apply H2].
  - injection E as <-. by apply inv_self.
Qed.

Lemma inv_write n s w p F pa ch k fd buf s' : inv (S n) s w → wp Q (S n) p (VisF (Write fd buf) k) F w →
  call p F pa ch s (Write fd buf) k = Some s' → ∃ w', inv n s' w'.
Proof.
  intros Hi Hwp E. cbn [call] in E. cbn [wp wp_step] in Hwp. destruct (F !! fd) as [[i|i|path]|].
  - injection E as <-. exists w. by apply inv_self.
  - destruct Hwp as (P & HP & Hlen & Hm & H). exists w. pose proof (inv_pipes _ _ _ Hi i) as Hp. rewrite HP in Hp.
    destruct (pipes s !! i) as [b|] eqn:Eb; [|done]. destruct Hp as (ms & -> & Hms).
    destruct (decide (holds (PipeRead i) s)); injection E as <-; [|by apply inv_self].
    apply inv_pipe; [done| |done]. rewrite HP. exists (ms ++ [buf]). split; [by rewrite join_app; cbn; rewrite app_nil_r|].
    apply Forall_app. split; [done|]. apply Forall_singleton. split; [done|]. by rewrite <- (inv_log _ _ _ Hi).
  - destruct Hwp as [H1 H2]. destruct (c_ok ch).
    + injection E as <-. eexists. eapply inv_noted; [done|done|done|done|]. by apply H1, le_refl.
    + destruct (decide (c_num ch < Z.of_nat (length buf))%Z); [|done]. injection E as <-. exists w. apply inv_self; [done|by apply H2].
  - injection E as <-. exists w. by apply inv_self.
Qed.

Lemma inv_new_pipe n s w p F pa ch k s' : inv (S n) s w → wp Q (S n) p (VisF Pipe k) F w →
  call p F pa ch s Pipe k = Some s' → ∃ w', inv n s' w'.
Proof.
  intros Hi [H1 H2] E. cbn [call] in E. destruct (c_ok ch).
  - destruct (decide _) as [(Ha & Hb & Hab & Hfa & Hfb)|]; [|done]. injection E as <-. set (i := fresh (dom (pipes s))).
    assert (Hfr : pipes s !! i = None) by (apply not_elem_of_dom, is_fresh). pose proof (inv_pipes _ _ _ Hi) as Hpi.
    assert (Hw : w_pipes w !! i = None).
    { specialize (Hpi i). rewrite Hfr in Hpi. by destruct (w_pipes w !! i) as [[|]|]. }
    exists (own p i w). eapply inv_put; [done|cbn; eauto|apply Hi|cbn; apply Hi| |intros; by apply le_own|by apply H1; [apply le_refl|..]].
    intros j. cbn. destruct (decide (i = j)) as [<-|Hj]; [by rewrite !lookup_insert_eq|rewrite !lookup_insert_ne by done; apply Hpi].
  - injection E as <-. exists w. apply inv_self; [done|apply H2].
Qed.

Lemma inv_fork n s w p F pa ch k s' : inv (S n) s w → wp Q (S n) p (VisF Fork k) F w →
  call p F pa ch s Fork k = Some s' → ∃ w', inv n s' w'.
Proof.
  intros Hi [H1 H2] E. cbn [call] in E. destruct (c_ok ch).
  - destruct (decide _) as [(Hc & Hcp & Hnew)|]; [|done]. injection E as <-.
    destruct (H1 (c_num ch) w (le_refl _ _) Hc Hcp) as (A & Hkid & Hself). set (w1 := noted (assign p A w) (Forked p (c_num ch))) in *.
    exists w1. eapply inv_put; [done| |by apply execs_ok_snoc; [apply Hi|]|by cbn; rewrite (inv_log _ _ _ Hi)| | |exact Hself].
    + intros q pr' Hq. cbn. intros [[<- <-]|[_ H]]%lookup_insert_Some; [right; exact Hkid|by left].
    + intros i. cbn. rewrite map_lookup_imap. eapply pipe_ok_later; [by apply prefix_app_r|].
      pose proof (inv_pipes _ _ _ Hi i) as Hp. destruct (pipes s !! i), (w_pipes w !! i) as [[q|P]|]; try done.
      cbn in Hp |- *. destruct (decide (q = p)); [by exists []|done].
    + intros q Hq. eapply le_trans; [by apply le_assign|apply le_noted]. congruence.
  - injection E as <-. exists w. by apply inv_self.
Qed.

Lemma inv_wait n s w p F pa ch k pid s' : inv (S n) s w → wp Q (S n) p (VisF (Waitpid pid) k) F w →
  call p F pa ch s (Waitpid pid) k = Some s' → ∃ w', inv n s' w'.
Proof.
  intros Hi Hwp E. cbn [call] in E. cbn [wp wp_step] in Hwp. exists w.
  destruct (procs s !! pid) as [pr|]; [|injection E as <-; apply inv_self; [done|apply Hwp]].
  destruct (decide (p_parent pr = p ∨ _)); [|injection E as <-; apply inv_self; [done|apply Hwp]].
  destruct (dead (p_status pr) && _); [|done]. injection E as <-. pose proof Hi as [Hx Hl Hpi _].
  eapply inv_put; [done| |done|done|done|intros; apply le_refl|apply Hwp]. intros q pr' _. cbn. intros [_ H]%lookup_delete_Some. by left.
Qed.

Lemma inv_kill n s w p F pa ch k pid s' : inv (S n) s w → wp Q (S n) p (VisF (Kill pid) k) F w →
  call p F pa ch s (Kill pid) k = Some s' → ∃ w', inv n s' w'.
Proof.
  intros Hi Hwp E. cbn [call] in E. cbn [wp wp_step] in Hwp. exists w. pose proof Hi as [Hx Hl Hpi _]. destruct (decide (pid = -1)%Z).
  - destruct (c_ok ch); injection E as <-; [|apply inv_self; [done|apply Hwp]].
    eapply inv_put; [done| |done|done|done|intros; apply le_refl|apply Hwp]. intros q pr' Hq. cbn. rewrite map_lookup_imap.
    destruct (procs s !! q) as [pr|]; [|done]. cbn. intros [= <-]. destruct (_ || _); [by left|by right].
  - destruct (procs s !! pid) as [pr|]; [|injection E as <-; apply inv_self; [done|apply Hwp]].
    destruct (decide (pid = p)); [injection E as <-; by apply inv_self|].
    destruct (c_ok ch); injection E as <-; [|apply inv_self; [done|apply Hwp]].
    eapply inv_put; [done| |done|done|done|intros; apply le_refl|apply Hwp]. intros q pr' _. cbn.
    intros [[<- <-]|[_ H]]%lookup_insert_Some; [by right|by left].
Qed.

Lemma inv_step n s w p ch s' : inv (S n) s w → exec p ch s = Some s' → ∃ w', inv n s' w'.
Proof.
  intros Hi E. unfold exec in E. destruct (procs s !! p) as [[st F pa]|] eqn:Ep; [|done].
  destruct st as [t| | | | |]; try done; [|injection E as <-; exists w; by apply inv_self].
  pose proof (inv_procs _ _ _ Hi _ _ Ep) as Hwp. unfold proc_ok in Hwp. cbn [p_status p_fds] in Hwp.
  destruct t as [r|t|X e k]; [done|injection E as <-; exists w; by apply inv_self|].
  destruct e; try (by destruct Hwp); try (by injection E as <-; exists w; apply inv_self; [|apply Hwp]).
  - destruct Hwp as [H1 H2]. cbn [call] in E. exists w. destruct (c_ok ch); [|injection E as <-; by apply inv_self].
    destruct (decide _) as [[]|]; [|done]. injection E as <-. apply inv_self; [done|by apply H1].
  - by eapply inv_read.
  - by eapply inv_write.
  - cbn [call] in E. cbn [wp wp_step] in Hwp. exists w. destruct (F !! fd); injection E as <-; by apply inv_self.
  - cbn [call] in E. exists w. destruct (decide _); [|destruct (c_ok ch)]; injection E as <-.
    + apply inv_self; [done|apply Hwp].
    + eapply inv_put; [done|cbn; eauto|apply Hi|apply Hi|apply Hi|intros; apply le_refl|apply Hwp].
    + apply inv_self; [done|apply Hwp].
  - cbn [call] in E. exists w. destruct (decide _); [destruct (c_ok ch)|]; injection E as <-.
    + eapply inv_put; [done|cbn; eauto|apply Hi|apply Hi|apply Hi|intros; apply le_refl|apply Hwp].
    + apply inv_self; [done|apply Hwp].
    + apply inv_self; [done|apply Hwp].
  - by eapply inv_new_pipe.
  - by eapply inv_fork.
  - by eapply inv_wait.
  - destruct Hwp as [H1 H2]. cbn [call] in E. destruct (c_ok ch); injection E as <-.
    + eexists. eapply inv_noted; [done|done|done|done|]. by apply H1, le_refl.
    + exists w. by apply inv_self.
  - by eapply inv_kill.
  - destruct Hwp as [H1 H2]. cbn [call] in E. destruct (c_ok ch); injection E as <-; [|exists w; by apply inv_self].
    eexists. eapply inv_noted; [done|done|done| |done]. intros q path' argv' envp' [= <- <- <- <-].
    rewrite <- (inv_log _ _ _ Hi). apply H1, le_refl.
Qed.

Lemma inv_runs sched : ∀ n s w s', inv (length sched + n) s w → runs sched s = Some s' → ∃ w', inv n s' w'.
Proof.
  induction sched as [|[p ch] sched IH]; intros n s w s' Hi E; cbn in E.
  - injection E as <-. by exists w.
  - destruct (exec p ch s) as [s1|] eqn:E1; [|done]. cbn in E. destruct (inv_step _ _ _ _ _ _ Hi E1) as [w1 H1]. by eapply IH.
Qed.

Lemma inv_reaches p t F d s : (∀ n w, w_log w = [] → wp Q n p (observe t) F w) → reaches (boot p t F d) s → ∃ w, inv 1 s w.
Proof.
  intros Ht [sched E]. apply (inv_runs sched 1 (boot p t F d) (mkWorld ∅ []) s); [|done].
  split; [by intros [|]|done|intros i; cbn; by rewrite !lookup_empty|]. intros q' pr' H. cbn in H.
  apply lookup_singleton_Some in H as [<- <-]. by apply Ht.
Qed.

(** A safe program: whatever the schedule, no process breaks, and each one that
    has returned satisfies the postcondition at the log so far. *)
Lemma wp_sound p t F d s q pr : (∀ n w, w_log w = [] → wp Q n p (observe t) F w) → reaches (boot p t F d) s → procs s !! q = Some pr →
  p_status pr ≠ Broken ∧ ∀ r, p_status pr = Run (RetF r) → ∃ w, w_log w = log s ∧ Q q r (p_fds pr) w.
Proof.
  intros Ht Hs Hq. destruct (inv_reaches p t F d s Ht Hs) as [w Hi].
  pose proof (inv_procs _ _ _ Hi _ _ Hq) as H. unfold proc_ok in H. split; [intros Hb; by rewrite Hb in H|].
  intros r Hr. rewrite Hr in H. exists w. split; [apply Hi|exact H].
Qed.

(** Every program that was executed was allowed at that moment. *)
Lemma wp_sound_exec p t F d s : (∀ n w, w_log w = [] → wp Q n p (observe t) F w) → reaches (boot p t F d) s → execs_ok (log s).
Proof. intros Ht Hs. destruct (inv_reaches p t F d s Ht Hs) as [w Hi]. apply Hi. Qed.
End Sound.
