(* ===== verification/LeanFork.v ===== *)
(** * Containers start inside their control groups

    [setup_lean_container] and its variants as programs of several processes:
    whatever the scheduler and the kernel do, a process that comes back as the
    container has been entered in every control group after it was created, and
    the launcher gets that process's number.  A launcher whose container cannot
    be entered in a group hangs. *)

From stdpp Require Import pretty strings.
From ITree Require Import ITree.
From S2P Require Import Prelude LeanContainer ContainerOs.

(** ** Proof rules *)
Section Rules.
Context {R : Type} {es : ExecSpec} (Q : Z → R → gmap Z file → world → Prop).

Definition safe (p : Z) (t : itree sysE R) (F : gmap Z file) (w : world) : Prop := ∀ n, wp Q n p (observe t) F w.

Lemma safe_ret p r F w : Q p r F w → safe p (mret r) F w.
Proof. by intros H [|n]. Qed.

Lemma safe_mret {A} (x : A) (k : A → itree sysE R) p F w : safe p (k x) F w → safe p (mret x ≫= k) F w.
Proof. done. Qed.

Lemma safe_sprintf str (k : string → itree sysE R) p F w : String.length str < BUF_SIZE → safe p (k str) F w → safe p (sprintf str ≫= k) F w.
Proof. intros Hl H. unfold sprintf. by rewrite (proj2 (Nat.ltb_lt _ _) Hl). Qed.

Lemma safe_open path b k p F w :
  (∀ fd, (0 ≤ fd)%Z → F !! fd = None → safe p (k fd) (<[fd := File path]> F) w) → safe p (k (-1)%Z) F w → safe p (sys (Open path b) ≫= k) F w.
Proof. intros H1 H2 [|n]; [done|]. split; [intros fd H3 H4; exact (H1 fd H3 H4 n)|exact (H2 n)]. Qed.

Lemma safe_read_pipe fd len i P k p F w : F !! fd = Some (PipeRead i) → w_pipes w !! i = Some (Proto P) → len = Z.of_nat (p_len P) → 0 < p_len P →
  (∀ m w', le p w w' → length m = p_len P → p_msg P (w_log w') m → safe p (k (len, m)) F w') →
  ((∀ fd', F !! fd' ≠ Some (PipeWrite i)) → safe p (k (0%Z, [])) F w) → safe p (sys (Read fd len) ≫= k) F w.
Proof.
  intros Hfd HP Hl Hpos Hm He [|n]; [done|]. cbn. rewrite Hfd. split; [right; exists P; split_and!; try done|intros H; exact (He H n)].
  intros m w' H1 H2 H3. exact (Hm m w' H1 H2 H3 n).
Qed.

(** Nobody has written to a pipe before its owner has forked. *)
Lemma safe_read_owned fd len i k p F w : F !! fd = Some (PipeRead i) → w_pipes w !! i = Some (Owned p) →
  safe p (k (0%Z, [])) F w → safe p (sys (Read fd len) ≫= k) F w.
Proof. intros Hfd Ho H [|n]; [done|]. cbn. rewrite Hfd. split; [by left|intros _; exact (H n)]. Qed.

Lemma safe_write_file fd buf path k p F w : F !! fd = Some (File path) →
  (∀ w', le p w w' → safe p (k (Z.of_nat (length buf))) F (noted w' (Wrote path buf))) →
  (∀ r, (r < Z.of_nat (length buf))%Z → safe p (k r) F w) → safe p (sys (Write fd buf) ≫= k) F w.
Proof. intros Hfd H1 H2 [|n]; [done|]. cbn. rewrite Hfd. split; [intros w' H; exact (H1 w' H n)|intros r H; exact (H2 r H n)]. Qed.

Lemma safe_write_pipe fd buf i P k p F w : F !! fd = Some (PipeWrite i) → w_pipes w !! i = Some (Proto P) → length buf = p_len P →
  p_msg P (w_log w) buf → safe p (k (Z.of_nat (length buf))) F w → safe p (sys (Write fd buf) ≫= k) F w.
Proof. intros Hfd HP Hl Hm H [|n]; [done|]. cbn. rewrite Hfd. exists P. split_and!; [done|done|done|exact (H n)]. Qed.

Lemma safe_close fd f k p F w : F !! fd = Some f → safe p (k 0%Z) (delete fd F) w → safe p (sys (Close fd) ≫= k) F w.
Proof. intros Hfd H [|n]; [done|]. cbn. rewrite Hfd. exact (H n). Qed.

Lemma safe_chdir path k p F w : (∀ x, safe p (k x) F w) → safe p (sys (Chdir path) ≫= k) F w.
Proof. intros H [|n]; [done|]. intros x. exact (H x n). Qed.
Lemma safe_chroot path k p F w : (∀ x, safe p (k x) F w) → safe p (sys (Chroot path) ≫= k) F w.
Proof. intros H [|n]; [done|]. intros x. exact (H x n). Qed.
Lemma safe_mount path k p F w : (∀ x, safe p (k x) F w) → safe p (sys (Mount path) ≫= k) F w.
Proof. intros H [|n]; [done|]. intros x. exact (H x n). Qed.
Lemma safe_setns fd k p F w : (∀ x, safe p (k x) F w) → safe p (sys (Setns fd) ≫= k) F w.
Proof. intros H [|n]; [done|]. intros x. exact (H x n). Qed.
Lemma safe_waitpid pid k p F w : (∀ x, safe p (k x) F w) → safe p (sys (Waitpid pid) ≫= k) F w.
Proof. intros H [|n]; [done|]. intros x. exact (H x n). Qed.

Lemma safe_unshare k p F w : (∀ w', le p w w' → safe p (k 0%Z) F (noted w' (Unshared p))) → safe p (k (-1)%Z) F w → safe p (sys Unshare ≫= k) F w.
Proof. intros H1 H2 [|n]; [done|]. split; [intros w' H; exact (H1 w' H n)|exact (H2 n)]. Qed.

Lemma safe_pipe k p F w :
  (∀ i a b w', le p w w' → w_pipes w' !! i = None → a ≠ b → F !! a = None → F !! b = None →
    safe p (k (0%Z, (a, b))) (<[a := PipeRead i]> (<[b := PipeWrite i]> F)) (own p i w')) →
  (∀ ab, safe p (k ((-1)%Z, ab)) F w) → safe p (sys Pipe ≫= k) F w.
Proof. intros H1 H2 [|n]; [done|]. split; [intros i a b w' A1 A2 A3 A4 A5 A6 A7; exact (H1 i a b w' A1 A2 A5 A6 A7 n)|intros ab; exact (H2 ab n)]. Qed.

Lemma safe_fork k p F w :
  (∀ c w', le p w w' → (0 < c < 2 ^ 31)%Z → c ≠ p → ∃ A, let w1 := noted (assign p A w') (Forked p c) in
    safe c (k 0%Z) F w1 ∧ safe p (k c) F w1) → safe p (k (-1)%Z) F w → safe p (sys Fork ≫= k) F w.
Proof.
  intros H1 H2 [|n]; [done|]. split; [|exact (H2 n)]. intros c w' A1 A2 A3. destruct (H1 c w' A1 A2 A3) as (A & Ha & Hb).
  exists A. split; [exact (Ha n)|exact (Hb n)].
Qed.

Lemma safe_exit c p F w : safe p (noreturn (Exit c)) F w.
Proof. by intros [|n]. Qed.
Lemma safe_assert p F w : safe p (noreturn AssertFail) F w.
Proof. by intros [|n]. Qed.
Lemma safe_pause_forever p F w : safe p pause_forever F w.
Proof. by intros [|n]. Qed.
End Rules.
Arguments safe {R es} Q : simpl never.

Lemma safe_unshare_last {es : ExecSpec} (Q : Z → Z → gmap Z file → world → Prop) p F w :
  (∀ w', le p w w' → Q p 0%Z F (noted w' (Unshared p))) → Q p (-1)%Z F w → safe Q p (sys Unshare) F w.
Proof. intros H1 H2 [|[|n]]; [done|by split|]. split; [intros w' H; exact (H1 w' H)|exact H2]. Qed.

(** ** Texts *)
Lemma str_length_app (a b : string) : String.length (a +:+ b) = String.length a + String.length b.
Proof. induction a as [|x a IH]; [done|]. exact (f_equal S IH). Qed.

Lemma pretty_N_go_length n : ∀ (x : N) s, (x < 10 ^ N.of_nat n)%N → String.length (pretty_N_go x s) ≤ n + String.length s.
Proof.
  induction n as [|n IH]; intros x s Hx.
  - assert (x = 0%N) as -> by (cbn in Hx; lia). rewrite pretty_N_go_0. lia.
  - destruct (decide (x = 0%N)) as [->|H0]; [rewrite pretty_N_go_0; lia|].
    rewrite pretty_N_go_step by lia. etrans; [apply IH|cbn; lia].
    apply N.Div0.div_lt_upper_bound. by rewrite <- N.pow_succ_r', <- Nat2N.inj_succ.
Qed.

Lemma pretty_pid_length c : (0 ≤ c < 2 ^ 31)%Z → String.length (pretty c) ≤ 10.
Proof.
  intros Hc. destruct c as [|c|c]; [cbn; lia| |lia]. change (String.length (pretty (N.pos c)) ≤ 10). unfold pretty, pretty_N.
  rewrite decide_False by done. etrans; [apply (pretty_N_go_length 10)|cbn; lia]. change (N.of_nat 10) with 10%N. lia.
Qed.

Lemma bytes_pid_roundtrip c : (0 ≤ c < 2 ^ 31)%Z → bytes_pid (pid_bytes c) = c.
Proof.
  intros Hc. unfold bytes_pid, pid_bytes. cbn [fmap list_fmap foldr].
  change 255%Z with (Z.ones 8). rewrite !Z.land_ones, !Z.shiftr_div_pow2 by lia.
  set (u := (_ + _)%Z).
  assert (u = c) as ->; [|by rewrite (proj2 (Z.ltb_lt _ _)) by lia]. subst u. change (8 * 0)%Z with 0%Z. change (8 * 1)%Z with 8%Z.
  change (8 * 2)%Z with 16%Z. change (8 * 3)%Z with 24%Z. rewrite Z.pow_0_r, Z.div_1_r.
  change (2 ^ 8)%Z with 256%Z. change (2 ^ 16)%Z with (256 * 256)%Z. change (2 ^ 24)%Z with (256 * 256 * 256)%Z.
  change (2 ^ 31)%Z with 2147483648%Z in Hc. rewrite <- !Z.div_div by lia.
  pose proof (Z.div_mod c 256). pose proof (Z.div_mod (c / 256) 256). pose proof (Z.div_mod (c / 256 / 256) 256).
  assert (0 ≤ c / 256 / 256 / 256 < 128)%Z by (rewrite !Z.div_div by lia; split; [apply Z.div_pos; lia|apply Z.div_lt_upper_bound; lia]).
  rewrite (Z.mod_small (c / 256 / 256 / 256)) by lia. lia.
Qed.

Definition procs_file (prefix name : string) : string := (prefix +:+ name) +:+ "/cgroup.procs".

Definition short (name : string) : Prop := String.length name ≤ 200.

Lemma prefix_length prefix : prefix ∈ cgroup_directory_prefix → String.length prefix ≤ 40.
Proof. revert prefix. apply Forall_forall. by apply (bool_decide_unpack _). Qed.

Lemma safe_bind {A R} {es : ExecSpec} (Q : Z → R → gmap Z file → world → Prop) (t : itree sysE A) (k : A → itree sysE R) p F w :
  safe (λ p x F w, safe Q p (k x) F w) p t F w → safe Q p (t ≫= k) F w.
Proof. intros H n. eapply wp_bind; [|exact (H n)]. intros m q x F' w' _ H'. exact (H' m). Qed.

(** ** A container in its control groups *)

(** After process [c] was created its number was written to the groups of [prefixes]. *)
Definition joined (name : string) (c : Z) (prefixes : list string) (l : list note) : Prop :=
  ∃ l1 q l2, l = l1 ++ Forked q c :: l2 ∧ Forall (λ prefix, Wrote (procs_file prefix name) (str_bytes (pretty c)) ∈ l2) prefixes.

Definition in_groups (name : string) (c : Z) (l : list note) : Prop := joined name c cgroup_directory_prefix l.

Lemma joined_later name c done l l' : l `prefix_of` l' → joined name c done l → joined name c done l'.
Proof.
  intros [l3 ->] (l1 & q & l2 & -> & H). exists l1, q, (l2 ++ l3). split; [by rewrite <- app_assoc|].
  eapply Forall_impl; [exact H|]. intros prefix Hp. apply elem_of_app. by left.
Qed.

Lemma joined_noted name c done prefix l : joined name c done l →
  joined name c (done ++ [prefix]) (l ++ [Wrote (procs_file prefix name) (str_bytes (pretty c))]).
Proof.
  intros (l1 & q & l2 & -> & H). exists l1, q, (l2 ++ [Wrote (procs_file prefix name) (str_bytes (pretty c))]).
  split; [by rewrite <- app_assoc|]. apply Forall_app. split.
  - eapply Forall_impl; [exact H|]. intros x Hx. apply elem_of_app. by left.
  - apply Forall_singleton, elem_of_app. right. by apply list_elem_of_singleton.
Qed.

Lemma str_bytes_length s : length (str_bytes s) = String.length s.
Proof. unfold str_bytes. rewrite length_fmap. induction s as [|x s IH]; [done|]. cbn. by rewrite IH. Qed.

Section Groups.
Context {es : ExecSpec} (name : string) (Hname : short name).

Lemma write_text_safe (Q : Z → Z → gmap Z file → world → Prop) path text p F w :
  (∀ w', le p w w' → Q p 0%Z F (noted w' (Wrote path (str_bytes text)))) → Q p (-1)%Z F w → safe Q p (write_text path (mret text)) F w.
Proof.
  intros H1 H2. apply safe_open; [|by apply safe_ret]. intros fd Hfd Hnew. rewrite (proj2 (Z.ltb_ge _ _) Hfd). apply safe_mret.
  assert (Hclose : ∀ r w', Q p (if r =? Z.of_nat (String.length text) then 0 else -1)%Z F w' →
    safe Q p (_ ← sys (Close fd); mret (if r =? Z.of_nat (String.length text) then 0 else -1)%Z) (<[fd := File path]> F) w').
  { intros r w' H. eapply safe_close; [apply lookup_insert_eq|]. rewrite delete_insert_id by done. by apply safe_ret. }
  eapply safe_write_file; [apply lookup_insert_eq| |].
  - intros w' Hle. apply Hclose. rewrite str_bytes_length, Z.eqb_refl. by apply H1.
  - intros r Hr. apply Hclose. rewrite str_bytes_length in Hr. by rewrite (proj2 (Z.eqb_neq _ _)) by lia.
Qed.

Lemma write_pid_safe (Q : Z → Z → gmap Z file → world → Prop) prefix done c p F w :
  (0 < c < 2 ^ 31)%Z → joined name c done (w_log w) →
  (∀ w', le p w w' → joined name c (done ++ [prefix]) (w_log w') → Q p 0%Z F w') → Q p (-1)%Z F w →
  safe Q p (write_pid c (procs_file prefix name)) F w.
Proof.
  intros Hc Hj H1 H2. apply safe_sprintf; [pose proof (pretty_pid_length c); unfold BUF_SIZE; lia|].
  apply write_text_safe; [|done]. intros w' Hle. apply H1; [eapply le_trans; [exact Hle|by apply le_noted]|].
  apply joined_noted. eapply joined_later; [exact (le_log _ _ _ Hle)|done].
Qed.

Lemma write_pid_loop_safe (Q : Z → Z → gmap Z file → world → Prop) prefixes done c p F w :
  (0 < c < 2 ^ 31)%Z → Forall (λ prefix, String.length prefix ≤ 40) prefixes → joined name c done (w_log w) →
  (∀ w', le p w w' → joined name c (done ++ prefixes) (w_log w') → Q p 0%Z F w') → (∀ w', le p w w' → Q p (-1)%Z F w') →
  safe Q p (write_pid_loop prefixes name c) F w.
Proof.
  intros Hc. revert done w. induction prefixes as [|prefix prefixes IH]; intros done w Hlen Hj H1 H2.
  { apply safe_ret, H1; [apply le_refl|by rewrite app_nil_r]. }
  apply Forall_cons in Hlen as [Hl Hlen]. unfold short in Hname. cbn [write_pid_loop].
  apply safe_bind. apply safe_sprintf; [rewrite str_length_app; unfold BUF_SIZE; lia|]. unfold sprintf. rewrite (proj2 (Nat.ltb_lt _ _)).
  2: { rewrite !str_length_app. unfold BUF_SIZE. cbn. lia. }
  apply safe_ret, safe_bind. change ((prefix +:+ name) +:+ "/cgroup.procs") with (procs_file prefix name).
  eapply write_pid_safe; [done|exact Hj| |apply safe_ret, H2, le_refl].
  intros w' Hle Hj'. change (0 <? 0)%Z with false. cbv iota. apply (IH (done ++ [prefix])); [done|done| |].
  - intros w2 Hle2. rewrite <- app_assoc. apply H1. by eapply le_trans.
  - intros w2 Hle2. apply H2. by eapply le_trans.
Qed.
End Groups.

(** ** Descriptors that a failed call leaves open *)
Record more_files (F F' : gmap Z file) : Prop := {
  mf_sub : F ⊆ F';
  mf_new fd f : F' !! fd = Some f → F !! fd = Some f ∨ ∃ path, f = File path }.

Lemma more_files_refl F : more_files F F.
Proof. split; [done|]. by left. Qed.

Lemma more_files_insert F fd path : F !! fd = None → more_files F (<[fd := File path]> F).
Proof.
  intros Hfd. split; [by apply insert_subseteq|]. intros fd' f [[_ <-]|[_ H]]%lookup_insert_Some; [right; by exists path|by left].
Qed.

Lemma more_files_delete F F' a b fa fb : a ≠ b → F !! a = None → F !! b = None →
  more_files (<[a := fa]> (<[b := fb]> F)) F' → more_files F (delete b (delete a F')).
Proof.
  intros Hab Ha Hb [Hsub Hnew]. split.
  - apply map_subseteq_spec. intros fd f H. rewrite !lookup_delete_ne by (intros <-; congruence).
    eapply lookup_weaken; [|exact Hsub]. by rewrite !lookup_insert_ne by (intros <-; congruence).
  - intros fd f [Hbf [Haf H]%lookup_delete_Some]%lookup_delete_Some. specialize (Hnew fd f H).
    by rewrite !lookup_insert_ne in Hnew by done.
Qed.

(** What stays true for everyone *)
Record grew (w w' : world) : Prop := {
  gr_proto i P : w_pipes w !! i = Some (Proto P) → w_pipes w' !! i = Some (Proto P);
  gr_log : w_log w `prefix_of` w_log w' }.

Lemma le_grew p w w' : le p w w' → grew w w'.
Proof. intros []. by split. Qed.
Lemma grew_trans w1 w2 w3 : grew w1 w2 → grew w2 w3 → grew w1 w3.
Proof. intros [] []. split; [by eauto|by etrans]. Qed.
Lemma grew_forked p A w n : grew w (noted (assign p A w) n).
Proof. split; cbn; [|by apply prefix_app_r]. intros i P Hi. by rewrite map_lookup_imap, Hi. Qed.

Section Setup.
Context {es : ExecSpec} (name : string) (Hname : short name).

Lemma set_namespace_safe (Q1 : Z → Z → gmap Z file → world → Prop) kinds namespace p F w :
  (0 ≤ namespace < 2 ^ 31)%Z → Forall (λ kind, String.length kind ≤ 3) kinds →
  Q1 p 0%Z F w → (∀ F', more_files F F' → Q1 p (-1)%Z F' w) → safe Q1 p (set_namespace_loop kinds namespace) F w.
Proof.
  intros Hns Hk H1 H2. induction Hk as [|kind kinds Hl _ IH]; [by apply safe_ret|]. cbn [set_namespace_loop].
  apply safe_sprintf.
  { unfold namespace_path. rewrite !str_length_app. pose proof (pretty_pid_length namespace). unfold BUF_SIZE. cbn. lia. }
  apply safe_open; [|apply safe_ret, H2, more_files_refl]. intros fd Hfd Hnew. rewrite (proj2 (Z.ltb_ge _ _) Hfd).
  apply safe_setns. intros x. destruct (x <? 0)%Z; [by apply safe_ret, H2, more_files_insert|].
  eapply safe_close; [apply lookup_insert_eq|]. by rewrite delete_insert_id.
Qed.

Lemma close_both_safe (Q1 : Z → Z → gmap Z file → world → Prop) a b fa fb r p F w :
  a ≠ b → F !! a = Some fa → F !! b = Some fb → Q1 p r (delete b (delete a F)) w → safe Q1 p (close_both (a, b) r) F w.
Proof.
  intros Hab Ha Hb H. unfold close_both. cbn [fst snd]. eapply safe_close; [exact Ha|]. eapply safe_close; [by rewrite lookup_delete_ne|].
  by apply safe_ret.
Qed.

Lemma close_pipe_safe (Q1 : Z → Z → gmap Z file → world → Prop) a b i r p F w :
  a ≠ b → F !! a = None → F !! b = None → Q1 p r F w → safe Q1 p (close_both (a, b) r) (<[a := PipeRead i]> (<[b := PipeWrite i]> F)) w.
Proof.
  intros Hab Ha Hb H. eapply close_both_safe; [done|apply lookup_insert_eq|by rewrite lookup_insert_ne, lookup_insert_eq|].
  rewrite delete_insert_id by (by rewrite lookup_insert_ne). by rewrite delete_insert_id.
Qed.

Definition group_prot (c : Z) : prot := {|
  p_len := 1;
  p_msg l _ := in_groups name c l;
  p_mono l l' _ := joined_later name c cgroup_directory_prefix l l' |}.

(** What comes back from [setup_lean_container], in which process *)
Record outcomes (Q1 : Z → Z → gmap Z file → world → Prop) (p : Z) (F : gmap Z file) (w : world) : Prop := {
  oc_fail F' w' : grew w w' → more_files F F' → Q1 p (-1)%Z F' w';
  oc_parent c w' : grew w w' → (0 < c < 2 ^ 31)%Z → in_groups name c (w_log w') → Q1 p c F w';
  oc_child c w' : grew w w' → in_groups name c (w_log w') → Q1 c 0%Z F w';
  oc_child_fail c w' : grew w w' → (∃ q, Forked q c ∈ w_log w') → Q1 c (-1)%Z F w' }.

Lemma setup_child_safe (Q1 : Z → Z → gmap Z file → world → Prop) rootfs c a b i F w :
  a ≠ b → F !! a = None → F !! b = None → w_pipes w !! i = Some (Proto (group_prot c)) →
  (∀ w', le c w w' → in_groups name c (w_log w') → Q1 c 0%Z F w') → Q1 c (-1)%Z F w →
  safe Q1 c (ret ← sys (Chdir rootfs);
    if bool_decide (ret ≠ 0%Z) then close_both (a, b) (-1)
    else ret ← sys (Chroot "."); if bool_decide (ret ≠ 0%Z) then close_both (a, b) (-1) else _ ← sys (Read (a, b).1 1); close_both (a, b) 0)
    (<[a := PipeRead i]> (<[b := PipeWrite i]> F)) w.
Proof.
  intros Hab Ha Hb HP H1 H2.
  apply safe_chdir. intros x. case_bool_decide; [by apply close_pipe_safe|]. apply safe_chroot. intros y. case_bool_decide; [by apply close_pipe_safe|].
  eapply safe_read_pipe; [apply lookup_insert_eq|exact HP|done|cbn; lia| |].
  - intros m w' Hle _ Hm. apply close_pipe_safe; [done..|]. by apply H1.
  - intros Hno. destruct (Hno b). by rewrite lookup_insert_ne, lookup_insert_eq.
Qed.

(** From the fork on, with both ends of the pipe open. *)
Lemma setup_fork_safe (Q1 : Z → Z → gmap Z file → world → Prop) rootfs p a b i F w w1 :
  outcomes Q1 p F w → a ≠ b → F !! a = None → F !! b = None → grew w w1 → w_pipes w1 !! i = Some (Owned p) →
  safe Q1 p (pid ← sys Fork;
    if (pid <? 0)%Z then close_both (a, b) (-1)
    else if (pid =? 0)%Z then
      ret ← sys (Chdir rootfs);
      if bool_decide (ret ≠ 0%Z) then close_both (a, b) (-1)
      else ret ← sys (Chroot "."); if bool_decide (ret ≠ 0%Z) then close_both (a, b) (-1) else _ ← sys (Read (a, b).1 1); close_both (a, b) 0
    else
      ret ← write_pid_loop cgroup_directory_prefix name pid;
      if (ret <? 0)%Z then close_both (a, b) (-1) else _ ← sys (Write (a, b).2 (str_bytes "a")); close_both (a, b) pid)
    (<[a := PipeRead i]> (<[b := PipeWrite i]> F)) w1.
Proof.
  intros [Hfail Hpar Hkid Hkf] Hab Ha Hb Hle Hi. set (F1 := <[a := PipeRead i]> (<[b := PipeWrite i]> F)).
  assert (Hb1 : F1 !! b = Some (PipeWrite i)) by (by unfold F1; rewrite lookup_insert_ne, lookup_insert_eq).
  apply safe_fork; [|apply close_pipe_safe; [done..|]; apply Hfail; [exact Hle|apply more_files_refl]]. intros c w2 Hle2 Hc Hcp. exists (λ _, group_prot c).
  set (w3 := noted _ _). assert (HP : w_pipes w3 !! i = Some (Proto (group_prot c))).
  { cbn. rewrite map_lookup_imap, (le_owned _ _ _ Hle2 _ Hi). cbn. by rewrite decide_True. }
  assert (Hg3 : grew w w3) by (eapply grew_trans; [eapply grew_trans; [exact Hle|by eapply le_grew]|apply grew_forked]).
  split.
  - eapply setup_child_safe; try done; [|apply Hkf; [done|exists p; apply elem_of_app; right; by apply list_elem_of_singleton]]. intros w' Hle' Hg. apply Hkid; [by eapply grew_trans, le_grew|done].
  - rewrite (proj2 (Z.ltb_ge _ _)), (proj2 (Z.eqb_neq _ _)) by lia. apply safe_bind.
    eapply (write_pid_loop_safe name Hname _ _ []); [done|apply Forall_forall, prefix_length|eexists _, p, []; done| |].
    + intros w4 Hle4 Hj. eapply safe_write_pipe; [exact Hb1|by eapply le_proto|done|done|].
      apply close_pipe_safe; [done..|]; apply Hpar; [by eapply grew_trans, le_grew|done|done].
    + intros w4 Hle4. apply close_pipe_safe; [done..|]; apply Hfail; [by eapply grew_trans, le_grew|apply more_files_refl].
Qed.

Lemma setup_safe (Q1 : Z → Z → gmap Z file → world → Prop) rootfs namespace p F w :
  (namespace < 2 ^ 31)%Z → outcomes Q1 p F w → safe Q1 p (setup_lean_container name rootfs namespace) F w.
Proof.
  intros Hns [Hfail Hpar Hkid Hkf]. apply safe_pipe; [|intros ab; apply safe_ret, Hfail; [eapply le_grew, (le_refl p)|apply more_files_refl]].
  intros i a b w1 Hle Hi Hab Ha Hb. change (0 <? 0)%Z with false. cbv iota. set (F1 := <[a := PipeRead i]> (<[b := PipeWrite i]> F)).
  assert (Ha1 : F1 !! a = Some (PipeRead i)) by apply lookup_insert_eq.
  assert (Hb1 : F1 !! b = Some (PipeWrite i)) by (by unfold F1; rewrite lookup_insert_ne, lookup_insert_eq).
  assert (Hbad : ∀ F' w', more_files F1 F' → grew w w' → safe Q1 p (close_both (a, b) (-1)) F' w').
  { intros F' w' Hm Hl. eapply close_both_safe; [done|by eapply lookup_weaken; [|apply Hm]..|].
    apply Hfail; [done|by eapply more_files_delete]. }
  assert (Hown : ∀ w2, le p (own p i w1) w2 → grew w w2 ∧ w_pipes w2 !! i = Some (Owned p)).
  { intros w2 Hle2. split.
    - eapply grew_trans; [exact (le_grew _ _ _ Hle)|]. eapply grew_trans; [exact (le_grew _ _ _ (le_own p p i w1 Hi))|by eapply le_grew].
    - eapply le_owned; [exact Hle2|apply lookup_insert_eq]. }
  destruct (Hown _ (le_refl _ _)) as [Hg0 Hi0].
  apply safe_bind. destruct (Z.ltb_spec namespace 0).
  - apply safe_unshare_last.
    + intros w2 Hle2. assert (Hle3 : le p (own p i w1) (noted w2 (Unshared p))) by (eapply le_trans; [exact Hle2|by apply le_noted]).
      destruct (Hown _ Hle3) as [Hg3 Hi3]. by apply (setup_fork_safe Q1 rootfs p a b i F w).
    + by apply Hbad; [apply more_files_refl|].
  - apply set_namespace_safe; [lia|by apply (bool_decide_unpack _)|by apply (setup_fork_safe Q1 rootfs p a b i F w)|]. intros F' Hm. by apply Hbad.
Qed.
End Setup.

(** ** The launcher *)
Definition pid_prot (name : string) : prot := {|
  p_len := 4;
  p_msg l m := ∃ c, (0 < c < 2 ^ 31)%Z ∧ m = pid_bytes c ∧ in_groups name c l;
  p_mono l l' m Hl H := let '(ex_intro _ c (conj H1 (conj H2 H3))) := H in
    ex_intro _ c (conj H1 (conj H2 (joined_later name c cgroup_directory_prefix l l' Hl H3))) |}.

(** What [setup_lean_container_w_double_fork] returns in process [p]: 0 in the
    container, and the container's number in the launcher *)
Definition launched (name : string) (p : Z) (r : option Z) (l : list note) : Prop :=
  ∃ v, r = Some v ∧ (v = 0%Z → in_groups name p l) ∧ ((0 < v)%Z → in_groups name v l).

Lemma launched_later name p r l l' : l `prefix_of` l' → launched name p r l → launched name p r l'.
Proof. intros Hl (v & -> & H1 & H2). exists v. split_and!; [done|..]; intros H; (eapply joined_later; [exact Hl|]); first [exact (H1 H)|exact (H2 H)]. Qed.

Section Launch.
Context {es : ExecSpec} (name : string) (Hname : short name).
Context (Q : Z → option Z → gmap Z file → world → Prop).

(** What comes back from [setup_lean_container_w_double_fork] called by [p], in
    which process *)
Record launch_outcomes (p : Z) (w : world) : Prop := {
  lo_early F' w' : le p w w' → Q p (Some (-1)%Z) F' w';
  lo_launcher c v F' w' : grew w w' → in_groups name c (w_log w') → v = (-1)%Z ∨ (0 < v)%Z ∧ v = c → Q p (Some v) F' w';
  lo_middle m F' w' : m ≠ p → grew w w' → Q m (Some (-1)%Z) F' w';
  lo_container c F' w' : grew w w' → in_groups name c (w_log w') → Q c (Some 0%Z) F' w';
  lo_container_fail c F' w' : grew w w' → (∃ q, Forked q c ∈ w_log w') → Q c (Some (-1)%Z) F' w' }.

(** The process in the middle: it runs [setup_lean_container] and reports. *)
Lemma middle_safe rootfs namespace p m a b j F w0 w :
  (namespace < 2 ^ 31)%Z → launch_outcomes p w0 → m ≠ p → grew w0 w →
  a ≠ b → F !! a = Some (PipeRead j) → F !! b = Some (PipeWrite j) → w_pipes w !! j = Some (Proto (pid_prot name)) →
  safe Q m (_ ← sys (Close (a, b).1);
    pid ← setup_lean_container name rootfs namespace;
    if (pid <? 0)%Z then mret (Some (-1)%Z)
    else if (pid =? 0)%Z then _ ← sys (Close (a, b).2); mret (Some 0%Z)
    else _ ← sys (Write (a, b).2 (pid_bytes pid)); _ ← sys (Close (a, b).2); noreturn (Exit 0)) F w.
Proof.
  intros Hns [_ _ H3 H4 H5] Hm Hg0 Hab Ha Hb HP. cbn [fst snd]. eapply safe_close; [exact Ha|]. apply safe_bind. apply setup_safe; [done|done|].
  assert (Hb1 : delete a F !! b = Some (PipeWrite j)) by (by rewrite lookup_delete_ne). split.
  - intros F' w' Hg _. apply safe_ret, H3; [done|by eapply grew_trans].
  - intros c w' Hg Hc Hin. rewrite (proj2 (Z.ltb_ge _ _)), (proj2 (Z.eqb_neq _ _)) by lia.
    eapply safe_write_pipe; [exact Hb1|by eapply gr_proto|done|by exists c|]. eapply safe_close; [exact Hb1|]. apply safe_exit.
  - intros c w' Hg Hin. cbn. eapply safe_close; [exact Hb1|]. apply safe_ret, H4; [by eapply grew_trans|done].
  - intros c w' Hg Hf. apply safe_ret, H5; [by eapply grew_trans|done].
Qed.

Lemma double_fork_outcomes rootfs namespace p F w :
  (namespace < 2 ^ 31)%Z → launch_outcomes p w → safe Q p (setup_lean_container_w_double_fork name rootfs namespace) F w.
Proof.
  intros Hns Ho. pose proof Ho as [H1 H2 _ _ _]. apply safe_pipe; [|intros ab; apply safe_ret, H1, le_refl]. intros j a b w1 Hle Hj Hab Ha Hb.
  change (0 <? 0)%Z with false. cbv iota. set (F1 := <[a := PipeRead j]> (<[b := PipeWrite j]> F)).
  assert (Hown : le p w (own p j w1)) by (eapply le_trans; [exact Hle|by apply le_own]).
  assert (Ha1 : F1 !! a = Some (PipeRead j)) by apply lookup_insert_eq.
  assert (Hb1 : F1 !! b = Some (PipeWrite j)) by (by unfold F1; rewrite lookup_insert_ne, lookup_insert_eq).
  apply safe_fork; [|by apply safe_ret, H1]. intros c w2 Hle2 Hc Hcp. exists (λ _, pid_prot name).
  set (w3 := noted _ _). assert (HP : w_pipes w3 !! j = Some (Proto (pid_prot name))).
  { cbn. rewrite map_lookup_imap, (le_owned _ _ _ Hle2 j) by (apply lookup_insert_eq). cbn. by rewrite decide_True. }
  assert (Hg3 : grew w w3) by (eapply grew_trans; [exact (le_grew _ _ _ (le_trans _ _ _ _ Hown Hle2))|apply grew_forked]).
  split; [by apply middle_safe with p j w|]. rewrite (proj2 (Z.ltb_ge _ _)), (proj2 (Z.eqb_neq _ _)) by lia.
  unfold read_pid. apply safe_bind. eapply safe_read_pipe; [exact Ha1|exact HP|done|cbn; lia| |].
  - intros m w4 Hle4 Hlen (v & Hv & -> & Hin). cbv beta iota. apply safe_ret. change (length (pid_bytes v) =? 4) with true. cbv iota.
    assert (Hg4 : grew w w4) by (by eapply grew_trans, le_grew).
    rewrite bytes_pid_roundtrip by lia. apply safe_waitpid. intros x. case_bool_decide; [apply safe_ret; by apply (H2 v); [..|left]|].
    cbn [fst snd]. eapply safe_close; [exact Ha1|]. eapply safe_close; [by rewrite lookup_delete_ne|].
    apply safe_ret, (H2 v); [done|done|right; lia].
  - intros Hno. by destruct (Hno b).
Qed.
End Launch.

Lemma launched_error name p l : launched name p (Some (-1)%Z) l.
Proof. exists (-1)%Z. split_and!; [done|lia|lia]. Qed.

Lemma double_fork_safe {es : ExecSpec} name (Hname : short name) rootfs namespace p F w :
  (namespace < 2 ^ 31)%Z → safe (λ p r (_ : gmap Z file) w, launched name p r (w_log w)) p (setup_lean_container_w_double_fork name rootfs namespace) F w.
Proof.
  intros Hns. apply double_fork_outcomes; [done|done|]. split; intros; try apply launched_error.
  - destruct H1 as [->|[Hv ->]]; [apply launched_error|]. eexists. split_and!; [done|lia|done].
  - exists 0%Z. split_and!; [done|done|lia].
Qed.

(** C12: The container runs inside its control groups.  For a name of at most 200
    characters (a longer one overflows the buffers of the paths), however the
    processes of [setup_lean_container_w_double_fork] are scheduled, and whichever
    system calls fail, no process runs into undefined behaviour; a process in which the function
    has returned 0 has had its number written to all eleven [cgroup.procs] files
    since it was created; and where the function returns a positive number, that is
    the number of a process of which the same holds.  Its result is never
    uninitialised. *)
Theorem container_in_cgroups name rootfs namespace p F d s q pr :
  short name → (namespace < 2 ^ 31)%Z →
  reaches (boot p (setup_lean_container_w_double_fork name rootfs namespace) F d) s → procs s !! q = Some pr →
  p_status pr ≠ Broken ∧ ∀ r, p_status pr = Run (RetF r) → launched name q r (log s).
Proof.
  intros Hname Hns Hr Hq.
  destruct (wp_sound (λ p r (_ : gmap Z file) w, launched name p r (w_log w))
    ltac:(intros; eapply launched_later; [by eapply le_log|done]) p (setup_lean_container_w_double_fork name rootfs namespace) F d s q pr) as [H1 H2]; [|done|done|].
  - intros n w _. by apply double_fork_safe.
  - split; [done|]. intros r Hst. by destruct (H2 r Hst) as (w & <- & H).
Qed.

(** ** A run that succeeds *)
Definition yes (n : Z) : choice := mkChoice true n (n + 1) [].
Definition no : choice := mkChoice false (-1) 0 [].

Definition times {A} (n : nat) (l : list A) : list A := mjoin (replicate n l).

(** Process 1 forks 2, which forks 3 and enters it in the groups. *)
Definition to_fork : list (Z * choice) := [(1, yes 3); (1, yes 2); (2, yes 0); (2, yes 5); (2, yes 0); (2, yes 3)]%Z.
Definition enter_groups : list (Z * choice) := times 11 [(2, yes 7); (2, yes 0); (2, yes 0)]%Z.
Definition good_run : list (Z * choice) :=
  to_fork ++ enter_groups ++ [(2, yes 0); (2, yes 0); (2, yes 0)]%Z ++ [(2, yes 0); (2, yes 0); (2, yes 0)]%Z ++
  [(3, yes 0); (3, yes 0); (3, yes 0); (3, yes 0); (3, yes 0); (3, yes 0)]%Z ++ [(1, yes 0); (1, yes 0); (1, yes 0); (1, yes 0)]%Z.

Definition launch : code (option Z) := setup_lean_container_w_double_fork "faas" "/rootfs" (-1).

Lemma container_in_cgroups_witness : ∃ s, reaches (boot 1 launch ∅ ∅) s ∧ launched "faas" 3 (Some 0%Z) (log s) ∧ launched "faas" 1 (Some 3%Z) (log s).
Proof.
  destruct (runs good_run (boot 1 launch ∅ ∅)) as [s|] eqn:E; [|by vm_compute in E].
  assert (Hr : reaches (boot 1 launch ∅ ∅) s) by (by exists good_run).
  assert (H3 : ∃ pr, procs s !! 3%Z = Some pr ∧ p_status pr = Run (RetF (Some 0%Z))).
  { vm_compute in E. injection E as <-. eexists. by split. }
  assert (H1 : ∃ pr, procs s !! 1%Z = Some pr ∧ p_status pr = Run (RetF (Some 3%Z))).
  { clear H3. vm_compute in E. injection E as <-. eexists. by split. }
  exists s. split; [done|]. destruct H3 as (pr3 & Hp3 & Hs3), H1 as (pr1 & Hp1 & Hs1). split.
  - apply (container_in_cgroups "faas" "/rootfs" (-1) 1 ∅ ∅ s 3 pr3); [unfold short; cbn; lia|lia|done|done|done].
  - apply (container_in_cgroups "faas" "/rootfs" (-1) 1 ∅ ∅ s 1 pr1); [unfold short; cbn; lia|lia|done|done|done].
Defined.

(** ** Runs that fail *)
Section Stuck.
Context {R : Type}.

(** Process [q] reads from an empty pipe that somebody could still write to. *)
Definition waits (s : os R) (q : Z) : bool :=
  match procs s !! q with
  | Some (mkProc (Run (VisF e _)) fds _) =>
      match e with
      | Read fd _ => match fds !! fd with Some (PipeRead i) => bool_decide (pipes s !! i = Some []) && bool_decide (holds (PipeWrite i) s) | _ => false end
      | _ => false
      end
  | _ => false
  end.

Lemma waits_blocked s q : waits s q = true → ∀ ch, exec q ch s = None.
Proof.
  unfold waits, exec. destruct (procs s !! q) as [[[t| | | | |] fds pa]|]; try done. destruct t as [r|t|X e k]; try done.
  destruct e; try done. cbn [call]. destruct (fds !! fd) as [[i|i|path]|]; try done.
  intros [->%bool_decide_eq_true H%bool_decide_eq_true]%andb_true_iff ch. by rewrite decide_True.
Qed.
End Stuck.

Definition returned (s : os (option Z)) (q : Z) (r : option Z) : bool :=
  match procs s !! q with Some (mkProc (Run (RetF r')) _ _) => bool_decide (r' = r) | _ => false end.

Lemma returned_spec s q r : returned s q r = true → p_status <$> procs s !! q = Some (Run (RetF r)).
Proof.
  unfold returned. destruct (procs s !! q) as [[[t| | | | |] fds pa]|]; try done. destruct t as [r'|t|X e k]; try done.
  by intros ->%bool_decide_eq_true.
Qed.

(** Writing the container's number to the first group fails. *)
Definition bad_run : list (Z * choice) :=
  to_fork ++ [(2, yes 7); (2, no); (2, yes 0); (2, yes 0); (2, yes 0)]%Z ++ [(3, yes 0); (3, yes 0)]%Z.

(** How the launcher [root] may have returned: before it forked, or after some
    process had been entered in all groups; or its number now belongs to a later
    process. *)
Definition hang_post (name : string) (root q : Z) (l : list note) : Prop :=
  q = root → (∀ m, Forked root m ∉ l) ∨ (∃ c, in_groups name c l) ∨ ∃ q', Forked q' root ∈ l.

Lemma hang_post_later name root q w w' : le q w w' → hang_post name root q (w_log w) → hang_post name root q (w_log w').
Proof.
  intros Hle H ->. destruct (H eq_refl) as [H1|[[c Hc]|[q' Hq']]].
  - left. intros m Hm. by apply (H1 m), (le_forks _ _ _ Hle).
  - right. left. exists c. eapply joined_later; [exact (le_log _ _ _ Hle)|done].
  - right. right. exists q'. destruct (le_log _ _ _ Hle) as [l ->]. apply elem_of_app. by left.
Qed.

(** C38: A launch that fails hangs.  For a name of at most 200 characters, once the
    launcher has forked, its call does not return, with an error or otherwise,
    before some process has been entered in all eleven control groups: so when
    the container cannot be entered in one of them, the launcher waits for a
    number that nobody sends.  This is for every schedule and whichever calls
    fail, as long as no later process has been given the launcher's number. *)
Theorem failed_launch_hangs name rootfs namespace p F d s m pr r :
  short name → (namespace < 2 ^ 31)%Z →
  reaches (boot p (setup_lean_container_w_double_fork name rootfs namespace) F d) s →
  Forked p m ∈ log s → (∀ q, Forked q p ∉ log s) → (∀ c, ¬ in_groups name c (log s)) →
  procs s !! p = Some pr → p_status pr ≠ Run (RetF r).
Proof.
  intros Hname Hns Hr Hm Hq Hc Hp Hst.
  destruct (wp_sound (λ q (_ : option Z) (_ : gmap Z file) w, hang_post name p q (w_log w)) ltac:(intros; by eapply hang_post_later)
    p (setup_lean_container_w_double_fork name rootfs namespace) F d s p pr) as [_ H]; [|done|done|].
  - intros n w Hw. apply double_fork_outcomes; [done|done|]. split; try by intros; intros ->.
    + intros F' w' Hle _. left. intros m' Hm'. apply (le_forks _ _ _ Hle) in Hm'. rewrite Hw in Hm'. by apply elem_of_nil in Hm'.
    + intros c v F' w' _ Hg _ _. right. left. by exists c.
    + intros c F' w' _ Hg _. right. left. by exists c.
    + intros c F' w' _ Hf ->. by right; right.
  - destruct (H r Hst) as (w & Hw & Hpost). rewrite Hw in Hpost. destruct (Hpost eq_refl) as [H1|[[c H1]|[q H1]]];
      [by apply (H1 m)|by apply (Hc c)|by apply (Hq q)].
Qed.

(** The first group cannot be entered: the middle returns -1 to a second copy of
    the caller, and the launcher and the container wait for ever, each holding
    the write end of the pipe it reads from. *)
Lemma failed_launch_hangs_witness : ∃ s pr, reaches (boot 1 launch ∅ ∅) s ∧ p_status <$> procs s !! 2%Z = Some (Run (RetF (Some (-1)%Z))) ∧
  procs s !! 1%Z = Some pr ∧ (∀ r, p_status pr ≠ Run (RetF r)) ∧ waits s 3 = true ∧ ∀ q ch, exec q ch s = None.
Proof.
  assert (H : match runs bad_run (boot 1 launch ∅ ∅) with
    | Some s => returned s 2 (Some (-1)%Z) && waits s 1 && waits s 3 && bool_decide (dom (procs s) = {[1; 2; 3]}%Z) = true ∧
        log s = [Forked 1 2; Unshared 2; Forked 2 3]
    | None => False end) by (vm_compute; split; exact eq_refl).
  destruct (runs bad_run (boot 1 launch ∅ ∅)) as [s|] eqn:E; [|destruct H]. destruct H as [H Hlog].
  assert (Hr : reaches (boot 1 launch ∅ ∅) s) by (by exists bad_run). clear E.
  apply andb_true_iff in H as [[[H2 H1]%andb_true_iff H3]%andb_true_iff Hd%bool_decide_eq_true]. apply returned_spec in H2.
  destruct (procs s !! 1%Z) as [pr|] eqn:E1; [|apply not_elem_of_dom in E1; rewrite Hd in E1; set_solver].
  exists s, pr. split; [exact Hr|]. split; [exact H2|]. split; [exact E1|]. split; [|split; [exact H3|]].
  - intros r. apply (failed_launch_hangs "faas" "/rootfs" (-1) 1 ∅ ∅ s 2 pr r); [unfold short; cbn; lia|lia|exact Hr|rewrite Hlog; left| | |exact E1].
    + intros q. rewrite Hlog. set_solver.
    + intros c (l1 & q & l2 & El & Hall). rewrite Hlog in El. apply Forall_cons in Hall as [Hin _].
      assert (Hin' : Wrote (procs_file _ "faas") (str_bytes (pretty c)) ∈ [Forked 1 2; Unshared 2; Forked 2 3]) by (rewrite El; apply elem_of_app; right; right; exact Hin).
      set_solver.
  - intros q ch. destruct (procs s !! q) as [pq|] eqn:Eq; [|unfold exec; by rewrite Eq].
    assert (Hq : q ∈ dom (procs s)) by (by apply elem_of_dom_2 in Eq). rewrite Hd in Hq.
    assert (q = 1 ∨ q = 2 ∨ q = 3)%Z as [->|[->| ->]] by set_solver; [by apply waits_blocked| |by apply waits_blocked].
    rewrite Eq in H2. injection H2 as H2. unfold exec. rewrite Eq. destruct pq as [st fds pa]. cbn in H2. by subst st.
Defined.

(** ** Namespaces for later containers *)

(** Process [v] was forked by a process that had left its namespaces before. *)
Definition in_new_namespaces (v : Z) (l : list note) : Prop := ∃ l1 q l2 l3, l = l1 ++ Unshared q :: l2 ++ Forked q v :: l3.

Lemma in_new_namespaces_later v l l' : l `prefix_of` l' → in_new_namespaces v l → in_new_namespaces v l'.
Proof.
  intros [l4 ->] (l1 & q & l2 & l3 & ->). exists l1, q, l2, (l3 ++ l4). rewrite <- app_assoc. cbn. by rewrite <- app_assoc.
Qed.

Definition cached_pid (v : Z) (l : list note) : Prop := v = (-1)%Z ∨ (0 < v < 2 ^ 31)%Z ∧ in_new_namespaces v l.

Lemma cached_pid_later v l l' : l `prefix_of` l' → cached_pid v l → cached_pid v l'.
Proof. intros Hl [->|[Hv H]]; [by left|right]. split; [done|by eapply in_new_namespaces_later]. Qed.

Definition cached_prot : prot := {|
  p_len := 4;
  p_msg l m := ∃ v, m = pid_bytes v ∧ cached_pid v l;
  p_mono l l' m Hl H := let '(ex_intro _ v (conj H1 H2)) := H in ex_intro _ v (conj H1 (cached_pid_later v l l' Hl H2)) |}.

Lemma bytes_cached_pid v l : cached_pid v l → bytes_pid (pid_bytes v) = v.
Proof. intros [->|[Hv _]]; [done|]. apply bytes_pid_roundtrip. lia. Qed.

Section Cached.
Context {es : ExecSpec} (Q : Z → option Z → gmap Z file → world → Prop).

Lemma finish_safe {A} v p b j F w (k : A → itree sysE (option Z)) : F !! b = Some (PipeWrite j) → w_pipes w !! j = Some (Proto cached_prot) →
  cached_pid v (w_log w) →
  safe (λ p x F w, safe Q p (k x) F w) p (_ ← sys (Write b (pid_bytes v)); _ ← sys (Close b); noreturn (Exit 0)) F w.
Proof.
  intros Hb HP Hv. eapply safe_write_pipe; [exact Hb|exact HP|done|by exists v|]. eapply safe_close; [exact Hb|]. apply safe_exit.
Qed.

Lemma unshare_and_fork_safe rootfs p a b j F w : a ≠ b → F !! a = Some (PipeRead j) → F !! b = Some (PipeWrite j) →
  w_pipes w !! j = Some (Proto cached_prot) → safe Q p (_ ← unshare_and_fork (a, b) rootfs; noreturn AssertFail) F w.
Proof.
  intros Hab Ha Hb HP. apply safe_bind. unfold unshare_and_fork. cbn [fst snd]. eapply safe_close; [exact Ha|].
  assert (Hb1 : delete a F !! b = Some (PipeWrite j)) by (by rewrite lookup_delete_ne).
  assert (Hgo : safe (R := ()) (λ p _ F w, safe Q p (noreturn AssertFail) F w) p (ret ← sys Unshare;
    if (ret <? 0)%Z then _ ← sys (Write b (pid_bytes (-1)%Z)); _ ← sys (Close b); noreturn (Exit 0)
    else pid ← sys Fork;
      if (pid <? 0)%Z then _ ← sys (Write b (pid_bytes pid)); _ ← sys (Close b); noreturn (Exit 0)
      else if (pid =? 0)%Z then
        _ ← sys (Close b); _ ← (match rootfs with Some _ => sys (Mount "/proc") | None => mret 0%Z end); pause_forever
      else _ ← sys (Write b (pid_bytes pid)); _ ← sys (Close b); noreturn (Exit 0)) (delete a F) w).
  { apply safe_unshare; [|by eapply finish_safe; [| |left]]. intros w1 Hle1. change (0 <? 0)%Z with false. cbv iota.
    pose proof (le_proto _ _ _ Hle1 _ _ HP) as HP1. apply safe_fork; [|by eapply finish_safe; [| |left]]. intros c w2 Hle2 Hc Hcp. exists (λ _, cached_prot).
    set (w3 := noted _ _). assert (HP3 : w_pipes w3 !! j = Some (Proto cached_prot)).
    { eapply gr_proto; [apply grew_forked|]. by eapply (le_proto _ _ _ Hle2). }
    split.
    - change (0 <? 0)%Z with false. change (0 =? 0)%Z with true. cbv iota. eapply safe_close; [exact Hb1|]. destruct rootfs; [apply safe_mount; intros _|apply safe_mret]; apply safe_pause_forever.
    - rewrite (proj2 (Z.ltb_ge _ _)), (proj2 (Z.eqb_neq _ _)) by lia. eapply finish_safe; [exact Hb1|exact HP3|]. right. split; [done|].
      destruct (le_log _ _ _ Hle2) as [l Hl]. exists (w_log w1), p, l, []. cbn in Hl |- *. by rewrite Hl, <- !app_assoc. }
  destruct rootfs as [r|]; [|exact Hgo]. apply safe_chroot. intros x. destruct (x <? 0)%Z; [apply safe_ret, safe_assert|exact Hgo].
Qed.

Lemma cached_namespace_safe rootfs p F w :
  (∀ p r F w, match r with Some v => cached_pid v (w_log w) | None => True end → Q p r F w) → safe Q p (setup_cached_namespace rootfs) F w.
Proof.
  intros HQ. apply safe_pipe; [|intros ab; apply safe_ret, HQ; by left]. intros j a b w1 Hle Hj Hab Ha Hb.
  change (0 <? 0)%Z with false. cbv iota. set (F1 := <[a := PipeRead j]> (<[b := PipeWrite j]> F)).
  assert (Ha1 : F1 !! a = Some (PipeRead j)) by apply lookup_insert_eq.
  assert (Hb1 : F1 !! b = Some (PipeWrite j)) by (by unfold F1; rewrite lookup_insert_ne, lookup_insert_eq).
  assert (Hpar : ∀ c w', w_pipes w' !! j = Some (Owned p) ∨ w_pipes w' !! j = Some (Proto cached_prot) →
    safe Q p (_ ← sys (Close b); target ← read_pid a; _ ← sys (Waitpid c); _ ← sys (Close a); mret target) F1 w').
  { intros c w' HP. eapply safe_close; [exact Hb1|]. unfold read_pid. apply safe_bind.
    assert (Hlast : ∀ target w', match target with Some v => cached_pid v (w_log w') | None => True end →
      safe Q p (_ ← sys (Waitpid c); _ ← sys (Close a); mret target) (delete b F1) w').
    { intros target w2 H. apply safe_waitpid. intros x. eapply safe_close; [by rewrite lookup_delete_ne|]. by apply safe_ret, HQ. }
    destruct HP as [Ho|HP]; [eapply safe_read_owned; [by rewrite lookup_delete_ne|exact Ho|]; by apply safe_ret, Hlast|].
    eapply safe_read_pipe; [by rewrite lookup_delete_ne|exact HP|done|cbn; lia| |intros _; by apply safe_ret, Hlast].
    intros m w4 Hle4 Hlen (v & -> & Hv). apply safe_ret. change (length (pid_bytes v) =? 4) with true. cbv iota.
    rewrite (bytes_cached_pid v _ Hv). by apply Hlast. }
  apply safe_fork.
  - intros c w2 Hle2 Hc Hcp. exists (λ _, cached_prot). set (w3 := noted _ _). assert (HP : w_pipes w3 !! j = Some (Proto cached_prot)).
    { cbn. rewrite map_lookup_imap, (le_owned _ _ _ Hle2 j) by (apply lookup_insert_eq). cbn. by rewrite decide_True. }
    split; [by apply unshare_and_fork_safe with j|]. rewrite (proj2 (Z.eqb_neq _ _)) by lia. apply Hpar. by right.
  - change (-1 =? 0)%Z with false. cbv iota. apply Hpar. left. apply lookup_insert_eq.
Qed.
End Cached.

(** A cached namespace is a process in namespaces of its own.  Whatever fails and
    however the processes are scheduled, [setup_cached_namespace] returns -1 or the
    number of a process that was forked after its parent had left its namespaces,
    where it returns an initialised value at all. *)
Theorem cached_namespace_result rootfs p F d s q pr v :
  reaches (boot p (setup_cached_namespace rootfs) F d) s → procs s !! q = Some pr → p_status pr = Run (RetF (Some v)) → cached_pid v (log s).
Proof.
  intros Hr Hq Hst. set (Q := λ (p : Z) r (_ : gmap Z file) w, match r with Some v => cached_pid v (w_log w) | None => True end).
  assert (Q_mono : ∀ p r F w w', le p w w' → Q p r F w → Q p r F w').
  { intros p' [x|] F' w w' Hle; [|done]. apply cached_pid_later. by eapply le_log. }
  destruct (wp_sound Q Q_mono p (setup_cached_namespace rootfs) F d s q pr) as [_ H]; [|done|done|].
  - intros n w _. by apply cached_namespace_safe.
  - by destruct (H _ Hst) as (w & <- & Hv).
Qed.

Definition cached_run : list (Z * choice) :=
  [(1, yes 3); (1, yes 2); (2, yes 0); (2, yes 0); (2, yes 0); (2, yes 5)]%Z ++ [(2, yes 0); (2, yes 0); (2, yes 0)]%Z ++ times 4 [(1, yes 0)]%Z.

Lemma cached_namespace_result_witness : ∃ s, reaches (boot 1 (setup_cached_namespace (Some "/rootfs")) ∅ ∅) s ∧ cached_pid 5 (log s).
Proof.
  assert (H : match runs cached_run (boot 1 (setup_cached_namespace (Some "/rootfs")) ∅ ∅) with Some s => returned s 1 (Some 5%Z) | None => false end = true)
    by (vm_compute; exact eq_refl).
  destruct (runs cached_run _) as [s|] eqn:E; [|exact (match Bool.diff_false_true H with end)].
  assert (Hr : reaches (boot 1 (setup_cached_namespace (Some "/rootfs")) ∅ ∅) s) by (exists cached_run; exact E). clear E.
  exists s. split; [exact Hr|]. apply returned_spec in H. destruct (procs s !! 1%Z) as [pr|] eqn:Eq; [|done]. injection H as H.
  exact (cached_namespace_result (Some "/rootfs") 1 ∅ ∅ s 1 pr 5 Hr Eq H).
Defined.

(** When [chroot] fails, the process that was to create the namespaces dies in
    [assert(0)] without a report, and [setup_cached_namespace] returns a variable
    that was never set. *)
Theorem cached_namespace_uninitialised : ∃ s, reaches (boot 1 (setup_cached_namespace (Some "/rootfs")) ∅ ∅) s ∧
  p_status <$> procs s !! 1%Z = Some (Run (RetF None)).
Proof.
  set (run := [(1, yes 3); (1, yes 2); (2, yes 0); (2, no); (2, yes 0)]%Z ++ times 4 [(1, yes 0)]%Z).
  assert (H : match runs run (boot 1 (setup_cached_namespace (Some "/rootfs")) ∅ ∅) with Some s => returned s 1 None | None => false end = true)
    by (vm_compute; exact eq_refl).
  destruct (runs run _) as [s|] eqn:E; [|exact (match Bool.diff_false_true H with end)]. exists s. split; [by exists run|]. by apply returned_spec.
Qed.
