(* ===== verification/LeanCgroup.v ===== *)
(** * Control groups of containers

    The functions of [lean_container.c] that one process runs alone: creating and
    removing control groups, setting their limits, and the freezer.  [total] is a
    logic for such code; its soundness says that every run ends, and how. *)

From stdpp Require Import pretty strings.
From ITree Require Import ITree.
From S2P Require Import Prelude LeanContainer ContainerOs LeanFork.

(** ** A process alone *)
Section Lone.
Context {R : Type} (p : Z).

Definition lone (t : itree' sysE R) (F : gmap Z file) (d : gset string) (l : list note) : os R :=
  mkOs {[p := mkProc (Run t) F 0]} ∅ d l.

Definition steps (s s' : os R) : Prop := ∃ q ch, exec q ch s = Some s'.

(** Every run of [t] ends, and ends with a result that satisfies [Q]. *)
Record always (t : itree sysE R) (F : gmap Z file) (d : gset string) (l : list note)
    (Q : R → gmap Z file → gset string → list note → Prop) : Prop := {
  al_ends : Acc (λ s' s, steps s s') (lone (observe t) F d l);
  al_result s : reaches (lone (observe t) F d l) s →
    (∃ r F' d' l', s = lone (RetF r) F' d' l' ∧ Q r F' d' l') ∨ ∃ s', steps s s' }.

Context (Q : R → gmap Z file → gset string → list note → Prop).

Inductive total : itree' sysE R → gmap Z file → gset string → list note → Prop :=
| t_ret r F d l : Q r F d l → total (RetF r) F d l
| t_tau t F d l : total (observe t) F d l → total (TauF t) F d l
| t_open path b k F d l :
    (∀ fd, (0 ≤ fd)%Z → F !! fd = None → total (observe (k fd)) (<[fd := File path]> F) d l) → total (observe (k (-1)%Z)) F d l →
    total (VisF (Open path b) k) F d l
| t_write fd path buf k F d l : F !! fd = Some (File path) →
    total (observe (k (Z.of_nat (length buf)))) F d (l ++ [Wrote path buf]) →
    (∀ r, (r < Z.of_nat (length buf))%Z → total (observe (k r)) F d l) → total (VisF (Write fd buf) k) F d l
| t_close fd f k F d l : F !! fd = Some f → total (observe (k 0%Z)) (delete fd F) d l → total (VisF (Close fd) k) F d l
| t_mkdir path k F d l :
    (path ∈ d → total (observe (k ((-1)%Z, EEXIST))) F d l) →
    ((path ∉ d) → total (observe (k (0%Z, EOTHER))) F ({[path]} ∪ d) l) → ((path ∉ d) → total (observe (k ((-1)%Z, EOTHER))) F d l) →
    total (VisF (Mkdir path) k) F d l
| t_rmdir path k F d l :
    ((path ∉ d) → total (observe (k ((-1)%Z, ENOENT))) F d l) →
    (path ∈ d → total (observe (k (0%Z, EOTHER))) F (d ∖ {[path]}) l) → (path ∈ d → total (observe (k ((-1)%Z, EOTHER))) F d l) →
    total (VisF (Rmdir path) k) F d l.

(** Soundness *)
Inductive fin : os R → Prop :=
| fin_done r F d l : Q r F d l → fin (lone (RetF r) F d l)
| fin_step s : (∃ s', steps s s') → (∀ s', steps s s' → fin s') → fin s.

Lemma fin_always t F d l : fin (lone (observe t) F d l) → always t F d l Q.
Proof.
  intros H. split.
  - remember (lone (observe t) F d l) as s eqn:E. clear E. induction H as [r F' d' l' _|s _ _ IH]; constructor; [|done].
    intros s' (q & ch & E). unfold exec in E. cbn in E. destruct (_ !! q) as [[st fds pa]|] eqn:Eq; [|done].
    apply lookup_singleton_Some in Eq as [_ [= <- _ _]]. done.
  - intros s [sched E]. revert H E. generalize (lone (observe t) F d l). intros s0 H E. revert s0 H E.
    induction sched as [|[q ch] sched IH]; intros s0 H E; cbn in E.
    + injection E as <-. destruct H as [r F' d' l' HQ|s Hs _]; [left; eauto 6|by right].
    + destruct (exec q ch s0) as [s1|] eqn:E1; [|done]. cbn in E. destruct H as [r F' d' l' HQ|s2 _ Hs]; [|apply (IH s1); [apply Hs; by exists q, ch|done]].
      unfold exec in E1. cbn in E1. destruct (_ !! q) as [[st fds pa]|] eqn:Eq; [|done]. by apply lookup_singleton_Some in Eq as [_ [= <- _ _]].
Qed.

Lemma exec_lone q ch t F d l s' : exec q ch (lone t F d l) = Some s' → q = p ∧ exec p ch (lone t F d l) = Some s'.
Proof.
  intros E. destruct (decide (q = p)) as [->|Hq]; [done|]. unfold exec, lone in E. cbn in E. by rewrite lookup_singleton_ne in E.
Qed.

Lemma exec_lone_call {X} ch (e : sysE X) k F d l : exec p ch (lone (VisF e k) F d l) = call p F 0 ch (lone (VisF e k) F d l) e k.
Proof. unfold exec, lone. cbn [procs]. by rewrite lookup_singleton_eq. Qed.

Lemma set_lone (t t' : itree' sysE R) F F' (d' : gset string) l' :
  set_proc (mkOs {[p := mkProc (Run t) F 0]} ∅ d' l') p (mkProc (Run t') F' 0) = lone t' F' d' l'.
Proof. unfold set_proc, lone. cbn. by rewrite insert_singleton_eq. Qed.

(** A call moves, whatever the choice, to one of the states [P] is about. *)
Lemma fin_call {X} (e : sysE X) k F d l ch0 :
  is_Some (call p F 0 ch0 (lone (VisF e k) F d l) e k) → (∀ ch s', call p F 0 ch (lone (VisF e k) F d l) e k = Some s' → fin s') →
  fin (lone (VisF e k) F d l).
Proof.
  intros [s0 E0] H. apply fin_step; [exists s0, p, ch0; by rewrite exec_lone_call|]. intros s' (q & ch & E).
  apply exec_lone in E as [_ E]. rewrite exec_lone_call in E. by eapply H.
Qed.

Lemma total_fin t F d l : total t F d l → fin (lone t F d l).
Proof.
  induction 1 as [r F d l HQ|t F d l _ IH|path b k F d l _ IH1 _ IH2|fd path buf k F d l Hfd _ IH1 _ IH2|fd f k F d l Hfd _ IH
    |path k F d l _ IH1 _ IH2 _ IH3|path k F d l _ IH1 _ IH2 _ IH3].
  - by apply fin_done.
  - assert (E : ∀ ch, exec p ch (lone (TauF t) F d l) = Some (lone (observe t) F d l)).
    { intros ch. unfold exec, lone. cbn [procs]. rewrite lookup_singleton_eq. f_equal. apply set_lone. }
    apply fin_step; [eexists _, p, (mkChoice true 0 0 []); apply E|]. intros s' (q & ch & Es). apply exec_lone in Es as [_ Es].
    rewrite E in Es. by injection Es as <-.
  - eapply (fin_call _ _ _ _ _ (mkChoice false 0 0 [])); [by eexists|]. intros ch s' E. cbn [call] in E. destruct (c_ok ch).
    + destruct (decide _) as [[H1 H2]|]; [|done]. injection E as <-. unfold lone at 1. rewrite set_lone. by apply IH1.
    + injection E as <-. unfold lone at 1. by rewrite set_lone.
  - eapply (fin_call _ _ _ _ _ (mkChoice true 0 0 [])); [cbn [call]; rewrite Hfd; by eexists|]. intros ch s' E. cbn [call] in E. rewrite Hfd in E.
    destruct (c_ok ch).
    + injection E as <-. unfold add_note, lone at 1. cbn [procs pipes dirs log]. by rewrite set_lone.
    + destruct (decide _) as [H|]; [|done]. injection E as <-. unfold lone at 1. rewrite set_lone. by apply IH2.
  - eapply (fin_call _ _ _ _ _ (mkChoice true 0 0 [])); [cbn [call]; rewrite Hfd; by eexists|]. intros ch s' E. cbn [call] in E. rewrite Hfd in E.
    injection E as <-. unfold lone at 1. by rewrite set_lone.
  - eapply (fin_call _ _ _ _ _ (mkChoice false 0 0 [])); [cbn [call]; destruct (decide _); by eexists|]. intros ch s' E. cbn [call] in E.
    destruct (decide _) as [Hin|Hin]; [|destruct (c_ok ch)]; injection E as <-; unfold set_dirs, lone at 1; cbn [procs pipes dirs log];
      rewrite set_lone; [by apply IH1|by apply IH2|by apply IH3].
  - eapply (fin_call _ _ _ _ _ (mkChoice false 0 0 [])); [cbn [call]; destruct (decide _); by eexists|]. intros ch s' E. cbn [call] in E.
    destruct (decide _) as [Hin|Hin]; [destruct (c_ok ch)|]; injection E as <-; unfold set_dirs, lone at 1; cbn [procs pipes dirs log];
      rewrite set_lone; [by apply IH2|by apply IH3|by apply IH1].
Qed.

Lemma total_sound t F d l : total (observe t) F d l → always t F d l Q.
Proof. intros H. by apply fin_always, total_fin. Qed.
End Lone.

Lemma total_bind {A R} (Q1 : A → gmap Z file → gset string → list note → Prop) (Q : R → gmap Z file → gset string → list note → Prop)
    (t : itree sysE A) (k : A → itree sysE R) F d l :
  (∀ r F d l, Q1 r F d l → total Q (observe (k r)) F d l) → total Q1 (observe t) F d l → total Q (observe (ITree.bind t k)) F d l.
Proof.
  intros Hk H. rewrite observe_bind. remember (observe t) as t' eqn:E. clear t E.
  induction H as [r F d l HQ|t F d l _ IH|path b h F d l _ IH1 _ IH2|fd path buf h F d l Hfd _ IH1 _ IH2|fd f h F d l Hfd _ IH
    |path h F d l _ IH1 _ IH2 _ IH3|path h F d l _ IH1 _ IH2 _ IH3].
  - by apply Hk.
  - apply t_tau. by rewrite observe_bind.
  - apply t_open; [intros fd H1 H2; rewrite observe_bind; by apply IH1|by rewrite observe_bind].
  - eapply t_write; [exact Hfd|by rewrite observe_bind|intros r Hr; rewrite observe_bind; by apply IH2].
  - eapply t_close; [exact Hfd|by rewrite observe_bind].
  - apply t_mkdir; intros H; rewrite observe_bind; auto.
  - apply t_rmdir; intros H; rewrite observe_bind; auto.
Qed.

(** The rules on code *)
Section Steps.
Context {R : Type} (Q : R → gmap Z file → gset string → list note → Prop).
Abbreviation total_code t := (total Q (observe t)).

Lemma total_mret {A} (x : A) k F d l : total_code (k x) F d l → total_code (mret x ≫= k) F d l.
Proof. done. Qed.

Lemma total_open path b k F d l :
  (∀ fd, (0 ≤ fd)%Z → F !! fd = None → total_code (k fd) (<[fd := File path]> F) d l) → total_code (k (-1)%Z) F d l →
  total_code (sys (Open path b) ≫= k) F d l.
Proof. exact (t_open Q path b (λ x, ITree.bind (go (RetF x)) k) F d l). Qed.

Lemma total_write fd path buf k F d l : F !! fd = Some (File path) →
  total_code (k (Z.of_nat (length buf))) F d (l ++ [Wrote path buf]) → (∀ r, (r < Z.of_nat (length buf))%Z → total_code (k r) F d l) →
  total_code (sys (Write fd buf) ≫= k) F d l.
Proof. exact (t_write Q fd path buf (λ x, ITree.bind (go (RetF x)) k) F d l). Qed.

Lemma total_close fd f k F d l : F !! fd = Some f → total_code (k 0%Z) (delete fd F) d l → total_code (sys (Close fd) ≫= k) F d l.
Proof. exact (t_close Q fd f (λ x, ITree.bind (go (RetF x)) k) F d l). Qed.

Lemma total_mkdir path k F d l :
  (path ∈ d → total_code (k ((-1)%Z, EEXIST)) F d l) → ((path ∉ d) → total_code (k (0%Z, EOTHER)) F ({[path]} ∪ d) l) →
  ((path ∉ d) → total_code (k ((-1)%Z, EOTHER)) F d l) → total_code (sys (Mkdir path) ≫= k) F d l.
Proof. exact (t_mkdir Q path (λ x, ITree.bind (go (RetF x)) k) F d l). Qed.

Lemma total_rmdir path k F d l :
  ((path ∉ d) → total_code (k ((-1)%Z, ENOENT)) F d l) → (path ∈ d → total_code (k (0%Z, EOTHER)) F (d ∖ {[path]}) l) →
  (path ∈ d → total_code (k ((-1)%Z, EOTHER)) F d l) → total_code (sys (Rmdir path) ≫= k) F d l.
Proof. exact (t_rmdir Q path (λ x, ITree.bind (go (RetF x)) k) F d l). Qed.
End Steps.

Section Code.
Context (Q : Z → gmap Z file → gset string → list note → Prop).

Lemma sprintf_short str : String.length str < BUF_SIZE → sprintf str = mret str.
Proof. intros H. unfold sprintf. by rewrite (proj2 (Nat.ltb_lt _ _) H). Qed.

Lemma write_text_total path (text : code string) str F d l : text = mret str →
  Q 0%Z F d (l ++ [Wrote path (str_bytes str)]) → Q (-1)%Z F d l → total Q (observe (write_text path text)) F d l.
Proof.
  intros -> H1 H2. apply total_open; [|by apply t_ret]. intros fd Hfd Hnew. rewrite (proj2 (Z.ltb_ge _ _) Hfd).
  apply total_mret. cbv zeta. eapply total_write; [apply lookup_insert_eq| |].
  - eapply total_close; [apply lookup_insert_eq|]. rewrite delete_insert_id by done. apply t_ret. by rewrite str_bytes_length, Z.eqb_refl.
  - intros r Hr. eapply total_close; [apply lookup_insert_eq|]. rewrite delete_insert_id by done. apply t_ret. rewrite str_bytes_length in Hr.
    by rewrite (proj2 (Z.eqb_neq _ _)) by lia.
Qed.

Definition group_dirs (prefixes : list string) (name : string) : gset string := list_to_set ((λ prefix, prefix +:+ name) <$> prefixes).

Lemma mkdir_loop_total prefixes name F d l :
  Forall (λ prefix, String.length (prefix +:+ name) < BUF_SIZE) prefixes →
  (∀ r d', d ⊆ d' → d' ⊆ d ∪ group_dirs prefixes name → (r = 0 ∧ group_dirs prefixes name ⊆ d' ∨ r = -1)%Z → Q r F d' l) →
  total Q (observe (mkdir_loop prefixes name)) F d l.
Proof.
  intros Hs. revert d. induction Hs as [|prefix prefixes Hl _ IH]; intros d H.
  { apply t_ret, H; [done|set_solver|left; split; [done|set_solver]]. }
  cbn [mkdir_loop]. rewrite (sprintf_short _ Hl). apply total_mret. unfold group_dirs in *. cbn in H.
  apply (total_mkdir Q (prefix +:+ name)); [intros Hin|intros Hin|intros Hin].
  - apply IH. intros r d' H1 H2 H3. apply H; [done|set_solver|]. destruct H3 as [[? ?]|?]; [left; split; [done|set_solver]|by right].
  - apply IH. intros r d' H1 H2 H3. apply H; [set_solver|set_solver|]. destruct H3 as [[? ?]|?]; [left; split; [done|set_solver]|by right].
  - apply t_ret, H; [done|set_solver|by right].
Qed.

Lemma rmdir_loop_total prefixes name F d l :
  Forall (λ prefix, String.length (prefix +:+ name) < BUF_SIZE) prefixes →
  (∀ r d', (r = 0 ∧ d' = d ∖ group_dirs prefixes name ∨ r = -1 ∧ d ∖ group_dirs prefixes name ⊆ d' ∧ d' ⊆ d)%Z → Q r F d' l) →
  total Q (observe (rmdir_loop prefixes name)) F d l.
Proof.
  intros Hs. revert d. induction Hs as [|prefix prefixes Hl _ IH]; intros d H.
  { apply t_ret, H. left. split; [done|set_solver]. }
  cbn [rmdir_loop]. rewrite (sprintf_short _ Hl). apply total_mret. unfold group_dirs in *. cbn in H.
  apply (total_rmdir Q (prefix +:+ name)); [intros Hin|intros Hin|intros Hin].
  - apply IH. intros r d' H3. apply H. destruct H3 as [[? ->]|(? & ? & ?)]; [left; split; [done|set_solver]|right; set_solver].
  - apply IH. intros r d' H3. apply H. destruct H3 as [[? ->]|(? & ? & ?)]; [left; split; [done|set_solver]|right; set_solver].
  - apply t_ret, H. right. set_solver.
Qed.
End Code.

(** ** Limits *)
Definition is_int (x : Z) : Prop := (- 2 ^ 31 ≤ x < 2 ^ 31)%Z.
Definition range_text (r : Z * Z) : list Z := str_bytes (pretty r.1 +:+ "-" +:+ pretty r.2).
Definition cpuset_file (name file : string) : string := (cpuset_cgroup_directory_prefix +:+ name) +:+ file.

Definition cpus_set (cpu_start cpu_end : Z) : Z * Z :=
  if decide (0 ≤ cpu_start ≤ cpu_end)%Z then (cpu_start, cpu_end) else (0, 47)%Z.
Definition mems_set (numa_start numa_end : Z) : Z * Z :=
  if decide (0 ≤ numa_end ≤ numa_start)%Z then (numa_start, numa_end) else (0, 1)%Z.

Lemma range_short a b : is_int a → is_int b → (0 ≤ a)%Z → (0 ≤ b)%Z → String.length (pretty a +:+ "-" +:+ pretty b) < BUF_SIZE.
Proof.
  unfold is_int. intros Ha Hb Ha0 Hb0. rewrite !str_length_app. pose proof (pretty_pid_length a). pose proof (pretty_pid_length b).
  unfold BUF_SIZE. cbn [String.length]. lia.
Qed.

Lemma cpus_set_ok a b : is_int a → is_int b → let '(x, y) := cpus_set a b in is_int x ∧ is_int y ∧ (0 ≤ x)%Z ∧ (0 ≤ y)%Z.
Proof. unfold cpus_set, is_int. destruct (decide _); lia. Qed.
Lemma mems_set_ok a b : is_int a → is_int b → let '(x, y) := mems_set a b in is_int x ∧ is_int y ∧ (0 ≤ x)%Z ∧ (0 ≤ y)%Z.
Proof. unfold mems_set, is_int. destruct (decide _); lia. Qed.

Section Limits.
Context (name : string) (Hname : short name).

Lemma cpuset_short file : String.length file ≤ 13 → String.length (cpuset_file name file) < BUF_SIZE.
Proof.
  intros H. unfold cpuset_file. rewrite !str_length_app. change (String.length cpuset_cgroup_directory_prefix) with 30.
  unfold short, BUF_SIZE in *. lia.
Qed.

Lemma set_cpuset_total (Q : Z → gmap Z file → gset string → list note → Prop) cpu_start cpu_end numa_start numa_end F d l :
  is_int cpu_start → is_int cpu_end → is_int numa_start → is_int numa_end →
  (∀ r l', (r = 0 ∧ l' = l ++ [Wrote (cpuset_file name "/cpuset.cpus") (range_text (cpus_set cpu_start cpu_end));
      Wrote (cpuset_file name "/cpuset.mems") (range_text (mems_set numa_start numa_end))] ∨ r = -1)%Z → Q r F d l') →
  total Q (observe (set_cpuset_cgroup name cpu_start cpu_end numa_start numa_end)) F d l.
Proof.
  intros H1 H2 H3 H4 HQ. unfold set_cpuset_cgroup.
  assert (Hroot : String.length (cpuset_cgroup_directory_prefix +:+ name) < BUF_SIZE).
  { pose proof (cpuset_short "" ltac:(cbn; lia)) as H. unfold cpuset_file in H. rewrite str_length_app in H. lia. }
  rewrite (sprintf_short _ Hroot). apply total_mret.
  assert (Ec : (if ((cpu_start <? 0) || (cpu_end <? 0) || (cpu_end <? cpu_start))%Z then (0, DEFAULT_CPU_COUNT - 1)%Z else (cpu_start, cpu_end)) = cpus_set cpu_start cpu_end).
  { unfold cpus_set. destruct (decide _), (Z.ltb_spec cpu_start 0), (Z.ltb_spec cpu_end 0), (Z.ltb_spec cpu_end cpu_start); cbn; try lia; done. }
  assert (Em : (if ((numa_start <? 0) || (numa_end <? 0) || (numa_start <? numa_end))%Z then (0, DEFAULT_NUMA_COUNT - 1)%Z else (numa_start, numa_end)) = mems_set numa_start numa_end).
  { unfold mems_set. destruct (decide _), (Z.ltb_spec numa_start 0), (Z.ltb_spec numa_end 0), (Z.ltb_spec numa_start numa_end); cbn; try lia; done. }
  rewrite Ec, Em. pose proof (cpus_set_ok _ _ H1 H2) as Hc. pose proof (mems_set_ok _ _ H3 H4) as Hm.
  destruct (cpus_set cpu_start cpu_end) as [ca cb], (mems_set numa_start numa_end) as [ma mb]. destruct Hc as (? & ? & ? & ?), Hm as (? & ? & ? & ?).
  eapply total_bind; [intros r F' d' l' Hx; exact Hx|]. unfold set_cpu_number_cpuset. rewrite (sprintf_short (_ +:+ "/cpuset.cpus")) by (apply (cpuset_short "/cpuset.cpus"); cbn; lia).
  apply total_mret. eapply write_text_total; [by apply sprintf_short, range_short| |apply t_ret, HQ; by right].
  change (0 <? 0)%Z with false. cbv iota. eapply total_bind; [intros r F' d' l' Hx; exact Hx|]. unfold set_numa_cpuset.
  rewrite (sprintf_short (_ +:+ "/cpuset.mems")) by (apply (cpuset_short "/cpuset.mems"); cbn; lia).
  apply total_mret. eapply write_text_total; [by apply sprintf_short, range_short| |apply t_ret, HQ; by right].
  apply t_ret, HQ. left. split; [done|]. by rewrite <- app_assoc.
Qed.
End Limits.

(** What the cpuset of a container is set to.  Every run of [set_cpuset_cgroup]
    ends, with 0 or -1; with 0 it has written the range of processors as asked if it
    is one, else all of them, and then the memory nodes: there the comparison is the
    wrong way round, so that a range of several nodes is replaced by 0-1 and a
    reversed one is passed on. *)
Theorem cpuset_ranges p name cpu_start cpu_end numa_start numa_end F d l :
  short name → is_int cpu_start → is_int cpu_end → is_int numa_start → is_int numa_end →
  always p (set_cpuset_cgroup name cpu_start cpu_end numa_start numa_end) F d l (λ r F' d' l', F' = F ∧ d' = d ∧
    (r = 0 ∧ l' = l ++ [Wrote (cpuset_file name "/cpuset.cpus") (range_text (cpus_set cpu_start cpu_end));
      Wrote (cpuset_file name "/cpuset.mems") (range_text (mems_set numa_start numa_end))] ∨ r = -1)%Z).
Proof. intros Hn H1 H2 H3 H4. by apply total_sound, set_cpuset_total. Qed.

Lemma cpuset_ranges_witness : always 1 (set_cpuset_cgroup "faas" 2 5 2 3) ∅ ∅ [] (λ r _ _ l',
  (r = 0 ∧ l' = [Wrote "/sys/fs/cgroup/cpuset/mitosis/faas/cpuset.cpus" (str_bytes "2-5"); Wrote "/sys/fs/cgroup/cpuset/mitosis/faas/cpuset.mems" (str_bytes "0-1")]
   ∨ r = -1)%Z).
Proof.
  destruct (cpuset_ranges 1 "faas" 2 5 2 3 ∅ ∅ []) as [H1 H2]; [unfold short; cbn; lia|done|done|done|done|].
  split; [exact H1|]. intros s Hs. destruct (H2 s Hs) as [(r & F' & d' & l' & -> & _ & _ & H)|H]; [left; by exists r, F', d', l'|by right].
Defined.

(** ** Templates *)
Section Templates.
Context (name : string) (Hname : short name).

Lemma template_short : Forall (λ prefix, String.length (prefix +:+ name) < BUF_SIZE) cgroup_directory_prefix.
Proof.
  apply Forall_forall. intros prefix Hp%prefix_length. rewrite str_length_app. unfold short, BUF_SIZE in *. lia.
Qed.

Lemma pretty_long_length x : (0 ≤ x < 2 ^ 63)%Z → String.length (pretty x) ≤ 19.
Proof.
  intros Hx. destruct x as [|x|x]; [cbn; lia| |lia]. change (String.length (pretty (N.pos x)) ≤ 19). unfold pretty, pretty_N.
  rewrite decide_False by done. etrans; [apply (pretty_N_go_length 19)|cbn; lia]. change (N.of_nat 19) with 19%N. lia.
Qed.

Lemma set_memory_total (Q : Z → gmap Z file → gset string → list note → Prop) mb F d l :
  (mb * 1024 * 1024 < 2 ^ 63)%Z → (∀ r l', Q r F d l') → total Q (observe (set_memory_cgroup name mb)) F d l.
Proof.
  intros Hmb HQ. unfold set_memory_cgroup. destruct (Z.leb_spec mb 0) as [|H0]; [apply t_ret, HQ|].
  assert (Hl : String.length (memory_cgroup_directory_prefix +:+ name) ≤ 230).
  { rewrite str_length_app. change (String.length memory_cgroup_directory_prefix) with 30. unfold short in Hname. lia. }
  rewrite sprintf_short by (unfold BUF_SIZE; lia). apply total_mret. cbv zeta. rewrite (proj2 (Z.ltb_lt _ _) Hmb).
  unfold write_memory_limit. pose proof (pretty_long_length (mb * 1024 * 1024) ltac:(lia)).
  rewrite (sprintf_short (pretty _)) by (unfold BUF_SIZE; lia). apply total_mret.
  rewrite sprintf_short. 2: { rewrite str_length_app. unfold BUF_SIZE. cbn [String.length]. lia. }
  apply total_mret. eapply write_text_total; [done|apply HQ|apply HQ].
Qed.

Definition spec_ok (spec : ContainerSpec) : Prop :=
  is_int (cpu_start spec) ∧ is_int (cpu_end spec) ∧ is_int (numa_start spec) ∧ is_int (numa_end spec) ∧ (memory_in_mb spec * 1024 * 1024 < 2 ^ 63)%Z.

Lemma add_template_total (Q : Z → gmap Z file → gset string → list note → Prop) spec F d l : spec_ok spec →
  (∀ r d' l', d ⊆ d' → d' ⊆ d ∪ group_dirs cgroup_directory_prefix name → (r = 0 ∧ group_dirs cgroup_directory_prefix name ⊆ d' ∨ r = -1)%Z → Q r F d' l') →
  total Q (observe (add_lean_container_template name spec)) F d l.
Proof.
  intros (H1 & H2 & H3 & H4 & H5) HQ. unfold add_lean_container_template. eapply total_bind; [intros r F' d' l' Hx; exact Hx|].
  apply mkdir_loop_total; [apply template_short|]. intros r d' Hd1 Hd2 [[-> Hd3]| ->]; [|apply t_ret, HQ; [done|done|by right]].
  change (0 <? 0)%Z with false. cbv iota. eapply total_bind; [intros r F' d'' l' Hx; exact Hx|]. apply set_cpuset_total; try done.
  intros r l1 _. eapply total_bind; [intros r' F' d'' l' Hx; exact Hx|]. apply set_memory_total; [done|]. intros r2 l2.
  apply t_ret, HQ; [done|done|by left].
Qed.
End Templates.

(** A template that is added and removed again *)
Definition template_cycle (name : string) (spec : ContainerSpec) : code Z :=
  r ← add_lean_container_template name spec;
  if (r <? 0)%Z then mret r else remove_lean_container_template name.

(** Adding a template and removing it.  Every run ends; when adding succeeds, all
    eleven directories exist afterwards and no others have been made or removed; when
    removing succeeds as well, exactly the directories of the container are gone. *)
Theorem template_lifecycle p name spec F d l : short name → spec_ok spec →
  let groups := group_dirs cgroup_directory_prefix name in
  always p (add_lean_container_template name spec) F d l (λ r _ d' _, d ⊆ d' ∧ d' ⊆ d ∪ groups ∧ (r = 0 ∧ groups ⊆ d' ∨ r = -1)%Z) ∧
  always p (template_cycle name spec) F d l (λ r _ d' _, d ∖ groups ⊆ d' ∧ (r = 0%Z → d' = d ∖ groups)).
Proof.
  intros Hn Hs groups. split; apply total_sound.
  - by apply add_template_total.
  - unfold template_cycle. eapply total_bind; [intros r F' d' l' Hx; exact Hx|]. apply add_template_total; [done|done|].
    fold groups. intros r d' l' H1 H2 [[-> H3]| ->]; [|apply t_ret; split; [set_solver|done]].
    change (0 <? 0)%Z with false. cbv iota. apply rmdir_loop_total; [by apply template_short|]. fold groups.
    assert (Hd : d' ∖ groups = d ∖ groups) by set_solver.
    intros r d2 [[-> ->]|(-> & H4 & H5)]; [by rewrite Hd|]. rewrite Hd in H4. split; [done|lia].
Qed.

Definition ref_spec : ContainerSpec := mkContainerSpec 0 3 128 0 0.

Lemma template_lifecycle_witness : let groups := group_dirs cgroup_directory_prefix "faas" in
  always 1 (template_cycle "faas" ref_spec) ∅ {["/sys/fs/cgroup/cpuset/mitosis/faas"]} [] (λ r _ d' _,
    {["/sys/fs/cgroup/cpuset/mitosis/faas"]} ∖ groups ⊆ d' ∧ (r = 0%Z → d' = {["/sys/fs/cgroup/cpuset/mitosis/faas"]} ∖ groups)).
Proof.
  apply (template_lifecycle 1 "faas" ref_spec ∅ {["/sys/fs/cgroup/cpuset/mitosis/faas"]} []); [unfold short; cbn; lia|by repeat split].
Defined.

(** ** What goes unnoticed *)
Definition returned_code (s : os Z) (q r : Z) : bool :=
  match procs s !! q with Some (mkProc (Run (RetF r')) _ _) => bool_decide (r' = r) | _ => false end.

Lemma returned_code_ok s q r : returned_code s q r = true → p_status <$> procs s !! q = Some (Run (RetF r)).
Proof.
  unfold returned_code. destruct (procs s !! q) as [[[t| | | | |] fds pa]|]; try done. destruct t as [r'|t|X e k]; try done.
  by intros ->%bool_decide_eq_true.
Qed.

Definition reaches_code (t : code Z) (sched : list (Z * choice)) (check : os Z → bool) : bool :=
  match runs sched (boot 1 t ∅ ∅) with Some s => check s | None => false end.

Lemma reaches_code_ok t sched check : reaches_code t sched check = true → ∃ s, reaches (boot 1 t ∅ ∅) s ∧ check s = true.
Proof.
  unfold reaches_code. destruct (runs sched (boot 1 t ∅ ∅)) as [s|] eqn:E; [|done]. intros H. exists s. split; [by exists sched|done].
Qed.

(** Limits that cannot be set are dropped in silence:
    [add_lean_container_template] returns 0 although no limit has been written. *)
Theorem template_without_limits : ∃ s, reaches (boot 1 (add_lean_container_template "faas" ref_spec) ∅ ∅) s ∧
  p_status <$> procs s !! 1%Z = Some (Run (RetF 0%Z)) ∧ log s = [].
Proof.
  assert (H : reaches_code (add_lean_container_template "faas" ref_spec) (times 11 [(1, yes 0)]%Z ++ [(1, no); (1, no)]%Z)
    (λ s, returned_code s 1 0 && (length (log s) =? 0)) = true) by (vm_compute; exact eq_refl).
  apply reaches_code_ok in H as (s & Hr & [H1%returned_code_ok H2%Nat.eqb_eq]%andb_true_iff). exists s. split_and!; [done|done|].
  by apply length_zero_iff_nil in H2.
Qed.

(** [pause_container] reports success without a frozen container: it ignores that
    [wait_until] has failed to read the state of the freezer. *)
Theorem pause_without_freeze junk : ∃ s, reaches (boot 1 (pause_container junk "faas") ∅ ∅) s ∧
  p_status <$> procs s !! 1%Z = Some (Run (RetF 0%Z)).
Proof.
  assert (H : reaches_code (pause_container junk "faas") [(1, yes 3); (1, yes 0); (1, yes 0); (1, no)]%Z (λ s, returned_code s 1 0) = true)
    by (vm_compute; exact eq_refl).
  apply reaches_code_ok in H as (s & Hr & H1%returned_code_ok). by exists s.
Qed.
