(* ===== verification/StartContainer.v ===== *)
(** * The tool that starts a container ([lib/cli/start_lean_container.c])

    [main] of the command-line tool: it sets up the control groups and a template,
    launches a process in the container, lets that execute a command, and cleans
    up.  The theorems say where the command runs whatever fails, and what the
    tool does to other processes when no namespace could be set up. *)

From stdpp Require Import pretty strings.
From ITree Require Import ITree.
From S2P Require Import Prelude LeanContainer ContainerOs LeanFork LeanCgroup.

Definition MAX_COMMAND_LENGTH : nat := 256.

(** [execve_argv[argv_index] = argv[i]] as long as there are arguments and room *)
Fixpoint copy_args (args : list string) (room : nat) : list string :=
  match args, room with
  | a :: args, S room => a :: copy_args args room
  | _, _ => []
  end.

Definition execve_envp : list string := ["PATH=/usr/local/sbin:/usr/local/bin:/usr/sbin:/usr/bin:/sbin:/bin"].

Definition unlimited : ContainerSpec := mkContainerSpec (-1) (-1) (-1) (-1) (-1).

Definition c_assert (b : bool) : code () := if b then mret () else noreturn AssertFail.

(** [clean:] *)
Definition clean (cached_namespace : Z) (name rootfs_path : string) : code Z :=
  ret ← remove_cached_namespace cached_namespace (Some rootfs_path);
  _ ← c_assert (ret =? 0)%Z;
  ret ← remove_lean_container_template name;
  _ ← c_assert (ret =? 0)%Z;
  ret ← deinit_cgroup;
  _ ← c_assert (ret =? 0)%Z;
  mret 0%Z.

(** [unset] is what an [int] that was never written holds, [junk] what the array
    in [get_container_state] holds.  What is printed, with the [getpid] for it,
    is left out. *)
Definition start_main (unset : Z) (junk : list Z) (argv : list string) : code Z :=
  match argv with
  | _ :: name :: rootfs_path :: command :: _ =>
      let execve_argv := copy_args (drop 3 argv) MAX_COMMAND_LENGTH in
      (* [execve_argv[argv_index] = NULL] *)
      if (MAX_COMMAND_LENGTH <=? length execve_argv)%nat then noreturn Undefined else
      ret ← sys Prctl;
      _ ← c_assert (ret =? 0)%Z;
      ret ← init_cgroup;
      _ ← c_assert (ret =? 0)%Z;
      ret ← add_lean_container_template name unlimited;
      _ ← c_assert (ret =? 0)%Z;
      cached ← setup_cached_namespace (Some rootfs_path);
      let cached_namespace := default unset cached in
      launched ← setup_lean_container_w_double_fork name rootfs_path cached_namespace;
      let pid := default unset launched in
      if (pid <? 0)%Z then clean cached_namespace name rootfs_path
      else if (pid =? 0)%Z then
        _ ← sys (Execve command execve_argv execve_envp);
        noreturn AssertFail
      else
        _ ← pause_container junk name;
        _ ← unpause_container junk name;
        _ ← sys (Waitpid pid);
        clean cached_namespace name rootfs_path
  | _ => mret (-1)%Z
  end.

(** ** Code that leaves the descriptors as they are *)
Section Quiet.
Context {es : ExecSpec}.

Definition quiet {A} (t : code A) : Prop :=
  ∀ (Q : Z → A → gmap Z file → world → Prop) p F w, (∀ r w', le p w w' → Q p r F w') → safe Q p t F w.

Lemma quiet_mret {A} (x : A) : quiet (mret x).
Proof. intros Q p F w HQ. apply safe_ret, HQ, le_refl. Qed.

Lemma quiet_seq {A B} (t : code A) (k : A → code B) : quiet t → (∀ x, quiet (k x)) → quiet (t ≫= k).
Proof.
  intros Ht Hk Q p F w HQ. apply safe_bind, Ht. intros x w' Hle. apply Hk. intros r w2 Hle2. apply HQ. by eapply le_trans.
Qed.

Lemma quiet_assert b : quiet (c_assert b).
Proof. destruct b; [apply quiet_mret|]. intros Q p F w _. apply safe_assert. Qed.

Lemma quiet_if {A} (b : bool) (t1 t2 : code A) : quiet t1 → quiet t2 → quiet (if b then t1 else t2).
Proof. by destruct b. Qed.

(** A call whose result may be anything *)
Lemma quiet_mkdir path : quiet (sys (Mkdir path)).
Proof. intros Q p F w HQ [|[|n]]; [done..|]. intros x. apply HQ, le_refl. Qed.
Lemma quiet_rmdir path : quiet (sys (Rmdir path)).
Proof. intros Q p F w HQ [|[|n]]; [done..|]. intros x. apply HQ, le_refl. Qed.
Lemma quiet_umount2 path : quiet (sys (Umount2 path)).
Proof. intros Q p F w HQ [|[|n]]; [done..|]. intros x. apply HQ, le_refl. Qed.
Lemma quiet_kill pid : quiet (sys (Kill pid)).
Proof. intros Q p F w HQ [|[|n]]; [done..|]. intros x. apply HQ, le_refl. Qed.
Lemma quiet_waitpid pid : quiet (sys (Waitpid pid)).
Proof. intros Q p F w HQ [|[|n]]; [done..|]. intros x. apply HQ, le_refl. Qed.
Lemma quiet_prctl : quiet (sys Prctl).
Proof. intros Q p F w HQ [|[|n]]; [done..|]. intros x. apply HQ, le_refl. Qed.

Lemma quiet_sprintf {A} str (k : string → code A) : String.length str < BUF_SIZE → quiet (k str) → quiet (sprintf str ≫= k).
Proof. intros H Hk. by rewrite (sprintf_short _ H). Qed.

Lemma quiet_write_text path text : quiet (write_text path (mret text)).
Proof.
  intros Q p F w HQ. apply write_text_safe; [|apply HQ, le_refl]. intros w' Hle. apply HQ. eapply le_trans; [exact Hle|by apply le_noted].
Qed.
End Quiet.
Create HintDb quiet_code discriminated.
#[export] Hint Resolve quiet_mret quiet_seq quiet_assert quiet_if quiet_mkdir quiet_rmdir quiet_umount2 quiet_kill quiet_waitpid quiet_prctl quiet_write_text : quiet_code.

(** ** The parts of the library that [main] calls *)
Ltac bounds := unfold is_int, DEFAULT_CPU_COUNT, DEFAULT_NUMA_COUNT; first [assumption | lia | by apply (bool_decide_unpack _)].

Section Library.
Context {es : ExecSpec}.

Lemma quiet_mkdir_loop prefixes n : short n → Forall (λ prefix, String.length prefix ≤ 40) prefixes → quiet (mkdir_loop prefixes n).
Proof.
  intros Hn. induction 1 as [|prefix prefixes Hp _ IH]; cbn [mkdir_loop]; [apply quiet_mret|].
  apply quiet_sprintf; [rewrite str_length_app; unfold short, BUF_SIZE in *; lia|].
  apply quiet_seq; [apply quiet_mkdir|]. intros [ret e]. auto with quiet_code.
Qed.

Lemma quiet_rmdir_loop prefixes n : short n → Forall (λ prefix, String.length prefix ≤ 40) prefixes → quiet (rmdir_loop prefixes n).
Proof.
  intros Hn. induction 1 as [|prefix prefixes Hp _ IH]; cbn [rmdir_loop]; [apply quiet_mret|].
  apply quiet_sprintf; [rewrite str_length_app; unfold short, BUF_SIZE in *; lia|].
  apply quiet_seq; [apply quiet_rmdir|]. intros [ret e]. auto with quiet_code.
Qed.

Lemma groups_short : Forall (λ prefix, String.length prefix ≤ 40) cgroup_directory_prefix.
Proof. apply Forall_forall, prefix_length. Qed.

Lemma empty_short : short "".
Proof. unfold short. cbn. lia. Qed.

(** A range written below a directory of the cpuset group *)
Lemma quiet_range root file a b : String.length root ≤ 230 → String.length file ≤ 13 → is_int a → is_int b → (0 ≤ a)%Z → (0 ≤ b)%Z →
  quiet (path_buf ← sprintf (root +:+ file); write_text path_buf (sprintf (pretty a +:+ "-" +:+ pretty b))).
Proof.
  intros Hr Hf H1 H2 H3 H4. apply quiet_sprintf; [rewrite str_length_app; unfold BUF_SIZE; lia|].
  rewrite (sprintf_short (pretty a +:+ "-" +:+ pretty b)) by (by apply range_short). apply quiet_write_text.
Qed.

Lemma quiet_init_cgroup : quiet init_cgroup.
Proof.
  apply quiet_seq; [apply quiet_mkdir_loop; [apply empty_short|apply groups_short]|]. intros r. apply quiet_if; [apply quiet_mret|].
  apply quiet_seq; [|intros; apply quiet_mret]. unfold set_mitosis_root_cpuset.
  apply quiet_sprintf; [unfold BUF_SIZE; vm_compute; lia|].
  apply quiet_seq; [apply (quiet_range _ "/cpuset.mems"); bounds|]. intros ret.
  apply quiet_if; [apply quiet_mret|].
  apply quiet_seq; [apply (quiet_range _ "/cpuset.cpus"); bounds|]. auto with quiet_code.
Qed.

Context (name : string) (Hname : short name).

Lemma quiet_add_template : quiet (add_lean_container_template name unlimited).
Proof.
  apply quiet_seq; [apply quiet_mkdir_loop; [exact Hname|apply groups_short]|]. intros r. apply quiet_if; [apply quiet_mret|].
  assert (Hroot : String.length (cpuset_cgroup_directory_prefix +:+ name) ≤ 230).
  { rewrite str_length_app. change (String.length cpuset_cgroup_directory_prefix) with 30. unfold short in Hname. lia. }
  apply quiet_seq; [|intros; apply quiet_seq; [exact (quiet_mret 0%Z)|auto with quiet_code]]. unfold set_cpuset_cgroup.
  apply quiet_sprintf; [unfold BUF_SIZE; lia|]. cbn [unlimited cpu_start cpu_end numa_start numa_end].
  apply quiet_seq; [apply (quiet_range _ "/cpuset.cpus"); bounds|]. intros ret.
  apply quiet_if; [apply quiet_mret|].
  apply quiet_seq; [apply (quiet_range _ "/cpuset.mems"); bounds|]. auto with quiet_code.
Qed.

Lemma quiet_clean namespace rootfs : short rootfs → quiet (clean namespace name rootfs).
Proof.
  intros Hr. unfold clean, remove_cached_namespace, remove_lean_container_template, deinit_cgroup.
  apply quiet_seq; [apply quiet_seq; [|intros; apply quiet_kill]; apply quiet_sprintf;
    [rewrite str_length_app; unfold short, BUF_SIZE in *; cbn; lia|apply quiet_umount2]|]. intros r1.
  apply quiet_seq; [apply quiet_assert|]. intros _.
  apply quiet_seq; [apply quiet_rmdir_loop; [exact Hname|apply groups_short]|]. intros r2.
  apply quiet_seq; [apply quiet_assert|]. intros _.
  apply quiet_seq; [apply quiet_rmdir_loop; [apply empty_short|apply groups_short]|]. auto with quiet_code.
Qed.

(** *** The freezer *)
Lemma quiet_freezer_file : quiet (freezer_file name).
Proof.
  unfold short in Hname. assert (Hl : String.length (freezer_cgroup_directory_prefix +:+ name) ≤ 231).
  { rewrite str_length_app. change (String.length freezer_cgroup_directory_prefix) with 31. lia. }
  apply quiet_sprintf; [unfold BUF_SIZE; lia|]. rewrite sprintf_short; [apply quiet_mret|].
  rewrite str_length_app. unfold BUF_SIZE. cbn [String.length]. lia.
Qed.

(** Reading a file *)
Lemma safe_read_file {R} (Q : Z → R → gmap Z file → world → Prop) fd len path k p F w : F !! fd = Some (File path) →
  (∀ x, safe Q p (k x) F w) → safe Q p (sys (Read fd len) ≫= k) F w.
Proof. intros Hfd H [|n]; [done|]. cbn. rewrite Hfd. split; [intros data; exact (H _ n)|exact (H _ n)]. Qed.

Lemma quiet_get_state junk : quiet (get_container_state junk name).
Proof.
  apply quiet_seq; [apply quiet_freezer_file|]. intros path Q p F w HQ.
  apply safe_open; [|apply safe_ret, HQ, le_refl]. intros fd Hfd Hnew. rewrite (proj2 (Z.ltb_ge _ _) Hfd).
  eapply safe_read_file; [apply lookup_insert_eq|]. intros [ret data]. eapply safe_close; [apply lookup_insert_eq|].
  rewrite delete_insert_id by done. destruct (ret <=? 0)%Z; apply safe_ret, HQ, le_refl.
Qed.

(** A loop of quiet code: each round costs a step, so that it is safe however
    long it runs. *)
Lemma quiet_iter {A B} (body : A → code (A + B)) x : (∀ x, quiet (body x)) → quiet (ITree.iter body x).
Proof.
  intros Hb Q p F w HQ n. revert x w HQ. induction n as [n IH] using lt_wf_ind. intros x w HQ.
  change (observe (ITree.iter body x)) with
    (observe (ITree.bind (body x) (λ r, match r with inl y => Tau (ITree.iter body y) | inr b => go (RetF b) end))).
  refine (wp_bind (λ q r F' w', q = p ∧ F' = F ∧ le p w w') Q _ n p (body x) F w _ (Hb x _ p F w _ n)); [|by intros].
  intros m q r F' w' Hm (-> & -> & Hle). destruct m as [|m]; [done|]. destruct r as [y|b]; [|by apply HQ].
  apply (IH m); [lia|]. intros r w2 Hle2. apply HQ. by eapply le_trans.
Qed.

Lemma quiet_set_freezer junk word expected : quiet (set_freezer junk name word expected).
Proof.
  apply quiet_seq; [apply quiet_freezer_file|]. intros path. apply quiet_seq; [apply quiet_write_text|]. intros r.
  apply quiet_if; [apply quiet_mret|]. apply quiet_seq; [|auto with quiet_code]. apply quiet_iter. intros [].
  apply quiet_seq; [apply quiet_get_state|auto with quiet_code].
Qed.
End Library.

(** ** Where the command runs *)
Lemma safe_seq {A R} {es : ExecSpec} (Q1 : Z → A → gmap Z file → world → Prop) (Q : Z → R → gmap Z file → world → Prop)
    (t : code A) (k : A → code R) p F w :
  (∀ p r F w, Q1 p r F w → safe Q p (k r) F w) → safe Q1 p t F w → safe Q p (t ≫= k) F w.
Proof. intros Hk H n. eapply wp_bind; [|exact (H n)]. intros m q r F' w' _ H1. exact (Hk q r F' w' H1 m). Qed.

(** Quiet code first *)
Lemma safe_quiet {A R} {es : ExecSpec} (Q : Z → R → gmap Z file → world → Prop) (t : code A) (k : A → code R) p F w :
  quiet t → (∀ r w', le p w w' → safe Q p (k r) F w') → safe Q p (t ≫= k) F w.
Proof. intros Ht Hk. apply safe_bind, Ht. exact Hk. Qed.

Lemma safe_execve {R} {es : ExecSpec} (Q : Z → R → gmap Z file → world → Prop) path argv envp k p F w :
  (∀ w', le p w w' → may_exec p path argv envp (w_log w')) → safe Q p (k (-1)%Z) F w → safe Q p (sys (Execve path argv envp) ≫= k) F w.
Proof. intros H1 H2 [|n]; [done|]. split; [exact H1|exact (H2 n)]. Qed.

Lemma copy_args_take args room : copy_args args room = take room args.
Proof. revert room. induction args as [|a args IH]; intros [|room]; cbn; [done..|]. by rewrite IH. Qed.

Section Main.
Context (name rootfs command : string) (opts : list string) (unset : Z) (junk : list Z).
Context (Hname : short name) (Hrootfs : short rootfs) (Hopts : length opts < 255) (Hunset : is_int unset).

(** The command may be executed by a process of the container. *)
Definition in_container : ExecSpec := λ q path argv envp l,
  path = command ∧ argv = command :: opts ∧ envp = execve_envp ∧ in_groups name q l.

Lemma after_launch_safe namespace pid p F w : (pid = 0%Z → in_groups name p (w_log w)) →
  safe (es := in_container) (λ _ _ _ _, True) p
    (if (pid <? 0)%Z then clean namespace name rootfs
     else if (pid =? 0)%Z then _ ← sys (Execve command (command :: opts) execve_envp); noreturn AssertFail
     else _ ← pause_container junk name; _ ← unpause_container junk name; _ ← sys (Waitpid pid); clean namespace name rootfs) F w.
Proof.
  intros Hin. assert (Hclean : ∀ w', safe (es := in_container) (λ _ _ _ _, True) p (clean namespace name rootfs) F w').
  { intros w'. by apply quiet_clean. }
  destruct (pid <? 0)%Z; [apply Hclean|]. destruct (Z.eqb_spec pid 0) as [H0|_].
  - apply (safe_execve (es := in_container)); [|apply safe_assert]. intros w' Hle. split_and!; [done..|]. eapply joined_later; [exact (le_log _ _ _ Hle)|by apply Hin].
  - apply (safe_quiet _ (pause_container junk name)); [exact (quiet_set_freezer name Hname _ _ _)|]. intros _ w1 _.
    apply (safe_quiet _ (unpause_container junk name)); [exact (quiet_set_freezer name Hname _ _ _)|]. intros _ w2 _.
    apply (safe_quiet _ (sys (Waitpid pid))); [apply quiet_waitpid|]. intros _ w3 _. apply Hclean.
Qed.

Lemma start_main_safe prog p F w :
  safe (es := in_container) (λ _ _ _ _, True) p (start_main unset junk (prog :: name :: rootfs :: command :: opts)) F w.
Proof.
  unfold start_main. cbn [drop]. rewrite copy_args_take, take_ge by (unfold MAX_COMMAND_LENGTH; cbn; lia). cbv zeta.
  rewrite (proj2 (Nat.leb_gt _ _)) by (unfold MAX_COMMAND_LENGTH; cbn; lia).
  apply safe_quiet; [apply quiet_prctl|]. intros r0 w0 _. apply safe_quiet; [apply quiet_assert|]. intros _ w1 _.
  apply safe_quiet; [apply quiet_init_cgroup|]. intros r1 w2 _. apply safe_quiet; [apply quiet_assert|]. intros _ w3 _.
  apply safe_quiet; [by apply quiet_add_template|]. intros r2 w4 _. apply safe_quiet; [apply quiet_assert|]. intros _ w5 _.
  apply safe_bind, cached_namespace_safe. intros p1 cached F1 w6 Hcached.
  assert (Hns : (default unset cached < 2 ^ 31)%Z).
  { destruct cached as [v|]; cbn; [destruct Hcached as [->|[? _]]; lia|unfold is_int in Hunset; lia]. }
  eapply safe_seq; [|by apply double_fork_safe]. intros p2 launched F2 w7 (v & -> & H0 & _). by apply after_launch_safe.
Qed.
End Main.

(** C31: Where the command runs.  With a container name and a root of at most 200
    characters each and fewer than 255 arguments (longer ones overflow the
    buffers), however the processes of [start_lean_container] are scheduled and
    whichever system calls fail, no process runs into undefined
    behaviour, and a program is only ever executed by a process that has been
    entered in all eleven control groups of the container since it was created;
    the program is the given command with the given arguments. *)
Theorem command_runs_in_container prog name rootfs command opts unset junk p F d s :
  short name → short rootfs → length opts < 255 → is_int unset →
  reaches (boot p (start_main unset junk (prog :: name :: rootfs :: command :: opts)) F d) s →
  (∀ q pr, procs s !! q = Some pr → p_status pr ≠ Broken) ∧
  (∀ l1 q path argv envp l2, log s = l1 ++ Executed q path argv envp :: l2 →
    path = command ∧ argv = command :: opts ∧ envp = execve_envp ∧ in_groups name q l1).
Proof.
  intros H1 H2 H3 H4 Hs. pose (es := in_container name command opts).
  set (t := start_main unset junk (prog :: name :: rootfs :: command :: opts)) in *.
  assert (Ht : ∀ n w, w_log w = [] → wp (es := es) (λ _ _ _ _, True) n p (observe t) F w) by (intros n w _; by apply start_main_safe). split.
  - intros q pr Hq. apply (wp_sound (es := es) (λ _ _ _ _, True) ltac:(done) p t F d s q pr Ht Hs Hq).
  - apply (wp_sound_exec (es := es) (λ _ _ _ _, True) ltac:(done) p t F d s Ht Hs).
Qed.

(** With more arguments than the array holds, the terminating null pointer is
    written behind its end before anything else is done; with fewer than three
    the tool does nothing. *)
Theorem argument_bounds unset junk argv :
  (length argv < 4 → start_main unset junk argv = mret (-1)%Z) ∧
  (259 ≤ length argv → start_main unset junk argv = noreturn Undefined).
Proof.
  split.
  - destruct argv as [|a1 [|a2 [|a3 [|a4 argv]]]]; cbn [length]; [done..|lia].
  - destruct argv as [|a1 [|a2 [|a3 [|a4 argv]]]]; cbn [length]; try lia. intros Hl. unfold start_main. cbn [drop].
    rewrite copy_args_take. cbv zeta. rewrite (proj2 (Nat.leb_le _ _)); [done|].
    rewrite length_take. unfold MAX_COMMAND_LENGTH. cbn [length]. lia.
Qed.

(** ** Runs of the tool *)
Definition ref_argv : list string := ["start"; "faas"; "/rootfs"; "/bin/sh"; "-c"; "run"].
Definition start : code Z := start_main 0 [] ref_argv.

Definition says (text : string) : choice := mkChoice true 0 0 (str_bytes text).

(** Both control group trees with their cpusets *)
Definition make_groups : list (Z * choice) := [(1, yes 0)]%Z ++ times 2 (times 11 [(1, yes 0)]%Z ++ times 2 [(1, yes 3); (1, yes 0); (1, yes 0)]%Z).

(** Process 2 forks 3, which keeps the namespaces. *)
Definition keep_namespaces : list (Z * choice) :=
  [(1, yes 3); (1, yes 2)]%Z ++ times 3 [(2, yes 0)]%Z ++ [(2, yes 3)]%Z ++ times 3 [(2, yes 0)]%Z ++ times 4 [(1, yes 0)]%Z.

(** Process 4 enters the namespaces, forks 5 and enters it in the groups. *)
Definition launch_5 : list (Z * choice) :=
  [(1, yes 3); (1, yes 4); (4, yes 0); (4, yes 5)]%Z ++ times 4 [(4, yes 7); (4, yes 0); (4, yes 0)]%Z ++ [(4, yes 5)]%Z ++
  times 11 [(4, yes 8); (4, yes 0); (4, yes 0)]%Z ++ times 6 [(4, yes 0)]%Z ++ times 7 [(5, yes 0)]%Z ++ times 4 [(1, yes 0)]%Z.

Definition freeze_and_thaw : list (Z * choice) :=
  [(1, yes 9); (1, yes 0); (1, yes 0); (1, yes 9); (1, says "FROZEN"); (1, yes 0)]%Z ++
  [(1, yes 9); (1, yes 0); (1, yes 0); (1, yes 9); (1, says "THAWED"); (1, yes 0)]%Z.

Definition good_start : list (Z * choice) :=
  make_groups ++ keep_namespaces ++ launch_5 ++ freeze_and_thaw ++ [(5, yes 0); (1, yes 0)]%Z ++ times 24 [(1, yes 0)]%Z.

Definition executed (s : os Z) : list (Z * string) := omap (λ n, match n with Executed q path _ _ => Some (q, path) | _ => None end) (log s).

Lemma executed_split s q path : (q, path) ∈ executed s → ∃ l1 argv envp l2, log s = l1 ++ Executed q path argv envp :: l2.
Proof.
  intros (n & Hn & E)%list_elem_of_omap. destruct n as [| | |q' path' argv envp]; try done. injection E as -> ->.
  apply list_elem_of_split in Hn as (l1 & l2 & E). by exists l1, argv, envp, l2.
Qed.

(** The launch succeeds: the command is executed in the container, and the tool
    waits for it, cleans up and returns 0. *)
Lemma good_start_ends : ∃ s, reaches (boot 1 start ∅ ∅) s ∧ p_status <$> procs s !! 1%Z = Some (Run (RetF 0%Z)) ∧ (5%Z, "/bin/sh") ∈ executed s.
Proof.
  assert (H : reaches_code start good_start (λ s, returned_code s 1 0 && bool_decide ((5%Z, "/bin/sh") ∈ executed s)) = true)
    by (vm_compute; exact eq_refl).
  apply reaches_code_ok in H as (s & Hr & [H1%returned_code_ok H2%bool_decide_eq_true]%andb_true_iff). by exists s.
Qed.

Lemma command_runs_in_container_witness : ∃ s l1, reaches (boot 1 start ∅ ∅) s ∧ l1 `prefix_of` log s ∧ in_groups "faas" 5 l1.
Proof.
  destruct good_start_ends as (s & Hs & _ & (l1 & argv & envp & l2 & Hl)%executed_split).
  exists s, l1. split; [exact Hs|]. split; [rewrite Hl; by apply prefix_app_r|].
  destruct (command_runs_in_container "start" "faas" "/rootfs" "/bin/sh" ["-c"; "run"] 0 [] 1 ∅ ∅ s) as [_ H];
    [unfold short; cbn; lia|unfold short; cbn; lia|cbn; lia|unfold is_int; lia|exact Hs|].
  exact (proj2 (proj2 (proj2 (H _ _ _ _ _ _ Hl)))).
Defined.

(** ** Everybody else *)

(** The tool is started on a machine where another program, process 9, runs. *)
Definition busy_machine : os Z :=
  mkOs {[1%Z := mkProc (Run (observe start)) ∅ 0; 9%Z := mkProc Foreign ∅ 0]} ∅ ∅ [].

(** No pipe can be made. *)
Definition no_pipes : list (Z * choice) := make_groups ++ [(1, no); (1, no)]%Z ++ times 24 [(1, yes 0)]%Z.

(** When no namespace can be set up, the tool kills everybody.
    [setup_cached_namespace] reports its failure as -1, which [main] does not look
    at but passes to [remove_cached_namespace] in the end: [kill(-1, SIGKILL)]
    goes to every process there is.  The tool itself reports success. *)
Theorem failed_start_kills_all : ∃ s, reaches busy_machine s ∧
  p_status <$> procs s !! 1%Z = Some (Run (RetF 0%Z)) ∧ p_status <$> procs s !! 9%Z = Some Killed.
Proof.
  assert (H : match runs no_pipes busy_machine with
    | Some s => returned_code s 1 0 && match procs s !! 9%Z with Some (mkProc Killed _ _) => true | _ => false end
    | None => false end = true) by (vm_compute; exact eq_refl).
  destruct (runs no_pipes busy_machine) as [s|] eqn:E; [|exact (match Bool.diff_false_true H with end)].
  exists s. split; [by exists no_pipes|]. clear E. apply andb_true_iff in H as [H1%returned_code_ok H2]. split; [exact H1|].
  by destruct (procs s !! 9%Z) as [[[] fds pa]|].
Qed.
