(* ===== verification/Bench.v ===== *)
(** * Counting operations ([mitosis-util])

    The reporters of the benchmark utility and the text of the numbers it prints.
    A worker counts its operations in a [ConThptReporter] that the reporting
    thread reads and resets at the same time without a lock; the theorems say
    what the reports add up to. *)

From Stdlib Require Import Ascii ZifyNat.
From stdpp Require Import pretty strings.
From S2P Require Import Prelude Future.

(** ** [pretty_print_int] ([lib.rs]) *)

(** The characters in reverse, the index of the first, and the text so far; [insert(0, c)] is [c :: s]. *)
Fixpoint group_digits (idx : nat) (rev_chars s : list ascii) : list ascii :=
  match rev_chars with
  | [] => s
  | val :: rest =>
      let s := if negb (idx =? 0) && (idx mod 3 =? 0) then ","%char :: s else s in
      group_digits (S idx) rest (val :: s)
  end.

Definition to_string (i : Z) : list ascii := String.list_ascii_of_string (pretty i).

Definition pretty_print_int (i : Z) : string :=
  String.string_of_list_ascii (group_digits 0 (reverse (to_string i)) []).

(** ** The reporters ([reporter.rs], [reporter/thpt.rs]) *)
Class BenchReporter (R States : Type) := {
  rep_start : R → outcome R;
  rep_end : R → outcome R;
  rep_report : R → outcome States;
  rep_reset : R → R }.

Record ConThptReporter := mkConThptReporter { prev : Z; next : Z }.

Definition ConThptReporter_new : ConThptReporter := mkConThptReporter 0 0.

#[export] Instance ConThptReporter_BenchReporter : BenchReporter ConThptReporter Z := {|
  rep_start := λ self, Ret self;
  rep_end := λ self, n ← u64_add (next self) 1; Ret (mkConThptReporter (prev self) n);
  rep_report := λ self, u64_sub (next self) (prev self);
  rep_reset := λ self, mkConThptReporter (next self) (next self) |}.

(** The reporters are shared with the workers: [st] holds them by address, and
    the global reporter has the addresses, in the order they were added. *)
Definition GlobalReporter_new : list nat := [].
Definition GlobalReporter_add (self : list nat) (r : nat) : list nat := self ++ [r].

Fixpoint global_report (self : list nat) (st : list ConThptReporter) (states : Z) : outcome (Z * list ConThptReporter) :=
  match self with
  | [] => Ret (states, st)
  | r :: self =>
      reporter ← unwrap (st !! r);
      n ← rep_report reporter;
      states ← u64_add states n;
      global_report self (<[r := rep_reset reporter]> st) states
  end.

Definition GlobalReporter_report (self : list nat) (st : list ConThptReporter) : outcome (Z * list ConThptReporter) :=
  global_report self st 0.

(** ** The benchmark threads ([bench.rs]) *)

(** [kthread]: what the worker calls of it *)
Class BenchThread (W : Type) := {
  should_stop : io W bool;
  thread_sleep : Z → io W ();
  yield_now : io W () }.

(** [BenchRoutine] *)
Class BenchRoutine (W B Args : Type) := {
  thread_local_init : Args → io W B;
  op : B → io W (Result () () * B);
  finalize : B → io W (Result () () * B) }.

Section Benchmark.
Context {W B Args R States : Type} {kt : KTimerApi W} {bt : BenchThread W} {br : BenchRoutine W B Args} {rp : BenchReporter R States}.

Definition YIELD_THRESHOLD : Z := 10000.
Definition YIELD_TIME_USEC : Z := 1000.

Fixpoint wait_to_exit (fuel : nat) : io W () :=
  match fuel with
  | 0 => λ _, NoFuel
  | S fuel => stop ← should_stop; if (stop : bool) then mret () else thread_sleep 1 ≫= λ _, wait_to_exit fuel
  end.

(** The loop; the reporter is the one at the context's address. *)
Fixpoint bench_loop (fuel : nat) (bench : B) (reporter : R) (counter : Z) (timer : KTimer) : io W (B * R) :=
  match fuel with
  | 0 => λ _, NoFuel
  | S fuel =>
      stop ← should_stop;
      if (stop : bool) then mret (bench, reporter) else
      reporter ← lift (rep_start reporter);
      '(result, bench) ← op bench;
      if result is Err _ then wait_to_exit fuel ≫= λ _, mret (bench, reporter) else
      reporter ← lift (rep_end reporter);
      counter ← lift (u64_add counter 1);
      '(counter, timer) ←
        (if (YIELD_THRESHOLD <? counter)%Z then
           passed ← get_passed_usec timer;
           timer ← (if (YIELD_TIME_USEC <? passed)%Z then yield_now ≫= λ _, KTimer_reset timer else mret timer);
           mret (0%Z, timer)
         else mret (counter, timer));
      bench_loop fuel bench reporter counter timer
  end.

(** [Benchmark::worker], without its messages *)
Definition bench_worker (fuel : nat) (arg : Args) (reporter : R) : io W (Z * R) :=
  bench ← thread_local_init arg;
  timer ← KTimer_new;
  '(bench, reporter) ← bench_loop fuel bench reporter 0 timer;
  '(_, _) ← finalize bench;
  mret (0%Z, reporter).
End Benchmark.

(** ** A worker and the reporting thread

    [report] and [reset] each read the counter, and the worker may count in
    between.  At [AtReset] the reporting thread has read the counter and not yet
    reset it; [lost], which the program does not have, counts the operations
    that fall there. *)
Inductive report_at := AtReport | AtReset.
Record counting := mkCounting { shared : ConThptReporter; at_ : report_at; reports : list Z; lost : Z }.

Inductive count_step : counting → counting → Prop :=
  | worker_counts r pc ns l r' : rep_end r = Ret r' →
      count_step (mkCounting r pc ns l) (mkCounting r' pc ns (match pc with AtReset => l + 1 | AtReport => l end)%Z)
  | main_reports r ns l n : rep_report r = Ret n →
      count_step (mkCounting r AtReport ns l) (mkCounting r AtReset (ns ++ [n]) l)
  | main_resets r ns l : count_step (mkCounting r AtReset ns l) (mkCounting (rep_reset r) AtReport ns l).

Definition counting_start : counting := mkCounting ConThptReporter_new AtReport [] 0.
Definition total (ns : list Z) : Z := foldr Z.add 0%Z ns.

(** ** The text of a number *)

(** What [group_digits] puts before the text it has, in reverse. *)
Fixpoint grouped (idx : nat) (cs : list ascii) : list ascii :=
  match cs with
  | [] => []
  | c :: cs => (if negb (idx =? 0) && (idx mod 3 =? 0) then [","%char] else []) ++ c :: grouped (S idx) cs
  end.

Lemma group_digits_grouped idx cs s : group_digits idx cs s = reverse (grouped idx cs) ++ s.
Proof.
  revert idx s. induction cs as [|c cs IH]; intros idx s; [done|]. cbn [group_digits grouped]. rewrite IH.
  destruct (_ && _); cbn [app]; rewrite !reverse_cons, <-!app_assoc; done.
Qed.

(** The index [idx] of a character and its place [p] in the text, from the right *)
Definition at_place (idx p : nat) : Prop :=
  (idx = 0 ∧ p = 0) ∨ (idx ≠ 0 ∧ idx mod 3 = 0 ∧ p mod 4 = 3) ∨ (idx mod 3 = 1 ∧ p mod 4 = 1) ∨ (idx mod 3 = 2 ∧ p mod 4 = 2).

Ltac mod_lia := zify; Z.to_euclidean_division_equations; lia.

Lemma at_place_next idx p :
  at_place idx p → at_place (S idx) (if negb (idx =? 0) && (idx mod 3 =? 0) then S (S p) else S p).
Proof.
  unfold at_place. intros H. destruct (Nat.eqb_spec idx 0), (Nat.eqb_spec (idx mod 3) 0); cbn [negb andb]; mod_lia.
Qed.

Lemma grouped_commas cs : ∀ idx p j c, ","%char ∉ cs → at_place idx p → grouped idx cs !! j = Some c →
  c = ","%char ↔ (p + j) mod 4 = 3.
Proof.
  induction cs as [|d cs IH]; intros idx p j c Hn Hp; [done|]. cbn [grouped].
  apply not_elem_of_cons in Hn as [Hd Hn]. pose proof (at_place_next idx p Hp) as Hp'.
  destruct (negb (idx =? 0) && (idx mod 3 =? 0)) eqn:Es; cbn [app].
  - apply andb_prop in Es as [E1 E2]. apply Nat.eqb_eq in E2. destruct (Nat.eqb_spec idx 0); [done|].
    unfold at_place in Hp. destruct j as [|[|j]]; intros Hj; cbn in Hj.
    + injection Hj as <-. split; [intros _; mod_lia|done].
    + injection Hj as <-. split; [congruence|]. intros; exfalso; mod_lia.
    + rewrite (IH _ _ _ _ Hn Hp' Hj). by replace (S (S p) + j) with (p + S (S j)) by lia.
  - destruct j as [|j]; intros Hj; cbn in Hj.
    + injection Hj as <-. split; [congruence|]. intros Hm. exfalso. apply andb_false_iff in Es. unfold at_place in Hp.
      rewrite negb_false_iff, Nat.eqb_eq, Nat.eqb_neq in Es. mod_lia.
    + rewrite (IH _ _ _ _ Hn Hp' Hj). by replace (S p + j) with (p + S j) by lia.
Qed.

Lemma grouped_digits idx cs : ","%char ∉ cs → filter (λ c, c ≠ ","%char) (grouped idx cs) = cs.
Proof.
  revert idx. induction cs as [|d cs IH]; intros idx Hn; [done|]. apply not_elem_of_cons in Hn as [Hd Hn].
  cbn [grouped]. destruct (_ && _); cbn [app].
  - rewrite filter_cons_False by tauto. rewrite filter_cons_True by congruence. by rewrite IH.
  - rewrite filter_cons_True by congruence. by rewrite IH.
Qed.

Lemma to_string_no_comma i : ","%char ∉ to_string i.
Proof.
  assert (Hgo : ∀ n s, ","%char ∉ String.list_ascii_of_string s → ","%char ∉ String.list_ascii_of_string (pretty_N_go n s)).
  { intros n. induction (N.lt_wf_0 n) as [n _ IH]. intros s Hs. destruct (decide (n = 0)%N) as [->|Hn]; [done|].
    rewrite pretty_N_go_step by lia. apply IH; [apply N.div_lt; lia|]. cbn. apply not_elem_of_cons. split; [|done].
    unfold pretty_N_char. repeat case_match; done. }
  assert (HN : ∀ n : N, ","%char ∉ String.list_ascii_of_string (pretty n)).
  { intros n. unfold pretty, pretty_N. case_decide; [cbn; set_solver|]. apply Hgo. cbn. apply not_elem_of_nil. }
  unfold to_string, pretty, pretty_Z. destruct i; [cbn; set_solver|apply HN|].
  cbn. apply not_elem_of_cons. split; [done|]. apply HN.
Qed.

(** The text of a number has a comma at every fourth place from the right, and
    nowhere else; without the commas it is the number in decimal. *)
Theorem pretty_print_int_groups i :
  let text := String.list_ascii_of_string (pretty_print_int i) in
  filter (λ c, c ≠ ","%char) text = to_string i ∧
  ∀ j c, reverse text !! j = Some c → c = ","%char ↔ j mod 4 = 3.
Proof.
  intros text. subst text. unfold pretty_print_int. rewrite String.list_ascii_of_string_of_list_ascii, group_digits_grouped, app_nil_r.
  assert (Hn : ","%char ∉ reverse (to_string i)) by (rewrite elem_of_reverse; apply to_string_no_comma). split.
  - rewrite filter_reverse, grouped_digits, reverse_involutive by done. done.
  - rewrite reverse_involutive. intros j c Hj. rewrite (grouped_commas _ 0 0 j c Hn); [done| |done]. by left.
Qed.

(** A negative number of three digits gets a comma after its sign. *)
Example pretty_print_int_sign : pretty_print_int (-123) = "-,123"%string ∧ pretty_print_int 1234567 = "1,234,567"%string.
Proof. split; vm_compute; reflexivity. Qed.

(** ** What the reports add up to *)
Definition counted (s : counting) : Prop :=
  (0 ≤ prev (shared s) ≤ next (shared s) ∧ is_u64 (next (shared s)) ∧ 0 ≤ lost s ∧
   total (reports s) + lost s = match at_ s with AtReport => prev (shared s) | AtReset => next (shared s) end)%Z.

Lemma total_app ns n : total (ns ++ [n]) = (total ns + n)%Z.
Proof. unfold total. induction ns as [|m ns IH]; simpl; [lia|]. rewrite IH. lia. Qed.

Lemma u64_checked_inv z a : u64_checked z = Ret a → a = z ∧ is_u64 z.
Proof. unfold u64_checked. case_decide; [|done]. by intros [= <-]. Qed.

Lemma count_step_counted s s' : count_step s s' → counted s → counted s'.
Proof.
  unfold counted, is_u64. intros [r pc ns l r' Hr|r ns l n Hr|r ns l] (Hp & Hn & Hl & Ht); cbn [shared at_ reports lost] in *.
  - apply bind_Ret in Hr as (n & [-> Hu]%u64_checked_inv & [= <-]). unfold is_u64 in Hu. cbn [prev next]. destruct pc; lia.
  - apply u64_checked_inv in Hr as [-> _]. rewrite total_app. lia.
  - cbn [rep_reset ConThptReporter_BenchReporter prev next]. lia.
Qed.

Lemma reachable_counted s : rtc count_step counting_start s → counted s.
Proof.
  intros H. revert s H. apply rtc_ind_r; [|intros ?? _ ? ?; by eapply count_step_counted].
  unfold counted, counting_start, is_u64; cbn; lia.
Qed.

(** Whatever the order in which a worker counts and the reporting thread reads
    and resets, the reports never add up to more than the operations counted, no
    report underflows, and what is missing from them is exactly what came since
    the last reset and what fell between a report and its reset: the latter is in
    no later report either. *)
Theorem reports_add_up s :
  rtc count_step counting_start s →
  (total (reports s) ≤ next (shared s))%Z ∧ (∃ n, rep_report (shared s) = Ret n ∧ 0 ≤ n)%Z ∧
  (at_ s = AtReport → total (reports s) + lost s + (next (shared s) - prev (shared s)) = next (shared s))%Z ∧
  (∀ s', rtc count_step s s' → (lost s ≤ lost s' ∧ total (reports s') + lost s ≤ next (shared s'))%Z).
Proof.
  intros H. pose proof (reachable_counted s H) as (Hp & Hn & Hl & Ht). split_and!.
  - destruct (at_ s); lia.
  - eexists. split; [apply u64_sub_Ret; unfold is_u64 in *; lia|lia].
  - intros Ea. rewrite Ea in Ht. lia.
  - intros s' H'. assert (lost s ≤ lost s')%Z.
    { clear -H'. induction H' as [|s1 s2 s3 Hs _ IH]; [done|]. etrans; [|exact IH]. destruct Hs as [? [] | |]; cbn; lia. }
    destruct (reachable_counted s' (transitivity H H')) as (Hp' & Hn' & Hl' & Ht'). split; [done|].
    destruct (at_ s'); lia.
Qed.

(** One operation before a report, one between it and its reset, one after: the
    two reports have two operations of the three. *)
Definition counted_late : counting := mkCounting (mkConThptReporter 3 3) AtReport [1; 1]%Z 1.

Lemma reports_add_up_witness :
  rtc count_step counting_start counted_late ∧
  (∃ n, rep_report (shared counted_late) = Ret n ∧ 0 ≤ n)%Z ∧ total (reports counted_late) = 2%Z ∧ next (shared counted_late) = 3%Z.
Proof.
  assert (H : rtc count_step counting_start counted_late).
  { unfold counting_start, ConThptReporter_new, counted_late.
    eapply rtc_l; [by eapply worker_counts|]. eapply rtc_l; [by eapply main_reports|].
    eapply rtc_l; [by eapply worker_counts|]. eapply rtc_l; [eapply main_resets|].
    eapply rtc_l; [by eapply worker_counts|]. eapply rtc_l; [by eapply main_reports|].
    eapply rtc_l; [eapply main_resets|]. apply rtc_refl. }
  split; [exact H|]. destruct (reports_add_up counted_late H) as (_ & Hr & _). done.
Defined.

(** ** The benchmark's threads end, and count what they did

    [rounds] is how often the thread is yet to be told to go on, [ops] how many
    operations the routine has done; neither is changed by what does not concern
    it. *)
Class BenchOk (W B Args : Type) {kt : KTimerApi W} {bt : BenchThread W} {br : BenchRoutine W B Args} := {
  rounds : W → nat;
  ops : W → Z;
  bench_stop_ok w : ∃ w', should_stop w = Ret (bool_decide (rounds w = 0), w') ∧ rounds w' = pred (rounds w) ∧ ops w' = ops w;
  bench_sleep_ok n w : ∃ w', thread_sleep n w = Ret ((), w') ∧ rounds w' ≤ rounds w ∧ ops w' = ops w;
  bench_yield_ok w : ∃ w', yield_now w = Ret ((), w') ∧ rounds w' ≤ rounds w ∧ ops w' = ops w;
  bench_timer_ok w : ∃ t w', KTimer_new w = Ret (t, w') ∧ rounds w' ≤ rounds w ∧ ops w' = ops w;
  bench_reset_ok t w : ∃ t' w', KTimer_reset t w = Ret (t', w') ∧ rounds w' ≤ rounds w ∧ ops w' = ops w;
  bench_passed_ok t w : ∃ p w', get_passed_usec t w = Ret (p, w') ∧ rounds w' ≤ rounds w ∧ ops w' = ops w;
  bench_init_ok arg w : ∃ b w', thread_local_init arg w = Ret (b, w') ∧ rounds w' ≤ rounds w ∧ ops w' = ops w;
  bench_op_ok b w : ∃ r b' w', op b w = Ret ((r, b'), w') ∧ rounds w' ≤ rounds w ∧
    ops w' = (match r with Ok _ => ops w + 1 | Err _ => ops w end)%Z;
  bench_finalize_ok b w : ∃ r b' w', finalize b w = Ret ((r, b'), w') ∧ rounds w' ≤ rounds w ∧ ops w' = ops w }.

Section BenchSpec.
Context {W B Args : Type} {kt : KTimerApi W} {bt : BenchThread W} {br : BenchRoutine W B Args} {bo : BenchOk W B Args}.

Lemma wait_to_exit_ok fuel w : rounds w < fuel → ∃ w', wait_to_exit fuel w = Ret ((), w') ∧ ops w' = ops w.
Proof.
  revert w. induction fuel as [|fuel IH]; intros w Hf; [lia|]. cbn [wait_to_exit].
  destruct (bench_stop_ok w) as (w1 & E1 & Hr1 & Ho1). rewrite (io_bind_run _ _ _ _ _ E1).
  case_bool_decide; [by exists w1|]. destruct (bench_sleep_ok 1 w1) as (w2 & E2 & Hr2 & Ho2).
  rewrite (io_bind_run _ _ _ _ _ E2). destruct (IH w2) as (w3 & E3 & Ho3); [lia|]. exists w3. split; [done|]. congruence.
Qed.

(** The part of a round that may give up the processor *)
Lemma bench_yield_part c timer w :
  ∃ c' t w', (if (YIELD_THRESHOLD <? c)%Z then
     passed ← get_passed_usec timer;
     timer ← (if (YIELD_TIME_USEC <? passed)%Z then yield_now ≫= λ _, KTimer_reset timer else mret timer);
     mret (0%Z, timer)
   else mret (c, timer)) w = Ret ((c', t), w') ∧ ((0 ≤ c)%Z → 0 ≤ c' ≤ YIELD_THRESHOLD)%Z ∧ rounds w' ≤ rounds w ∧ ops w' = ops w.
Proof.
  unfold YIELD_THRESHOLD. destruct (Z.ltb_spec 10000 c); [|exists c, timer, w; split_and!; [done|lia|done..]].
  destruct (bench_passed_ok timer w) as (p & w1 & E1 & Hr1 & Ho1). rewrite (io_bind_run _ _ _ _ _ E1).
  destruct (YIELD_TIME_USEC <? p)%Z; [|by exists 0%Z, timer, w1].
  destruct (bench_yield_ok w1) as (w2 & E2 & Hr2 & Ho2). destruct (bench_reset_ok timer w2) as (t & w3 & E3 & Hr3 & Ho3).
  exists 0%Z, t, w3. split_and!; [|lia|lia|congruence].
  erewrite io_bind_run; [|by rewrite (io_bind_run _ _ _ _ _ E2)]. done.
Qed.

Lemma bench_loop_ok fuel bench rep c timer w :
  rounds w < fuel → (0 ≤ c ≤ YIELD_THRESHOLD)%Z → (0 ≤ next rep)%Z → (next rep + Z.of_nat (rounds w) < 2 ^ 64)%Z →
  ∃ bench' rep' w', bench_loop fuel bench rep c timer w = Ret ((bench', rep'), w') ∧
    prev rep' = prev rep ∧ (next rep' - next rep = ops w' - ops w)%Z.
Proof.
  revert bench rep c timer w. induction fuel as [|fuel IH]; intros bench rep c timer w Hf Hc Hn Hb; [lia|]. cbn [bench_loop].
  destruct (bench_stop_ok w) as (w1 & E1 & Hr1 & Ho1). rewrite (io_bind_run _ _ _ _ _ E1).
  case_bool_decide; [exists bench, rep, w1; split_and!; [done..|lia]|]. rewrite (io_lift_run _ _ _ rep) by done.
  destruct (bench_op_ok bench w1) as (r & bench2 & w2 & E2 & Hr2 & Ho2). rewrite (io_bind_run _ _ _ _ _ E2). destruct r as [u|e].
  - assert (Hu : is_u64 (next rep + 1) ∧ is_u64 (c + 1)) by (unfold is_u64, YIELD_THRESHOLD in *; lia).
    rewrite (io_lift_run _ _ _ (mkConThptReporter (prev rep) (next rep + 1))) by (cbn [rep_end ConThptReporter_BenchReporter]; rewrite u64_add_Ret by tauto; done).
    rewrite (io_lift_run _ _ _ (c + 1)%Z) by (apply u64_add_Ret; tauto).
    destruct (bench_yield_part (c + 1) timer w2) as (c' & t & w3 & E3 & Hc3 & Hr3 & Ho3). rewrite (io_bind_run _ _ _ _ _ E3).
    destruct (IH bench2 (mkConThptReporter (prev rep) (next rep + 1)) c' t w3) as (b' & rep' & w' & E & Hp & Ho); cbn in *; [lia..|].
    exists b', rep', w'. split_and!; [exact E|done|lia].
  - destruct (wait_to_exit_ok fuel w2) as (w3 & E3 & Ho3); [lia|]. rewrite (io_bind_run _ _ _ _ _ E3).
    exists bench2, rep, w3. split_and!; [done..|lia].
Qed.

(** A benchmark thread ends when it is told to stop, also after an operation
    that failed, and has added to its reporter exactly the operations it did. *)
Theorem bench_worker_counts fuel arg rep w :
  rounds w < fuel → (0 ≤ next rep)%Z → (next rep + Z.of_nat (rounds w) < 2 ^ 64)%Z →
  ∃ rep' w', bench_worker fuel arg rep w = Ret ((0%Z, rep'), w') ∧
    prev rep' = prev rep ∧ (next rep' - next rep = ops w' - ops w)%Z.
Proof.
  intros Hf Hn Hb. unfold bench_worker. destruct (bench_init_ok arg w) as (b & w1 & E1 & Hr1 & Ho1). rewrite (io_bind_run _ _ _ _ _ E1).
  destruct (bench_timer_ok w1) as (t & w2 & E2 & Hr2 & Ho2). rewrite (io_bind_run _ _ _ _ _ E2).
  destruct (bench_loop_ok fuel b rep 0 t w2) as (b3 & rep3 & w3 & E3 & Hp & Ho3); [unfold YIELD_THRESHOLD; lia..|].
  rewrite (io_bind_run _ _ _ _ _ E3). destruct (bench_finalize_ok b3 w3) as (r & b4 & w4 & E4 & Hr4 & Ho4).
  rewrite (io_bind_run _ _ _ _ _ E4). exists rep3, w4. split_and!; [done..|lia].
Qed.
End BenchSpec.

(** ** A thread that is stopped after four rounds; its third operation fails *)
#[local] Instance bench_clock : KTimerApi (nat * Z) := {|
  KTimer := ();
  KTimer_new := λ w, Ret ((), w);
  KTimer_reset := λ _ w, Ret ((), w);
  get_passed_usec := λ _ w, Ret (0%Z, w) |}.

#[local] Instance bench_threads : BenchThread (nat * Z) := {|
  should_stop := λ w, Ret (bool_decide (w.1 = 0), (pred w.1, w.2));
  thread_sleep := λ _ w, Ret ((), w);
  yield_now := λ w, Ret ((), w) |}.

#[local] Instance bench_routine : BenchRoutine (nat * Z) nat () := {|
  thread_local_init := λ _ w, Ret (2, w);
  op := λ b w, match b with 0 => Ret ((Err (), 0), w) | S b => Ret ((Ok (), b), (w.1, w.2 + 1)%Z) end;
  finalize := λ b w, Ret ((Ok (), b), w) |}.

#[local] Instance bench_ok : BenchOk (nat * Z) nat ().
Proof.
  refine {| rounds := fst; ops := snd |}; intros; cbn; try (by repeat eexists); try (by eexists _, _).
  all: try (by eexists _, _, _). destruct b; by eexists _, _, _.
Defined.

Lemma bench_worker_counts_witness :
  ∃ rep' w', bench_worker (W := nat * Z) 5 () (mkConThptReporter 3 7) (4, 0%Z) = Ret ((0%Z, rep'), w') ∧
    prev rep' = 3%Z ∧ (next rep' - 7 = w'.2 - 0)%Z ∧ w'.2 = 2%Z.
Proof.
  destruct (bench_worker_counts (W := nat * Z) 5 () (mkConThptReporter 3 7) (4, 0%Z)) as (rep' & w' & E & Hp & Ho);
    [cbn; lia..|]. exists rep', w'. split_and!; [exact E|exact Hp|exact Ho|].
  vm_compute in E. by injection E as _ <-.
Defined.
